(* ===== verification/_CoqProject ===== *)
-Q . S2P
Prelude.v
JsNumber.v
JsString.v
Bytes.v
Types.v
AudioBuffer.v
PcmDecoder.v
Merge.v
Wav.v
Quantize.v
Chunker.v
Base64.v
Trace.v
TtsService.v
Orchestrator.v
Pipeline.v
App.v
Liveness.v
WordCount.v
Dom.v
View.v
Session.v
Async.v
EndToEnd.v
