(* ===== verification/Prelude.v ===== *)
(** * Verification of the Gemini Voice Studio audio pipeline

    ** The program

    The program (TypeScript, [src/]) turns a text into one WAV recording.
    [src/services/ttsService.ts] splits the text into chunks of words
    ([chunkText]) and, in [generateSpeech], asks the remote speech service
    for the audio of each chunk in turn, reporting its progress to a
    callback.  Every answer goes through [src/utils/audioUtils.ts]: base64 to
    bytes ([decodeBase64ToUint8Array]), bytes to float samples
    ([decodePCMToAudioBuffer]); the buffers are then concatenated
    ([mergeAudioBuffers]) and written as a 16-bit PCM WAV file
    ([audioBufferToWav], [writeString]).  [src/App.tsx] is the user
    interface: [handleGenerate] guards the request, calls [generateSpeech]
    and keeps the status shown to the user, [downloadSpeech] saves a clip,
    and the JSX the component returns decides what the user can do in each
    state; [src/types.ts] and [src/constants.tsx] declare the records and
    the limits.

    ** The model

    JavaScript values are modelled as the language defines them.  A Number
    is an IEEE 754 binary64 value and an element of a [Float32Array] a
    binary32 value, both as [spec_float] of the Standard Library, so that
    every quotient, product, comparison and rounding of the sources is
    computed bit for bit; integers of a fixed width are [Z] with the
    wrap-around written out ([wrap], [swrap]); a string is its list of
    UTF-16 code units; typed arrays and [DataView]s are lists of bytes with
    the bounds checks of their setters.  A call that may throw returns a
    [result]; code that talks to the outside world runs in the monad [io] of
    [Trace], whose log records what an observer sees.  What the browser and
    the remote service decide is a parameter: the class [AudioLimits] (the
    ranges [createBuffer] accepts, at least those the Web Audio
    specification requires), the class [SpeechService] (an oracle for the
    remote call), the class [Locale] (how dates are written) and the record
    [Env] (identifiers, clock, URLs).  The progress callback is code of the
    caller: a [Callback] says, for the number of the call and the value
    passed, whether the call returns or throws.  What the component renders
    is a tree
    of elements ([node] of [Dom]) whose handlers are the values of an
    inductive type, so that the events a page offers can be read from the
    tree.

    ** The files, in dependency order

    - [Prelude] (this file): the exceptions [exn], the error monad
      [result] with its notation and [foldM] for loops that may throw,
      [wrap]/[swrap], [splice] (a block store into an array), [div_ceil]
      (the number of turns of a strided loop), generic lemmas on lists, the
      tactic [simplify_result] and the hint databases.
    - [JsNumber]: Numbers.  [num_of_Z], [num_mul], [num_div], [num_lt],
      [Math_max], [Math_min], [Math_round], [to_float32], [of_float32],
      [ToInt16]; the normal forms [norm] and the lemmas that make the
      arithmetic of the codec exact ([num_div_pow2], [num_mul_norm],
      [to_float32_norm], [norm_compare]).
    - [JsString]: strings; [charCodeAt], [fromCharCode], [split] on white
      space ([split_ws]), [join], [slice], [trim].
    - [Bytes]: [Uint8Array], [Int16Array] and the [DataView] setters, with
      the round trip between 16-bit integers and little-endian bytes.
    - [Types]: [src/types.ts] and [src/constants.tsx].
    - [AudioBuffer]: the Web Audio buffer as a record, [createBuffer],
      [getChannelData], the stores through a channel, and the
      well-formedness [wf_buffer].
    - [PcmDecoder]: [decodePCMToAudioBuffer] (lines 30-47 of
      [audioUtils.ts]) as its two loops over a buffer created silent, and
      the reference [decoded] (de-interleaving as a map).
    - [Merge]: [mergeAudioBuffers] (lines 110-126) as its [reduce] and two
      loops of [set] calls, and the reference [merged] (concatenation).
    - [Wav]: [audioBufferToWav] and [writeString] (lines 53-105) as the
      sequence of [DataView] stores, the reference layout [wav_file], the
      reader [read_header], the conversion [float_to_pcm] of a sample, and
      the equivalence [same_file] of the buffers the encoder cannot tell
      apart, for which [audioBufferToWav] is [Proper].
    - [Quantize]: the integer of every binary32 sample in integer
      arithmetic ([quantize]), and the error of a round trip.
    - [Chunker]: [chunkText] (lines 18-25 of [ttsService.ts]) as a loop with
      fuel, and the reference [groups].
    - [Base64]: [decodeBase64ToUint8Array] and [encodeUint8ArrayToBase64]
      (lines 5-25 of [audioUtils.ts]); [atob] and [btoa] follow the HTML
      standard.
    - [Trace]: the monad [io] of computations that log events and may
      throw, its laws up to [io_equiv], and the predicate [extends].
    - [TtsService]: the request and the response as the records of the
      SDK, the optional chain of line 58 ([base64Audio]), the call of the
      callback ([notify]), [generateSpeech] (lines 30-81 of
      [ttsService.ts]) in [io], and the reference [speech_ref] defined by
      recursion on the list of chunks.
    - [Orchestrator]: the same control flow as the state machine of the
      design: the phases [phase], the step relation [orch_step], the
      function [orch_next] that computes it, and the invariant [orch_inv].
    - [Pipeline]: the composition of the four routines inside
      [generateSpeech]: the reference [speech_file], the file as a function
      of the PCM bytes the service sent ([pcms_ref]), and the payloads the
      decoder accepts ([whole_pcm]).
    - [App]: the state of the component, [wordCount], [isTooLong],
      [handleGenerate] (lines 27-68 of [App.tsx]), the setters, and the
      status over time as the labelled step relation [ui_step], in which
      the updates of several runs and of the timers interleave.
    - [Liveness]: [eventually] over the answers and the timers of
      [ui_step], and the measure [pending] that every one of them
      decreases.
    - [WordCount]: the white-space runs of a text ([runs]), which relate
      the words [wordCount] counts to the words [chunkText] cuts.
    - [Dom]: trees of elements ([node]) with the events they offer
      ([events]) and the rules React puts on them ([node_wf]); the part of
      the document [downloadSpeech] touches ([createElement],
      [appendChild], [click], [removeChild]).
    - [View]: the JSX of [App.tsx] (lines 79-295) as [render], one
      definition per part of the page with the literals of the source, and
      [downloadSpeech] (lines 70-77).
    - [Session]: the page over a sequence of inputs: [possible] reads from
      the rendered tree whether an input can happen, [react] runs the
      handler; the pages reached are [session].
    - [Async]: [handleGenerate] as the [async] function it is, cut at the
      [await] of line 45 of [ttsService.ts]: the click ([start]) and the
      answers ([answer]) are steps of [async_next] on the state, the log,
      the suspended runs with their closures ([Suspended]) and the timers,
      between which the inputs of the user, the answers to other runs and
      the timers take place.
    - [EndToEnd]: the clips of the library.  The reference [clip_of] is
      the clip of a request as a function of the state of the click, of
      the values of the browser and of the payloads of the service;
      [clip_ok] and [run_payloads] say which payloads those are, and
      [clips_inv] is the invariant of [async_next] made of them.

    ** What the theorems show

    - Refinement of every loop by a reference: [decodePCM_spec],
      [mergeAudioBuffers_spec], [audioBufferToWav_spec], [chunkText_spec],
      [decodeBase64_spec], [generateSpeech_spec].  They cover the error
      branches: the exceptions of the typed-array view, of [createBuffer],
      of [getChannelData] ([mergeAudioBuffers_missing_channel]), of [atob]
      ([decodeBase64_invalid]), of a response without audio in its first
      part ([payload_first_part]), of a chunk and of the progress callback
      ([generateSpeech_failure], [generateSpeech_throws]).
    - The state machine: every run of [generateSpeech] is a path of
      [orch_step] from [Idle] to [Done] or [Failed], which [orch_next]
      computes ([generateSpeech_orchestrated]); by rule induction, what
      holds in every configuration reached, and that [Failed] is entered
      from the loop only, by a chunk that fails or by a callback that
      throws ([orch_reachable]).
    - Invariants: decoded and merged buffers are well formed
      ([decodePCM_wf], [mergeAudioBuffers_wf]); the chunks partition the
      words ([chunkText_partition]); the statuses shown by the interface
      ([handleGenerate_accepted], [handleGenerate_rejected]); by rule
      induction, one run at a time as long as no timer fires during a run
      ([ui_one_run]).
    - Codec arithmetic: a decoded sample is worth exactly [v / 32768]
      ([decodePCM_sample]); decoding then encoding gives [v] for [v <= 0]
      and [v - 1] for [v > 0] ([float_to_pcm_decoded], [decode_encode_mono]);
      the integer stored for every binary32 sample, saturation included
      ([float_to_pcm_spec], [float_to_pcm_saturates]), and how far from the
      sample it is read back ([float_to_pcm_error]); the fields of the
      header as a reader finds them ([audioBufferToWav_header]).
    - Round trips: base64 ([base64_roundtrip]), words through chunks
      ([chunkText_roundtrip]), 16-bit integers through bytes ([Bytes]), the
      data region of a file back to the quantized samples of any
      well-formed buffer ([audioBufferToWav_samples]).
    - Orchestration: one call per chunk, in order, at least one when the
      callback returns ([generateSpeech_calls]); a callback that returns
      is advisory ([generateSpeech_advisory]) and receives increasing
      values ([generateSpeech_progress], [accepted_progress]); a callback
      that throws ends the run at that call, with the requests made so
      far in the log and nothing on the console
      ([generateSpeech_throws]).
    - Composition: the file returned is the header and the requantized
      payloads of the chunks in order ([generateSpeech_file]); a text the
      page accepts has 1 to 13 chunks although the page trims before it
      counts and the chunker does not ([accepted_progress]).
    - End to end: on every page reached, however the runs interleaved,
      every clip of the library is [clip_of] the click that started its
      run and the payloads the service sent for the chunks of its text,
      one per chunk and in order ([async_clips]); its file has 44 bytes of
      header for one channel at 24000 Hz and at least one frame
      ([clip_file]); and a download on a page of a session clicks on an
      anchor that points at that file ([session_download]).
    - The page as a typed system: the events a page offers
      ([render_events]); every page of a session renders a well-formed
      tree and keeps the document as it found it ([session_preservation]);
      no input the page offers makes a handler throw or run forever
      ([session_progress], [downloadSpeech_spec]); a click the page allows
      always reaches the service, so the guards of [handleGenerate] are
      dead once the component is mounted ([session_click_accepted]).
    - Liveness: however runs and timers interleaved, answers and timers
      bring the page back to a state with nothing pending and the button
      enabled ([ui_settles]).
    - Interleaving: the three views of a request agree.  The statuses of
      the pages [async_next] reaches are paths of [ui_step]
      ([async_statuses]); a run that nothing interrupts ends as the
      function [handleGenerate] says ([async_sequential]); and on every
      page reached the answer to a run does what [answered] says: the
      requests and the clip are made from the closure of the click, the
      fields keep what the user typed since ([async_answer]).  A user
      action is a step exactly when the rendered tree offers its handler
      ([async_offered]).  The guard of the button does not keep the runs
      apart: on every page reached with a timer pending, the timer fires,
      sets the status to [idle] whatever runs are in flight, and a click
      then suspends one more run beside them ([async_stale_timer]);
      [two_runs_in_flight] follows two such runs to their clips.
    - Termination: [chunkText_spec] and [handleGenerate_total]; and
      [chunkText_zero_diverges] for [maxWords = 0].

    ** Bounds and fuel

    - [chunk_loop] takes one unit of fuel per turn.  [chunkText] gives it
      the number of words plus one, which [chunkText_spec] shows to be
      enough for every positive [maxWords]; [None] therefore only stands
      for the loop that does not end, which [chunkText_zero_diverges] shows
      to be the case of [maxWords = 0] with any fuel.
    - The order of the progress values is proved by computation for up to
      32 chunks ([progress_ok_32]); [isTooLong] limits a request to
      [MAX_WORDS = 10000] words on the counter, at most 10002 for the
      chunker, that is 13 chunks of 800 words ([accepted_progress]).
    - [pending] counts a run in flight twice and a timer once: an answer
      may leave a timer behind.  It bounds the number of answers and
      timers that can follow a state ([settle_bound]).
    - [loop_bound] is the number of turns of [for (i = 0; i < frameCount;
      i++)] when [frameCount] is a quotient that need not be an integer; it
      is exact as long as the operands are below [2^32], the limit of an
      array length.
    - The exactness lemmas of [Wav] are stated for integers of at most 16
      bits scaled by [2^-15], the grid of the decoder.  [Quantize] covers
      every binary32 value: a mantissa of 24 bits times a factor of 15 or
      16 bits fits the 53 bits of a Number, so both products of line 95 are
      exact ([scale_sample_sample]).
    - [orch_run] takes one unit of fuel per step; [N + 5] units are enough
      for a text of [N] chunks ([generateSpeech_orchestrated]): two steps
      to the loop, one per chunk, three to [Done], and fewer to [Failed].

    ** Assumptions

    - The service answers every request, with a response or an exception
      ([SpeechService] is a function of the number of the call and the
      request), and a callback is a function of the number of its call
      and the value it receives.
    - The values of [Env] are values: [crypto.randomUUID],
      [Date.now] and [URL.createObjectURL] return, so the [catch] block
      of [handleGenerate] is entered by an exception of [generateSpeech]
      only; and [possible] of [Session] offers a click only with an
      identifier that no clip of the history has.
    - A click of a [Session] runs [handleGenerate] to its end: the pages
      of a session are the pages between two runs.  The pages during a
      run are those of [Async].
    - [ui_step] allows a progress call, a success and a failure of every
      run in flight in any order: what holds of all its paths holds of
      the paths of the code ([async_statuses]), not the converse.
    - A sample rate is an integer, and the byte rate of the header is
      computed in [Z]: the two agree for every rate [createBuffer]
      accepts.

    ** Not modelled

    Layout and styling (class names are kept as strings and not
    interpreted); the string of a width in per cent (the Number is kept);
    playback by the [audio] element; the formats of dates (an interface);
    the network, the API key, and the properties of the response that
    line 58 does not read.  The GoogleGenAI client is a library the sources
    only call: its answers are the oracle [SpeechService].  The two fields
    of [TTSService] (lines 6-13 of [ttsService.ts]) are assigned once, in
    the constructor, and only passed on: the client is that oracle, the
    audio context is the class [AudioLimits] with the sample rate
    [SAMPLE_RATE], and the reference the component keeps to the service
    is the flag [ttsServiceRef].  Object URLs are values of [Env]; nothing
    in the sources revokes them.
    [React] itself is modelled by what it does with a tree: calling the
    handler of an enabled control and rendering again; the updates of one
    piece of synchronous code are seen together, as React batches them.
    The [await] of line 64 of [ttsService.ts] resolves before any event or
    timer is handled, so an answer and the next request are one step. *)

From Stdlib Require Import ZArith Lia.
From stdpp Require Import base tactics list option numbers strings.

#[local] Open Scope Z_scope.

(** ** Exceptions and the error monad

    A JavaScript call either returns a value or throws.  The model keeps the
    exception classes that the pipeline can raise and, for [Error], the
    message the source passes to the constructor. *)

Inductive exn : Type :=
| RangeError
| InvalidCharacterError
| NotSupportedError
| IndexSizeError
| NotFoundError
| Error (msg : string).

Inductive result (A : Type) : Type :=
| Ok (a : A)
| Throw (e : exn).

Arguments Ok {A} a.
Arguments Throw {A} e.

#[export] Instance exn_eq_dec : EqDecision exn.
Proof. solve_decision. Defined.

#[export] Instance result_eq_dec A `{EqDecision A} : EqDecision (result A).
Proof. solve_decision. Defined.

#[export] Instance result_ret : MRet result := @Ok.

#[export] Instance result_bind : MBind result :=
  fun A B k r => match r with Ok a => k a | Throw e => Throw e end.

#[export] Instance result_fmap : FMap result :=
  fun A B f r => match r with Ok a => Ok (f a) | Throw e => Throw e end.

#[export] Instance result_throw : MThrow exn result := @Throw.

(** [try c catch h]: the handler sees the exception of [c]. *)
Definition try_catch {A} (c : result A) (h : exn -> result A) : result A :=
  match c with Ok a => Ok a | Throw e => h e end.

(** A missing value ([undefined], an index out of range) turned into a throw. *)
Definition of_option {A} (e : exn) (o : option A) : result A :=
  match o with Some a => Ok a | None => Throw e end.

Definition is_ok {A} (r : result A) : bool :=
  match r with Ok _ => true | Throw _ => false end.

(** The monadic left fold: a [for] loop whose body may throw. *)
Fixpoint foldM {A B} (f : B -> A -> result B) (l : list A) (b : B) : result B :=
  match l with
  | [] => Ok b
  | a :: l' => b' ← f b a; foldM f l' b'
  end.

Declare Scope js_scope.
Delimit Scope js_scope with js.
Notation "'try' c 'catch' h" := (try_catch c h)
  (at level 10, c at level 9, h at level 9) : js_scope.
Notation "'throw' e" := (mthrow (M := result) e) (at level 10, e at level 9) : js_scope.

(** ** Machine-width integers

    [wrap w z] is the value of [z] stored in an unsigned [w]-bit field
    (ECMAScript ToUint8, ToUint16, ToUint32), [swrap w z] in a signed one
    (ToInt16): both reduce modulo [2^w]. *)

Definition wrap (w : Z) (z : Z) : Z := z mod 2 ^ w.

Definition swrap (w : Z) (z : Z) : Z := (z + 2 ^ (w - 1)) mod 2 ^ w - 2 ^ (w - 1).

(** ** Arrays

    [splice l off k] is the array [l] with the elements of [k] stored from
    index [off] on: what [TypedArray.prototype.set] and the setters of a
    [DataView] do once their bounds check has passed. *)

Definition splice {A} (l : list A) (off : nat) (k : list A) : list A :=
  take off l ++ k ++ drop (off + length k) l.

(** ** Tactics *)

(** Case analysis on the scrutinee of the first [match] of the goal or of a
    hypothesis, keeping the equation. *)
Ltac destruct_match :=
  match goal with
  | |- context [match ?x with _ => _ end] => destruct x eqn:?
  | H : context [match ?x with _ => _ end] |- _ => destruct x eqn:?
  end.

(** Hint databases: [audio] for resolution, [audio_rw] for rewriting with
    the equations of the model, [audio_len] for rewriting the lengths of the
    arrays the pipeline builds. *)
Create HintDb audio discriminated.
Create Rewrite HintDb audio_rw.
Create Rewrite HintDb audio_len.

(** ** Lemmas on [result] *)

Section result_lemmas.
Context {A B : Type}.
Implicit Types (r : result A) (k : A -> result B).

Lemma bind_Ok a k : (Ok a ≫= k) = k a.
Proof. reflexivity. Qed.

Lemma bind_Throw e k : (Throw e ≫= k) = Throw e.
Proof. reflexivity. Qed.

Lemma bind_Ok_inv r k b : (r ≫= k) = Ok b -> exists a, r = Ok a /\ k a = Ok b.
Proof. destruct r; simpl; [eauto | discriminate]. Qed.

Lemma bind_Throw_inv r k e :
  (r ≫= k) = Throw e -> r = Throw e \/ exists a, r = Ok a /\ k a = Throw e.
Proof. destruct r; simpl; [eauto | intros [= ->]; auto]. Qed.

Lemma fmap_Ok_inv (f : A -> B) r b : f <$> r = Ok b -> exists a, r = Ok a /\ b = f a.
Proof. destruct r; simpl; [intros [= <-]; eauto | discriminate]. Qed.

Lemma of_option_Ok e (o : option A) a : of_option e o = Ok a <-> o = Some a.
Proof. destruct o; simpl; split; congruence. Qed.

Lemma is_ok_true r : is_ok r = true <-> exists a, r = Ok a.
Proof. destruct r; simpl; split; try done; eauto. by intros [? ?]. Qed.

End result_lemmas.

#[export] Hint Rewrite @bind_Ok @bind_Throw : audio_rw.

(** Simplify hypotheses [m ≫= k = Ok b] into their components. *)
Ltac simplify_result :=
  repeat match goal with
  | H : context [@mret result _ _ ?a] |- _ => change (@mret result _ _ a) with (Ok a) in H
  | H : context [@mthrow exn result _ _ ?e] |- _ =>
      change (@mthrow exn result _ _ e) with (@Throw _ e) in H
  | H : Ok _ = Ok _ |- _ => injection H as H; try subst
  | H : Ok _ = Throw _ |- _ => discriminate H
  | H : Throw _ = Ok _ |- _ => discriminate H
  | H : Throw _ = Throw _ |- _ => injection H as H; try subst
  | H : (_ ≫= _) = Ok _ |- _ => apply bind_Ok_inv in H as (? & ? & H)
  | H : _ <$> _ = Ok _ |- _ => apply fmap_Ok_inv in H as (? & ? & H)
  | H : of_option _ _ = Ok _ |- _ => apply of_option_Ok in H
  end.

Section foldM_lemmas.
Context {A B : Type} (f : B -> A -> result B).

Lemma foldM_app l1 l2 b : foldM f (l1 ++ l2) b = (foldM f l1 b ≫= foldM f l2).
Proof.
  revert b; induction l1 as [|a l1 IH]; intros b; simpl; [done|].
  destruct (f b a); simpl; auto.
Qed.

(** A loop whose body never throws is a pure fold. *)
Lemma foldM_pure (g : B -> A -> B) l b :
  (forall b a, a ∈ l -> f b a = Ok (g b a)) -> foldM f l b = Ok (fold_left g l b).
Proof.
  revert b; induction l as [|a l IH]; intros b Hf; simpl; [done|].
  rewrite Hf by left. simpl. apply IH. intros; apply Hf; by right.
Qed.

(** An invariant of the accumulator that every successful iteration keeps
    holds of the final accumulator. *)
Lemma foldM_invariant (P : B -> Prop) l b b' :
  (forall b a b', a ∈ l -> P b -> f b a = Ok b' -> P b') ->
  P b -> foldM f l b = Ok b' -> P b'.
Proof.
  revert b; induction l as [|a l IH]; intros b Hstep Hb; simpl.
  - by intros [= <-].
  - intros H. simplify_result. eapply IH; [| |done].
    + intros; eapply Hstep; [by right|done..].
    + eapply Hstep; [by left|done..].
Qed.

End foldM_lemmas.

(** ** Lemmas on wrap-around *)

Lemma wrap_range w z : 0 <= w -> 0 <= wrap w z < 2 ^ w.
Proof. intros. apply Z.mod_pos_bound. by apply Z.pow_pos_nonneg. Qed.

Lemma wrap_small w z : 0 <= z < 2 ^ w -> wrap w z = z.
Proof. apply Z.mod_small. Qed.

Lemma wrap_wrap w z : 0 <= w -> wrap w (wrap w z) = wrap w z.
Proof. intros. apply wrap_small, wrap_range; done. Qed.

Lemma swrap_range w z : 0 < w -> - 2 ^ (w - 1) <= swrap w z < 2 ^ (w - 1).
Proof.
  intros Hw. unfold swrap.
  assert (2 ^ w = 2 * 2 ^ (w - 1)) as Hp.
  { rewrite <- Z.pow_succ_r by lia. f_equal; lia. }
  pose proof (Z.mod_pos_bound (z + 2 ^ (w - 1)) (2 ^ w)) as Hb.
  assert (0 < 2 ^ (w - 1)) by (apply Z.pow_pos_nonneg; lia). lia.
Qed.

Lemma swrap_small w z : 0 < w -> - 2 ^ (w - 1) <= z < 2 ^ (w - 1) -> swrap w z = z.
Proof.
  intros Hw Hz. unfold swrap.
  assert (2 ^ w = 2 * 2 ^ (w - 1)) as Hp.
  { rewrite <- Z.pow_succ_r by lia. f_equal; lia. }
  rewrite Z.mod_small by lia. lia.
Qed.

(** The signed and the unsigned reading of a field agree modulo [2^w]. *)
Lemma wrap_swrap w z : 0 < w -> wrap w (swrap w z) = wrap w z.
Proof.
  intros Hw. unfold wrap, swrap.
  assert (2 ^ w = 2 * 2 ^ (w - 1)) as Hp.
  { rewrite <- Z.pow_succ_r by lia. f_equal; lia. }
  assert (0 < 2 ^ (w - 1)) by (apply Z.pow_pos_nonneg; lia).
  rewrite Zminus_mod, Zmod_mod, <- Zminus_mod. f_equal. lia.
Qed.

Lemma swrap_wrap w z : 0 < w -> swrap w (wrap w z) = swrap w z.
Proof.
  intros Hw. unfold wrap, swrap. f_equal.
  assert (0 < 2 ^ w) by (apply Z.pow_pos_nonneg; lia).
  rewrite Zplus_mod, Zmod_mod, <- Zplus_mod. done.
Qed.

#[export] Hint Resolve wrap_range swrap_range : audio.

(** ** Lemmas on arrays as lists *)

#[local] Close Scope Z_scope.

Section array_lemmas.
Context {A : Type}.
Implicit Types (l k : list A).

(** A loop [for (i = 0; i < n; i++) a[i] = f(i)] over an array that ignores
    stores out of range fills a prefix of the array. *)
Lemma fold_insert_seq (f : nat -> A) n l :
  fold_left (fun l i => <[i := f i]> l) (seq 0 n) l
  = (f <$> seq 0 (n `min` length l)) ++ drop n l.
Proof.
  induction n as [|n IH]; [by rewrite drop_0|].
  rewrite seq_S, fold_left_app, IH. cbn [fold_left Nat.add].
  destruct (decide (n < length l)) as [Hlt|Hge].
  - rewrite Nat.min_l, (Nat.min_l (S n)) by lia.
    rewrite seq_S, fmap_app. cbn [Nat.add fmap list_fmap].
    assert (length (f <$> seq 0 n) = n) as Hlen by by rewrite length_fmap, length_seq.
    rewrite <- (Nat.add_0_r n) at 1. rewrite <- Hlen at 1.
    rewrite insert_app_r. rewrite <- app_assoc. f_equal.
    destruct (drop n l) as [|x k] eqn:Hd.
    { apply (f_equal length) in Hd. rewrite length_drop in Hd. simpl in Hd. lia. }
    replace (S n) with (n + 1) by lia. by rewrite <- drop_drop, Hd.
  - rewrite !Nat.min_r by lia. rewrite !drop_ge by lia.
    apply list_insert_ge. rewrite length_app, length_fmap, length_seq. simpl. lia.
Qed.

Lemma fold_insert_seq_all (f : nat -> A) l :
  fold_left (fun l i => <[i := f i]> l) (seq 0 (length l)) l = f <$> seq 0 (length l).
Proof. by rewrite fold_insert_seq, Nat.min_id, drop_all, app_nil_r. Qed.

(** A fold of updates of one element of an array of arrays is one update. *)
Lemma length_splice l off k : off + length k <= length l -> length (splice l off k) = length l.
Proof. intros. unfold splice. rewrite !length_app, length_take, length_drop. lia. Qed.

(** Writing at the frontier of an array filled from the left extends the
    filled part. *)
Lemma splice_fill (filled k : list A) (x : A) n off :
  off = length filled -> length k <= n ->
  splice (filled ++ replicate n x) off k = (filled ++ k) ++ replicate (n - length k) x.
Proof.
  intros -> Hn. unfold splice. rewrite take_app_length, <- app_assoc. do 2 f_equal.
  by rewrite drop_app_add', drop_replicate.
Qed.

Lemma splice_app_l l1 l2 off k :
  off + length k <= length l1 -> splice (l1 ++ l2) off k = splice l1 off k ++ l2.
Proof.
  intros. unfold splice. rewrite take_app_le, drop_app_le by lia.
  by rewrite <- !app_assoc.
Qed.

Lemma splice_app_r l1 l2 off k :
  splice (l1 ++ l2) (length l1 + off) k = l1 ++ splice l2 off k.
Proof.
  unfold splice. rewrite take_app_add', <- Nat.add_assoc, drop_app_add' by done.
  by rewrite <- !app_assoc.
Qed.

Lemma splice_all l k : length k = length l -> splice l 0 k = k.
Proof. intros Hl. unfold splice. simpl. by rewrite Hl, drop_all, app_nil_r. Qed.

Lemma fold_alter {B} (g : A -> B -> A) (c : nat) (js : list B) (ls : list A) :
  fold_left (fun ls i => alter (fun x => g x i) c ls) js ls
  = alter (fun x => fold_left g js x) c ls.
Proof.
  revert ls; induction js as [|i js IH]; intros ls; simpl.
  - symmetry. by apply list_alter_id.
  - by rewrite IH, list_alter_alter_eq.
Qed.

End array_lemmas.

(** ** The least element and the first element that satisfies a predicate *)

Lemma foldr_min_spec (n : nat) (l : list nat) :
  let m := foldr Nat.min n l in
  m <= n /\ Forall (fun x => m <= x) l /\ (m = n \/ m ∈ l).
Proof.
  induction l as [|x l (IH1 & IH2 & IH3)]; cbn [foldr].
  - split; [done|]. split; [done|]. by left.
  - split; [lia|]. split.
    + constructor; [lia|]. apply (list.Forall_impl _ _ _ IH2). intros; lia.
    + destruct (Nat.min_spec x (foldr Nat.min n l)) as [[? ->]|[? ->]].
      * right. by left.
      * destruct IH3; [by left|right; by right].
Qed.

Lemma Exists_first {A} (P : A -> Prop) `{forall x, Decision (P x)} (l : list A) :
  Exists P l ->
  exists l1 x l2, l = l1 ++ x :: l2 /\ Forall (fun y => ~ P y) l1 /\ P x.
Proof.
  induction 1 as [x l Hx | x l _ (l1 & y & l2 & -> & Hl1 & Hy)].
  - by exists [], x, l.
  - destruct (decide (P x)).
    + by exists [], x, (l1 ++ y :: l2).
    + exists (x :: l1), y, l2. split; [done|]. split; [by constructor|done].
Qed.

(** ** Rounding a quotient up

    A loop [for (i = 0; i < n; i += m)] runs [div_ceil n m] times. *)

Definition div_ceil (n m : nat) : nat := (n + m - 1) / m.

Lemma div_ceil_lt n m k : 1 <= m -> k * m < n <-> k < div_ceil n m.
Proof.
  intros Hm. unfold div_ceil. split; intros Hk.
  - apply Nat.div_le_lower_bound; nia.
  - pose proof (Nat.Div0.mul_div_le (n + m - 1) m). nia.
Qed.

Lemma div_ceil_le n m : 1 <= m -> div_ceil n m <= n.
Proof.
  intros Hm. destruct (decide (div_ceil n m <= n)) as [|Hn]; [done|].
  assert (n < div_ceil n m) as Hlt%div_ceil_lt by lia; [nia|done].
Qed.

Lemma div_ceil_pos n m : 1 <= m -> 1 <= n -> 1 <= div_ceil n m.
Proof. intros Hm Hn. apply (div_ceil_lt n m 0); lia. Qed.

Lemma div_ceil_small n m : 1 <= n <= m -> div_ceil n m = 1.
Proof.
  intros Hn. apply Nat.le_antisymm; [|apply div_ceil_pos; lia].
  destruct (decide (div_ceil n m <= 1)) as [|Hgt]; [done|].
  assert (1 < div_ceil n m) as Hlt%div_ceil_lt by lia; lia.
Qed.

(** ** Filters and induction three elements at a time *)

Lemma filter_Forall_id {A} (P : A -> Prop) `{forall x, Decision (P x)} (l : list A) :
  Forall P l -> filter P l = l.
Proof.
  induction 1 as [|x l Hx _ IH]; [done|]. by rewrite filter_cons_True, IH.
Qed.

Lemma list_ind3 {A} (P : list A -> Prop) :
  P [] -> (forall a, P [a]) -> (forall a b, P [a; b]) ->
  (forall a b c l, P l -> P (a :: b :: c :: l)) ->
  forall l, P l.
Proof.
  intros H0 H1 H2 H3 l.
  enough (P l /\ (forall a, P (a :: l)) /\ (forall a b, P (a :: b :: l))) by tauto.
  induction l as [|c l (IH0 & IH1 & IH2)]; [done|].
  split; [apply IH1|]. split; [intros a; apply IH2|]. intros a b. by apply H3.
Qed.
