(* ===== verification/JsNumber.v ===== *)
(** * JsNumber: the numbers of the JavaScript runtime

    An ECMAScript Number is an IEEE 754 binary64 value and an element of a
    [Float32Array] a binary32 value.  Both are modelled by the Standard
    Library's executable specification of IEEE arithmetic
    ([Floats.SpecFloat], no axioms): a [spec_float] in the canonical form of
    its precision.  This file gives the operations the audio code applies to
    samples (division, multiplication, comparison, [Math.max], [Math.min],
    [Math.round],
    the store into a [Float32Array], the conversion [ToInt16] of
    [DataView.setInt16]) and the theory of when rounding is exact, on which
    the bit-exact theorems of the PCM codec rest. *)

From Stdlib Require Import ZArith Lia Floats.SpecFloat.
From stdpp Require Import base tactics numbers.
From S2P Require Import Prelude.

#[local] Open Scope Z_scope.

(** ** Formats *)

Definition prec64 : Z := 53.
Definition emax64 : Z := 1024.
Definition prec32 : Z := 24.
Definition emax32 : Z := 128.

Abbreviation num := spec_float (only parsing).

Definition valid64 (x : num) : bool := valid_binary prec64 emax64 x.
Definition valid32 (x : num) : bool := valid_binary prec32 emax32 x.

(** ** Operations on Numbers *)

(** The Number denoted by an integer literal or read from an integer typed
    array: exact below [2^53], rounded to nearest even above. *)
Definition num_of_Z (z : Z) : num := binary_normalize prec64 emax64 z 0 false.

Definition num_mul (x y : num) : num := SFmul prec64 emax64 x y.
Definition num_div (x y : num) : num := SFdiv prec64 emax64 x y.

(** [x < y]: false when either side is NaN. *)
Definition num_lt (x y : num) : bool := SFltb x y.

(** [x <= y]: false when either side is NaN. *)
Definition num_le (x y : num) : bool := SFleb x y.

Definition is_nan (x : num) : bool :=
  match x with S754_nan => true | _ => false end.

(** [Math.max(x, y)] and [Math.min(x, y)]: NaN when either argument is NaN,
    and [+0] is larger than [-0]. *)
Definition Math_max (x y : num) : num :=
  match SFcompare x y with
  | None => S754_nan
  | Some Lt => y
  | Some Gt => x
  | Some Eq =>
      match x, y with
      | S754_zero sx, S754_zero sy => S754_zero (sx && sy)
      | _, _ => x
      end
  end.

Definition Math_min (x y : num) : num :=
  match SFcompare x y with
  | None => S754_nan
  | Some Lt => x
  | Some Gt => y
  | Some Eq =>
      match x, y with
      | S754_zero sx, S754_zero sy => S754_zero (sx || sy)
      | _, _ => x
      end
  end.

(** The store of a Number into a [Float32Array]: round to nearest even in
    binary32, overflow to infinity. *)
Definition to_float32 (x : num) : num :=
  match x with
  | S754_finite s m e => binary_round prec32 emax32 s m e
  | _ => x
  end.

(** The read of a [Float32Array] element as a Number: the same value in the
    canonical form of binary64. *)
Definition of_float32 (x : num) : num :=
  match x with
  | S754_finite s m e => binary_round prec64 emax64 s m e
  | _ => x
  end.

(** The mathematical integer obtained by dropping the fraction of a finite
    Number (zero for NaN, infinities and zeros, as every ToIntN needs it). *)
Definition truncate (x : num) : Z :=
  match x with
  | S754_finite s m e =>
      let a := Z.shiftl (Zpos m) e in if s then - a else a
  | _ => 0
  end.

(** ECMAScript ToInt16, applied by [DataView.prototype.setInt16]. *)
Definition ToInt16 (x : num) : Z := swrap 16 (truncate x).

(** [Math.round(x)] for a finite [x]: the integer [floor(x + 1/2)], computed
    exactly on the mantissa; [None] for NaN and the infinities, which
    [Math.round] returns unchanged. *)
Definition Math_round (x : num) : option Z :=
  match x with
  | S754_zero _ => Some 0
  | S754_finite s m e =>
      let n := if s then Zneg m else Zpos m in
      Some (if 0 <=? e then n * 2 ^ e else (2 * n + 2 ^ (- e)) / 2 ^ (- e + 1))
  | _ => None
  end.

(** [x * 2^k] when that is an integer: the exact value of a finite Number,
    scaled.  Used to state what a Number is worth without real numbers. *)
Definition scaled (k : Z) (x : num) : option Z :=
  match x with
  | S754_zero _ => Some 0
  | S754_finite s m e =>
      let a := Z.shiftl (Zpos m) (e + k) in
      if decide (Z.shiftl a (- (e + k)) = Zpos m)
      then Some (if s then - a else a) else None
  | _ => None
  end.

(** ** Digits and shifts *)

Lemma digits2_pos_size p : digits2_pos p = Pos.size p.
Proof. induction p; simpl; congruence. Qed.

Lemma digits2_pos_log2 p : Zpos (digits2_pos p) = Z.log2 (Zpos p) + 1.
Proof.
  rewrite digits2_pos_size. symmetry.
  pose proof (Pos.size_gt p) as Hgt. pose proof (Pos.size_le p) as Hle.
  assert (Zpos p < 2 ^ Zpos (Pos.size p)) by (rewrite <- Pos2Z.inj_pow; lia).
  assert (2 ^ Zpos (Pos.size p) <= 2 * Zpos p) by (rewrite <- Pos2Z.inj_pow; lia).
  enough (Z.log2 (Zpos p) = Zpos (Pos.size p) - 1) by lia.
  apply Z.log2_unique; [lia|].
  replace (Z.succ (Zpos (Pos.size p) - 1)) with (Zpos (Pos.size p)) by lia.
  split; [|done].
  assert (2 ^ Zpos (Pos.size p) = 2 * 2 ^ (Zpos (Pos.size p) - 1)) as Hp.
  { rewrite <- Z.pow_succ_r by lia. f_equal; lia. }
  lia.
Qed.

(** Multiplying by [2^n] adds [n] digits. *)
Lemma digits2_pos_shift M m n :
  0 <= n -> Zpos M = Zpos m * 2 ^ n ->
  Zpos (digits2_pos M) = Zpos (digits2_pos m) + n.
Proof.
  intros Hn HM. rewrite !digits2_pos_log2, HM, Z.log2_mul_pow2 by lia. lia.
Qed.

Lemma iter_pos_nat {A} (f : A -> A) p x :
  SpecFloat.iter_pos f p x = Nat.iter (Pos.to_nat p) f x.
Proof.
  revert x; induction p as [p IH|p IH|]; intros x; cbn [SpecFloat.iter_pos]; [| |done].
  - rewrite !IH, Pos2Nat.inj_xI.
    replace (S (2 * Pos.to_nat p)) with (Pos.to_nat p + (Pos.to_nat p + 1))%nat by lia.
    by rewrite !Nat.iter_add.
  - rewrite !IH, Pos2Nat.inj_xO.
    replace (2 * Pos.to_nat p)%nat with (Pos.to_nat p + Pos.to_nat p)%nat by lia.
    by rewrite Nat.iter_add.
Qed.

(** Shifting out [k] zero bits sets neither the round nor the sticky bit. *)
Lemma shr_1_exact m :
  0 < m -> shr_1 (Build_shr_record (2 * m) false false) = Build_shr_record m false false.
Proof. destruct m; [lia|done|lia]. Qed.

Lemma iter_shr_1_exact k m :
  0 < m ->
  Nat.iter k shr_1 (Build_shr_record (m * 2 ^ Z.of_nat k) false false)
  = Build_shr_record m false false.
Proof.
  intros Hm. induction k as [|k IH]; simpl.
  - f_equal; lia.
  - rewrite <- Nat.iter_swap.
    replace (m * 2 ^ Z.of_nat (S k)) with (2 * (m * 2 ^ Z.of_nat k)).
    + rewrite shr_1_exact; [done|]. apply Z.mul_pos_pos; [done|].
      apply Z.pow_pos_nonneg; lia.
    + rewrite Nat2Z.inj_succ, Z.pow_succ_r by lia. lia.
Qed.

Lemma shr_exact m e n :
  0 < m -> 0 <= n ->
  shr (Build_shr_record (m * 2 ^ n) false false) e n
  = (Build_shr_record m false false, e + n).
Proof.
  intros Hm Hn. unfold shr. destruct n as [|p|p]; [|clear Hn|lia].
  - f_equal; [f_equal; lia | lia].
  - rewrite iter_pos_nat. f_equal.
    rewrite <- (positive_nat_Z p) at 1. by apply iter_shr_1_exact.
Qed.

(** ** Exact rounding

    When the value [M * 2^E] of the operands' exact result has a canonical
    representation [(m, e)] in the format, rounding returns it: no bit is
    lost.  Every operation of the codec is of this kind. *)

Section exact_rounding.
Context (prec emax : Z).

Lemma bounded_canonical m e :
  bounded prec emax m e = true ->
  fexp prec emax (Zpos (digits2_pos m) + e) = e /\ e <= emax - prec.
Proof.
  unfold bounded, canonical_mantissa.
  intros [?%Z.eqb_eq ?%Z.leb_le]%andb_prop. done.
Qed.

Lemma shr_fexp_canonical m e :
  bounded prec emax m e = true ->
  shr_fexp prec emax (Zpos m) e loc_Exact = (Build_shr_record (Zpos m) false false, e).
Proof.
  intros [Hc _]%bounded_canonical. unfold shr_fexp. cbn [Zdigits2 shr_record_of_loc].
  by rewrite Hc, Z.sub_diag.
Qed.

Lemma binary_round_aux_exact s M E m e :
  bounded prec emax m e = true ->
  E <= e -> Zpos M = Zpos m * 2 ^ (e - E) ->
  binary_round_aux prec emax s (Zpos M) E loc_Exact = S754_finite s m e.
Proof.
  intros Hb HE HM. pose proof Hb as [Hc He]%bounded_canonical.
  unfold binary_round_aux.
  assert (shr_fexp prec emax (Zpos M) E loc_Exact
          = (Build_shr_record (Zpos m) false false, e)) as ->.
  { unfold shr_fexp. cbn [Zdigits2 shr_record_of_loc].
    rewrite (digits2_pos_shift M m (e - E)) by (done || lia).
    replace (Zpos (digits2_pos m) + (e - E) + E) with (Zpos (digits2_pos m) + e) by lia.
    rewrite Hc, HM, shr_exact by lia. f_equal; lia. }
  cbn [shr_m loc_of_shr_record round_nearest_even].
  rewrite shr_fexp_canonical by done. cbn [shr_m].
  by rewrite (proj2 (Z.leb_le _ _) He).
Qed.

Lemma Zpos_iter_xO M d : Zpos (Pos.iter xO M d) = Zpos M * 2 ^ Zpos d.
Proof.
  rewrite <- Z.shiftl_mul_pow2 by lia. cbn [Z.shiftl].
  by apply (Pos.iter_swap_gen _ _ Zpos xO (Z.mul 2)).
Qed.

(** Equal values have the same digit count up to the exponents. *)
Lemma digits2_pos_same_value M E m e :
  Zpos M * 2 ^ (E - Z.min E e) = Zpos m * 2 ^ (e - Z.min E e) ->
  Zpos (digits2_pos M) + E = Zpos (digits2_pos m) + e.
Proof.
  intros Hv. apply (f_equal Z.log2) in Hv.
  rewrite !Z.log2_mul_pow2 in Hv by lia. rewrite !digits2_pos_log2. lia.
Qed.

Lemma binary_round_exact s M E m e :
  bounded prec emax m e = true ->
  Zpos M * 2 ^ (E - Z.min E e) = Zpos m * 2 ^ (e - Z.min E e) ->
  binary_round prec emax s M E = S754_finite s m e.
Proof.
  intros Hb Hv. pose proof Hb as [Hc _]%bounded_canonical.
  unfold binary_round, shl_align.
  rewrite (digits2_pos_same_value M E m e Hv), Hc.
  destruct (e - E) as [|d|d] eqn:Hd.
  - apply binary_round_aux_exact; [done|lia|].
    rewrite Z.min_l, Z.sub_diag in Hv by lia. lia.
  - apply binary_round_aux_exact; [done|lia|].
    rewrite Z.min_l, Z.sub_diag in Hv by lia. lia.
  - apply binary_round_aux_exact; [done|lia|].
    rewrite Z.min_r, Z.sub_diag in Hv by lia.
    rewrite Zpos_iter_xO, Z.sub_diag.
    replace (Zpos d) with (E - e) by lia. lia.
Qed.

(** A canonical Number rounds to itself. *)
Lemma binary_round_canonical s m e :
  bounded prec emax m e = true -> binary_round prec emax s m e = S754_finite s m e.
Proof. intros Hb. by apply binary_round_exact. Qed.

End exact_rounding.

(** ** Normal forms

    [norm prec s p k] is the canonical representation, at precision [prec],
    of the value [(-1)^s * p * 2^k], for [p] of at most [prec] digits and a
    value in the normal range of the format ([norm_ok]).  The results of the
    exact operations are stated as normal forms, so that two computations of
    the same value give syntactically equal Numbers. *)

Definition norm (prec : Z) (s : bool) (p : positive) (k : Z) : num :=
  let n := prec - Zpos (digits2_pos p) in
  S754_finite s (Pos.shiftl p (Z.to_N n)) (k - n).

Definition norm_ok (prec emax : Z) (p : positive) (k : Z) : Prop :=
  Zpos (digits2_pos p) <= prec /\
  emin prec emax <= k + Zpos (digits2_pos p) - prec <= emax - prec.

#[export] Instance norm_ok_dec prec emax p k : Decision (norm_ok prec emax p k).
Proof. unfold norm_ok. apply _. Defined.

Lemma pow2_mul_pow2 a b c : 0 <= b -> 0 <= c -> a * 2 ^ b * 2 ^ c = a * 2 ^ (b + c).
Proof. intros. rewrite Z.pow_add_r by lia. lia. Qed.

Lemma Zpos_shiftl p n : Zpos (Pos.shiftl p n) = Zpos p * 2 ^ Z.of_N n.
Proof. destruct n as [|d]; [by rewrite Z.mul_1_r|apply Zpos_iter_xO]. Qed.

Section normal_forms.
Context (prec emax : Z).
Implicit Types (p M : positive) (k j E : Z) (s : bool).

Lemma norm_mantissa p :
  Zpos (digits2_pos p) <= prec ->
  Zpos (Pos.shiftl p (Z.to_N (prec - Zpos (digits2_pos p))))
  = Zpos p * 2 ^ (prec - Zpos (digits2_pos p)).
Proof. intros. rewrite Zpos_shiftl, Z2N.id by lia. done. Qed.

Lemma norm_bounded p k :
  norm_ok prec emax p k ->
  bounded prec emax (Pos.shiftl p (Z.to_N (prec - Zpos (digits2_pos p))))
    (k - (prec - Zpos (digits2_pos p))) = true.
Proof.
  intros (Hd & Hlo & Hhi). unfold bounded, canonical_mantissa.
  apply andb_true_intro; split; [apply Z.eqb_eq | apply Z.leb_le; lia].
  rewrite (digits2_pos_shift _ p (prec - Zpos (digits2_pos p)))
    by (lia || by apply norm_mantissa).
  unfold fexp. lia.
Qed.

Lemma binary_round_norm s M p j k :
  norm_ok prec emax p k -> 0 <= j -> Zpos M = Zpos p * 2 ^ j ->
  binary_round prec emax s M (k - j) = norm prec s p k.
Proof.
  intros Hok Hj HM. pose proof Hok as (Hd & _).
  apply binary_round_exact; [by apply norm_bounded|].
  rewrite norm_mantissa, HM by done.
  set (n := prec - Zpos (digits2_pos p)) in *.
  destruct (Z.le_ge_cases j n).
  - rewrite Z.min_r by lia.
    replace (k - j - (k - n)) with (n - j) by lia.
    replace (k - n - (k - n)) with 0 by lia.
    rewrite !pow2_mul_pow2 by lia. do 2 f_equal. lia.
  - rewrite Z.min_l by lia.
    replace (k - j - (k - j)) with 0 by lia.
    replace (k - n - (k - j)) with (j - n) by lia.
    rewrite !pow2_mul_pow2 by lia. do 2 f_equal. lia.
Qed.

Lemma binary_round_aux_norm s M p j k :
  norm_ok prec emax p k -> prec - Zpos (digits2_pos p) <= j ->
  Zpos M = Zpos p * 2 ^ j ->
  binary_round_aux prec emax s (Zpos M) (k - j) loc_Exact = norm prec s p k.
Proof.
  intros Hok Hj HM. pose proof Hok as (Hd & _).
  apply binary_round_aux_exact; [by apply norm_bounded|lia|].
  rewrite norm_mantissa, HM, pow2_mul_pow2 by lia. do 2 f_equal. lia.
Qed.

End normal_forms.

(** ** The operations on normal forms *)

Lemma digits2_pos_mul p1 p2 :
  Zpos (digits2_pos p1) + Zpos (digits2_pos p2) - 1 <= Zpos (digits2_pos (p1 * p2)).
Proof.
  rewrite !digits2_pos_log2, Pos2Z.inj_mul.
  pose proof (Z.log2_mul_below (Zpos p1) (Zpos p2)). lia.
Qed.

Lemma digits2_pos_mul_le p1 p2 :
  Zpos (digits2_pos (p1 * p2)) <= Zpos (digits2_pos p1) + Zpos (digits2_pos p2).
Proof.
  rewrite !digits2_pos_log2, Pos2Z.inj_mul.
  pose proof (Z.log2_mul_above (Zpos p1) (Zpos p2)). lia.
Qed.

Lemma Z_div_eucl_exact q b : 0 < b -> Z.div_eucl (q * b) b = (q, 0).
Proof.
  intros Hb. pose proof (Z_div_mult q b) as Hq. pose proof (Z_mod_mult q b) as Hr.
  unfold Z.div, Z.modulo in *. destruct (Z.div_eucl (q * b) b) as [q' r'].
  rewrite Hq, Hr by lia. done.
Qed.

Lemma num_of_Z_0 : num_of_Z 0 = S754_zero false.
Proof. reflexivity. Qed.

Lemma num_of_Z_pos p :
  Zpos (digits2_pos p) <= prec64 -> num_of_Z (Zpos p) = norm prec64 false p 0.
Proof.
  intros Hd. unfold num_of_Z, binary_normalize.
  change 0 with (0 - 0). apply binary_round_norm; [|done|lia].
  split; [done|]. unfold emin, prec64, emax64 in *. lia.
Qed.

Lemma num_of_Z_neg p :
  Zpos (digits2_pos p) <= prec64 -> num_of_Z (Zneg p) = norm prec64 true p 0.
Proof.
  intros Hd. unfold num_of_Z, binary_normalize.
  change 0 with (0 - 0). apply binary_round_norm; [|done|lia].
  split; [done|]. unfold emin, prec64, emax64 in *. lia.
Qed.

Lemma num_mul_norm s1 p1 k1 s2 p2 k2 :
  norm_ok prec64 emax64 p1 k1 -> norm_ok prec64 emax64 p2 k2 ->
  norm_ok prec64 emax64 (p1 * p2) (k1 + k2) ->
  num_mul (norm prec64 s1 p1 k1) (norm prec64 s2 p2 k2)
  = norm prec64 (xorb s1 s2) (p1 * p2) (k1 + k2).
Proof.
  intros [Hd1 _] [Hd2 _] Hok. unfold num_mul, norm at 1 2. cbn [SFmul].
  set (n1 := prec64 - Zpos (digits2_pos p1)). set (n2 := prec64 - Zpos (digits2_pos p2)).
  replace (k1 - n1 + (k2 - n2)) with (k1 + k2 - (n1 + n2)) by lia.
  pose proof (digits2_pos_mul p1 p2).
  apply binary_round_aux_norm; [done|unfold prec64 in *; lia|].
  subst n1 n2. rewrite !Pos2Z.inj_mul, !norm_mantissa by done.
  rewrite Z.pow_add_r by lia. lia.
Qed.

(** Division by a power of two only moves the exponent. *)
Lemma num_div_pow2 s p k j :
  norm_ok prec64 emax64 p k -> norm_ok prec64 emax64 1 j ->
  norm_ok prec64 emax64 p (k - j) ->
  num_div (norm prec64 s p k) (norm prec64 false 1 j) = norm prec64 s p (k - j).
Proof.
  intros Hp Hj Hok. pose proof Hp as [Hd _].
  pose proof (norm_bounded _ _ _ _ Hp) as [Hc1 _]%bounded_canonical.
  pose proof (norm_bounded _ _ _ _ Hok) as Hb.
  pose proof Hb as [Hc _]%bounded_canonical.
  unfold num_div, norm at 1 2. cbn [SFdiv digits2_pos].
  set (n := prec64 - Zpos (digits2_pos p)) in *.
  set (m := Pos.shiftl p (Z.to_N n)) in *.
  assert (Zpos (digits2_pos m) = prec64) as Hdm.
  { unfold m. rewrite (digits2_pos_shift _ p n); [lia|lia|by apply norm_mantissa]. }
  unfold SFdiv_core_binary. cbn [Zdigits2]. rewrite Hdm.
  change (Zpos (digits2_pos (Pos.shiftl 1 (Z.to_N (prec64 - 1))))) with prec64.
  change (Pos.shiftl 1 (Z.to_N (prec64 - 1))) with (2 ^ 52)%positive.
  change (prec64 - 1) with 52.
  set (e' := Z.min _ _).
  assert (e' <= k - j - n /\ k - j - n <= e' + 1 /\ k - n - (j - 52) - e' = 52 + (k - j - n - e'))
    as (He1 & He2 & Hs).
  { unfold e', fexp, emin, prec64, emax64 in *. destruct Hok as (_ & ? & ?). lia. }
  rewrite Hs. set (d := k - j - n - e') in *.
  assert (match 52 + d with
          | 0 => Zpos m | Zpos _ => Z.shiftl (Zpos m) (52 + d) | Zneg _ => 0
          end = Zpos m * 2 ^ d * Zpos (2 ^ 52)) as ->.
  { destruct (52 + d) eqn:Hd'; [lia| |lia].
    rewrite <- Hd', Z.shiftl_mul_pow2, Z.pow_add_r by lia.
    change (Zpos (2 ^ 52)) with (2 ^ 52). lia. }
  rewrite Z_div_eucl_exact by done. cbn [new_location].
  assert (exists q, Zpos q = Zpos m * 2 ^ d) as [q Hq].
  { exists (Z.to_pos (Zpos m * 2 ^ d)). rewrite Z2Pos.id; [done|].
    apply Z.mul_pos_pos; [done|]. apply Z.pow_pos_nonneg; lia. }
  rewrite <- Hq.
  replace (new_location (Zpos (2 ^ 52)) 0) with loc_Exact by done.
  replace (xorb s false) with s by (by destruct s).
  apply binary_round_aux_exact; [done|lia|exact Hq].
Qed.

Lemma to_float32_norm s p k :
  norm_ok prec64 emax64 p k -> norm_ok prec32 emax32 p k ->
  to_float32 (norm prec64 s p k) = norm prec32 s p k.
Proof.
  intros [Hd _] Hok. unfold to_float32, norm at 1.
  apply binary_round_norm; [done|lia|by apply norm_mantissa].
Qed.

Lemma of_float32_norm s p k :
  norm_ok prec32 emax32 p k -> norm_ok prec64 emax64 p k ->
  of_float32 (norm prec32 s p k) = norm prec64 s p k.
Proof.
  intros [Hd _] Hok. unfold of_float32, norm at 1.
  apply binary_round_norm; [done|lia|by apply norm_mantissa].
Qed.

Lemma truncate_norm prec s p k :
  Zpos (digits2_pos p) <= prec ->
  truncate (norm prec s p k)
  = if s then - Z.shiftl (Zpos p) k else Z.shiftl (Zpos p) k.
Proof.
  intros Hd. unfold truncate, norm.
  rewrite norm_mantissa by done.
  rewrite <- Z.shiftl_mul_pow2, Z.shiftl_shiftl by lia.
  replace (prec - Zpos (digits2_pos p) + (k - (prec - Zpos (digits2_pos p)))) with k by lia.
  done.
Qed.

Lemma num_lt_norm_zero prec s p k b : num_lt (norm prec s p k) (S754_zero b) = s.
Proof. by destruct s. Qed.

Lemma scaled_norm prec s p k j :
  Zpos (digits2_pos p) <= prec -> 0 <= k + j ->
  scaled j (norm prec s p k)
  = Some (if s then - (Zpos p * 2 ^ (k + j)) else Zpos p * 2 ^ (k + j)).
Proof.
  intros Hd Hk. unfold scaled, norm. rewrite norm_mantissa by done.
  set (n := prec - Zpos (digits2_pos p)) in *.
  rewrite <- !(Z.shiftl_mul_pow2 (Zpos p)) by lia.
  rewrite (Z.shiftl_shiftl _ n) by lia.
  replace (n + (k - n + j)) with (k + j) by lia.
  rewrite (Z.shiftl_shiftl _ (k + j)) by lia.
  replace (k + j + - (k - n + j)) with n by lia.
  by rewrite decide_True by done.
Qed.

(** ** Comparison of normal forms *)

Lemma digits2_pos_lt_value p1 p2 :
  Zpos (digits2_pos p1) < Zpos (digits2_pos p2) -> Zpos p1 < Zpos p2.
Proof. rewrite !digits2_pos_log2. intros. apply Z.log2_lt_cancel. lia. Qed.

Lemma Pos_compare_shiftl p1 p2 n :
  (Pos.shiftl p1 n ?= Pos.shiftl p2 n)%positive = (p1 ?= p2)%positive.
Proof.
  rewrite !Pos2Z.inj_compare, !Zpos_shiftl.
  symmetry. apply Zmult_compare_compat_r. pose proof (Z.pow_pos_nonneg 2 (Z.of_N n)). lia.
Qed.

(** Two positive normal forms on the same grid compare as their integers:
    the exponents decide when the digit counts differ, the mantissas
    otherwise. *)
Lemma norm_compare_pos prec p1 p2 k :
  Zpos (digits2_pos p1) <= prec -> Zpos (digits2_pos p2) <= prec ->
  SFcompare (norm prec false p1 k) (norm prec false p2 k) = Some (p1 ?= p2)%positive.
Proof.
  intros H1 H2. unfold norm. cbn [SFcompare]. f_equal.
  set (d1 := Zpos (digits2_pos p1)) in *. set (d2 := Zpos (digits2_pos p2)) in *.
  destruct (Z.compare_spec (k - (prec - d1)) (k - (prec - d2))) as [He|He|He].
  - replace d2 with d1 by lia. apply Pos_compare_shiftl.
  - symmetry. apply Pos.compare_lt_iff. apply Pos2Z.pos_lt_pos, digits2_pos_lt_value.
    fold d1 d2. lia.
  - symmetry. apply Pos.compare_gt_iff. apply Pos2Z.pos_lt_pos, digits2_pos_lt_value.
    fold d1 d2. lia.
Qed.

Lemma SFcompare_antisym x y : SFcompare y x = CompOpp <$> SFcompare x y.
Proof.
  destruct x as [sx|[]| |[] mx ex], y as [sy|[]| |[] my ey]; try done;
    cbn [SFcompare fmap option_fmap option_map]; f_equal;
    rewrite (Z.compare_antisym ex ey);
    change (PosDef.Pos.compare_cont Eq my mx) with (my ?= mx)%positive;
    change (PosDef.Pos.compare_cont Eq mx my) with (mx ?= my)%positive;
    rewrite (Pos.compare_antisym mx my); by repeat destruct (_ ?= _).
Qed.

(** The order of [(-1)^s1 * p1] and [(-1)^s2 * p2]. *)
Definition signed_compare (s1 : bool) (p1 : positive) (s2 : bool) (p2 : positive)
  : comparison :=
  match s1, s2 with
  | true, false => Lt
  | false, true => Gt
  | false, false => (p1 ?= p2)%positive
  | true, true => (p2 ?= p1)%positive
  end.

Lemma norm_compare prec s1 s2 p1 p2 k :
  Zpos (digits2_pos p1) <= prec -> Zpos (digits2_pos p2) <= prec ->
  SFcompare (norm prec s1 p1 k) (norm prec s2 p2 k) = Some (signed_compare s1 p1 s2 p2).
Proof.
  intros H1 H2. destruct s1, s2; [|done|done|by apply norm_compare_pos].
  pose proof (norm_compare_pos prec p1 p2 k H1 H2) as Hc.
  unfold norm, signed_compare in *. cbn [SFcompare] in *. f_equal.
  injection Hc as Hc. rewrite (Pos.compare_antisym p1 p2), <- Hc.
  by destruct (_ ?= _).
Qed.

Lemma Math_min_norm prec s1 s2 p1 p2 k :
  Zpos (digits2_pos p1) <= prec -> Zpos (digits2_pos p2) <= prec ->
  Math_min (norm prec s1 p1 k) (norm prec s2 p2 k)
  = match signed_compare s1 p1 s2 p2 with
    | Gt => norm prec s2 p2 k
    | _ => norm prec s1 p1 k
    end.
Proof. intros. unfold Math_min. by rewrite norm_compare. Qed.

Lemma Math_max_norm prec s1 s2 p1 p2 k :
  Zpos (digits2_pos p1) <= prec -> Zpos (digits2_pos p2) <= prec ->
  Math_max (norm prec s1 p1 k) (norm prec s2 p2 k)
  = match signed_compare s1 p1 s2 p2 with
    | Lt => norm prec s2 p2 k
    | _ => norm prec s1 p1 k
    end.
Proof. intros. unfold Math_max. by rewrite norm_compare. Qed.

(** ** Digit counts from bounds *)

Lemma digits2_pos_le p n : 0 <= n -> Zpos p < 2 ^ n -> Zpos (digits2_pos p) <= n.
Proof.
  intros Hn Hp. rewrite digits2_pos_log2.
  enough (Z.log2 (Zpos p) < n) by lia. by apply Z.log2_lt_pow2.
Qed.

Lemma digits2_pos_ge p n : 0 < n -> 2 ^ (n - 1) <= Zpos p -> n <= Zpos (digits2_pos p).
Proof.
  intros Hn Hp. rewrite digits2_pos_log2.
  enough (n - 1 <= Z.log2 (Zpos p)) by lia. by apply Z.log2_le_pow2.
Qed.

(** [ToInt16] always lands in the range of a signed 16-bit integer. *)
Lemma ToInt16_range x : - 32768 <= ToInt16 x < 32768.
Proof. unfold ToInt16. pose proof (swrap_range 16 (truncate x)). lia. Qed.

#[export] Hint Resolve ToInt16_range : audio.
