(* ===== verification/JsString.v ===== *)
(** * JsString: strings of the JavaScript runtime

    A JavaScript string is a sequence of UTF-16 code units.  The text the
    user types, the base64 payload of the speech service and the four-letter
    tags of the WAV header are all values of [jsstring].  The operations are
    the built-in methods the sources call: [length], [charCodeAt],
    [String.fromCharCode], [trim], [split] on the regular expression [\s+],
    [Array.prototype.join] and [Array.prototype.slice]. *)

From Stdlib Require Import ZArith Lia.
From stdpp Require Import base tactics list numbers strings.
From S2P Require Import Prelude.

#[local] Open Scope Z_scope.

Abbreviation codeunit := Z (only parsing).
Abbreviation jsstring := (list Z).

(** A string literal of the sources (ASCII). *)
Definition str (s : string) : jsstring :=
  (fun a => Z.of_N (Ascii.N_of_ascii a)) <$> String.list_ascii_of_string s.

(** [s.charCodeAt(i)]: [None] stands for NaN, the answer out of range. *)
Definition charCodeAt (s : jsstring) (i : nat) : option codeunit := s !! i.

(** [String.fromCharCode(c)]: one code unit, ToUint16 of the argument. *)
Definition fromCharCode (c : Z) : jsstring := [wrap 16 c].

(** The characters matched by [\s] and removed by [trim]: WhiteSpace and
    LineTerminator of ECMAScript, all in the Basic Multilingual Plane. *)
Definition isWhiteSpace (c : codeunit) : bool :=
  bool_decide (c ∈ [9; 10; 11; 12; 13; 32; 160; 5760; 8232; 8233; 8239; 8287; 12288; 65279])
  || bool_decide (8192 <= c <= 8202).

(** [s.split(/\s+/)]: the fields between maximal runs of white space.  A
    string that starts (ends) with white space has an empty first (last)
    field, and the empty string has one empty field.  [in_ws] tells that the
    previous character was white space, [cur] is the field being read. *)
Fixpoint split_go (in_ws : bool) (cur : jsstring) (s : jsstring) : list jsstring :=
  match s with
  | [] => [cur]
  | c :: s' =>
      if isWhiteSpace c
      then if in_ws then split_go true cur s' else cur :: split_go true [] s'
      else split_go false (cur ++ [c]) s'
  end.

Definition split_ws (s : jsstring) : list jsstring := split_go false [] s.

(** [a.join(sep)]. *)
Fixpoint join (sep : jsstring) (a : list jsstring) : jsstring :=
  match a with
  | [] => []
  | [w] => w
  | w :: a' => w ++ sep ++ join sep a'
  end.

(** [a.slice(i, j)] for [0 <= i <= j]: the elements of index [i] to [j - 1]
    that exist. *)
Definition slice {A} (a : list A) (i j : nat) : list A := take (j - i) (drop i a).

(** [s.trim()]: white space removed at both ends. *)
Fixpoint trimStart (s : jsstring) : jsstring :=
  match s with
  | c :: s' => if isWhiteSpace c then trimStart s' else s
  | [] => []
  end.

Definition trimEnd (s : jsstring) : jsstring := reverse (trimStart (reverse s)).

Definition trim (s : jsstring) : jsstring := trimEnd (trimStart s).

(** ** Lemmas *)

(** Two literals are the same string when they have the same code units. *)
#[export] Instance str_inj : Inj (=) (=) str.
Proof.
  intros s1 s2 Hs. unfold str in Hs.
  rewrite <- (String.string_of_list_ascii_of_string s1),
    <- (String.string_of_list_ascii_of_string s2). f_equal.
  revert Hs. generalize (String.list_ascii_of_string s2).
  induction (String.list_ascii_of_string s1) as [|a l IH]; intros [|b l']; try done.
  cbn. intros [= Hab Hl]. f_equal; [|by apply IH].
  apply N2Z.inj in Hab. rewrite <- (Ascii.ascii_N_embedding a), <- (Ascii.ascii_N_embedding b).
  by rewrite Hab.
Qed.
