(* ===== verification/Bytes.v ===== *)
(** * Bytes: typed arrays and [DataView]

    An [ArrayBuffer] is a list of bytes.  A [Uint8Array] over it reads and
    writes single bytes, an [Int16Array] reads pairs as signed 16-bit
    integers in platform order (little-endian on every platform a browser
    runs on, which the model fixes), a [DataView] writes integers at a byte
    offset in the order its flag asks for and throws [RangeError] out of
    bounds.  Multi-byte fields are coqutil's [le_split] and [le_combine]. *)

From Stdlib Require Import ZArith Lia Floats.SpecFloat.
From coqutil Require Import Byte Word.LittleEndianList.
From stdpp Require Import base tactics list numbers.
From S2P Require Import Prelude JsNumber.

#[local] Open Scope Z_scope.

Abbreviation bytes := (list Init.Byte.byte).

(** ** [Uint8Array] *)

(** [new Uint8Array(len)] and [new ArrayBuffer(len)]: [len] zero bytes. *)
Definition zeros (len : nat) : bytes := replicate len Byte.x00.

(** [a[i] = v]: ToUint8 of [v] is stored; a store out of range is ignored. *)
Definition u8_store (a : bytes) (i : nat) (v : Z) : bytes := <[i := byte.of_Z v]> a.

(** [a[i]]: [None] stands for [undefined]. *)
Definition u8_load (a : bytes) (i : nat) : option Z := byte.unsigned <$> a !! i.

(** ** [Int16Array] *)

(** The elements of [new Int16Array(buffer)]. *)
Fixpoint int16s_of_bytes (bs : bytes) : list Z :=
  match bs with
  | b0 :: b1 :: bs' => swrap 16 (le_combine [b0; b1]) :: int16s_of_bytes bs'
  | _ => []
  end.

(** [new Int16Array(buffer)] throws [RangeError] unless the byte length of
    the buffer is a multiple of 2. *)
Definition Int16Array_of (buffer : bytes) : result (list Z) :=
  if Nat.even (length buffer) then Ok (int16s_of_bytes buffer) else Throw RangeError.

(** The bytes of a list of 16-bit integers, little-endian. *)
Definition bytes_of_int16s (zs : list Z) : bytes := zs ≫= le_split 2.

(** ** [DataView] *)

(** A field of [n] bytes in the order the [littleEndian] flag asks for. *)
Definition field (n : nat) (v : Z) (littleEndian : bool) : bytes :=
  if littleEndian then le_split n v else reverse (le_split n v).

(** The store of [bs] at byte offset [off]: [RangeError] when it does not
    fit, as every [DataView] setter checks before writing. *)
Definition write_bytes (view : bytes) (off : nat) (bs : bytes) : result bytes :=
  if decide (off + length bs <= length view)%nat
  then Ok (splice view off bs)
  else Throw RangeError.

Definition setUint8 (view : bytes) (off : nat) (v : Z) : result bytes :=
  write_bytes view off (field 1 v true).

Definition setUint16 (view : bytes) (off : nat) (v : Z) (littleEndian : bool) : result bytes :=
  write_bytes view off (field 2 v littleEndian).

Definition setUint32 (view : bytes) (off : nat) (v : Z) (littleEndian : bool) : result bytes :=
  write_bytes view off (field 4 v littleEndian).

(** [setInt16] takes a Number and stores its ToInt16. *)
Definition setInt16 (view : bytes) (off : nat) (v : num) (littleEndian : bool) : result bytes :=
  write_bytes view off (field 2 (ToInt16 v) littleEndian).

(** ** Lemmas *)

Lemma length_zeros n : length (zeros n) = n.
Proof. apply length_replicate. Qed.

Lemma zeros_add n m : zeros (n + m) = zeros n ++ zeros m.
Proof. apply replicate_add. Qed.

Lemma length_u8_store a i v : length (u8_store a i v) = length a.
Proof. apply length_insert. Qed.

Lemma length_field n v le : length (field n v le) = n.
Proof. unfold field. destruct le; rewrite ?length_reverse; apply length_le_split. Qed.

#[export] Hint Rewrite length_zeros length_u8_store length_field @length_app
  @length_take @length_drop : audio_len.

Section write_bytes.
Implicit Types (view bs : bytes) (off : nat).

Lemma write_bytes_Ok view off bs :
  (off + length bs <= length view)%nat -> write_bytes view off bs = Ok (splice view off bs).
Proof. intros. unfold write_bytes. by rewrite decide_True. Qed.

Lemma write_bytes_Throw view off bs :
  (length view < off + length bs)%nat -> write_bytes view off bs = Throw RangeError.
Proof. intros. unfold write_bytes. rewrite decide_False; [done|lia]. Qed.

Lemma write_bytes_length view off bs view' :
  write_bytes view off bs = Ok view' -> length view' = length view.
Proof.
  unfold write_bytes. case_decide; [|done]. intros [= <-]. by apply length_splice.
Qed.

(** A store at the frontier of a view filled from the left. *)
Lemma write_bytes_fill (filled : bytes) n off bs :
  off = length filled -> (length bs <= n)%nat ->
  write_bytes (filled ++ zeros n) off bs = Ok ((filled ++ bs) ++ zeros (n - length bs)).
Proof.
  intros Hoff Hn. rewrite write_bytes_Ok by (rewrite length_app, length_zeros; lia).
  f_equal. by apply splice_fill.
Qed.

End write_bytes.

(** ** Round trips between bytes and 16-bit integers *)

Lemma le_split_2_swrap z : le_split 2 (swrap 16 z) = le_split 2 z.
Proof.
  rewrite (le_split_mod (swrap 16 z)), (le_split_mod z). f_equal.
  apply (wrap_swrap 16). lia.
Qed.

Lemma le_combine_2_range b0 b1 : 0 <= le_combine [b0; b1] < 2 ^ 16.
Proof. apply (le_combine_bound [b0; b1]). Qed.

Lemma int16s_of_bytes_of_int16s zs :
  Forall (fun z => - 32768 <= z < 32768) zs ->
  int16s_of_bytes (bytes_of_int16s zs) = zs.
Proof.
  induction 1 as [|z zs Hz _ IH]; [done|].
  unfold bytes_of_int16s in *. cbn [mbind list_bind].
  change (le_split 2 z) with [byte.of_Z z; byte.of_Z (Z.shiftr z 8)].
  cbn [app int16s_of_bytes]. rewrite IH. f_equal.
  change [byte.of_Z z; byte.of_Z (Z.shiftr z 8)] with (le_split 2 z).
  rewrite le_combine_split. change (z mod 2 ^ (Z.of_nat 2 * 8)) with (wrap 16 z).
  rewrite <- (swrap_wrap 16), wrap_wrap, (swrap_wrap 16) by lia.
  apply swrap_small; lia.
Qed.

Lemma bytes_of_int16s_of_bytes bs :
  Nat.even (length bs) = true -> bytes_of_int16s (int16s_of_bytes bs) = bs.
Proof.
  induction bs as [bs IH] using (induction_ltof1 _ length). unfold ltof in IH.
  destruct bs as [|b0 [|b1 bs']]; [done|done|]. intros Hev.
  cbn [int16s_of_bytes]. unfold bytes_of_int16s in *. cbn [mbind list_bind].
  rewrite IH by (done || simpl; lia).
  rewrite le_split_2_swrap.
  change 2%nat with (length [b0; b1]) at 1. by rewrite split_le_combine.
Qed.

Lemma length_int16s_of_bytes bs : length (int16s_of_bytes bs) = (length bs / 2)%nat.
Proof.
  induction bs as [bs IH] using (induction_ltof1 _ length). unfold ltof in IH.
  destruct bs as [|b0 [|b1 bs']]; [done|done|].
  cbn [int16s_of_bytes length]. rewrite IH by (simpl; lia).
  change (S (S (length bs'))) with (1 * 2 + length bs')%nat.
  by rewrite Nat.div_add_l by lia.
Qed.

Lemma length_bytes_of_int16s zs : length (bytes_of_int16s zs) = (2 * length zs)%nat.
Proof.
  induction zs as [|z zs IH]; [done|].
  unfold bytes_of_int16s in *. cbn [mbind list_bind].
  rewrite length_app, IH, length_le_split. simpl. lia.
Qed.

Lemma int16s_of_bytes_range bs : Forall (fun z => - 32768 <= z < 32768) (int16s_of_bytes bs).
Proof.
  induction bs as [bs IH] using (induction_ltof1 _ length). unfold ltof in IH.
  destruct bs as [|b0 [|b1 bs']]; [constructor..|].
  cbn [int16s_of_bytes]. constructor; [|apply IH; simpl; lia].
  pose proof (swrap_range 16 (le_combine [b0; b1])). lia.
Qed.

#[export] Hint Rewrite length_int16s_of_bytes length_bytes_of_int16s : audio_len.
