(* ===== verification/Types.v ===== *)
(** * Types: the declarations of [src/types.ts] and [src/constants.tsx]

    The voices of the speech service, the records the user interface keeps
    and the constants that bound a request. *)

From Stdlib Require Import ZArith Lia Floats.SpecFloat.
From stdpp Require Import base tactics list numbers strings.
From S2P Require Import Prelude JsNumber JsString Bytes.

(** ** [src/types.ts] *)

(** [enum VoiceName] (lines 2-8). *)
Inductive VoiceName : Type := ZEPHYR | PUCK | CHARON | KORE | FENRIR.

#[export] Instance VoiceName_eq_dec : EqDecision VoiceName.
Proof. solve_decision. Defined.

(** The string value of a member of the enumeration. *)
Definition voice_string (v : VoiceName) : string :=
  match v with
  | ZEPHYR => "Zephyr"
  | PUCK => "Puck"
  | CHARON => "Charon"
  | KORE => "Kore"
  | FENRIR => "Fenrir"
  end.

Inductive Gender : Type := male | female | neutral.

#[export] Instance Gender_eq_dec : EqDecision Gender.
Proof. solve_decision. Defined.

(** [interface VoiceOption] (lines 10-15). *)
Record VoiceOption : Type := mkVoiceOption {
  vo_id : VoiceName;
  vo_name : string;
  vo_description : string;
  vo_gender : Gender;
}.

(** A [Blob]: its bytes and its MIME type. *)
Record Blob : Type := mkBlob { blob_data : bytes; blob_type : string }.

(** [interface GeneratedSpeech] (lines 17-25). *)
Record GeneratedSpeech : Type := mkGeneratedSpeech {
  gs_id : string;
  gs_text : jsstring;
  gs_voice : VoiceName;
  gs_timestamp : Z;
  gs_duration : option num;
  gs_audioBlob : Blob;
  gs_audioUrl : string;
}.

(** The [status] of [interface TTSState] (line 28). *)
Inductive Status : Type := idle | processing | success | error.

#[export] Instance Status_eq_dec : EqDecision Status.
Proof. solve_decision. Defined.

(** ** [src/constants.tsx] *)

(** [VOICE_OPTIONS] (lines 4-10). *)
Definition VOICE_OPTIONS : list VoiceOption :=
  [ mkVoiceOption ZEPHYR "Zephyr" "Warm, helpful, and natural tone." neutral;
    mkVoiceOption KORE "Kore" "Professional, articulate, and clear." female;
    mkVoiceOption PUCK "Puck" "Energetic, youthful, and friendly." male;
    mkVoiceOption CHARON "Charon" "Deep, resonant, and authoritative." male;
    mkVoiceOption FENRIR "Fenrir" "Sophisticated, calm, and rhythmic." neutral ].

(** [MAX_WORDS] and [CHUNK_SIZE] (lines 12-13). *)
Definition MAX_WORDS : Z := 10000.
Definition CHUNK_SIZE : Z := 1000.

(** ** Lemmas *)

(** Every voice has exactly one option, named after the value of the
    enumeration. *)
Lemma VOICE_OPTIONS_complete (v : VoiceName) :
  exists o, filter (fun o => vo_id o = v) VOICE_OPTIONS = [o]
       /\ vo_name o = voice_string v.
Proof. destruct v; eexists; split; vm_compute; reflexivity. Qed.

Lemma voice_string_inj : Inj (=) (=) voice_string.
Proof. intros [] []; by intros [=]. Qed.
