(* ===== verification/AudioBuffer.v ===== *)
(** * AudioBuffer: the buffers of the Web Audio API

    The sources create buffers with [AudioContext.createBuffer], read their
    attributes ([numberOfChannels], [length], [sampleRate]) and reach their
    samples through [getChannelData], which returns a [Float32Array] that
    aliases the channel: a store through it is a store into the buffer.  The
    model keeps a buffer as a record of its attributes and channels and makes
    every store a function from buffers to buffers.  What a browser promises
    about [createBuffer] is the class [AudioLimits]. *)

From Stdlib Require Import ZArith Lia Floats.SpecFloat.
From stdpp Require Import base tactics list numbers.
From S2P Require Import Prelude JsNumber.

#[local] Open Scope Z_scope.

(** A [Float32Array]: binary32 values. *)
Abbreviation Float32Array := (list spec_float).

Record AudioBuffer : Type := mkAudioBuffer {
  numberOfChannels : nat;
  buf_length : nat;              (* the attribute [length], in sample-frames *)
  sampleRate : Z;                (* in Hz *)
  channels : list Float32Array;  (* one per channel *)
}.

(** The nominal ranges of [createBuffer].  The Web Audio specification asks
    every implementation for at least 32 channels and the rates from 8000 Hz
    to 96000 Hz; a browser may accept more. *)
Class AudioLimits : Type := {
  maxChannels : nat;
  minSampleRate : Z;
  maxSampleRate : Z;
  maxChannels_ge : (32 <= maxChannels)%nat;
  minSampleRate_pos : 0 < minSampleRate;
  minSampleRate_le : minSampleRate <= 8000;
  maxSampleRate_ge : 96000 <= maxSampleRate;
}.

(** The limits of the specification itself. *)
#[export] Program Instance spec_limits : AudioLimits | 10 :=
  {| maxChannels := 32; minSampleRate := 8000; maxSampleRate := 96000 |}.
Solve All Obligations with lia.

(** The well-formedness of a buffer: the attributes describe the channels,
    there is at least one channel and one frame, and every sample is a
    binary32 value. *)
Definition wf_buffer (b : AudioBuffer) : Prop :=
  (1 <= numberOfChannels b)%nat /\ (1 <= buf_length b)%nat /\
  length (channels b) = numberOfChannels b /\
  Forall (fun ch => length ch = buf_length b /\ Forall (fun x => valid32 x = true) ch)
    (channels b).

#[export] Instance wf_buffer_dec b : Decision (wf_buffer b).
Proof. unfold wf_buffer. apply _. Defined.

Section operations.
Context `{AudioLimits}.

(** [ctx.createBuffer(numberOfChannels, length, sampleRate)]: a silent
    buffer, or [NotSupportedError] when an argument is outside its nominal
    range (a length of zero is). *)
Definition createBuffer (nch len : nat) (rate : Z) : result AudioBuffer :=
  if decide ((1 <= nch <= maxChannels)%nat /\ (1 <= len)%nat
             /\ minSampleRate <= rate <= maxSampleRate)
  then Ok (mkAudioBuffer nch len rate (replicate nch (replicate len (S754_zero false))))
  else Throw NotSupportedError.

End operations.

(** [buffer.getChannelData(channel)]: [IndexSizeError] when there is no such
    channel. *)
Definition getChannelData (b : AudioBuffer) (channel : nat) : result Float32Array :=
  of_option IndexSizeError (channels b !! channel).

(** [buffer.getChannelData(channel)[i] = x]: the Number is rounded to
    binary32; a store out of range is ignored. *)
Definition store_sample (b : AudioBuffer) (channel i : nat) (x : num) : AudioBuffer :=
  mkAudioBuffer (numberOfChannels b) (buf_length b) (sampleRate b)
    (alter (fun ch => <[i := to_float32 x]> ch) channel (channels b)).

(** [target.set(source, offset)] on [Float32Array]s: the elements are copied
    as they are; [RangeError] when the source does not fit. *)
Definition Float32Array_set (target source : Float32Array) (offset : nat)
  : result Float32Array :=
  if decide (offset + length source <= length target)%nat
  then Ok (splice target offset source)
  else Throw RangeError.

(** [buffer.getChannelData(channel).set(source, offset)]. *)
Definition set_channel (b : AudioBuffer) (channel : nat) (source : Float32Array)
    (offset : nat) : result AudioBuffer :=
  target ← getChannelData b channel;
  data ← Float32Array_set target source offset;
  mret (mkAudioBuffer (numberOfChannels b) (buf_length b) (sampleRate b)
          (<[channel := data]> (channels b))).

(** ** Lemmas *)

Lemma valid32_to_float32_zero s : valid32 (S754_zero s) = true.
Proof. done. Qed.

Section createBuffer.
Context `{AudioLimits}.

Lemma createBuffer_Ok nch len rate :
  (1 <= nch <= maxChannels)%nat -> (1 <= len)%nat ->
  minSampleRate <= rate <= maxSampleRate ->
  createBuffer nch len rate
  = Ok (mkAudioBuffer nch len rate (replicate nch (replicate len (S754_zero false)))).
Proof. intros. unfold createBuffer. by rewrite decide_True. Qed.

Lemma createBuffer_inv nch len rate b :
  createBuffer nch len rate = Ok b ->
  b = mkAudioBuffer nch len rate (replicate nch (replicate len (S754_zero false)))
  /\ (1 <= nch <= maxChannels)%nat /\ (1 <= len)%nat
  /\ minSampleRate <= rate <= maxSampleRate.
Proof. unfold createBuffer. case_decide; [|done]. intros [= <-]. tauto. Qed.

Lemma createBuffer_zero_length nch rate : createBuffer nch 0 rate = Throw NotSupportedError.
Proof. unfold createBuffer. rewrite decide_False; [done|lia]. Qed.

Lemma createBuffer_zero_channels len rate : createBuffer 0 len rate = Throw NotSupportedError.
Proof. unfold createBuffer. rewrite decide_False; [done|lia]. Qed.

Lemma createBuffer_wf nch len rate b : createBuffer nch len rate = Ok b -> wf_buffer b.
Proof.
  intros (-> & ? & ? & ?)%createBuffer_inv. repeat split; simpl; [lia..| |].
  - by rewrite length_replicate.
  - apply Forall_replicate. split; [by rewrite length_replicate|].
    by apply Forall_replicate.
Qed.

End createBuffer.

Lemma getChannelData_Ok b channel data :
  getChannelData b channel = Ok data <-> channels b !! channel = Some data.
Proof. apply of_option_Ok. Qed.

Lemma getChannelData_lt b channel :
  length (channels b) = numberOfChannels b -> (channel < numberOfChannels b)%nat ->
  exists data, getChannelData b channel = Ok data.
Proof.
  intros Hl Hc. destruct (lookup_lt_is_Some_2 (channels b) channel) as [data Hd]; [lia|].
  exists data. by apply getChannelData_Ok.
Qed.

Lemma getChannelData_ge b channel :
  length (channels b) = numberOfChannels b -> (numberOfChannels b <= channel)%nat ->
  getChannelData b channel = Throw IndexSizeError.
Proof.
  intros Hl Hc. unfold getChannelData. rewrite lookup_ge_None_2; [done|lia].
Qed.

(** A loop of stores into one channel is one update of that channel. *)
Lemma fold_store_sample (g : nat -> num) (channel : nat) (js : list nat) (b : AudioBuffer) :
  fold_left (fun b i => store_sample b channel i (g i)) js b
  = mkAudioBuffer (numberOfChannels b) (buf_length b) (sampleRate b)
      (alter (fun ch => fold_left (fun l i => <[i := to_float32 (g i)]> l) js ch)
         channel (channels b)).
Proof.
  revert b; induction js as [|i js IH]; intros [nch len rate chs]; simpl.
  - by rewrite list_alter_id.
  - rewrite IH. simpl. by rewrite list_alter_alter_eq.
Qed.
