(* ===== verification/PcmDecoder.v ===== *)
(** * PcmDecoder: [decodePCMToAudioBuffer] of [src/utils/audioUtils.ts]

    The bytes of a chunk are read as signed 16-bit integers, a buffer of
    [length / numChannels] frames is created, and sample [i] of channel [c]
    is the integer at index [i * numChannels + c] divided by 32768.  The
    model follows the two loops of the source, store by store; the theorems
    relate it to the de-interleaving written as a map, say exactly when the
    function throws, and give the value of every sample. *)

From Stdlib Require Import ZArith Lia Floats.SpecFloat.
From stdpp Require Import base tactics list numbers.
From S2P Require Import Prelude JsNumber Bytes AudioBuffer.

#[local] Open Scope Z_scope.

(** ** The model *)

(** [v / 32768.0] stored into a [Float32Array] (line 43, for an element [v]
    of the [Int16Array]). *)
Definition pcm_to_float (v : Z) : num :=
  to_float32 (num_div (num_of_Z v) (num_of_Z 32768)).

(** The right-hand side of line 43: an index past the end of [dataInt16]
    reads [undefined], and [undefined / 32768.0] is NaN. *)
Definition pcm_sample (dataInt16 : list Z) (idx : nat) : num :=
  match dataInt16 !! idx with
  | Some v => num_div (num_of_Z v) (num_of_Z 32768)
  | None => S754_nan
  end.

(** How many [i = 0, 1, ...] satisfy [i < len / numChannels], the quotient
    being the Number the source computes: its ceiling.  The quotient is exact
    enough for the comparison as long as both operands are below [2^32]. *)
Definition loop_bound (len numChannels : nat) : nat :=
  ((len + numChannels - 1) / numChannels)%nat.

(** The inner loop (lines 42-44) for one channel. *)
Definition decode_channel (dataInt16 : list Z) (numChannels channel : nat)
    (b : AudioBuffer) : AudioBuffer :=
  fold_left
    (fun b i => store_sample b channel i (pcm_sample dataInt16 (i * numChannels + channel)))
    (seq 0 (loop_bound (length dataInt16) numChannels)) b.

(** The outer loop (lines 40-45): [getChannelData] may throw. *)
Definition decode_channels (dataInt16 : list Z) (numChannels : nat)
    (b : AudioBuffer) : result AudioBuffer :=
  foldM (fun b channel =>
           _ ← getChannelData b channel;
           mret (decode_channel dataInt16 numChannels channel b))
        (seq 0 numChannels) b.

Section decode.
Context `{limits : AudioLimits}.

(** [decodePCMToAudioBuffer(data, ctx, sampleRate, numChannels)] (lines
    30-47).  The length passed to [createBuffer] is the quotient converted to
    an unsigned long, that is its floor. *)
Definition decodePCMToAudioBuffer (data : bytes) (sampleRate : Z) (numChannels : nat)
  : result AudioBuffer :=
  dataInt16 ← Int16Array_of data;
  let frameCount := (length dataInt16 / numChannels)%nat in
  buffer ← createBuffer numChannels frameCount sampleRate;
  decode_channels dataInt16 numChannels buffer.

End decode.

(** ** The reference: de-interleaving as a map *)

Definition deinterleave (dataInt16 : list Z) (numChannels frames channel : nat)
  : Float32Array :=
  (fun i => pcm_to_float (default 0 (dataInt16 !! (i * numChannels + channel)%nat)))
    <$> seq 0 frames.

Definition decoded (data : bytes) (sampleRate : Z) (numChannels : nat) : AudioBuffer :=
  let dataInt16 := int16s_of_bytes data in
  let frames := (length dataInt16 / numChannels)%nat in
  mkAudioBuffer numChannels frames sampleRate
    ((fun c => deinterleave dataInt16 numChannels frames c) <$> seq 0 numChannels).

(** ** The value of a sample *)

Lemma int16_digits p : Zpos p <= 32768 -> Zpos (digits2_pos p) <= 16.
Proof. intros. apply digits2_pos_le; lia. Qed.

Lemma num_32768 : num_of_Z 32768 = norm prec64 false 1 15.
Proof. reflexivity. Qed.

Lemma norm_ok_int16 p k :
  Zpos p <= 32768 -> -30 <= k <= 30 ->
  norm_ok prec64 emax64 p k /\ norm_ok prec32 emax32 p k.
Proof.
  intros Hp%int16_digits Hk. pose proof (Pos2Z.is_pos (digits2_pos p)).
  unfold norm_ok, emin, prec64, emax64, prec32, emax32. lia.
Qed.

(** The quotient of line 43 is exact. *)
Lemma num_div_32768 s p :
  Zpos p <= 32768 ->
  num_div (norm prec64 s p 0) (num_of_Z 32768) = norm prec64 s p (-15).
Proof.
  intros Hp. rewrite num_32768. change (-15) with (0 - 15).
  apply num_div_pow2; [by apply norm_ok_int16| |by apply norm_ok_int16].
  by vm_compute.
Qed.

Lemma pcm_to_float_pos p :
  Zpos p <= 32768 -> pcm_to_float (Zpos p) = norm prec32 false p (-15).
Proof.
  intros Hp. unfold pcm_to_float.
  rewrite num_of_Z_pos by (pose proof (int16_digits p Hp); unfold prec64; lia).
  rewrite num_div_32768 by done. apply to_float32_norm; by apply norm_ok_int16.
Qed.

Lemma pcm_to_float_neg p :
  Zpos p <= 32768 -> pcm_to_float (Zneg p) = norm prec32 true p (-15).
Proof.
  intros Hp. unfold pcm_to_float.
  rewrite num_of_Z_neg by (pose proof (int16_digits p Hp); unfold prec64; lia).
  rewrite num_div_32768 by done. apply to_float32_norm; by apply norm_ok_int16.
Qed.

Lemma pcm_to_float_0 : pcm_to_float 0 = S754_zero false.
Proof. reflexivity. Qed.

(** Every sample the decoder produces is a binary32 value worth exactly
    [v / 32768]. *)
Lemma pcm_to_float_valid v : - 32768 <= v <= 32768 -> valid32 (pcm_to_float v) = true.
Proof.
  intros Hv. destruct v as [|p|p]; [done|..].
  - rewrite pcm_to_float_pos by lia. apply norm_bounded, norm_ok_int16; lia.
  - rewrite pcm_to_float_neg by lia. apply norm_bounded, norm_ok_int16; lia.
Qed.

#[local] Close Scope Z_scope.

(** ** The loops compute the de-interleaving *)

Lemma loop_bound_ge len nch : 1 <= nch -> len / nch <= loop_bound len nch.
Proof. intros. unfold loop_bound. apply Nat.Div0.div_le_mono. lia. Qed.

Lemma interleaved_index_lt len nch i c :
  c < nch -> i < len / nch -> i * nch + c < len.
Proof.
  intros Hc Hi. pose proof (Nat.Div0.mul_div_le len nch).
  assert (S i * nch <= len / nch * nch) by (apply Nat.mul_le_mono_r; lia). lia.
Qed.

Section loops.
Context (dataInt16 : list Z) (nch : nat) (rate : Z).
Let frames := length dataInt16 / nch.
Let silent : Float32Array := replicate frames (S754_zero false).

(** The inner loop turns a silent channel into the de-interleaved one: the
    stores past the last frame are ignored. *)
Lemma decode_channel_silent c (pre post : list Float32Array) :
  1 <= nch -> c < nch -> length pre = c ->
  decode_channel dataInt16 nch c (mkAudioBuffer nch frames rate (pre ++ silent :: post))
  = mkAudioBuffer nch frames rate (pre ++ deinterleave dataInt16 nch frames c :: post).
Proof.
  intros Hn Hc Hpre. unfold decode_channel. rewrite fold_store_sample. simpl. f_equal.
  rewrite alter_app_r_alt, Hpre, Nat.sub_diag by lia. simpl. do 2 f_equal.
  rewrite fold_insert_seq. unfold silent at 1 2. rewrite length_replicate.
  rewrite Nat.min_r by by apply loop_bound_ge.
  rewrite drop_ge, app_nil_r by (rewrite length_replicate; by apply loop_bound_ge).
  unfold deinterleave. apply list_fmap_ext. intros j i [-> Hj]%lookup_seq. simpl.
  unfold pcm_sample, pcm_to_float.
  destruct (lookup_lt_is_Some_2 dataInt16 (j * nch + c)) as [v ->]; [|done].
  by apply interleaved_index_lt.
Qed.

(** After [k] rounds of the outer loop the first [k] channels are decoded. *)
Lemma decode_channels_prefix k :
  1 <= nch -> k <= nch ->
  foldM (fun b channel =>
           _ ← getChannelData b channel;
           mret (decode_channel dataInt16 nch channel b))
        (seq 0 k) (mkAudioBuffer nch frames rate (replicate nch silent))
  = Ok (mkAudioBuffer nch frames rate
          ((deinterleave dataInt16 nch frames <$> seq 0 k) ++ replicate (nch - k) silent)).
Proof.
  intros Hn. induction k as [|k IH]; intros Hk.
  - by rewrite Nat.sub_0_r.
  - rewrite seq_S, foldM_app, IH by lia. simpl.
    assert (length (deinterleave dataInt16 nch frames <$> seq 0 k) = k) as Hlen
      by by rewrite length_fmap, length_seq.
    replace (nch - k) with (S (nch - S k)) by lia. cbn [replicate].
    unfold getChannelData. cbn [channels].
    rewrite lookup_app_r, Hlen, Nat.sub_diag by lia. simpl.
    rewrite decode_channel_silent by (done || lia).
    by rewrite fmap_app, <- app_assoc.
Qed.

Lemma decode_channels_silent :
  1 <= nch ->
  decode_channels dataInt16 nch (mkAudioBuffer nch frames rate (replicate nch silent))
  = Ok (mkAudioBuffer nch frames rate (deinterleave dataInt16 nch frames <$> seq 0 nch)).
Proof.
  intros Hn. unfold decode_channels. rewrite decode_channels_prefix by done.
  by rewrite Nat.sub_diag, app_nil_r.
Qed.

End loops.

(** ** The reference is well formed *)

Lemma decoded_wf (data : bytes) (rate : Z) (nch : nat) :
  1 <= nch -> nch <= length data / 2 -> wf_buffer (decoded data rate nch).
Proof.
  intros Hn Hl. unfold decoded, wf_buffer. simpl.
  rewrite length_fmap, length_seq, length_int16s_of_bytes.
  split; [lia|]. split; [apply Nat.div_str_pos; lia|]. split; [done|].
  apply Forall_fmap, Forall_forall. intros c _. simpl. unfold deinterleave.
  rewrite length_fmap, length_seq. split; [done|].
  apply Forall_fmap, Forall_forall. intros i _. simpl.
  apply pcm_to_float_valid.
  destruct (int16s_of_bytes data !! (i * nch + c)) as [v|] eqn:Hv; simpl; [|lia].
  pose proof (int16s_of_bytes_range data) as Hr.
  rewrite Forall_lookup in Hr. specialize (Hr _ _ Hv). simpl in Hr. lia.
Qed.

(** ** The decoder *)

Section decoder.
Context `{limits : AudioLimits}.

(** The decoder on every input, as one equation. *)
Lemma decodePCM_cases (data : bytes) (rate : Z) (nch : nat) :
  decodePCMToAudioBuffer data rate nch
  = if Nat.even (length data)
    then if decide ((1 <= nch <= maxChannels) /\ nch <= length data / 2
                    /\ (minSampleRate <= rate <= maxSampleRate)%Z)
         then Ok (decoded data rate nch)
         else Throw NotSupportedError
    else Throw RangeError.
Proof.
  unfold decodePCMToAudioBuffer, Int16Array_of.
  destruct (Nat.even (length data)); [|done]. rewrite bind_Ok.
  rewrite length_int16s_of_bytes. unfold createBuffer.
  destruct (decide (1 <= nch)) as [Hn|Hn].
  - rewrite (decide_ext _ ((1 <= nch <= maxChannels) /\ nch <= length data / 2
                           /\ (minSampleRate <= rate <= maxSampleRate)%Z)).
    + case_decide; [|done]. rewrite bind_Ok.
      rewrite <- (length_int16s_of_bytes data). by rewrite decode_channels_silent.
    + pose proof (Nat.div_str_pos_iff (length data / 2) nch). intuition lia.
  - rewrite !decide_False by lia. done.
Qed.

Lemma decodePCM_Ok data rate nch b :
  decodePCMToAudioBuffer data rate nch = Ok b ->
  b = decoded data rate nch /\ Nat.even (length data) = true
  /\ 1 <= nch <= maxChannels /\ nch <= length data / 2.
Proof.
  rewrite decodePCM_cases. destruct (Nat.even (length data)); [|done].
  case_decide; [|done]. intros [= <-]. tauto.
Qed.

(** C1. [decodePCMToAudioBuffer] on every input: it throws [RangeError] on
    an odd number of bytes, [NotSupportedError] when [createBuffer] refuses
    the channel count, the frame count (fewer 16-bit integers than channels,
    so also no data at all) or the sample rate, and otherwise returns the
    de-interleaved buffer [decoded]: the two loops of the source compute the
    map of the reference. *)
Theorem decodePCM_spec (data : bytes) (rate : Z) (nch : nat) :
  decodePCMToAudioBuffer data rate nch
  = if Nat.even (length data)
    then if decide ((1 <= nch <= maxChannels) /\ nch <= length data / 2
                    /\ (minSampleRate <= rate <= maxSampleRate)%Z)
         then Ok (decoded data rate nch)
         else Throw NotSupportedError
    else Throw RangeError.
Proof. apply decodePCM_cases. Qed.

(** The attributes of a decoded buffer: [byteLength / 2 / numChannels]
    frames (the floor: samples that do not fill a frame are dropped), the
    channel count and the sample rate asked for. *)
Theorem decodePCM_attributes data rate nch b :
  decodePCMToAudioBuffer data rate nch = Ok b ->
  buf_length b = length data / 2 / nch /\ numberOfChannels b = nch /\ sampleRate b = rate.
Proof.
  intros (-> & _)%decodePCM_Ok. unfold decoded. simpl.
  by rewrite length_int16s_of_bytes.
Qed.

(** C35. Sample [i] of channel [c] of a decoded buffer is the 16-bit integer
    [v] at index [i * numChannels + c] of the data, as the binary32 value
    worth exactly [v / 32768]. *)
Theorem decodePCM_sample data rate nch b c i :
  decodePCMToAudioBuffer data rate nch = Ok b -> c < nch -> i < buf_length b ->
  exists v ch,
    int16s_of_bytes data !! (i * nch + c) = Some v
    /\ getChannelData b c = Ok ch
    /\ ch !! i = Some (pcm_to_float v)
    /\ scaled 15 (pcm_to_float v) = Some v.
Proof.
  intros (-> & _ & Hn & _)%decodePCM_Ok Hc Hi. unfold decoded in *. simpl in Hi.
  destruct (lookup_lt_is_Some_2 (int16s_of_bytes data) (i * nch + c)) as [v Hv].
  { by apply interleaved_index_lt. }
  exists v, (deinterleave (int16s_of_bytes data) nch
               (length (int16s_of_bytes data) / nch) c).
  split; [done|]. split; [|split].
  - apply getChannelData_Ok. simpl. rewrite list_lookup_fmap, lookup_seq_lt by done. done.
  - unfold deinterleave. rewrite list_lookup_fmap, lookup_seq_lt by done. simpl.
    by rewrite Hv.
  - pose proof (int16s_of_bytes_range data) as Hr.
    rewrite Forall_lookup in Hr. specialize (Hr _ _ Hv). simpl in Hr.
    destruct v as [|p|p]; [done|..].
    + rewrite pcm_to_float_pos by lia.
      rewrite scaled_norm by (pose proof (int16_digits p); unfold prec32; lia).
      simpl. f_equal. lia.
    + rewrite pcm_to_float_neg by lia.
      rewrite scaled_norm by (pose proof (int16_digits p); unfold prec32; lia).
      simpl. f_equal. lia.
Qed.

(** A decoded buffer is well formed: as many channels as its attribute
    says, all of the buffer's length, at least one frame, and every sample a
    binary32 value. *)
Theorem decodePCM_wf data rate nch b :
  decodePCMToAudioBuffer data rate nch = Ok b -> wf_buffer b.
Proof. intros (-> & _ & Hn & Hl)%decodePCM_Ok. apply decoded_wf; lia. Qed.

End decoder.

(** ** Witnesses: the two samples 0 and 16384 of the end-to-end scenario *)

Lemma decodePCM_attributes_witness :
  buf_length (decoded [Byte.x00; Byte.x00; Byte.x00; Byte.x40] 24000 1) = 4 / 2 / 1
  /\ numberOfChannels (decoded [Byte.x00; Byte.x00; Byte.x00; Byte.x40] 24000 1) = 1
  /\ sampleRate (decoded [Byte.x00; Byte.x00; Byte.x00; Byte.x40] 24000 1) = 24000%Z.
Proof.
  apply (decodePCM_attributes (limits := spec_limits)
           [Byte.x00; Byte.x00; Byte.x00; Byte.x40] 24000 1).
  vm_compute. reflexivity.
Defined.

Lemma decodePCM_sample_witness :
  exists v ch,
    int16s_of_bytes [Byte.x00; Byte.x00; Byte.x00; Byte.x40] !! (1 * 1 + 0) = Some v
    /\ getChannelData (decoded [Byte.x00; Byte.x00; Byte.x00; Byte.x40] 24000 1) 0 = Ok ch
    /\ ch !! 1 = Some (pcm_to_float v)
    /\ scaled 15 (pcm_to_float v) = Some v.
Proof.
  apply (decodePCM_sample (limits := spec_limits)
           [Byte.x00; Byte.x00; Byte.x00; Byte.x40] 24000 1);
    [vm_compute; reflexivity | lia | simpl; lia].
Defined.

Lemma decodePCM_wf_witness :
  wf_buffer (decoded [Byte.x00; Byte.x00; Byte.x00; Byte.x40] 24000 1).
Proof.
  apply (decodePCM_wf (limits := spec_limits)
           [Byte.x00; Byte.x00; Byte.x00; Byte.x40] 24000 1).
  vm_compute. reflexivity.
Defined.
