(* ===== verification/Merge.v ===== *)
(** * Merge: [mergeAudioBuffers] of [src/utils/audioUtils.ts]

    No buffer gives a silent placeholder of one frame, one buffer is
    returned as it is, and several are copied one after the other, channel
    by channel, into a buffer created with the channel count and the sample
    rate of the first and the sum of the lengths.  The model follows the
    [reduce], the two loops and the [set] calls of the source, which throw
    when a buffer lacks a channel; the theorems relate it to the
    concatenation of the channels. *)

From Stdlib Require Import ZArith Lia Floats.SpecFloat.
From stdpp Require Import base tactics list numbers.
From S2P Require Import Prelude JsNumber AudioBuffer.

(** ** The model *)

(** [buffers.reduce((acc, buf) => acc + buf.length, 0)] (line 114). *)
Definition totalLength (buffers : list AudioBuffer) : nat :=
  fold_left (fun acc buf => acc + buf_length buf) buffers 0.

(** The body of the inner loop (lines 120-121): the destination channel is
    fetched first, then the source channel, then the copy is made and the
    offset advanced by the [length] attribute of the source. *)
Definition merge_step (channel : nat) (st : AudioBuffer * nat) (buffer : AudioBuffer)
  : result (AudioBuffer * nat) :=
  let '(result, offset) := st in
  _ ← getChannelData result channel;
  source ← getChannelData buffer channel;
  result' ← set_channel result channel source offset;
  mret (result', offset + buf_length buffer).

(** The inner loop (lines 118-122) for one channel. *)
Definition merge_channel (buffers : list AudioBuffer) (result : AudioBuffer) (channel : nat)
  : Prelude.result AudioBuffer :=
  fst <$> foldM (merge_step channel) buffers (result, 0).

Section merge.
Context `{limits : AudioLimits}.

(** [mergeAudioBuffers(buffers, ctx)] (lines 110-126). *)
Definition mergeAudioBuffers (buffers : list AudioBuffer) : result AudioBuffer :=
  match buffers with
  | [] => createBuffer 1 1 24000
  | [buffer] => Ok buffer
  | first :: _ =>
      result ← createBuffer (numberOfChannels first) (totalLength buffers) (sampleRate first);
      foldM (merge_channel buffers) (seq 0 (numberOfChannels result)) result
  end.

End merge.

(** ** The reference: concatenation of the channels *)

Definition channel_of (channel : nat) (b : AudioBuffer) : Float32Array :=
  default [] (channels b !! channel).

Definition merged (buffers : list AudioBuffer) : AudioBuffer :=
  match buffers with
  | [] => mkAudioBuffer 1 1 24000 [[S754_zero false]]
  | [buffer] => buffer
  | first :: _ =>
      mkAudioBuffer (numberOfChannels first) (sum_list (buf_length <$> buffers))
        (sampleRate first)
        ((fun c => mjoin (channel_of c <$> buffers)) <$> seq 0 (numberOfChannels first))
  end.

(** The buffers that [mergeAudioBuffers] can merge into [nch] channels:
    well formed, with at least [nch] channels. *)
Definition mergeable (nch : nat) (b : AudioBuffer) : Prop :=
  wf_buffer b /\ nch <= numberOfChannels b.

(** ** Lemmas *)

Lemma totalLength_sum buffers : totalLength buffers = sum_list (buf_length <$> buffers).
Proof.
  unfold totalLength.
  enough (forall acc, fold_left (fun acc buf => acc + buf_length buf) buffers acc
                 = acc + sum_list (buf_length <$> buffers)) as Hg by apply (Hg 0).
  induction buffers as [|b bs IH]; intros acc; cbn [fold_left].
  - simpl. lia.
  - rewrite IH, fmap_cons. simpl. lia.
Qed.

Lemma totalLength_app bs1 bs2 : totalLength (bs1 ++ bs2) = totalLength bs1 + totalLength bs2.
Proof. by rewrite !totalLength_sum, fmap_app, sum_list_with_app. Qed.

Lemma mergeable_channel nch b c :
  mergeable nch b -> c < nch ->
  exists src, channels b !! c = Some src /\ length src = buf_length b
    /\ Forall (fun x => valid32 x = true) src.
Proof.
  intros [(_ & _ & Hl & Hch) Hn] Hc.
  destruct (lookup_lt_is_Some_2 (channels b) c) as [src Hsrc]; [lia|].
  exists src. split; [done|]. by apply (Forall_lookup_1 _ _ _ _ Hch Hsrc).
Qed.

Lemma Forall_mergeable nch bs :
  Forall wf_buffer bs -> Forall (fun x => nch <= numberOfChannels x) bs ->
  Forall (mergeable nch) bs.
Proof.
  induction 1 as [|b bs Hb _ IH]; intros H2; [done|].
  apply Forall_cons_1 in H2 as [? ?]. constructor; [done|auto].
Qed.

Lemma Float32Array_set_fill (done_ src : Float32Array) n :
  length src <= n ->
  Float32Array_set (done_ ++ replicate n (S754_zero false)) src (length done_)
  = Ok ((done_ ++ src) ++ replicate (n - length src) (S754_zero false)).
Proof.
  intros Hn. unfold Float32Array_set.
  rewrite decide_True by (rewrite length_app, length_replicate; lia). f_equal.
  by apply splice_fill.
Qed.

(** ** The inner loop fills one channel *)

Section inner_loop.
Context (nch total : nat) (rate : Z) (c : nat) (pre post : list Float32Array).
Context (Hpre : length pre = c).

Let buffer_with (data : Float32Array) : AudioBuffer :=
  mkAudioBuffer nch total rate (pre ++ data :: post).

Lemma merge_step_fill (filled : Float32Array) (n : nat) (b : AudioBuffer) (src : Float32Array) :
  channels b !! c = Some src -> length src = buf_length b -> length src <= n ->
  merge_step c (buffer_with (filled ++ replicate n (S754_zero false)), length filled) b
  = Ok (buffer_with ((filled ++ src) ++ replicate (n - length src) (S754_zero false)),
        length filled + buf_length b).
Proof.
  intros Hsrc Hlen Hn. unfold merge_step, set_channel, getChannelData, buffer_with.
  cbn [channels numberOfChannels buf_length sampleRate].
  rewrite Hsrc, lookup_app_r, Hpre, Nat.sub_diag by lia. simpl.
  rewrite Float32Array_set_fill by done. simpl. do 3 f_equal.
  rewrite insert_app_r_alt, Hpre, Nat.sub_diag by lia. done.
Qed.

Lemma merge_channel_fill (bs : list AudioBuffer) (filled : Float32Array) (n : nat) :
  Forall (mergeable (S c)) bs -> sum_list (buf_length <$> bs) <= n ->
  foldM (merge_step c) bs
    (buffer_with (filled ++ replicate n (S754_zero false)), length filled)
  = Ok (buffer_with ((filled ++ mjoin (channel_of c <$> bs))
                     ++ replicate (n - sum_list (buf_length <$> bs)) (S754_zero false)),
        length filled + sum_list (buf_length <$> bs)).
Proof.
  revert filled n. induction bs as [|b bs IH]; intros filled n Hbs Hn.
  - simpl. by rewrite app_nil_r, Nat.sub_0_r, Nat.add_0_r.
  - apply Forall_cons_1 in Hbs as [Hb Hbs]. rewrite fmap_cons in Hn. simpl in Hn.
    destruct (mergeable_channel _ _ c Hb) as (src & Hsrc & Hlen & _); [lia|].
    cbn [foldM]. rewrite (merge_step_fill _ _ _ src) by (done || lia).
    rewrite bind_Ok, <- Hlen, <- length_app, IH by (done || lia).
    rewrite !fmap_cons. unfold channel_of at 2. rewrite Hsrc. simpl.
    rewrite length_app, Hlen, <- !app_assoc.
    replace (n - buf_length b - sum_list (buf_length <$> bs))
      with (n - (buf_length b + sum_list (buf_length <$> bs))) by lia.
    by rewrite Nat.add_assoc.
Qed.

Lemma merge_step_missing (data : Float32Array) (off : nat) (x : AudioBuffer) :
  channels x !! c = None -> merge_step c (buffer_with data, off) x = Throw IndexSizeError.
Proof.
  intros Hx. unfold merge_step, getChannelData, buffer_with. cbn [channels].
  rewrite lookup_app_r, Hpre, Nat.sub_diag, Hx by lia. done.
Qed.

Lemma merge_channel_missing (l1 l2 : list AudioBuffer) (x : AudioBuffer)
    (filled : Float32Array) (n : nat) :
  Forall (mergeable (S c)) l1 -> sum_list (buf_length <$> l1) <= n ->
  channels x !! c = None ->
  foldM (merge_step c) (l1 ++ x :: l2)
    (buffer_with (filled ++ replicate n (S754_zero false)), length filled)
  = Throw IndexSizeError.
Proof.
  intros Hl1 Hn Hx. rewrite foldM_app, merge_channel_fill, bind_Ok by done.
  cbn [foldM]. by rewrite (merge_step_missing _ _ _ Hx).
Qed.

End inner_loop.

(** ** The outer loop *)

Section outer_loop.
Context (buffers : list AudioBuffer) (nch : nat) (rate : Z).
Let total := sum_list (buf_length <$> buffers).
Let silent : Float32Array := replicate total (S754_zero false).

Lemma merge_channel_silent c (pre post : list Float32Array) :
  length pre = c -> Forall (mergeable (S c)) buffers ->
  merge_channel buffers (mkAudioBuffer nch total rate (pre ++ silent :: post)) c
  = Ok (mkAudioBuffer nch total rate (pre ++ mjoin (channel_of c <$> buffers) :: post)).
Proof.
  intros Hpre Hbs. unfold merge_channel.
  pose proof (merge_channel_fill nch total rate c pre post Hpre buffers [] total Hbs) as Hf.
  simpl in Hf. unfold silent. rewrite Hf by done. simpl.
  fold total. by rewrite Nat.sub_diag, app_nil_r.
Qed.

Lemma merge_channels_prefix k :
  k <= nch -> Forall (mergeable k) buffers ->
  foldM (merge_channel buffers) (seq 0 k)
    (mkAudioBuffer nch total rate (replicate nch silent))
  = Ok (mkAudioBuffer nch total rate
          (((fun c => mjoin (channel_of c <$> buffers)) <$> seq 0 k)
           ++ replicate (nch - k) silent)).
Proof.
  induction k as [|k IH]; intros Hk Hbs.
  - by rewrite Nat.sub_0_r.
  - rewrite seq_S, foldM_app, IH; [|lia|].
    2: { revert Hbs. apply Forall_impl. intros b [? ?]; split; [done|lia]. }
    replace (nch - k) with (S (nch - S k)) by lia. cbn [replicate].
    rewrite bind_Ok. cbn [foldM Nat.add].
    rewrite merge_channel_silent by (by rewrite ?length_fmap, ?length_seq).
    rewrite bind_Ok. by rewrite fmap_app, <- app_assoc.
Qed.

Lemma merge_channel_silent_missing c (pre post : list Float32Array) l1 x l2 :
  length pre = c -> buffers = l1 ++ x :: l2 -> Forall (mergeable (S c)) l1 ->
  channels x !! c = None ->
  merge_channel buffers (mkAudioBuffer nch total rate (pre ++ silent :: post)) c
  = Throw IndexSizeError.
Proof.
  intros Hpre Hb Hl1 Hx. unfold merge_channel, silent, total. rewrite Hb.
  pose proof (merge_channel_missing nch (sum_list (buf_length <$> l1 ++ x :: l2)) rate
                c pre post Hpre l1 l2 x []) as Hf.
  simpl in Hf. rewrite Hf; [done|done| |done].
  rewrite fmap_app, sum_list_with_app. lia.
Qed.

End outer_loop.

(** ** The attributes are those given to [createBuffer] *)

Definition same_attributes (r r' : AudioBuffer) : Prop :=
  numberOfChannels r' = numberOfChannels r /\ buf_length r' = buf_length r
  /\ sampleRate r' = sampleRate r.

Lemma set_channel_attributes r c src off r' :
  set_channel r c src off = Ok r' -> same_attributes r r'.
Proof. unfold set_channel. intros Hs. by simplify_result. Qed.

Lemma merge_channel_attributes bs r c r' :
  merge_channel bs r c = Ok r' -> same_attributes r r'.
Proof.
  unfold merge_channel. intros Hm. simplify_result. destruct x as [r'' off].
  simpl in Hm. subst r'.
  apply (foldM_invariant (merge_step c) (fun st => same_attributes r st.1) bs (r, 0)
           (r'', off)); [|done|done].
  intros [r1 o1] b [r2 o2] _ Hr1 Hstep. unfold merge_step in Hstep. simplify_result.
  match goal with
  | Hs : set_channel _ _ _ _ = Ok _ |- _ => apply set_channel_attributes in Hs
  end.
  unfold same_attributes in *. simpl in *. intuition congruence.
Qed.

Lemma merged_channel_wf nch buffers c :
  Forall (mergeable nch) buffers -> c < nch ->
  length (mjoin (channel_of c <$> buffers)) = sum_list (buf_length <$> buffers)
  /\ Forall (fun x => valid32 x = true) (mjoin (channel_of c <$> buffers)).
Proof.
  intros Hbs Hc. induction Hbs as [|b bs Hb _ [IHl IHv]]; [done|].
  destruct (mergeable_channel _ _ c Hb Hc) as (src & Hs & Hl & Hv).
  rewrite !fmap_cons. simpl in *. unfold channel_of at 1 3. rewrite Hs. simpl.
  split; [rewrite length_app; lia | by apply Forall_app].
Qed.

Section merge_theorems.
Context `{limits : AudioLimits}.

(** What the caller owes for two buffers or more: every buffer is well
    formed and has at least the channels of the first, whose channel count
    and sample rate [createBuffer] accepts. *)
Definition merge_ok (buffers : list AudioBuffer) : Prop :=
  match buffers with
  | first :: _ :: _ =>
      Forall (mergeable (numberOfChannels first)) buffers
      /\ numberOfChannels first <= maxChannels
      /\ (minSampleRate <= sampleRate first <= maxSampleRate)%Z
  | _ => True
  end.

Lemma merged_wf (buffers : list AudioBuffer) :
  Forall wf_buffer buffers -> merge_ok buffers -> wf_buffer (merged buffers).
Proof.
  intros Hwf Hok. destruct buffers as [|a [|b bs]].
  - repeat split; simpl; auto.
  - by apply Forall_inv in Hwf.
  - destruct Hok as (Hbs & _). pose proof (Forall_inv Hwf) as (Hn & Hl & _).
    unfold merged. repeat split; cbn [numberOfChannels buf_length channels]; [done| | |].
    + rewrite fmap_cons. simpl. lia.
    + by rewrite length_fmap, length_seq.
    + apply Forall_fmap, list.Forall_forall. intros c Hc%elem_of_seq.
      apply (merged_channel_wf (numberOfChannels a)); [done|lia].
Qed.

(** The loops compute the concatenation. *)
Lemma merge_refines (buffers : list AudioBuffer) :
  merge_ok buffers -> mergeAudioBuffers buffers = Ok (merged buffers).
Proof.
  destruct buffers as [|a [|b bs]]; intros Hok; [|done|].
  - pose proof maxChannels_ge. pose proof minSampleRate_le. pose proof maxSampleRate_ge.
    unfold mergeAudioBuffers. rewrite createBuffer_Ok by lia. done.
  - destruct Hok as (Hbs & Hmax & Hrate). unfold mergeAudioBuffers, merged.
    pose proof (Forall_inv Hbs) as [(Hn & Hl & _) _].
    rewrite totalLength_sum, createBuffer_Ok; [|lia|rewrite fmap_cons; simpl; lia|done].
    rewrite bind_Ok. cbn [numberOfChannels].
    rewrite merge_channels_prefix by done.
    by rewrite Nat.sub_diag, app_nil_r.
Qed.

(** C3. [mergeAudioBuffers] returns the concatenation [merged]: the
    placeholder of one silent frame at 24000 Hz for no buffer (whatever the
    browser's limits), the buffer itself for one, and for several the buffer
    whose channel [c] is the channels [c] of the inputs one after the other,
    in order and without gaps. *)
Theorem mergeAudioBuffers_spec (buffers : list AudioBuffer) :
  merge_ok buffers -> mergeAudioBuffers buffers = Ok (merged buffers).
Proof. apply merge_refines. Qed.

(** Whatever the buffers are, when a merge of two or more succeeds the
    result has the sum of their lengths as length, and the channel count and
    the sample rate of the first; the sample rates of the others are never
    looked at. *)
Theorem mergeAudioBuffers_attributes (a b : AudioBuffer) (bs : list AudioBuffer) r :
  mergeAudioBuffers (a :: b :: bs) = Ok r ->
  buf_length r = sum_list (buf_length <$> a :: b :: bs)
  /\ numberOfChannels r = numberOfChannels a /\ sampleRate r = sampleRate a.
Proof.
  unfold mergeAudioBuffers. intros Hm. simplify_result.
  match goal with
  | Hc : createBuffer _ _ _ = Ok _ |- _ => apply createBuffer_inv in Hc as (-> & _)
  end.
  rewrite totalLength_sum in Hm.
  cbn [numberOfChannels] in Hm.
  set (r0 := mkAudioBuffer _ _ _ _) in Hm.
  enough (same_attributes r0 r) as (? & ? & ?) by done.
  revert Hm. apply foldM_invariant; [|done].
  intros r1 c r2 _ (? & ? & ?) (? & ? & ?)%merge_channel_attributes.
  unfold same_attributes. intuition congruence.
Qed.

(** A merged buffer is well formed. *)
Theorem mergeAudioBuffers_wf (buffers : list AudioBuffer) r :
  Forall wf_buffer buffers -> merge_ok buffers ->
  mergeAudioBuffers buffers = Ok r -> wf_buffer r.
Proof.
  intros Hwf Hok. rewrite merge_refines by done. intros [= <-]. by apply merged_wf.
Qed.

(** The outer loop stops at the first channel that some buffer lacks. *)
Lemma merge_channels_missing (buffers : list AudioBuffer) nch rate k :
  k < nch -> Forall wf_buffer buffers ->
  Forall (fun x => k <= numberOfChannels x) buffers ->
  Exists (fun x => numberOfChannels x <= k) buffers ->
  foldM (merge_channel buffers) (seq 0 nch)
    (mkAudioBuffer nch (sum_list (buf_length <$> buffers)) rate
       (replicate nch (replicate (sum_list (buf_length <$> buffers)) (S754_zero false))))
  = Throw IndexSizeError.
Proof.
  intros Hk Hwf Hge (l1 & x & l2 & Hb & Hl1 & Hx)%Exists_first; [|apply _].
  replace nch with (k + S (nch - S k)) at 1 by lia.
  rewrite seq_app, foldM_app, merge_channels_prefix; [|lia|].
  2: { by apply Forall_mergeable. }
  replace (nch - k) with (S (nch - S k)) by lia. cbn [replicate seq foldM Nat.add].
  rewrite bind_Ok.
  rewrite (merge_channel_silent_missing _ _ _ _ _ _ l1 x l2); [done| |done| |].
  - by rewrite length_fmap, length_seq.
  - rewrite Hb in Hwf. apply Forall_app in Hwf as [Hwf1 _].
    apply Forall_mergeable; [done|]. apply (list.Forall_impl _ _ _ Hl1). intros; lia.
  - rewrite Hb in Hwf. apply Forall_app in Hwf as [_ [(_ & _ & Hl & _) _]%Forall_cons_1].
    apply lookup_ge_None_2. lia.
Qed.

(** C14. When a buffer has fewer channels than the first, the merge throws
    the [IndexSizeError] of [getChannelData]; no check of the channel counts
    precedes the loops. *)
Theorem mergeAudioBuffers_missing_channel (a b : AudioBuffer) (bs : list AudioBuffer) :
  Forall wf_buffer (a :: b :: bs) ->
  numberOfChannels a <= maxChannels ->
  (minSampleRate <= sampleRate a <= maxSampleRate)%Z ->
  Exists (fun x => numberOfChannels x < numberOfChannels a) (b :: bs) ->
  mergeAudioBuffers (a :: b :: bs) = Throw IndexSizeError.
Proof.
  intros Hwf Hmax Hrate Hex. unfold mergeAudioBuffers.
  pose proof (Forall_inv Hwf) as (Hn & Hl & _).
  rewrite totalLength_sum, createBuffer_Ok; [|lia|rewrite fmap_cons; simpl; lia|done].
  rewrite bind_Ok. cbn [numberOfChannels].
  set (buffers := a :: b :: bs) in *.
  destruct (foldr_min_spec (numberOfChannels a) (numberOfChannels <$> buffers))
    as (_ & Hge & Hin).
  set (k := foldr Nat.min _ _) in *. apply (proj1 (list.Forall_fmap _ _ _)) in Hge.
  assert (k < numberOfChannels a) as Hk.
  { apply list.Exists_exists in Hex as (x & Hx & Hlt).
    pose proof (proj1 (list.Forall_forall _ _) Hge x (list_elem_of_further _ _ _ Hx)).
    simpl in *. lia. }
  apply (merge_channels_missing buffers _ _ k); [done..|].
  destruct Hin as [?|(x & Hx & Hin)%list_elem_of_fmap]; [lia|].
  apply list.Exists_exists. exists x. split; [done|lia].
Qed.

End merge_theorems.

(** ** Witnesses: two mono chunks, and a stereo buffer followed by a mono one *)

Definition chunk_a : AudioBuffer :=
  mkAudioBuffer 1 2 24000 [[S754_zero false; S754_zero true]].
Definition chunk_b : AudioBuffer :=
  mkAudioBuffer 1 1 48000 [[S754_zero true]].
Definition chunk_stereo : AudioBuffer :=
  mkAudioBuffer 2 1 24000 [[S754_zero false]; [S754_zero true]].

Lemma mergeAudioBuffers_spec_witness :
  mergeAudioBuffers (limits := spec_limits) [chunk_a; chunk_b] = Ok (merged [chunk_a; chunk_b]).
Proof.
  apply (mergeAudioBuffers_spec (limits := spec_limits) [chunk_a; chunk_b]).
  apply (bool_decide_unpack _). vm_compute. exact I.
Defined.

Lemma mergeAudioBuffers_attributes_witness :
  buf_length (merged [chunk_a; chunk_b]) = sum_list (buf_length <$> [chunk_a; chunk_b])
  /\ numberOfChannels (merged [chunk_a; chunk_b]) = numberOfChannels chunk_a
  /\ sampleRate (merged [chunk_a; chunk_b]) = sampleRate chunk_a.
Proof.
  apply (mergeAudioBuffers_attributes (limits := spec_limits) chunk_a chunk_b []).
  vm_compute. reflexivity.
Defined.

Lemma mergeAudioBuffers_wf_witness : wf_buffer (merged [chunk_a; chunk_b]).
Proof.
  apply (mergeAudioBuffers_wf (limits := spec_limits) [chunk_a; chunk_b]).
  - apply (bool_decide_unpack _). vm_compute. exact I.
  - apply (bool_decide_unpack _). vm_compute. exact I.
  - vm_compute. reflexivity.
Defined.

Lemma mergeAudioBuffers_missing_channel_witness :
  mergeAudioBuffers (limits := spec_limits) [chunk_stereo; chunk_a] = Throw IndexSizeError.
Proof.
  apply (mergeAudioBuffers_missing_channel (limits := spec_limits) chunk_stereo chunk_a []).
  - apply (bool_decide_unpack _). vm_compute. exact I.
  - simpl. lia.
  - simpl. lia.
  - apply Exists_cons_hd. simpl. lia.
Defined.

