(* ===== verification/Wav.v ===== *)
(** * Wav: [audioBufferToWav] and [writeString] of [src/utils/audioUtils.ts]

    The encoder allocates [44 + 2 * frames] bytes, writes the thirteen
    fields of the RIFF/WAVE header through a [DataView] and then one 16-bit
    integer per sample of channel 0, clamped to [-1, 1] and scaled by 32768
    (negative) or 32767 (non-negative).  The model performs the same stores
    in the same order.  The theorems show that the stores never go out of
    bounds and that the result is the byte layout [wav_file] of the format,
    give the value of every field, the integer every sample becomes, and
    what a decoded chunk becomes when it is encoded again. *)

From Stdlib Require Import ZArith Lia Floats.SpecFloat.
From coqutil Require Import Byte Word.LittleEndianList.
From stdpp Require Import base tactics list numbers strings.
From S2P Require Import Prelude JsNumber JsString Bytes Types AudioBuffer PcmDecoder.

(** ** The model *)

(** [writeString(view, offset, string)] (lines 101-105).  A [charCodeAt]
    out of range would give NaN, which [setUint8] stores as 0. *)
Definition writeString (view : bytes) (offset : nat) (s : jsstring) : result bytes :=
  foldM (fun view i => setUint8 view (offset + i) (default 0%Z (charCodeAt s i)))
        (seq 0 (length s)) view.

(** [Math.max(-1, Math.min(1, x))] (line 94). *)
Definition clamp_sample (x : num) : num :=
  Math_max (num_of_Z (-1)) (Math_min (num_of_Z 1) x).

(** [s < 0 ? s * 0x8000 : s * 0x7FFF] (line 95). *)
Definition scale_sample (s : num) : num :=
  if num_lt s (num_of_Z 0) then num_mul s (num_of_Z 32768) else num_mul s (num_of_Z 32767).

(** The body of the sample loop (lines 93-96): [samples[i]] is read as a
    Number ([undefined] out of range, which [Math.min] turns into NaN). *)
Definition write_sample (samples : Float32Array) (st : bytes * nat) (i : nat)
  : result (bytes * nat) :=
  let '(view, offset) := st in
  let s := clamp_sample (from_option of_float32 S754_nan (samples !! i)) in
  view' ← setInt16 view offset (scale_sample s) true;
  mret (view', offset + 2).

(** The sample loop (lines 92-96). *)
Definition write_samples (view : bytes) (samples : Float32Array) : result bytes :=
  fst <$> foldM (write_sample samples) (seq 0 (length samples)) (view, 44).

(** [audioBufferToWav(buffer)] (lines 53-99). *)
Definition audioBufferToWav (buffer : AudioBuffer) : result Blob :=
  let numChannels := Z.of_nat (numberOfChannels buffer) in
  let sampleRate := sampleRate buffer in
  let format := 1%Z in
  let bitDepth := 16%Z in
  samples ← getChannelData buffer 0;
  let bufferLength := length samples * 2 in
  let view := zeros (44 + bufferLength) in
  view ← writeString view 0 (str "RIFF");
  view ← setUint32 view 4 (32 + Z.of_nat bufferLength) true;
  view ← writeString view 8 (str "WAVE");
  view ← writeString view 12 (str "fmt ");
  view ← setUint32 view 16 16 true;
  view ← setUint16 view 20 format true;
  view ← setUint16 view 22 numChannels true;
  view ← setUint32 view 24 sampleRate true;
  view ← setUint32 view 28 (sampleRate * numChannels * 2) true;
  view ← setUint16 view 32 (numChannels * 2) true;
  view ← setUint16 view 34 bitDepth true;
  view ← writeString view 36 (str "data");
  view ← setUint32 view 40 (Z.of_nat bufferLength) true;
  view ← write_samples view samples;
  mret (mkBlob view "audio/wav").

(** ** The reference: the layout of a canonical WAV file *)

(** The integer a sample becomes (lines 94-95 and the ToInt16 of
    [setInt16]). *)
Definition float_to_pcm (x : num) : Z :=
  ToInt16 (scale_sample (clamp_sample (of_float32 x))).

Definition tag (s : string) : bytes := byte.of_Z <$> str s.

(** The 44 bytes of the header, field by field. *)
Definition wav_header (numChannels sampleRate dataBytes : Z) : bytes :=
  tag "RIFF" ++ le_split 4 (32 + dataBytes) ++ tag "WAVE"
  ++ tag "fmt " ++ le_split 4 16 ++ le_split 2 1 ++ le_split 2 numChannels
  ++ le_split 4 sampleRate ++ le_split 4 (sampleRate * numChannels * 2)
  ++ le_split 2 (numChannels * 2) ++ le_split 2 16
  ++ tag "data" ++ le_split 4 dataBytes.

Definition wav_data (samples : Float32Array) : bytes :=
  bytes_of_int16s (float_to_pcm <$> samples).

Definition wav_file (b : AudioBuffer) : bytes :=
  let samples := default [] (channels b !! 0) in
  wav_header (Z.of_nat (numberOfChannels b)) (sampleRate b) (Z.of_nat (length samples * 2))
  ++ wav_data samples.

(** ** The reference reader: the header fields of a RIFF/WAVE file *)

Definition field_at (file : bytes) (off n : nat) : Z := le_combine (take n (drop off file)).

Record WavHeader : Type := mkWavHeader {
  h_riff : bytes;          (* offset 0 *)
  h_chunkSize : Z;         (* offset 4 *)
  h_wave : bytes;          (* offset 8 *)
  h_fmt : bytes;           (* offset 12 *)
  h_subchunk1Size : Z;     (* offset 16 *)
  h_audioFormat : Z;       (* offset 20 *)
  h_numChannels : Z;       (* offset 22 *)
  h_sampleRate : Z;        (* offset 24 *)
  h_byteRate : Z;          (* offset 28 *)
  h_blockAlign : Z;        (* offset 32 *)
  h_bitsPerSample : Z;     (* offset 34 *)
  h_data : bytes;          (* offset 36 *)
  h_subchunk2Size : Z;     (* offset 40 *)
}.

Definition read_header (file : bytes) : WavHeader :=
  mkWavHeader (take 4 file) (field_at file 4 4) (take 4 (drop 8 file))
    (take 4 (drop 12 file)) (field_at file 16 4) (field_at file 20 2)
    (field_at file 22 2) (field_at file 24 4) (field_at file 28 4)
    (field_at file 32 2) (field_at file 34 2) (take 4 (drop 36 file))
    (field_at file 40 4).

(** ** The stores fill the view from left to right *)

Lemma length_tag s : length (tag s) = String.length s.
Proof.
  unfold tag, str. rewrite !length_fmap. induction s; simpl; congruence.
Qed.

Lemma length_str s : length (str s) = String.length s.
Proof. unfold str. rewrite length_fmap. induction s; simpl; congruence. Qed.

Lemma length_wav_header nch rate n : length (wav_header nch rate n) = 44.
Proof. unfold wav_header. rewrite !length_app, !length_tag, !length_le_split. done. Qed.

Lemma length_wav_data samples : length (wav_data samples) = 2 * length samples.
Proof. unfold wav_data. by rewrite length_bytes_of_int16s, length_fmap. Qed.

#[export] Hint Rewrite length_tag length_str length_wav_header length_wav_data
  length_le_split : audio_len.

Section fill.
Implicit Types (filled : bytes) (n off : nat).

Lemma setUint8_fill filled n off v :
  off = length filled -> 1 <= n ->
  setUint8 (filled ++ zeros n) off v = Ok ((filled ++ [byte.of_Z v]) ++ zeros (n - 1)).
Proof. intros. unfold setUint8. by rewrite (write_bytes_fill filled n off). Qed.

Lemma setUint16_fill filled n off v :
  off = length filled -> 2 <= n ->
  setUint16 (filled ++ zeros n) off v true = Ok ((filled ++ le_split 2 v) ++ zeros (n - 2)).
Proof. intros. unfold setUint16. by rewrite (write_bytes_fill filled n off). Qed.

Lemma setUint32_fill filled n off v :
  off = length filled -> 4 <= n ->
  setUint32 (filled ++ zeros n) off v true = Ok ((filled ++ le_split 4 v) ++ zeros (n - 4)).
Proof. intros. unfold setUint32. by rewrite (write_bytes_fill filled n off). Qed.

Lemma setInt16_fill filled n off x :
  off = length filled -> 2 <= n ->
  setInt16 (filled ++ zeros n) off x true
  = Ok ((filled ++ le_split 2 (ToInt16 x)) ++ zeros (n - 2)).
Proof. intros. unfold setInt16. by rewrite (write_bytes_fill filled n off). Qed.

(** The loop of [writeString] from character [length pre] on. *)
Lemma writeString_loop filled n off (pre post : jsstring) :
  off + length pre = length filled -> length post <= n ->
  foldM (fun view i => setUint8 view (off + i) (default 0%Z (charCodeAt (pre ++ post) i)))
        (seq (length pre) (length post)) (filled ++ zeros n)
  = Ok ((filled ++ (byte.of_Z <$> post)) ++ zeros (n - length post)).
Proof.
  revert filled n pre. induction post as [|c post IH]; intros filled n pre Hoff Hn.
  - simpl. by rewrite app_nil_r, Nat.sub_0_r.
  - simpl in Hn. cbn [length seq foldM].
    rewrite setUint8_fill by lia. rewrite bind_Ok.
    replace (charCodeAt (pre ++ c :: post) (length pre)) with (Some c)
      by (symmetry; by apply list_lookup_middle).
    cbn [default from_option id].
    replace (pre ++ c :: post) with ((pre ++ [c]) ++ post) by by rewrite <- app_assoc.
    replace (S (length pre)) with (length (pre ++ [c])) by (rewrite length_app; simpl; lia).
    rewrite IH by (rewrite ?length_app; simpl; lia).
    rewrite fmap_cons, <- !app_assoc. simpl.
    by replace (n - 1 - length post) with (n - S (length post)) by lia.
Qed.

Lemma writeString_fill filled n off (s : string) :
  off = length filled -> String.length s <= n ->
  writeString (filled ++ zeros n) off (str s)
  = Ok ((filled ++ tag s) ++ zeros (n - String.length s)).
Proof.
  intros Hoff Hn. unfold writeString.
  pose proof (writeString_loop filled n off [] (str s)) as Hl.
  cbn [app length] in Hl. rewrite Hl by (rewrite ?length_str; lia).
  by rewrite length_str.
Qed.

Lemma write_sample_fill filled n (samples : Float32Array) i x :
  samples !! i = Some x -> 2 <= n ->
  write_sample samples (filled ++ zeros n, length filled) i
  = Ok ((filled ++ le_split 2 (float_to_pcm x)) ++ zeros (n - 2), length filled + 2).
Proof.
  intros Hx Hn. unfold write_sample. rewrite Hx. cbn [from_option].
  by rewrite setInt16_fill by done.
Qed.

(** The sample loop from sample [length pre] on. *)
Lemma write_samples_loop filled n (pre post : Float32Array) :
  2 * length post <= n ->
  foldM (write_sample (pre ++ post)) (seq (length pre) (length post))
        (filled ++ zeros n, length filled)
  = Ok ((filled ++ wav_data post) ++ zeros (n - 2 * length post),
        length filled + 2 * length post).
Proof.
  revert filled n pre. induction post as [|x post IH]; intros filled n pre Hn.
  - simpl. by rewrite app_nil_r, Nat.sub_0_r, Nat.add_0_r.
  - simpl in Hn. cbn [length seq foldM].
    rewrite (write_sample_fill _ _ _ _ x) by (lia || by apply list_lookup_middle).
    rewrite bind_Ok.
    replace (pre ++ x :: post) with ((pre ++ [x]) ++ post) by by rewrite <- app_assoc.
    replace (S (length pre)) with (length (pre ++ [x])) by (rewrite length_app; simpl; lia).
    replace (length filled + 2) with (length (filled ++ le_split 2 (float_to_pcm x)))
      by by rewrite length_app, length_le_split.
    rewrite IH by lia. rewrite length_app, length_le_split.
    unfold wav_data, bytes_of_int16s. rewrite fmap_cons. cbn [mbind list_bind].
    rewrite <- !app_assoc.
    replace (n - 2 - 2 * length post) with (n - 2 * S (length post)) by lia.
    by replace (length filled + 2 + 2 * length post)
      with (length filled + 2 * S (length post)) by lia.
Qed.

Lemma write_samples_fill filled (samples : Float32Array) :
  length filled = 44 ->
  write_samples (filled ++ zeros (length samples * 2)) samples = Ok (filled ++ wav_data samples).
Proof.
  intros Hf. unfold write_samples. rewrite <- Hf.
  pose proof (write_samples_loop filled (length samples * 2) [] samples) as Hl.
  simpl in Hl. rewrite Hl by lia. simpl.
  replace (length samples * 2 - (length samples + (length samples + 0))) with 0 by lia.
  by rewrite app_nil_r.
Qed.

End fill.

(** One store of the header: the matching fill lemma, its side conditions
    by computing the lengths. *)
Ltac fill_len := autorewrite with audio_len; cbn [length String.length]; lia.
Ltac fill_step :=
  first [ rewrite writeString_fill by fill_len
        | rewrite setUint32_fill by fill_len
        | rewrite setUint16_fill by fill_len ];
  rewrite bind_Ok.

(** ** The encoder writes the canonical layout *)

Lemma header_fill (samples : Float32Array) nch rate (k : bytes -> result Blob) :
  let n := length samples * 2 in
  (view ← writeString (zeros (44 + n)) 0 (str "RIFF");
   view ← setUint32 view 4 (32 + Z.of_nat n) true;
   view ← writeString view 8 (str "WAVE");
   view ← writeString view 12 (str "fmt ");
   view ← setUint32 view 16 16 true;
   view ← setUint16 view 20 1 true;
   view ← setUint16 view 22 nch true;
   view ← setUint32 view 24 rate true;
   view ← setUint32 view 28 (rate * nch * 2) true;
   view ← setUint16 view 32 (nch * 2) true;
   view ← setUint16 view 34 16 true;
   view ← writeString view 36 (str "data");
   view ← setUint32 view 40 (Z.of_nat n) true;
   k view)
  = k (wav_header nch rate (Z.of_nat n) ++ zeros n).
Proof.
  intros n. change (zeros (44 + n)) with ([] ++ zeros (44 + n)).
  do 13 fill_step. f_equal. unfold wav_header. rewrite <- !app_assoc. cbn [app].
  do 14 f_equal. cbn [String.length]. lia.
Qed.

(** The stores of the source build the canonical file. *)
Lemma wav_refines (b : AudioBuffer) :
  audioBufferToWav b
  = match channels b !! 0 with
    | Some _ => Ok (mkBlob (wav_file b) "audio/wav")
    | None => Throw IndexSizeError
    end.
Proof.
  unfold audioBufferToWav, getChannelData, wav_file.
  destruct (channels b !! 0) as [samples|]; [|done].
  cbn [of_option default]. rewrite bind_Ok, header_fill.
  by rewrite write_samples_fill, bind_Ok by apply length_wav_header.
Qed.

Lemma audioBufferToWav_Ok b blob :
  audioBufferToWav b = Ok blob ->
  exists samples, channels b !! 0 = Some samples /\ blob = mkBlob (wav_file b) "audio/wav".
Proof.
  rewrite wav_refines. destruct (channels b !! 0) as [samples|]; [|done].
  intros [= <-]. by exists samples.
Qed.

Lemma audioBufferToWav_wf b :
  wf_buffer b -> audioBufferToWav b = Ok (mkBlob (wav_file b) "audio/wav").
Proof.
  intros (Hn & _ & Hl & _). rewrite wav_refines.
  destruct (lookup_lt_is_Some_2 (channels b) 0) as [samples ->]; [lia|done].
Qed.

Lemma length_wav_file b :
  length (wav_file b) = 44 + 2 * length (default [] (channels b !! 0)).
Proof. unfold wav_file. by rewrite length_app, length_wav_header, length_wav_data. Qed.

(** C2. [audioBufferToWav] never fails on a buffer that has a channel 0 and
    returns exactly the canonical file [wav_file]: the 44-byte header
    followed by the 16-bit little-endian samples of channel 0, with the MIME
    type [audio/wav]; on a buffer with no channel it throws the
    [IndexSizeError] of [getChannelData]. *)
Theorem audioBufferToWav_spec (b : AudioBuffer) :
  audioBufferToWav b
  = match channels b !! 0 with
    | Some _ => Ok (mkBlob (wav_file b) "audio/wav")
    | None => Throw IndexSizeError
    end.
Proof. apply wav_refines. Qed.

(** The file of a well-formed buffer has [44 + 2 * length] bytes: no
    store of the header or of the sample loop falls outside the view, and
    the encoder succeeds. *)
Theorem audioBufferToWav_length (b : AudioBuffer) :
  wf_buffer b ->
  exists blob, audioBufferToWav b = Ok blob
    /\ length (blob_data blob) = 44 + 2 * buf_length b
    /\ blob_type blob = "audio/wav"%string.
Proof.
  intros (Hn & _ & Hl & Hch). rewrite wav_refines.
  destruct (lookup_lt_is_Some_2 (channels b) 0) as [samples Hs]; [lia|].
  rewrite Hs. eexists. split; [done|]. split; [|done]. cbn [blob_data].
  rewrite length_wav_file, Hs. cbn [default from_option id].
  by destruct (Forall_lookup_1 _ _ _ _ Hch Hs) as [-> _].
Qed.

(** The header a reader finds in front of any data. *)
Lemma read_wav_header (nch rate n : Z) (data : bytes) :
  read_header (wav_header nch rate n ++ data)
  = mkWavHeader (tag "RIFF") (wrap 32 (32 + n)) (tag "WAVE") (tag "fmt ") 16 1
      (wrap 16 nch) (wrap 32 rate) (wrap 32 (rate * nch * 2)) (wrap 16 (nch * 2)) 16
      (tag "data") (wrap 32 n).
Proof.
  unfold read_header, field_at, wav_header.
  f_equal; first [reflexivity | apply (le_combine_split 4) | apply (le_combine_split 2)].
Qed.

(** C26. The header that a reader finds in the file: the four tags, format 1
    (PCM), 16 bits per sample, the channel count and the sample rate of the
    buffer, a byte rate and a block align computed from them, the size of the
    data in [Subchunk2Size], and in [ChunkSize] the length of the file less
    12, where the RIFF format asks for the length less 8.  Every number is
    stored modulo the width of its field. *)
Theorem audioBufferToWav_header (b : AudioBuffer) (blob : Blob) :
  audioBufferToWav b = Ok blob ->
  let file := blob_data blob in
  let nch := Z.of_nat (numberOfChannels b) in
  read_header file
  = mkWavHeader (tag "RIFF") (wrap 32 (Z.of_nat (length file) - 12)) (tag "WAVE")
      (tag "fmt ") 16 1 (wrap 16 nch) (wrap 32 (sampleRate b))
      (wrap 32 (sampleRate b * nch * 2)) (wrap 16 (nch * 2)) 16
      (tag "data") (wrap 32 (Z.of_nat (length file) - 44)).
Proof.
  intros (samples & Hs & ->)%audioBufferToWav_Ok. cbn [blob_data].
  rewrite length_wav_file, Hs. cbn [default from_option id].
  replace (Z.of_nat (44 + 2 * length samples) - 12)%Z
    with (32 + Z.of_nat (length samples * 2))%Z by lia.
  replace (Z.of_nat (44 + 2 * length samples) - 44)%Z
    with (Z.of_nat (length samples * 2)) by lia.
  unfold wav_file. rewrite Hs. cbn [default from_option id]. apply read_wav_header.
Qed.

(** ** The integer a sample becomes *)

#[local] Open Scope Z_scope.

(** What the encoder makes of a 16-bit integer the decoder has read: the
    negative values and zero come back, the positive ones lose one unit,
    since [v / 32768 * 32767] lies strictly between [v - 1] and [v]. *)
Definition requantize (v : Z) : Z := if 0 <? v then v - 1 else v.

Lemma num_1 : num_of_Z 1 = norm prec64 false 32768 (-15).
Proof. reflexivity. Qed.

Lemma num_m1 : num_of_Z (-1) = norm prec64 true 32768 (-15).
Proof. reflexivity. Qed.

Lemma num_32767 : num_of_Z 32767 = norm prec64 false 32767 0.
Proof. reflexivity. Qed.

Lemma norm_ok64 q k : Zpos q < 2 ^ 53 -> -1000 <= k <= 900 -> norm_ok prec64 emax64 q k.
Proof.
  intros Hq%digits2_pos_le Hk; [|lia]. pose proof (Pos2Z.is_pos (digits2_pos q)).
  unfold norm_ok, emin, prec64, emax64. lia.
Qed.

(** The samples on the grid of the decoder, [p / 32768] with
    [p <= 32768], are not moved by the clamp. *)
Lemma clamp_sample_grid s p :
  Zpos p <= 32768 -> clamp_sample (norm prec64 s p (-15)) = norm prec64 s p (-15).
Proof.
  intros Hp. pose proof (int16_digits p Hp) as Hd.
  assert (Zpos (digits2_pos 32768) <= prec64) as Hd1 by done.
  unfold clamp_sample. rewrite num_1, num_m1.
  rewrite Math_min_norm by (unfold prec64 in *; lia).
  destruct s; cbn [signed_compare].
  - rewrite Math_max_norm by (unfold prec64 in *; lia). cbn [signed_compare].
    destruct (Pos.compare_spec p 32768) as [->| |]; [done|done|lia].
  - destruct (Pos.compare_spec 32768 p) as [<-| |]; [|lia|];
      by rewrite Math_max_norm by (unfold prec64 in *; lia).
Qed.

(** Both products of line 95 are exact on the grid. *)
Lemma scale_sample_grid s p :
  Zpos p <= 32768 ->
  scale_sample (norm prec64 s p (-15))
  = if s then norm prec64 true p 0 else norm prec64 false (p * 32767) (-15).
Proof.
  intros Hp. unfold scale_sample. rewrite num_of_Z_0, num_lt_norm_zero.
  destruct s.
  - rewrite num_32768, num_mul_norm; [by rewrite Pos.mul_1_r|apply norm_ok64; lia..].
  - rewrite num_32767, num_mul_norm; [done|apply norm_ok64; lia..].
Qed.

Lemma float_to_pcm_grid s p :
  Zpos p <= 32768 ->
  float_to_pcm (norm prec32 s p (-15))
  = if s then swrap 16 (- Zpos p) else Zpos p * 32767 / 32768.
Proof.
  intros Hp. unfold float_to_pcm, ToInt16.
  rewrite of_float32_norm by (apply norm_ok_int16; lia).
  rewrite clamp_sample_grid, scale_sample_grid by done.
  destruct s.
  - by rewrite truncate_norm, Z.shiftl_0_r by (apply (digits2_pos_le _ 53); lia).
  - rewrite truncate_norm by (apply (digits2_pos_le _ 53); lia).
    rewrite Z.shiftl_div_pow2 by lia. change (2 ^ _) with 32768.
    rewrite Pos2Z.inj_mul. apply swrap_small; [done|]. change (2 ^ (16 - 1)) with 32768.
    split.
    + etrans; [|apply Z.div_pos]; lia.
    + apply Z.div_lt_upper_bound; lia.
Qed.

Lemma float_to_pcm_grid_int16 v :
  -32768 <= v <= 32767 -> float_to_pcm (pcm_to_float v) = requantize v.
Proof.
  intros Hv. unfold requantize. destruct v as [|p|p]; [done|..].
  - rewrite pcm_to_float_pos, float_to_pcm_grid by lia. cbn [Z.ltb Z.compare].
    symmetry. apply Z.div_unique with (32768 - Zpos p); lia.
  - rewrite pcm_to_float_neg, float_to_pcm_grid by lia. cbn [Z.ltb Z.compare].
    apply swrap_small; [done|]. change (2 ^ (16 - 1)) with 32768. lia.
Qed.

(** Decoding then encoding a 16-bit sample: [float_to_pcm] undoes
    [pcm_to_float] on zero and on the negative integers, and gives [v - 1]
    on a positive [v]. *)
Theorem float_to_pcm_decoded (v : Z) :
  -32768 <= v <= 32767 -> float_to_pcm (pcm_to_float v) = requantize v.
Proof. apply float_to_pcm_grid_int16. Qed.

Lemma float_to_pcm_decoded_witness : float_to_pcm (pcm_to_float 16384) = requantize 16384.
Proof. apply (float_to_pcm_decoded 16384). lia. Defined.

(** ** Saturation *)

Lemma num_1_finite : num_of_Z 1 = S754_finite false 4503599627370496 (-52).
Proof. reflexivity. Qed.

Lemma num_m1_finite : num_of_Z (-1) = S754_finite true 4503599627370496 (-52).
Proof. reflexivity. Qed.

Lemma clamp_sample_above y : num_le (num_of_Z 1) y = true -> clamp_sample y = num_of_Z 1.
Proof.
  unfold num_le, SFleb, clamp_sample, Math_min. rewrite num_1_finite.
  by destruct (SFcompare _ y) as [[]|].
Qed.

Lemma clamp_sample_below y : num_le y (num_of_Z (-1)) = true -> clamp_sample y = num_of_Z (-1).
Proof.
  unfold num_le, SFleb, clamp_sample. rewrite num_1_finite, num_m1_finite.
  destruct y as [sy|[]| |[] my ey]; try done; intros Hle.
  unfold Math_min. cbn [SFcompare]. unfold Math_max.
  rewrite SFcompare_antisym. by destruct (SFcompare _ _) as [[]|].
Qed.

(** Every sample of 1 or more, [+Infinity] included, becomes 32767. *)
Theorem float_to_pcm_above (x : num) :
  num_le (num_of_Z 1) (of_float32 x) = true -> float_to_pcm x = 32767.
Proof. intros Hx. unfold float_to_pcm. by rewrite clamp_sample_above. Qed.

(** Every sample of -1 or less, [-Infinity] included, becomes -32768. *)
Theorem float_to_pcm_below (x : num) :
  num_le (of_float32 x) (num_of_Z (-1)) = true -> float_to_pcm x = -32768.
Proof. intros Hx. unfold float_to_pcm. by rewrite clamp_sample_below. Qed.

(** Clamping: every sample of 1 or more, [+Infinity] included, is
    encoded as 32767, and every sample of -1 or less, [-Infinity] included,
    as -32768; the 16-bit wrap of [setInt16] never shows. *)
Theorem float_to_pcm_saturates (x : num) :
  (num_le (num_of_Z 1) (of_float32 x) = true -> float_to_pcm x = 32767)
  /\ (num_le (of_float32 x) (num_of_Z (-1)) = true -> float_to_pcm x = -32768).
Proof.
  unfold float_to_pcm. split; intros Hx; [by rewrite clamp_sample_above|by rewrite clamp_sample_below].
Qed.

(** A NaN sample, and the [undefined] of a read past the end, become 0. *)
Lemma float_to_pcm_nan : float_to_pcm S754_nan = 0.
Proof. reflexivity. Qed.

(** 1.5 and -1.5 as binary32 values. *)
Lemma float_to_pcm_above_witness : float_to_pcm (norm prec32 false 3 (-1)) = 32767.
Proof. apply (float_to_pcm_above (norm prec32 false 3 (-1))). reflexivity. Defined.

Lemma float_to_pcm_below_witness : float_to_pcm (norm prec32 true 3 (-1)) = -32768.
Proof. apply (float_to_pcm_below (norm prec32 true 3 (-1))). reflexivity. Defined.

Lemma float_to_pcm_saturates_witness :
  float_to_pcm (norm prec32 false 3 (-1)) = 32767
  /\ float_to_pcm (norm prec32 true 3 (-1)) = -32768.
Proof.
  split.
  - apply (proj1 (float_to_pcm_saturates (norm prec32 false 3 (-1)))). reflexivity.
  - apply (proj2 (float_to_pcm_saturates (norm prec32 true 3 (-1)))). reflexivity.
Defined.

#[local] Close Scope Z_scope.

(** ** Only channel 0 reaches the file *)

(** The buffers the encoder cannot tell apart: the same channel 0, channel
    count and sample rate. *)
Definition same_file (b1 b2 : AudioBuffer) : Prop :=
  channels b1 !! 0 = channels b2 !! 0
  /\ numberOfChannels b1 = numberOfChannels b2 /\ sampleRate b1 = sampleRate b2.

#[export] Instance same_file_equivalence : Equivalence same_file.
Proof.
  unfold same_file. split; [done|by intros b1 b2 (-> & -> & ->)|].
  by intros b1 b2 b3 (-> & -> & ->) (-> & -> & ->).
Qed.

#[export] Instance audioBufferToWav_proper : Proper (same_file ==> eq) audioBufferToWav.
Proof.
  intros b1 b2 (Hc & Hn & Hr). rewrite !wav_refines. unfold wav_file. by rewrite Hc, Hn, Hr.
Qed.

(** The file depends on the buffer through its channel 0, its channel
    count and its sample rate only: the samples of the other channels are
    never read, although the header announces them. *)
Theorem audioBufferToWav_channel0 (b1 b2 : AudioBuffer) :
  channels b1 !! 0 = channels b2 !! 0 ->
  numberOfChannels b1 = numberOfChannels b2 -> sampleRate b1 = sampleRate b2 ->
  audioBufferToWav b1 = audioBufferToWav b2.
Proof. intros Hc Hn Hr. by apply audioBufferToWav_proper. Qed.

Lemma audioBufferToWav_channel0_witness :
  audioBufferToWav (mkAudioBuffer 2 1 24000 [[pcm_to_float 1]; [pcm_to_float 2]])
  = audioBufferToWav (mkAudioBuffer 2 1 24000 [[pcm_to_float 1]; [pcm_to_float 3]]).
Proof. by apply audioBufferToWav_channel0. Defined.

(** ** Decoding a chunk and encoding it again *)

Lemma wav_data_deinterleave (ints : list Z) nch frames c :
  Forall (fun z => (-32768 <= z < 32768)%Z) ints ->
  wav_data (deinterleave ints nch frames c)
  = bytes_of_int16s
      ((fun i => requantize (default 0%Z (ints !! (i * nch + c)))) <$> seq 0 frames).
Proof.
  intros Hr. unfold wav_data, deinterleave. rewrite <- list_fmap_compose. f_equal.
  apply list_fmap_ext. intros _ i _. cbn [compose]. apply float_to_pcm_grid_int16.
  destruct (ints !! (i * nch + c)) as [v|] eqn:Hv; cbn [default from_option id]; [|lia].
  pose proof (Forall_lookup_1 _ _ _ _ Hr Hv). simpl in *. lia.
Qed.

Lemma deinterleave_mono_index (ints : list Z) :
  (fun i => requantize (default 0%Z (ints !! (i * 1 + 0)))) <$> seq 0 (length ints / 1)
  = requantize <$> ints.
Proof.
  rewrite Nat.div_1_r. apply list_eq. intros i. rewrite !list_lookup_fmap.
  destruct (decide (i < length ints)) as [Hi|Hi].
  - rewrite lookup_seq_lt by done. cbn [fmap option_fmap option_map].
    rewrite Nat.mul_1_r, Nat.add_0_r, Nat.add_0_l.
    by destruct (lookup_lt_is_Some_2 ints i Hi) as [v ->].
  - by rewrite lookup_seq_ge, lookup_ge_None_2 by lia.
Qed.

Section decode_encode.
Context `{limits : AudioLimits}.

(** The data region of the file made from a decoded chunk holds, for
    every frame, the first 16-bit integer of the frame requantized: the
    integer itself when it is negative or zero, one less when it is
    positive.  The file is not a copy of the chunk. *)
Theorem decode_encode_data (data : bytes) rate nch b blob :
  decodePCMToAudioBuffer data rate nch = Ok b -> audioBufferToWav b = Ok blob ->
  drop 44 (blob_data blob)
  = bytes_of_int16s
      ((fun i => requantize (default 0%Z (int16s_of_bytes data !! (i * nch + 0))))
         <$> seq 0 (length data / 2 / nch)).
Proof.
  intros (-> & _ & Hn & _)%decodePCM_Ok (samples & Hs & ->)%audioBufferToWav_Ok.
  unfold wav_file, decoded in *. cbn [blob_data channels] in *.
  rewrite drop_app_length' by (by rewrite length_wav_header).
  rewrite list_lookup_fmap, lookup_seq_lt in Hs |- * by lia. cbn [fmap option_fmap option_map default from_option id].
  rewrite wav_data_deinterleave by apply int16s_of_bytes_range.
  by rewrite length_int16s_of_bytes.
Qed.

(** C9. For a mono chunk, as the service decodes them, the data region is
    the chunk with every positive sample decreased by one. *)
Theorem decode_encode_mono (data : bytes) rate b blob :
  decodePCMToAudioBuffer data rate 1 = Ok b -> audioBufferToWav b = Ok blob ->
  drop 44 (blob_data blob) = bytes_of_int16s (requantize <$> int16s_of_bytes data).
Proof.
  intros (-> & _ & Hn & _)%decodePCM_Ok (samples & Hs & ->)%audioBufferToWav_Ok.
  unfold wav_file, decoded in *. cbn [blob_data channels] in *.
  rewrite drop_app_length' by (by rewrite length_wav_header).
  cbn [seq fmap list_fmap lookup list_lookup default from_option id].
  rewrite wav_data_deinterleave by apply int16s_of_bytes_range.
  by rewrite deinterleave_mono_index.
Qed.

End decode_encode.

(** ** The scenario of two samples, 0 and 16384, at 24000 Hz *)

Definition scenario_pcm : bytes := [Byte.x00; Byte.x00; Byte.x00; Byte.x40].
Definition scenario_buffer : AudioBuffer := decoded scenario_pcm 24000 1.
Definition scenario_blob : Blob := mkBlob (wav_file scenario_buffer) "audio/wav".

(** The 48 bytes of the file: [ChunkSize] is 36 = 48 - 12, and the data
    region is [00 00 FF 3F], the samples 0 and 16383. *)
Example scenario_file :
  (b ← decodePCMToAudioBuffer (limits := spec_limits) scenario_pcm 24000 1;
   audioBufferToWav b)
  = Ok (mkBlob
      [Byte.x52; Byte.x49; Byte.x46; Byte.x46; Byte.x24; Byte.x00; Byte.x00; Byte.x00;
       Byte.x57; Byte.x41; Byte.x56; Byte.x45; Byte.x66; Byte.x6d; Byte.x74; Byte.x20;
       Byte.x10; Byte.x00; Byte.x00; Byte.x00; Byte.x01; Byte.x00; Byte.x01; Byte.x00;
       Byte.xc0; Byte.x5d; Byte.x00; Byte.x00; Byte.x80; Byte.xbb; Byte.x00; Byte.x00;
       Byte.x02; Byte.x00; Byte.x10; Byte.x00; Byte.x64; Byte.x61; Byte.x74; Byte.x61;
       Byte.x04; Byte.x00; Byte.x00; Byte.x00; Byte.x00; Byte.x00; Byte.xff; Byte.x3f]
      "audio/wav").
Proof. vm_compute. reflexivity. Qed.

Lemma audioBufferToWav_length_witness :
  exists blob, audioBufferToWav scenario_buffer = Ok blob
    /\ length (blob_data blob) = 44 + 2 * buf_length scenario_buffer
    /\ blob_type blob = "audio/wav"%string.
Proof.
  apply (audioBufferToWav_length scenario_buffer).
  apply (bool_decide_unpack _). vm_compute. exact I.
Defined.

Lemma audioBufferToWav_header_witness :
  read_header (blob_data scenario_blob)
  = mkWavHeader (tag "RIFF") (wrap 32 (Z.of_nat (length (blob_data scenario_blob)) - 12))
      (tag "WAVE") (tag "fmt ") 16 1 (wrap 16 1) (wrap 32 24000)
      (wrap 32 (24000 * 1 * 2)) (wrap 16 (1 * 2)) 16
      (tag "data") (wrap 32 (Z.of_nat (length (blob_data scenario_blob)) - 44)).
Proof.
  apply (audioBufferToWav_header scenario_buffer scenario_blob).
  vm_compute. reflexivity.
Defined.

Lemma decode_encode_data_witness :
  drop 44 (blob_data scenario_blob)
  = bytes_of_int16s
      ((fun i => requantize (default 0%Z (int16s_of_bytes scenario_pcm !! (i * 1 + 0))))
         <$> seq 0 (length scenario_pcm / 2 / 1)).
Proof.
  apply (decode_encode_data (limits := spec_limits) scenario_pcm 24000 1 scenario_buffer);
    vm_compute; reflexivity.
Defined.

Lemma decode_encode_mono_witness :
  drop 44 (blob_data scenario_blob)
  = bytes_of_int16s (requantize <$> int16s_of_bytes scenario_pcm).
Proof.
  apply (decode_encode_mono (limits := spec_limits) scenario_pcm 24000 scenario_buffer);
    vm_compute; reflexivity.
Defined.
