(* ===== verification/Quantize.v ===== *)
(** * Quantize: the 16-bit integer of every sample

    Lines 94-96 of [src/utils/audioUtils.ts] clamp a sample to [-1, 1],
    multiply it by 0x8000 or 0x7FFF and store it with [setInt16], which
    drops the fraction and wraps modulo 2^16.  [Wav] computes the result on
    the grid of the decoder.  This file computes it for every element a
    [Float32Array] can hold: the product is exact in binary64 because a
    binary32 mantissa has 24 bits and the factor 15 or 16, the clamp leaves
    at most 32768 in absolute value, and so the wrap never shows. *)

From Stdlib Require Import ZArith Lia Floats.SpecFloat.
From stdpp Require Import base tactics list option numbers.
From S2P Require Import Prelude JsNumber JsString Bytes Types AudioBuffer PcmDecoder Wav.

#[local] Open Scope Z_scope.

(** ** The reference *)

(** The position of the leading bit of [m * 2^e]: the value is at least 1
    exactly when it is positive. *)
Definition magnitude (m : positive) (e : Z) : Z := e + Zpos (digits2_pos m).

(** The integer of a sample, in integer arithmetic. *)
Definition quantize (x : num) : Z :=
  match x with
  | S754_nan | S754_zero _ => 0
  | S754_infinity s => if s then -32768 else 32767
  | S754_finite s m e =>
      if decide (0 < magnitude m e) then if s then -32768 else 32767
      else if s then - (Zpos m * 32768 / 2 ^ (- e)) else Zpos m * 32767 / 2 ^ (- e)
  end.

(** ** Elements of a [Float32Array] as Numbers *)

Lemma valid32_finite s m e :
  valid32 (S754_finite s m e) = true -> Zpos (digits2_pos m) <= 24 /\ -149 <= e <= 104.
Proof.
  unfold valid32, valid_binary, bounded, canonical_mantissa, fexp, emin, prec32, emax32.
  intros [H1%Z.eqb_eq H2%Z.leb_le]%andb_true_iff. lia.
Qed.

Lemma norm_ok_sample m e j :
  Zpos (digits2_pos m) <= 24 + j -> 0 <= j <= 16 -> -149 <= e <= 104 ->
  norm_ok prec64 emax64 m e.
Proof.
  intros Hd Hj He. pose proof (Pos2Z.is_pos (digits2_pos m)).
  unfold norm_ok, emin, prec64, emax64. lia.
Qed.

Lemma of_float32_finite s m e :
  valid32 (S754_finite s m e) = true -> of_float32 (S754_finite s m e) = norm prec64 s m e.
Proof.
  intros [Hd He]%valid32_finite. unfold of_float32.
  replace e with (e - 0) at 1 by lia.
  apply binary_round_norm; [by apply (norm_ok_sample m e 0)|done|by rewrite Z.mul_1_r].
Qed.

(** ** Comparison with 1 and -1 *)

(** The mantissa of a normal form has its leading bit set. *)
Lemma norm_mantissa_ge m :
  Zpos (digits2_pos m) <= prec64 ->
  2 ^ 52 <= Zpos (Pos.shiftl m (Z.to_N (prec64 - Zpos (digits2_pos m)))).
Proof.
  intros Hd. rewrite norm_mantissa by done. rewrite digits2_pos_log2 in *.
  pose proof (Z.log2_spec (Zpos m) eq_refl) as [Hlo _].
  pose proof (Z.log2_nonneg (Zpos m)).
  replace 52 with (Z.log2 (Zpos m) + (prec64 - (Z.log2 (Zpos m) + 1)))
    by (unfold prec64; lia).
  rewrite Z.pow_add_r by (unfold prec64 in *; lia).
  apply Z.mul_le_mono_nonneg_r; [|done]. apply Z.pow_nonneg. lia.
Qed.

Lemma compare_cont_not_lt (q c : positive) :
  ~ (q < c)%positive ->
  PosDef.Pos.compare_cont Eq q c <> Lt /\ PosDef.Pos.compare_cont Eq c q <> Gt.
Proof.
  intros Hq. change (PosDef.Pos.compare_cont Eq q c) with (q ?= c)%positive.
  change (PosDef.Pos.compare_cont Eq c q) with (c ?= q)%positive.
  rewrite (Pos.compare_antisym q c). unfold Pos.lt in Hq.
  by destruct (q ?= c)%positive.
Qed.

Lemma mantissa_compare (q : positive) :
  2 ^ 52 <= Zpos q ->
  PosDef.Pos.compare_cont Eq q 4503599627370496 <> Lt
  /\ PosDef.Pos.compare_cont Eq 4503599627370496 q <> Gt.
Proof.
  intros Hge. apply compare_cont_not_lt.
  intros Hlt%Pos2Z.pos_lt_pos. apply (Z.lt_irrefl (2 ^ 52)).
  eapply Z.le_lt_trans; [exact Hge|exact Hlt].
Qed.

Section compare.
Context (m : positive) (e : Z).
Hypothesis Hd : Zpos (digits2_pos m) <= prec64.

Lemma inside_lt_one s :
  magnitude m e <= 0 -> num_lt (norm prec64 s m e) (num_of_Z 1) = true.
Proof.
  unfold magnitude. intros Hm. rewrite num_1_finite. unfold num_lt, SFltb, norm.
  destruct s; [done|]. cbn [SFcompare].
  destruct (Z.compare_spec (e - (prec64 - Zpos (digits2_pos m))) (-52));
    unfold prec64 in *; [lia|done|lia].
Qed.

Lemma inside_gt_minus_one s :
  magnitude m e <= 0 -> num_lt (num_of_Z (-1)) (norm prec64 s m e) = true.
Proof.
  unfold magnitude. intros Hm. rewrite num_m1_finite. unfold num_lt, SFltb, norm.
  destruct s; [|done]. cbn [SFcompare].
  destruct (Z.compare_spec (-52) (e - (prec64 - Zpos (digits2_pos m))));
    unfold prec64 in *; [lia|lia|done].
Qed.

Lemma outside_ge_one :
  0 < magnitude m e -> num_le (num_of_Z 1) (norm prec64 false m e) = true.
Proof.
  unfold magnitude. intros Hm. rewrite num_1_finite. unfold num_le, SFleb, norm.
  cbn [SFcompare]. destruct (mantissa_compare _ (norm_mantissa_ge m Hd)) as [_ Hc].
  destruct (Z.compare_spec (-52) (e - (prec64 - Zpos (digits2_pos m))));
    unfold prec64 in *; [|done|lia].
  by destruct (PosDef.Pos.compare_cont Eq _ _).
Qed.

Lemma outside_le_minus_one :
  0 < magnitude m e -> num_le (norm prec64 true m e) (num_of_Z (-1)) = true.
Proof.
  unfold magnitude. intros Hm. rewrite num_m1_finite. unfold num_le, SFleb, norm.
  cbn [SFcompare]. destruct (mantissa_compare _ (norm_mantissa_ge m Hd)) as [Hc _].
  destruct (Z.compare_spec (e - (prec64 - Zpos (digits2_pos m))) (-52));
    unfold prec64 in *; [|lia|done].
  by destruct (PosDef.Pos.compare_cont Eq _ _).
Qed.

End compare.

(** ** The clamp and the products *)

(** A Number strictly between -1 and 1 is not moved by the clamp. *)
Lemma clamp_sample_inside y :
  num_lt (num_of_Z (-1)) y = true -> num_lt y (num_of_Z 1) = true -> clamp_sample y = y.
Proof.
  unfold num_lt, SFltb, clamp_sample. intros Hlo Hhi.
  assert (Math_min (num_of_Z 1) y = y) as ->.
  { unfold Math_min. rewrite SFcompare_antisym.
    by destruct (SFcompare y (num_of_Z 1)) as [[]|]. }
  unfold Math_max. by destruct (SFcompare (num_of_Z (-1)) y) as [[]|].
Qed.

Lemma magnitude_bound m e : magnitude m e <= 0 -> e < 0 /\ Zpos m < 2 ^ (- e).
Proof.
  unfold magnitude. intros Hm. pose proof (Pos2Z.is_pos (digits2_pos m)). split; [lia|].
  rewrite digits2_pos_log2 in Hm.
  apply Z.log2_lt_pow2; [done|]. lia.
Qed.

(** Both products of line 95 are exact for a binary32 mantissa. *)
Lemma scale_sample_sample s m e :
  Zpos (digits2_pos m) <= 24 -> -149 <= e <= 104 ->
  scale_sample (norm prec64 s m e)
  = if s then norm prec64 true (m * 32768) e else norm prec64 false (m * 32767) e.
Proof.
  intros Hd He. unfold scale_sample. rewrite num_of_Z_0, num_lt_norm_zero.
  assert (norm_ok prec64 emax64 m e) by (by apply (norm_ok_sample m e 0)).
  pose proof (digits2_pos_mul_le m 32768) as H1. pose proof (digits2_pos_mul_le m 32767) as H2.
  change (Zpos (digits2_pos 32768)) with 16 in H1.
  change (Zpos (digits2_pos 32767)) with 15 in H2.
  destruct s.
  - change (num_of_Z 32768) with (norm prec64 false 32768 0).
    replace e with (e + 0) at 2 by lia.
    apply num_mul_norm; [done|by vm_compute|].
    rewrite Z.add_0_r. apply (norm_ok_sample _ e 16); lia.
  - rewrite num_32767. replace e with (e + 0) at 2 by lia.
    apply num_mul_norm; [done|by vm_compute|].
    rewrite Z.add_0_r. apply (norm_ok_sample _ e 16); lia.
Qed.

(** ** The integer stored *)

(** What [setInt16] receives, before it wraps. *)
Definition unwrapped (x : num) : Z := truncate (scale_sample (clamp_sample (of_float32 x))).

Lemma unwrapped_inside s m e :
  valid32 (S754_finite s m e) = true -> magnitude m e <= 0 ->
  unwrapped (S754_finite s m e)
  = if s then - (Zpos m * 32768 / 2 ^ (- e)) else Zpos m * 32767 / 2 ^ (- e).
Proof.
  intros Hv Hm. pose proof (valid32_finite s m e Hv) as [Hd He].
  destruct (magnitude_bound m e Hm) as [He0 Hlt].
  unfold unwrapped. rewrite of_float32_finite by done.
  rewrite clamp_sample_inside
    by (apply inside_gt_minus_one || apply inside_lt_one; unfold prec64; lia).
  rewrite scale_sample_sample by done.
  pose proof (digits2_pos_mul_le m 32768) as H1. pose proof (digits2_pos_mul_le m 32767) as H2.
  change (Zpos (digits2_pos 32768)) with 16 in H1.
  change (Zpos (digits2_pos 32767)) with 15 in H2.
  destruct s; rewrite truncate_norm by (unfold prec64; lia);
    by rewrite Z.shiftl_div_pow2, Pos2Z.inj_mul by lia.
Qed.

Lemma unwrapped_outside s m e :
  valid32 (S754_finite s m e) = true -> 0 < magnitude m e ->
  unwrapped (S754_finite s m e) = if s then -32768 else 32767.
Proof.
  intros Hv Hm. pose proof (valid32_finite s m e Hv) as [Hd He].
  unfold unwrapped. rewrite of_float32_finite by done. destruct s.
  - by rewrite clamp_sample_below by (apply outside_le_minus_one; unfold prec64; lia).
  - by rewrite clamp_sample_above by (apply outside_ge_one; unfold prec64; lia).
Qed.

Lemma unwrapped_quantize (x : num) : valid32 x = true -> unwrapped x = quantize x.
Proof.
  intros Hv. destruct x as [s|s| |s m e]; cbn [quantize].
  - by destruct s.
  - by destruct s.
  - done.
  - case_decide; [by apply unwrapped_outside|apply unwrapped_inside; [done|lia]].
Qed.

Lemma quantize_range (x : num) : -32768 <= quantize x <= 32767.
Proof.
  destruct x as [s|s| |s m e]; cbn [quantize]; [lia|destruct s; lia|lia|].
  case_decide as Hm; [destruct s; lia|].
  destruct (magnitude_bound m e) as [He0 Hlt]; [lia|].
  assert (0 < 2 ^ (- e)) by (apply Z.pow_pos_nonneg; lia).
  assert (0 <= Zpos m * 32768 / 2 ^ (- e) < 32768)
    by (split; [apply Z.div_pos; lia|apply Z.div_lt_upper_bound; lia]).
  assert (0 <= Zpos m * 32767 / 2 ^ (- e) < 32767)
    by (split; [apply Z.div_pos; lia|apply Z.div_lt_upper_bound; lia]).
  destruct s; lia.
Qed.

Lemma float_to_pcm_quantize (x : num) : valid32 x = true -> float_to_pcm x = quantize x.
Proof.
  intros Hv. change (float_to_pcm x) with (swrap 16 (unwrapped x)).
  rewrite unwrapped_quantize by done. pose proof (quantize_range x).
  apply swrap_small; [done|]. change (2 ^ (16 - 1)) with 32768. lia.
Qed.

(** ** The error of a round trip *)

(** The quotient of [a] by a positive [k], as the two inequalities. *)
Lemma div_bounds a k : 0 < k -> let q := a / k in q * k <= a < q * k + k.
Proof.
  intros Hk q. pose proof (Z.mul_div_le a k Hk). pose proof (Z.mul_succ_div_gt a k Hk).
  subst q. lia.
Qed.

Lemma quantize_error (s : bool) m e :
  magnitude m e <= 0 ->
  let d := (if s then - Zpos m else Zpos m) * 32768
           - quantize (S754_finite s m e) * 2 ^ (- e) in
  if s then - 2 ^ (- e) < d <= 0 else 0 <= d < 2 * 2 ^ (- e).
Proof.
  intros Hm. destruct (magnitude_bound m e Hm) as [He Hlt]. cbn [quantize].
  rewrite decide_False by lia.
  assert (0 < 2 ^ (- e)) as Hk by (apply Z.pow_pos_nonneg; lia).
  destruct s; cbn zeta.
  - pose proof (div_bounds (Zpos m * 32768) _ Hk). cbn zeta in *. lia.
  - pose proof (div_bounds (Zpos m * 32767) _ Hk). cbn zeta in *. lia.
Qed.

(** ** The samples of a file *)

Lemma wav_data_quantize (samples : Float32Array) :
  Forall (fun x => valid32 x = true) samples ->
  wav_data samples = bytes_of_int16s (quantize <$> samples).
Proof.
  intros Hs. unfold wav_data. f_equal. apply Forall_fmap_ext_1.
  eapply list.Forall_impl; [exact Hs|]. intros x Hx. by apply float_to_pcm_quantize.
Qed.

Lemma quantize_int16s (samples : Float32Array) :
  int16s_of_bytes (bytes_of_int16s (quantize <$> samples)) = quantize <$> samples.
Proof.
  apply int16s_of_bytes_of_int16s, Forall_fmap, Forall_forall. intros x _.
  pose proof (quantize_range x). simpl. lia.
Qed.

(** A well-formed buffer has a channel 0 of binary32 values. *)
Lemma wf_channel0 (b : AudioBuffer) :
  wf_buffer b ->
  exists samples, channels b !! 0%nat = Some samples /\ length samples = buf_length b
    /\ Forall (fun x => valid32 x = true) samples.
Proof.
  intros (Hn & _ & Hl & Hch).
  destruct (lookup_lt_is_Some_2 (channels b) 0) as [samples Hs]; [lia|].
  exists samples. split; [done|]. by apply (Forall_lookup_1 _ _ _ _ Hch Hs).
Qed.

Lemma wav_file_samples (b : AudioBuffer) :
  wf_buffer b ->
  length (wav_file b) = (44 + 2 * buf_length b)%nat
  /\ int16s_of_bytes (drop 44 (wav_file b)) = quantize <$> default [] (channels b !! 0%nat).
Proof.
  intros (samples & Hs & Hl & Hv)%wf_channel0. rewrite length_wav_file. unfold wav_file.
  rewrite Hs. cbn [default from_option id]. split; [by rewrite Hl|].
  rewrite drop_app_length' by (by rewrite length_wav_header).
  by rewrite wav_data_quantize, quantize_int16s.
Qed.

(** ** The property *)

(** C10. The integer stored for a sample, for every value a [Float32Array]
    can hold: 0 for NaN and the zeros, 32767 or -32768 for the infinities
    and for every finite sample of absolute value 1 or more, and for a
    finite sample [m * 2^e] below 1 in absolute value the integer part of
    [m * 32767 * 2^e], or of [m * 32768 * 2^e] taken negative.  Both
    products are exact in binary64, and the Number given to [setInt16] is
    already in the range of 16 bits: the wrap never shows. *)
Theorem float_to_pcm_spec (x : num) :
  valid32 x = true ->
  float_to_pcm x = quantize x
  /\ truncate (scale_sample (clamp_sample (of_float32 x))) = quantize x
  /\ -32768 <= quantize x <= 32767.
Proof.
  intros Hv. split; [by apply float_to_pcm_quantize|].
  split; [by apply unwrapped_quantize|apply quantize_range].
Qed.

(** A third, as binary32: 11184811 * 2^-25. *)
Lemma float_to_pcm_spec_witness :
  let x := S754_finite false 11184811 (-25) in
  float_to_pcm x = quantize x
  /\ truncate (scale_sample (clamp_sample (of_float32 x))) = quantize x
  /\ -32768 <= quantize x <= 32767.
Proof. apply (float_to_pcm_spec (S754_finite false 11184811 (-25))). reflexivity. Defined.

Example quantize_third : quantize (S754_finite false 11184811 (-25)) = 10922.
Proof. reflexivity. Qed.

(** C23. The round trip of a sample [x] of absolute value below 1, as
    binary32 [m * 2^e] with its sign: with [q] the integer stored for it,
    which the decoder reads back as [q / 32768], the difference
    [x - q / 32768] counted in units of [2^e / 32768] is [d] below.  A
    positive sample comes back lower by less than [2 / 32768], a negative
    one higher by less than [1 / 32768]. *)
Theorem float_to_pcm_error (s : bool) (m : positive) (e : Z) :
  valid32 (S754_finite s m e) = true -> magnitude m e <= 0 ->
  let q := float_to_pcm (S754_finite s m e) in
  let d := (if s then - Zpos m else Zpos m) * 32768 - q * 2 ^ (- e) in
  if s then - 2 ^ (- e) < d <= 0 else 0 <= d < 2 * 2 ^ (- e).
Proof.
  intros Hv Hm. cbn zeta. rewrite float_to_pcm_quantize by done. by apply quantize_error.
Qed.

(** The binary32 value next to 0.99999, [16777048 * 2^-24]. *)
Lemma float_to_pcm_error_witness :
  let q := float_to_pcm (S754_finite false 16777048 (-24)) in
  let d := 16777048 * 32768 - q * 2 ^ (- -24) in
  0 <= d < 2 * 2 ^ (- -24).
Proof. apply (float_to_pcm_error false 16777048 (-24)); [reflexivity|done]. Defined.

(** It comes back as [32766 / 32768]: lower by 1.67 units, more than the
    one unit of a sample of the grid. *)
Example float_to_pcm_error_above_one :
  float_to_pcm (S754_finite false 16777048 (-24)) = 32766
  /\ 2 ^ 24 < 16777048 * 32768 - 32766 * 2 ^ 24.
Proof. split; [by vm_compute|done]. Qed.

(** C22. Reading a file back: for every well-formed buffer the encoder
    returns a file of [44 + 2 * length] bytes whose data region, read as
    16-bit little-endian integers, is the [quantize] of the samples of
    channel 0, in order. *)
Theorem audioBufferToWav_samples (b : AudioBuffer) :
  wf_buffer b ->
  exists blob, audioBufferToWav b = Ok blob
    /\ length (blob_data blob) = (44 + 2 * buf_length b)%nat
    /\ int16s_of_bytes (drop 44 (blob_data blob))
       = quantize <$> default [] (channels b !! 0%nat).
Proof.
  intros Hwf. eexists. split; [by apply audioBufferToWav_wf|]. by apply wav_file_samples.
Qed.

(** A buffer of the three samples 1/3, -1/3 and 1.5. *)
Definition thirds_buffer : AudioBuffer :=
  mkAudioBuffer 1 3 24000
    [[S754_finite false 11184811 (-25); S754_finite true 11184811 (-25);
      S754_finite false 12582912 (-23)]].

Lemma audioBufferToWav_samples_witness :
  exists blob, audioBufferToWav thirds_buffer = Ok blob
    /\ length (blob_data blob) = (44 + 2 * buf_length thirds_buffer)%nat
    /\ int16s_of_bytes (drop 44 (blob_data blob))
       = quantize <$> default [] (channels thirds_buffer !! 0%nat).
Proof.
  apply (audioBufferToWav_samples thirds_buffer).
  apply (bool_decide_unpack _). vm_compute. exact I.
Defined.

Example thirds_samples :
  quantize <$> default [] (channels thirds_buffer !! 0%nat) = [10922; -10922; 32767].
Proof. reflexivity. Qed.
