(* ===== verification/Chunker.v ===== *)
(** * Chunker: [chunkText] of [src/services/ttsService.ts]

    The text is split on runs of white space and the words are regrouped,
    [maxWords] at a time, each group joined with single spaces.  The loop of
    the source advances its index by [maxWords], so it needs fuel in the
    model: [None] stands for a loop that has not finished.  The theorems give
    the fuel that is enough when [maxWords] is positive, show that none is
    when it is zero, and relate the chunks to the reference [groups]: they
    partition the words, in order, into groups of one to [maxWords] words. *)

From Stdlib Require Import ZArith Lia.
From stdpp Require Import base tactics list numbers strings.
From S2P Require Import Prelude JsString.

(** ** The model *)

(** The default value of the parameter [maxWords] (line 18). *)
Definition DEFAULT_MAX_WORDS : nat := 800.

(** [words.slice(i, i + maxWords).join(' ')] (line 22). *)
Definition chunk_at (words : list jsstring) (maxWords i : nat) : jsstring :=
  join (str " ") (slice words i (i + maxWords)).

(** The loop of lines 21-23, from index [i] with the chunks pushed so far. *)
Fixpoint chunk_loop (fuel : nat) (words : list jsstring) (maxWords i : nat)
    (chunks : list jsstring) : option (list jsstring) :=
  match fuel with
  | 0 => None
  | S fuel' =>
      if decide (i < length words)
      then chunk_loop fuel' words maxWords (i + maxWords)
             (chunks ++ [chunk_at words maxWords i])
      else Some chunks
  end.

(** [chunkText(text, maxWords)] (lines 18-25) with the fuel of one turn per
    word and one for the exit test. *)
Definition chunkText (text : jsstring) (maxWords : nat) : option (list jsstring) :=
  let words := split_ws text in
  chunk_loop (S (length words)) words maxWords 0 [].

(** ** The reference: consecutive groups of words *)

Definition groups {A} (words : list A) (m : nat) : list (list A) :=
  (fun k => take m (drop (k * m) words)) <$> seq 0 (div_ceil (length words) m).

Definition chunks_of (text : jsstring) (m : nat) : list jsstring :=
  join (str " ") <$> groups (split_ws text) m.

(** A word as [split] produces them in the middle of a text: not empty and
    free of white space. *)
Definition is_word (w : jsstring) : Prop :=
  w <> [] /\ Forall (fun c => isWhiteSpace c = false) w.

#[export] Instance is_word_dec w : Decision (is_word w).
Proof. unfold is_word. apply _. Defined.

(** ** [split] and [join] *)

Lemma split_go_nonempty in_ws cur s : split_go in_ws cur s <> [].
Proof.
  revert in_ws cur. induction s as [|c s IH]; intros in_ws cur; cbn [split_go]; [done|].
  destruct (isWhiteSpace c), in_ws; try done; apply IH.
Qed.

(** [split] never returns an empty array. *)
Lemma split_ws_nonempty s : 1 <= length (split_ws s).
Proof.
  unfold split_ws. pose proof (split_go_nonempty false [] s).
  destruct (split_go false [] s); simpl; [done|lia].
Qed.

Lemma split_go_word cur w s :
  Forall (fun c => isWhiteSpace c = false) w ->
  split_go false cur (w ++ s) = split_go false (cur ++ w) s.
Proof.
  intros Hw. revert cur. induction Hw as [|c w Hc _ IH]; intros cur.
  - by rewrite app_nil_r.
  - cbn [app split_go]. rewrite Hc, IH, <- app_assoc. done.
Qed.

Lemma isWhiteSpace_space : isWhiteSpace 32 = true.
Proof. reflexivity. Qed.

Lemma split_go_space cur s :
  split_go false cur (str " " ++ s) = cur :: split_go true [] s.
Proof. reflexivity. Qed.

(** After white space, a word starts a new field. *)
Lemma split_go_start (w : jsstring) s :
  is_word w -> split_go true [] (w ++ s) = split_go false [] (w ++ s).
Proof.
  intros [Hne Hw]. destruct Hw as [|c w Hc _]; [done|]. cbn [app split_go]. by rewrite Hc.
Qed.

Lemma join_cons (sep w : jsstring) (ws : list jsstring) :
  ws <> [] -> join sep (w :: ws) = w ++ sep ++ join sep ws.
Proof. by destruct ws. Qed.

Lemma join_word_start (w : jsstring) (ws : list jsstring) :
  exists s, join (str " ") (w :: ws) = w ++ s.
Proof.
  destruct ws as [|w' ws]; [exists []; by rewrite app_nil_r|].
  eexists. by rewrite join_cons.
Qed.

(** Splitting the words joined by single spaces gives the words back. *)
Lemma split_go_join (cur : jsstring) (w : jsstring) (ws : list jsstring) :
  Forall is_word (w :: ws) ->
  split_go false cur (join (str " ") (w :: ws)) = (cur ++ w) :: ws.
Proof.
  revert cur w. induction ws as [|w' ws IH]; intros cur w Hw.
  - apply Forall_cons_1 in Hw as [[_ Hw] _]. cbn [join].
    rewrite <- (app_nil_r w) at 1. by rewrite split_go_word.
  - apply Forall_cons_1 in Hw as [[_ Hw] Hws]. rewrite join_cons by done.
    rewrite split_go_word, split_go_space by done. f_equal.
    destruct (join_word_start w' ws) as [s Hs].
    pose proof (IH [] w' Hws) as IH'. cbn [app] in IH'.
    etrans; [|exact IH']. rewrite Hs. apply split_go_start.
    by apply Forall_cons_1 in Hws as [? _].
Qed.

Lemma split_ws_join (ws : list jsstring) :
  ws <> [] -> Forall is_word ws -> split_ws (join (str " ") ws) = ws.
Proof. destruct ws as [|w ws]; [done|]. intros _ Hw. by apply split_go_join. Qed.

(** Every character of a field of [split] is not white space. *)
Lemma split_go_fields in_ws cur s :
  Forall (fun c => isWhiteSpace c = false) cur ->
  Forall (Forall (fun c => isWhiteSpace c = false)) (split_go in_ws cur s).
Proof.
  revert in_ws cur. induction s as [|c s IH]; intros in_ws cur Hcur; cbn [split_go].
  - by constructor.
  - destruct (isWhiteSpace c) eqn:Hc.
    + destruct in_ws; [by apply IH|]. constructor; [done|]. by apply IH.
    + apply IH. apply Forall_app. split; [done|]. by constructor.
Qed.

(** ** The groups *)

Section groups.
Context {A : Type}.
Implicit Types (words : list A) (m k : nat).

Lemma groups_length words m : length (groups words m) = div_ceil (length words) m.
Proof. unfold groups. by rewrite length_fmap, length_seq. Qed.

Lemma groups_lookup words m k :
  k < div_ceil (length words) m -> groups words m !! k = Some (take m (drop (k * m) words)).
Proof. intros Hk. unfold groups. by rewrite list_lookup_fmap, lookup_seq_lt. Qed.

Lemma mjoin_take_drop words m n :
  1 <= m -> length words <= n * m ->
  mjoin ((fun k => take m (drop (k * m) words)) <$> seq 0 n) = words.
Proof.
  intros Hm. revert words. induction n as [|n IH]; intros words Hn.
  - destruct words; [done|simpl in Hn; lia].
  - cbn [seq fmap list_fmap mjoin list_join]. rewrite <- fmap_S_seq, <- list_fmap_compose.
    rewrite (list_fmap_ext _ (fun k => take m (drop (k * m) (drop m words))) (seq 0 n)).
    + rewrite IH by (rewrite length_drop; lia). apply take_drop.
    + intros i k _. cbn [compose]. by rewrite drop_drop.
Qed.

End groups.

(** ** The loop *)

Section loop.
Context (words : list jsstring) (m : nat) (Hm : 1 <= m).
Let N := div_ceil (length words) m.

(** From the turn [k] on, the loop pushes the chunks [k], [k + 1], ... and
    stops after the last one, given one unit of fuel per turn and one for
    the test that ends it. *)
Lemma chunk_loop_from fuel k chunks :
  k <= N -> N - k < fuel ->
  chunk_loop fuel words m (k * m) chunks
  = Some (chunks ++ ((fun j => chunk_at words m (j * m)) <$> seq k (N - k))).
Proof.
  revert k chunks. induction fuel as [|fuel IH]; intros k chunks Hk Hf; [lia|].
  cbn [chunk_loop]. destruct (decide (k * m < length words)) as [Hlt|Hge].
  - apply div_ceil_lt in Hlt; [|done]. fold N in Hlt.
    replace (k * m + m) with (S k * m) by lia. rewrite IH by lia.
    replace (N - k) with (S (N - S k)) by lia. cbn [seq fmap list_fmap].
    by rewrite <- app_assoc.
  - assert (~ k < N) by (intros ?%div_ceil_lt; done).
    replace (N - k) with 0 by lia. by rewrite app_nil_r.
Qed.

Lemma chunk_at_group k :
  chunk_at words m (k * m) = join (str " ") (take m (drop (k * m) words)).
Proof. unfold chunk_at, slice. do 2 f_equal. lia. Qed.

Lemma chunk_loop_groups fuel :
  N < fuel -> chunk_loop fuel words m 0 [] = Some (join (str " ") <$> groups words m).
Proof.
  intros Hf. rewrite (chunk_loop_from fuel 0) by lia. rewrite Nat.sub_0_r. cbn [app].
  unfold groups. rewrite <- list_fmap_compose. f_equal. apply list_fmap_ext.
  intros _ k _. apply chunk_at_group.
Qed.

End loop.

(** With [maxWords = 0] the index never moves: no fuel is enough. *)
Lemma chunk_loop_zero fuel words chunks :
  1 <= length words -> chunk_loop fuel words 0 0 chunks = None.
Proof.
  intros Hw. revert chunks. induction fuel as [|fuel IH]; intros chunks; [done|].
  cbn [chunk_loop]. rewrite decide_True by lia. apply IH.
Qed.

(** ** The groups partition the words *)

Section groups_partition.
Context {A : Type} (words : list A) (m : nat) (Hm : 1 <= m).

Lemma mjoin_groups : mjoin (groups words m) = words.
Proof.
  apply mjoin_take_drop; [done|].
  destruct (decide (length words <= div_ceil (length words) m * m)) as [|Hn]; [done|].
  assert (div_ceil (length words) m * m < length words) as Hlt%div_ceil_lt by lia; [lia|done].
Qed.

Lemma groups_sizes : Forall (fun g => 1 <= length g <= m) (groups words m).
Proof.
  unfold groups. apply Forall_fmap, list.Forall_forall. intros k Hk%elem_of_seq.
  cbn [compose]. rewrite length_take, length_drop.
  assert (k * m < length words) by (apply div_ceil_lt; [done|lia]). lia.
Qed.

(** A text of at most [m] words is one group. *)
Lemma groups_single : 1 <= length words <= m -> groups words m = [words].
Proof.
  intros Hn. unfold groups. rewrite div_ceil_small by done.
  simpl. by rewrite drop_0, take_ge by lia.
Qed.

End groups_partition.

Lemma join_app (sep : jsstring) (a b : list jsstring) :
  a <> [] -> b <> [] -> join sep (a ++ b) = join sep a ++ sep ++ join sep b.
Proof.
  induction a as [|w a IH]; [done|]. intros _ Hb. destruct a as [|w' a].
  - cbn [app]. by rewrite join_cons.
  - change ((w :: w' :: a) ++ b) with (w :: ((w' :: a) ++ b)).
    rewrite !(join_cons _ w), IH by done. by rewrite <- !app_assoc.
Qed.

(** Joining the joined groups is joining all the words. *)
Lemma join_mjoin (sep : jsstring) (gs : list (list jsstring)) :
  Forall (fun g => 1 <= length g) gs -> join sep (join sep <$> gs) = join sep (mjoin gs).
Proof.
  induction 1 as [|g gs Hg Hgs IH]; [done|].
  destruct gs as [|g' gs].
  { cbn [fmap list_fmap mjoin list_join join]. by rewrite app_nil_r. }
  change (join sep <$> g :: g' :: gs) with (join sep g :: (join sep <$> g' :: gs)).
  rewrite join_cons, IH by done.
  change (mjoin (g :: g' :: gs)) with (g ++ mjoin (g' :: gs)).
  rewrite join_app; [done|destruct g; [simpl in Hg; lia|done]|].
  apply Forall_cons_1 in Hgs as [Hg' _]. cbn [mjoin list_join].
  destruct g'; [simpl in Hg'; lia|done].
Qed.

(** ** [chunkText] *)

Lemma chunkText_groups (text : jsstring) (maxWords : nat) :
  1 <= maxWords -> chunkText text maxWords = Some (chunks_of text maxWords).
Proof.
  intros Hm. unfold chunkText, chunks_of. apply chunk_loop_groups; [done|].
  pose proof (div_ceil_le (length (split_ws text)) maxWords Hm). lia.
Qed.

(** A text has at least one chunk, a blank text included. *)
Lemma length_chunks_of_pos (text : jsstring) (m : nat) :
  1 <= m -> 1 <= length (chunks_of text m).
Proof.
  intros Hm. unfold chunks_of. rewrite length_fmap, groups_length.
  apply div_ceil_pos; [done|apply split_ws_nonempty].
Qed.

(** C8. For a positive [maxWords] the loop of [chunkText] ends within its
    fuel and the chunks are the groups of [maxWords] consecutive words of
    the text, joined by single spaces. *)
Theorem chunkText_spec (text : jsstring) (maxWords : nat) :
  1 <= maxWords -> chunkText text maxWords = Some (chunks_of text maxWords).
Proof. apply chunkText_groups. Qed.

(** C36. With [maxWords = 0] the loop never ends, whatever the text: the
    index stays at 0, below the number of words, which is at least one. *)
Theorem chunkText_zero_diverges (fuel : nat) (text : jsstring) (chunks : list jsstring) :
  chunk_loop fuel (split_ws text) 0 0 chunks = None.
Proof. apply chunk_loop_zero, split_ws_nonempty. Qed.

(** C15. The chunks partition the words of the text: they are the joins of
    groups of one to [maxWords] words whose concatenation, in order, is the
    sequence of words; and there is at least one chunk. *)
Theorem chunkText_partition (text : jsstring) (maxWords : nat) (chunks : list jsstring) :
  1 <= maxWords -> chunkText text maxWords = Some chunks ->
  exists gs : list (list jsstring),
    chunks = join (str " ") <$> gs
    /\ mjoin gs = split_ws text
    /\ Forall (fun g => 1 <= length g <= maxWords) gs
    /\ 1 <= length chunks
    /\ length chunks = div_ceil (length (split_ws text)) maxWords.
Proof.
  intros Hm Hc. rewrite chunkText_groups in Hc by done.
  injection Hc as <-. unfold chunks_of. exists (groups (split_ws text) maxWords).
  split; [done|]. split; [by apply mjoin_groups|]. split; [by apply groups_sizes|].
  rewrite length_fmap, groups_length. split; [|done].
  apply div_ceil_pos; [done|apply split_ws_nonempty].
Qed.

(** C37. When the text is made of words separated by white space, with none
    at either end, joining the chunks with single spaces and splitting again
    gives back the words of the text: no word is lost, added or moved. *)
Theorem chunkText_roundtrip (text : jsstring) (maxWords : nat) (chunks : list jsstring) :
  1 <= maxWords -> Forall is_word (split_ws text) ->
  chunkText text maxWords = Some chunks ->
  split_ws (join (str " ") chunks) = split_ws text.
Proof.
  intros Hm Hw Hc. rewrite chunkText_groups in Hc by done.
  injection Hc as <-. unfold chunks_of. rewrite join_mjoin.
  - rewrite mjoin_groups by done. apply split_ws_join; [|done].
    pose proof (split_ws_nonempty text) as Hn. destruct (split_ws text); [simpl in Hn; lia|done].
  - apply (list.Forall_impl _ _ _ (groups_sizes _ _ Hm)). intros; lia.
Qed.

(** White space only: two empty fields, or one for the empty text. *)
Lemma split_go_blank (in_ws : bool) (cur text : jsstring) :
  Forall (fun c => isWhiteSpace c = true) text ->
  split_go in_ws cur text
  = match text with
    | [] => [cur]
    | _ :: _ => if in_ws then [cur] else [cur; []]
    end.
Proof.
  intros Hws. revert in_ws cur. induction Hws as [|c text Hc _ IH]; intros in_ws cur; [done|].
  cbn [split_go]. rewrite Hc, !IH. by destruct in_ws, text.
Qed.

(** C40. A text of white space only, the empty text included, gives one
    chunk (empty, or a single space), not an empty sequence of chunks. *)
Theorem chunkText_blank (text : jsstring) (maxWords : nat) :
  2 <= maxWords -> Forall (fun c => isWhiteSpace c = true) text ->
  chunkText text maxWords = Some [match text with [] => [] | _ :: _ => str " " end].
Proof.
  intros Hm Hws. rewrite chunkText_groups by lia. unfold chunks_of, split_ws.
  rewrite split_go_blank by done.
  destruct text; by rewrite groups_single by (simpl; lia).
Qed.

(** ** Witnesses *)

(** The text of the end-to-end scenario is one chunk. *)
Example chunkText_hello_world :
  chunkText (str "hello world") DEFAULT_MAX_WORDS = Some [str "hello world"].
Proof. vm_compute. reflexivity. Qed.

Lemma chunkText_spec_witness :
  chunkText (str "a b  c") 2 = Some (chunks_of (str "a b  c") 2).
Proof. apply (chunkText_spec (str "a b  c") 2). lia. Defined.

Lemma chunkText_partition_witness :
  exists gs : list (list jsstring),
    [str "a b"; str "c"] = join (str " ") <$> gs
    /\ mjoin gs = split_ws (str "a b  c")
    /\ Forall (fun g => 1 <= length g <= 2) gs
    /\ 1 <= length [str "a b"; str "c"]
    /\ length [str "a b"; str "c"] = div_ceil (length (split_ws (str "a b  c"))) 2.
Proof.
  apply (chunkText_partition (str "a b  c") 2 [str "a b"; str "c"]); [lia|].
  vm_compute. reflexivity.
Defined.

Lemma chunkText_roundtrip_witness :
  split_ws (join (str " ") [str "a b"; str "c"]) = split_ws (str "a b  c").
Proof.
  apply (chunkText_roundtrip (str "a b  c") 2 [str "a b"; str "c"]); [lia| |].
  - apply (bool_decide_unpack _). vm_compute. exact I.
  - vm_compute. reflexivity.
Defined.

Lemma chunkText_blank_witness :
  chunkText (str "  ") DEFAULT_MAX_WORDS = Some [str " "].
Proof.
  apply (chunkText_blank (str "  ") DEFAULT_MAX_WORDS); [unfold DEFAULT_MAX_WORDS; lia|].
  by repeat constructor.
Defined.
