(* ===== verification/Base64.v ===== *)
(** * Base64: [decodeBase64ToUint8Array] and [encodeUint8ArrayToBase64] of
    [src/utils/audioUtils.ts]

    The two functions go through the browser's [atob] and [btoa], which
    exchange "binary strings" (one code unit below 256 per byte).  [atob] and
    [btoa] are modelled from the HTML standard (forgiving-base64 decode and
    encode); the loops of the sources that copy between the binary string
    and the [Uint8Array] are modelled from the code.  The theorems show that
    the loops are maps, that an invalid payload throws
    [InvalidCharacterError], and that decoding an encoding gives the bytes
    back. *)

From Stdlib Require Import ZArith Lia.
From coqutil Require Import Byte.
From stdpp Require Import base tactics list option numbers strings.
From S2P Require Import Prelude JsString Bytes.

#[local] Open Scope Z_scope.

(** ** [atob] and [btoa], from the HTML standard *)

(** The code unit of the base64 digit [d]. *)
Definition b64_char (d : Z) : codeunit :=
  if decide (d < 26) then d + 65
  else if decide (d < 52) then d + 71
  else if decide (d < 62) then d - 4
  else if decide (d = 62) then 43 else 47.

(** The digit of a code unit of the base64 alphabet. *)
Definition b64_index (c : codeunit) : option Z :=
  if decide (65 <= c <= 90) then Some (c - 65)
  else if decide (97 <= c <= 122) then Some (c - 71)
  else if decide (48 <= c <= 57) then Some (c + 4)
  else if decide (c = 43) then Some 62
  else if decide (c = 47) then Some 63
  else None.

(** Three bytes give four digits; one or two bytes at the end are padded
    with [=] (code unit 61). *)
Fixpoint b64_encode (bs : list Z) : jsstring :=
  match bs with
  | b0 :: b1 :: b2 :: rest =>
      let n := b0 * 65536 + b1 * 256 + b2 in
      b64_char (n / 262144) :: b64_char (n / 4096 mod 64)
        :: b64_char (n / 64 mod 64) :: b64_char (n mod 64) :: b64_encode rest
  | [b0; b1] =>
      let n := b0 * 1024 + b1 * 4 in
      [b64_char (n / 4096); b64_char (n / 64 mod 64); b64_char (n mod 64); 61]
  | [b0] =>
      let n := b0 * 16 in
      [b64_char (n / 64); b64_char (n mod 64); 61; 61]
  | [] => []
  end.

(** Four digits give three bytes; two or three digits at the end give one
    or two bytes, the bits left over being dropped. *)
Fixpoint b64_decode (ds : list Z) : list Z :=
  match ds with
  | d0 :: d1 :: d2 :: d3 :: rest =>
      let n := ((d0 * 64 + d1) * 64 + d2) * 64 + d3 in
      n / 65536 :: n / 256 mod 256 :: n mod 256 :: b64_decode rest
  | [d0; d1; d2] =>
      let n := (d0 * 64 + d1) * 64 + d2 in
      [n / 1024; n / 4 mod 256]
  | [d0; d1] => [(d0 * 64 + d1) / 16]
  | _ => []
  end.

(** ASCII white space, which [atob] removes: tab, LF, FF, CR and space. *)
Definition isAsciiWhitespace (c : codeunit) : bool :=
  bool_decide (c ∈ [9; 10; 12; 13; 32]).

(** One or two [=] at the end of the data are removed... *)
Fixpoint strip_eq (data : jsstring) : jsstring :=
  match data with
  | [] => []
  | c :: r => if decide (c = 61 /\ (r = [] \/ r = [61])) then [] else c :: strip_eq r
  end.

(** ... when the length is a multiple of four. *)
Definition strip_padding (data : jsstring) : jsstring :=
  if decide (length data mod 4 = 0)%nat then strip_eq data else data.

(** [atob(data)]: [InvalidCharacterError] on a length of 1 modulo 4 or on a
    character outside the alphabet. *)
Definition atob (data : jsstring) : result jsstring :=
  let data := filter (fun c => isAsciiWhitespace c = false) data in
  let data := strip_padding data in
  if decide (length data mod 4 = 1)%nat then Throw InvalidCharacterError
  else match mapM b64_index data with
       | Some ds => Ok (b64_decode ds)
       | None => Throw InvalidCharacterError
       end.

(** [btoa(data)]: [InvalidCharacterError] on a code unit above 255. *)
Definition btoa (data : jsstring) : result jsstring :=
  if decide (Forall (fun c => 0 <= c <= 255) data)
  then Ok (b64_encode data)
  else Throw InvalidCharacterError.

(** ** The functions of the sources *)

(** [decodeBase64ToUint8Array(base64)] (lines 5-13). *)
Definition decodeBase64ToUint8Array (base64 : jsstring) : result bytes :=
  binaryString ← atob base64;
  let len := length binaryString in
  let bytes := zeros len in
  mret (fold_left
          (fun bytes i => u8_store bytes i (default 0 (charCodeAt binaryString i)))
          (seq 0 len) bytes).

(** [encodeUint8ArrayToBase64(bytes)] (lines 18-25). *)
Definition encodeUint8ArrayToBase64 (bytes : bytes) : result jsstring :=
  let len := length bytes in
  let binary :=
    fold_left (fun binary i => binary ++ fromCharCode (default 0 (u8_load bytes i)))
      (seq 0 len) [] in
  btoa binary.

(** ** The reference: binary strings and bytes *)

Definition bytes_of_binary (s : jsstring) : bytes := byte.of_Z <$> s.
Definition binary_of_bytes (bs : bytes) : jsstring := byte.unsigned <$> bs.

(** ** The loops are maps *)

Lemma decode_loop (s : jsstring) :
  fold_left (fun bytes i => u8_store bytes i (default 0 (charCodeAt s i)))
    (seq 0 (length s)) (zeros (length s))
  = bytes_of_binary s.
Proof.
  unfold u8_store.
  pose proof (fold_insert_seq_all (fun i => byte.of_Z (default 0 (charCodeAt s i)))
                (zeros (length s))) as Hf.
  rewrite length_zeros in Hf. rewrite Hf. unfold bytes_of_binary, charCodeAt.
  apply list_eq. intros i. rewrite !list_lookup_fmap.
  destruct (decide (i < length s)%nat) as [Hi|Hi].
  - rewrite lookup_seq_lt by done. destruct (lookup_lt_is_Some_2 s i Hi) as [c Hc].
    cbn [fmap option_fmap option_map Nat.add]. by rewrite Hc.
  - by rewrite lookup_seq_ge, lookup_ge_None_2 by lia.
Qed.

Lemma encode_loop (bs : bytes) (pre : bytes) :
  fold_left (fun binary i => binary ++ fromCharCode (default 0 (u8_load (pre ++ bs) i)))
    (seq (length pre) (length bs)) (binary_of_bytes pre)
  = binary_of_bytes (pre ++ bs).
Proof.
  revert pre. induction bs as [|b bs IH]; intros pre; [by rewrite app_nil_r|].
  cbn [length seq fold_left].
  assert (u8_load (pre ++ b :: bs) (length pre) = Some (byte.unsigned b)) as ->
    by (unfold u8_load; by rewrite list_lookup_middle).
  cbn [default from_option id]. unfold fromCharCode. rewrite wrap_small by (pose proof (byte.unsigned_range b); lia).
  replace (binary_of_bytes pre ++ [byte.unsigned b]) with (binary_of_bytes (pre ++ [b]))
    by (unfold binary_of_bytes; by rewrite fmap_app).
  replace (pre ++ b :: bs) with ((pre ++ [b]) ++ bs) by by rewrite <- app_assoc.
  replace (S (length pre)) with (length (pre ++ [b])) by (rewrite length_app; simpl; lia).
  apply IH.
Qed.

Lemma binary_of_bytes_range bs : Forall (fun c => 0 <= c <= 255) (binary_of_bytes bs).
Proof.
  unfold binary_of_bytes. apply Forall_fmap, list.Forall_forall. intros b _.
  cbn [compose]. pose proof (byte.unsigned_range b). lia.
Qed.

Lemma bytes_of_binary_of_bytes bs : bytes_of_binary (binary_of_bytes bs) = bs.
Proof.
  unfold bytes_of_binary, binary_of_bytes. rewrite <- list_fmap_compose.
  rewrite <- (list_fmap_id bs) at 2. apply list_fmap_ext. intros _ b _.
  apply byte.of_Z_unsigned.
Qed.

(** ** The alphabet *)

Lemma b64_index_char d : 0 <= d < 64 -> b64_index (b64_char d) = Some d.
Proof.
  intros Hd. unfold b64_index, b64_char.
  repeat case_decide; try lia; f_equal; lia.
Qed.

Lemma b64_index_Some c d :
  b64_index c = Some d -> 0 <= d < 64 /\ c <> 61 /\ isAsciiWhitespace c = false.
Proof.
  unfold b64_index, isAsciiWhitespace. intros Hc.
  assert (c <> 9 /\ c <> 10 /\ c <> 12 /\ c <> 13 /\ c <> 32 /\ c <> 61 /\ 0 <= d < 64)
    as (? & ? & ? & ? & ? & ? & ?) by (repeat case_decide; simplify_eq; lia).
  split; [done|]. split; [done|]. apply bool_decide_eq_false_2.
  rewrite !elem_of_cons, elem_of_nil. lia.
Qed.

Lemma b64_char_spec d :
  0 <= d < 64 -> b64_char d <> 61 /\ isAsciiWhitespace (b64_char d) = false.
Proof. intros Hd%b64_index_char. apply b64_index_Some in Hd. tauto. Qed.

(** ** Digits *)

(** The digits of the encoding, without the mapping to characters and
    without the padding. *)
Fixpoint b64_digits (bs : list Z) : list Z :=
  match bs with
  | b0 :: b1 :: b2 :: rest =>
      let n := b0 * 65536 + b1 * 256 + b2 in
      n / 262144 :: n / 4096 mod 64 :: n / 64 mod 64 :: n mod 64 :: b64_digits rest
  | [b0; b1] =>
      let n := b0 * 1024 + b1 * 4 in [n / 4096; n / 64 mod 64; n mod 64]
  | [b0] => let n := b0 * 16 in [n / 64; n mod 64]
  | [] => []
  end.

Definition is_byte (b : Z) : Prop := 0 <= b <= 255.
Definition is_digit (d : Z) : Prop := 0 <= d < 64.

Ltac bytes3 H :=
  repeat match type of H with
         | Forall is_byte (_ :: _) => apply Forall_cons_1 in H as [? H]
         end; unfold is_byte in *.

Lemma b64_digits_range bs : Forall is_byte bs -> Forall is_digit (b64_digits bs).
Proof.
  induction bs as [|a|a b|a b c bs IH] using list_ind3; intros Hb; bytes3 Hb;
    cbn [b64_digits]; repeat constructor; unfold is_digit;
    try (apply Z.mod_pos_bound; lia); try (apply Z.div_pos; lia);
    try (apply Z.div_lt_upper_bound; lia); try (apply Z.mod_pos_bound; lia).
  by apply IH.
Qed.

Lemma b64_decode_digits bs : Forall is_byte bs -> b64_decode (b64_digits bs) = bs.
Proof.
  induction bs as [|a|a b|a b c bs IH] using list_ind3; intros Hb; bytes3 Hb;
    cbn [b64_digits b64_decode]; [done|..].
  - f_equal. Z.div_mod_to_equations. lia.
  - f_equal; [|f_equal]; Z.div_mod_to_equations; lia.
  - rewrite IH by done. f_equal; [|f_equal; [|f_equal]]; Z.div_mod_to_equations; lia.
Qed.

Lemma b64_digits_length bs : (length (b64_digits bs) mod 4 <> 1)%nat.
Proof.
  induction bs as [|a|a b|a b c bs IH] using list_ind3; cbn [b64_digits length]; try done.
  replace (S (S (S (S (length (b64_digits bs)))))) with (length (b64_digits bs) + 1 * 4)%nat
    by lia.
  by rewrite Nat.Div0.mod_add.
Qed.

Lemma b64_encode_length bs : (length (b64_encode bs) mod 4 = 0)%nat.
Proof.
  induction bs as [|a|a b|a b c bs IH] using list_ind3; cbn [b64_encode length]; try done.
  replace (S (S (S (S (length (b64_encode bs)))))) with (length (b64_encode bs) + 1 * 4)%nat
    by lia.
  by rewrite Nat.Div0.mod_add.
Qed.

(** ** The padding *)

Lemma b64_encode_digits bs :
  b64_encode bs
  = (b64_char <$> b64_digits bs) ++ replicate ((3 - length bs mod 3) mod 3)%nat 61.
Proof.
  induction bs as [|a|a b|a b c bs IH] using list_ind3; try done.
  cbn [b64_encode b64_digits fmap list_fmap app]. rewrite IH. do 5 f_equal.
  cbn [length]. replace (S (S (S (length bs)))) with (length bs + 1 * 3)%nat by lia.
  by rewrite Nat.Div0.mod_add.
Qed.

Lemma strip_eq_pad (ds : list Z) (k : nat) :
  Forall is_digit ds -> (k <= 2)%nat ->
  strip_eq ((b64_char <$> ds) ++ replicate k 61) = b64_char <$> ds.
Proof.
  intros Hd Hk. induction Hd as [|d ds Hd _ IH].
  - by destruct k as [|[|[|?]]]; [..|lia].
  - cbn [fmap list_fmap app strip_eq]. rewrite decide_False, IH; [done|].
    intros [? _]. by apply (b64_char_spec d).
Qed.

Lemma b64_encode_no_whitespace bs :
  Forall is_byte bs -> Forall (fun c => isAsciiWhitespace c = false) (b64_encode bs).
Proof.
  intros Hb%b64_digits_range. rewrite b64_encode_digits. apply Forall_app. split.
  - apply Forall_fmap. apply (list.Forall_impl _ _ _ Hb). intros d Hd.
    by apply b64_char_spec.
  - by apply Forall_replicate.
Qed.

Lemma strip_padding_encode bs :
  Forall is_byte bs -> strip_padding (b64_encode bs) = b64_char <$> b64_digits bs.
Proof.
  intros Hb. unfold strip_padding. rewrite decide_True by apply b64_encode_length.
  rewrite b64_encode_digits. apply strip_eq_pad; [by apply b64_digits_range|].
  pose proof (Nat.mod_upper_bound (3 - length bs mod 3) 3). lia.
Qed.

(** [atob] undoes the encoding of [btoa]. *)
Lemma atob_b64_encode bs : Forall is_byte bs -> atob (b64_encode bs) = Ok bs.
Proof.
  intros Hb. unfold atob.
  rewrite filter_Forall_id by by apply b64_encode_no_whitespace.
  rewrite strip_padding_encode by done.
  rewrite length_fmap, decide_False by apply b64_digits_length.
  rewrite mapM_fmap_Forall_Some.
  - by rewrite b64_decode_digits.
  - apply (list.Forall_impl _ _ _ (b64_digits_range bs Hb)). intros d Hd.
    by apply b64_index_char.
Qed.

(** A character that is neither [=] nor white space survives the first two
    steps of [atob]. *)
Lemma elem_of_strip_eq c data : c ∈ data -> c <> 61 -> c ∈ strip_eq data.
Proof.
  intros Hin Hc. induction Hin as [c r|c c' r Hin IH]; cbn [strip_eq].
  - rewrite decide_False by tauto. by left.
  - case_decide as Hd; [|by right; apply IH].
    destruct Hd as [_ [->| ->]]; [by apply elem_of_nil in Hin|].
    by apply list_elem_of_singleton in Hin.
Qed.

Lemma atob_invalid (data : jsstring) (c : codeunit) :
  c ∈ data -> isAsciiWhitespace c = false -> c <> 61 -> b64_index c = None ->
  atob data = Throw InvalidCharacterError.
Proof.
  intros Hin Hws Hc Hi. unfold atob. case_decide; [done|].
  rewrite (proj2 (mapM_None _ _)); [done|]. apply list.Exists_exists. exists c.
  split; [|done]. unfold strip_padding.
  assert (c ∈ filter (fun c => isAsciiWhitespace c = false) data)
    by by apply list_elem_of_filter.
  case_decide; [by apply elem_of_strip_eq|done].
Qed.

(** ** The functions of the sources *)

Lemma decodeBase64_map (base64 : jsstring) :
  decodeBase64ToUint8Array base64 = bytes_of_binary <$> atob base64.
Proof.
  unfold decodeBase64ToUint8Array. destruct (atob base64) as [s|e]; [|done].
  rewrite bind_Ok. by rewrite decode_loop.
Qed.

Lemma encodeBase64_map (bs : bytes) :
  encodeUint8ArrayToBase64 bs = Ok (b64_encode (binary_of_bytes bs)).
Proof.
  unfold encodeUint8ArrayToBase64. pose proof (encode_loop bs []) as He.
  cbn [app length] in He. change (binary_of_bytes []) with (@nil Z) in He.
  rewrite He. unfold btoa. by rewrite decide_True by apply binary_of_bytes_range.
Qed.

(** [decodeBase64ToUint8Array] is [atob] followed by the conversion of
    every code unit to a byte: the loop of lines 9-11 fills the whole array,
    and an exception of [atob] is the exception of the function. *)
Theorem decodeBase64_spec (base64 : jsstring) :
  decodeBase64ToUint8Array base64 = bytes_of_binary <$> atob base64.
Proof. apply decodeBase64_map. Qed.

(** [encodeUint8ArrayToBase64] never throws: the binary string built by
    the loop of lines 21-23 holds one code unit below 256 per byte, which
    [btoa] accepts, and the result is the base64 encoding of the bytes. *)
Theorem encodeBase64_spec (bs : bytes) :
  encodeUint8ArrayToBase64 bs = Ok (b64_encode (binary_of_bytes bs)).
Proof. apply encodeBase64_map. Qed.

(** C11. Decoding what [encodeUint8ArrayToBase64] produced gives the bytes
    back, for every byte array. *)
Theorem base64_roundtrip (bs : bytes) :
  (s ← encodeUint8ArrayToBase64 bs; decodeBase64ToUint8Array s) = Ok bs.
Proof.
  rewrite encodeBase64_map, bind_Ok, decodeBase64_map.
  rewrite atob_b64_encode by apply binary_of_bytes_range.
  cbn [fmap result_fmap]. by rewrite bytes_of_binary_of_bytes.
Qed.

(** A payload with a character that is not of the base64 alphabet, not
    [=] and not ASCII white space makes [decodeBase64ToUint8Array] throw
    [InvalidCharacterError]. *)
Theorem decodeBase64_invalid (base64 : jsstring) (c : codeunit) :
  c ∈ base64 -> isAsciiWhitespace c = false -> c <> 61 -> b64_index c = None ->
  decodeBase64ToUint8Array base64 = Throw InvalidCharacterError.
Proof. intros. rewrite decodeBase64_map. by erewrite atob_invalid. Qed.

(** ** Witnesses *)

(** The payload of the end-to-end scenario: the bytes [00 00 00 40]. *)
Example decodeBase64_scenario :
  decodeBase64ToUint8Array (str "AAAAQA==") = Ok [Byte.x00; Byte.x00; Byte.x00; Byte.x40].
Proof. vm_compute. reflexivity. Qed.

Lemma decodeBase64_invalid_witness :
  decodeBase64ToUint8Array (str "AA*A") = Throw InvalidCharacterError.
Proof.
  apply (decodeBase64_invalid (str "AA*A") 42); [|done..].
  vm_compute. do 2 right. left.
Defined.
