(* ===== verification/Trace.v ===== *)
(** * Trace: computations that log events and may throw

    The orchestration of the service and the handler of the user interface
    call the outside world (the speech service, the progress callback, the
    console) between pure steps, and stop at the first exception.  They are
    modelled in the monad [io E]: a computation takes the log of the events
    so far and returns the log it has extended together with a value or an
    exception.  The log is what an observer of the program sees. *)

From Stdlib Require Import ZArith Lia.
From stdpp Require Import base tactics list option.
From S2P Require Import Prelude.

Record io (E A : Type) : Type := IO { run : list E -> list E * result A }.

Arguments IO {E A} run.
Arguments run {E A} _ _.

Section io.
Context {E : Type}.

#[export] Instance io_ret : MRet (io E) := fun A a => IO (fun t => (t, Ok a)).

#[export] Instance io_bind : MBind (io E) :=
  fun A B k m =>
    IO (fun t => match run m t with
              | (t', Ok a) => run (k a) t'
              | (t', Throw e) => (t', Throw e)
              end).

(** An observable event. *)
Definition emit (e : E) : io E unit := IO (fun t => (t ++ [e], Ok tt)).

(** A pure step that may throw. *)
Definition lift {A} (r : result A) : io E A := IO (fun t => (t, r)).

(** The log so far. *)
Definition get_log : io E (list E) := IO (fun t => (t, Ok t)).

(** [try { m } catch (err) { h(err) }]. *)
Definition io_try {A} (m : io E A) (h : exn -> io E A) : io E A :=
  IO (fun t => match run m t with
            | (t', Ok a) => (t', Ok a)
            | (t', Throw e) => run (h e) t'
            end).

(** [for (const x of l) { b = await f(b, x) }]. *)
Fixpoint io_foldM {A B} (f : B -> A -> io E B) (l : list A) (b : B) : io E B :=
  match l with
  | [] => mret b
  | a :: l' => b' ← f b a; io_foldM f l' b'
  end.

(** Two computations are equivalent when they act alike on every log. *)
Definition io_equiv {A} (m1 m2 : io E A) : Prop := forall t, run m1 t = run m2 t.

#[export] Instance io_equiv_equivalence {A} : Equivalence (@io_equiv A).
Proof.
  split; [by intros m t|by intros m1 m2 H t|].
  intros m1 m2 m3 H1 H2 t. by rewrite H1.
Qed.

#[export] Instance io_bind_proper {A B} :
  Proper (pointwise_relation A io_equiv ==> io_equiv ==> io_equiv) (@mbind (io E) _ A B).
Proof.
  intros k1 k2 Hk m1 m2 Hm t. unfold mbind, io_bind. cbn [run]. rewrite Hm.
  destruct (run m2 t) as [t' [a|e]]; [apply Hk|done].
Qed.

#[export] Instance run_proper {A} : Proper (io_equiv ==> eq ==> eq) (@run E A).
Proof. by intros m1 m2 Hm t ? <-. Qed.

(** A computation only extends the log. *)
Definition extends {A} (m : io E A) : Prop := forall t, t `prefix_of` (run m t).1.

End io.

Declare Scope io_scope.
Delimit Scope io_scope with io.
Notation "'try' m 'catch' h" := (io_try m h) (at level 10, m, h at level 9) : io_scope.

(** ** Equations of [run] *)

Section io_lemmas.
Context {E : Type}.
Implicit Types (t : list E).

Lemma run_ret {A} (a : A) t : run (mret a : io E A) t = (t, Ok a).
Proof. done. Qed.

Lemma run_bind {A B} (m : io E A) (k : A -> io E B) t :
  run (m ≫= k) t
  = match run m t with
    | (t', Ok a) => run (k a) t'
    | (t', Throw e) => (t', Throw e)
    end.
Proof. done. Qed.

Lemma run_bind_Ok {A B} (m : io E A) (k : A -> io E B) t t' a :
  run m t = (t', Ok a) -> run (m ≫= k) t = run (k a) t'.
Proof. intros Hm. by rewrite run_bind, Hm. Qed.

Lemma run_bind_Throw {A B} (m : io E A) (k : A -> io E B) t t' e :
  run m t = (t', Throw e) -> run (m ≫= k) t = (t', Throw e).
Proof. intros Hm. by rewrite run_bind, Hm. Qed.

Lemma run_emit (e : E) t : run (emit e) t = (t ++ [e], Ok tt).
Proof. done. Qed.

Lemma run_lift {A} (r : result A) t : run (lift r : io E A) t = (t, r).
Proof. done. Qed.

Lemma run_try_Ok {A} (m : io E A) h t t' a :
  run m t = (t', Ok a) -> run (io_try m h) t = (t', Ok a).
Proof. intros Hm. unfold io_try. cbn [run]. by rewrite Hm. Qed.

Lemma run_try_Throw {A} (m : io E A) h t t' e :
  run m t = (t', Throw e) -> run (io_try m h) t = run (h e) t'.
Proof. intros Hm. unfold io_try. cbn [run]. by rewrite Hm. Qed.

(** ** The monad laws, up to [io_equiv] *)

Lemma io_bind_ret_l {A B} (a : A) (k : A -> io E B) : io_equiv (mret a ≫= k) (k a).
Proof. by intros t. Qed.

Lemma io_bind_ret_r {A} (m : io E A) : io_equiv (m ≫= mret) m.
Proof. intros t. rewrite run_bind. by destruct (run m t) as [t' [a|e]]. Qed.

Lemma io_bind_assoc {A B C} (m : io E A) (k : A -> io E B) (h : B -> io E C) :
  io_equiv ((m ≫= k) ≫= h) (m ≫= fun a => k a ≫= h).
Proof. intros t. rewrite !run_bind. by destruct (run m t) as [t' [a|e]]. Qed.

(** ** The log only grows *)

Lemma extends_ret {A} (a : A) : extends (mret a : io E A).
Proof. by intros t. Qed.

Lemma extends_emit (e : E) : extends (emit e).
Proof. intros t. by apply prefix_app_r. Qed.

Lemma extends_lift {A} (r : result A) : extends (lift r : io E A).
Proof. by intros t. Qed.

Lemma extends_bind {A B} (m : io E A) (k : A -> io E B) :
  extends m -> (forall a, extends (k a)) -> extends (m ≫= k).
Proof.
  intros Hm Hk t. rewrite run_bind. specialize (Hm t).
  destruct (run m t) as [t' [a|e]]; [|done]. etrans; [exact Hm|apply Hk].
Qed.

Lemma extends_try {A} (m : io E A) h :
  extends m -> (forall e, extends (h e)) -> extends (io_try m h).
Proof.
  intros Hm Hh t. unfold io_try. cbn [run]. specialize (Hm t).
  destruct (run m t) as [t' [a|e]]; [done|]. etrans; [exact Hm|apply Hh].
Qed.

Lemma extends_foldM {A B} (f : B -> A -> io E B) (l : list A) (b : B) :
  (forall b a, extends (f b a)) -> extends (io_foldM f l b).
Proof.
  intros Hf. revert b. induction l as [|a l IH]; intros b; [apply extends_ret|].
  cbn [io_foldM]. apply extends_bind; [apply Hf|apply IH].
Qed.

Lemma io_foldM_app {A B} (f : B -> A -> io E B) (l1 l2 : list A) (b : B) :
  io_equiv (io_foldM f (l1 ++ l2) b) (io_foldM f l1 b ≫= io_foldM f l2).
Proof.
  revert b. induction l1 as [|a l1 IH]; intros b; [by intros t|].
  cbn [app io_foldM]. rewrite io_bind_assoc. by setoid_rewrite IH.
Qed.

End io_lemmas.

#[export] Hint Resolve extends_ret extends_emit extends_lift extends_bind extends_try
  extends_foldM : audio.
