(* ===== verification/TtsService.v ===== *)
(** * TtsService: [generateSpeech] of [src/services/ttsService.ts]

    [generateSpeech] cuts the text into chunks, asks the speech service for
    the audio of each chunk, one after the other, decodes every answer, and
    merges and encodes the buffers.  The remote service is an oracle
    ([SpeechService]) that answers a request with a response, both records
    of the SDK as far as the code builds and reads them; the calls to it,
    the calls of the progress callback and the lines written to the
    console are the events of a log.  The callback is code of the caller
    ([Callback]): each of its calls returns or throws.  The theorems
    relate the loop to a reference that reads as the contract: one call
    per chunk, in order, until the first failure, which is logged and
    thrown again, or until the callback throws, which is not logged; then
    the merge and the encoding. *)

From Stdlib Require Import ZArith Lia Floats.SpecFloat.
From stdpp Require Import base tactics list option numbers strings.
From S2P Require Import Prelude JsNumber JsString Bytes Types AudioBuffer.
From S2P Require Import PcmDecoder Merge Wav Chunker Base64 Trace.

#[local] Open Scope io_scope.

(** ** The speech service and the log *)

(** The values of the SDK that the request and the response are made of.
    A [Part] holds text or inline data, a [Content] holds parts; every
    property is optional, and [None] is [undefined]. *)
Record InlineData : Type := mkInlineData { data : option jsstring }.

Record Part : Type := mkPart {
  part_text : option jsstring;         (* the property [text] *)
  inlineData : option InlineData;
}.

Record Content : Type := mkContent { parts : option (list Part) }.

Record Candidate : Type := mkCandidate { content : option Content }.

Record Response : Type := mkResponse { candidates : option (list Candidate) }.

(** [Modality] of the SDK. *)
Inductive Modality : Type := MODALITY_UNSPECIFIED | TEXT | IMAGE | AUDIO.

(** The [config] of the request (lines 48-55), object by object. *)
Record PrebuiltVoiceConfig : Type := mkPrebuiltVoiceConfig { voiceName : VoiceName }.

Record VoiceConfig : Type := mkVoiceConfig { prebuiltVoiceConfig : PrebuiltVoiceConfig }.

Record SpeechConfig : Type := mkSpeechConfig { voiceConfig : VoiceConfig }.

Record Config : Type := mkConfig {
  responseModalities : list Modality;
  speechConfig : SpeechConfig;
}.

(** The argument of [ai.models.generateContent] (lines 45-56). *)
Record Request : Type := mkRequest {
  model : string;
  contents : list Content;
  config : Config;
}.

Inductive event : Type :=
| Progress (p : num)                  (* onProgress(p) *)
| Call (r : Request)                  (* generateContent(r) *)
| ConsoleError (i : nat) (e : exn)    (* console.error of line 67 *)
| AppError (e : exn).                 (* console.error of line 61 of App.tsx *)

(** The remote service answers a request with a response or an exception;
    its answer may depend on the number of calls made before. *)
Class SpeechService : Type := { generateContent : nat -> Request -> result Response }.

(** The parameter [onProgress] (line 34) is code of the caller: called
    with a value, it returns or throws, and what it does may depend on the
    number of times the run has called it before.  [None] is a call of
    [generateSpeech] without the parameter. *)
Definition Callback : Type := nat -> num -> result unit.

(** What the call number [k] of the callback, with the value [p], comes
    to; nothing is called when there is no callback. *)
Definition notified (onProgress : option Callback) (k : nat) (p : num) : result unit :=
  match onProgress with
  | Some f => f k p
  | None => Ok tt
  end.

(** A callback that never throws, and the absence of one. *)
Definition quiet (onProgress : option Callback) : Prop :=
  forall k p, notified onProgress k p = Ok tt.

(** The callback that does nothing. *)
Definition returning : Callback := fun _ _ => Ok tt.

(** The requests of a log, in order. *)
Definition calls (t : list event) : list Request :=
  omap (fun e => match e with Call r => Some r | _ => None end) t.

(** The values passed to the progress callback, in order. *)
Definition progress (t : list event) : list num :=
  omap (fun e => match e with Progress p => Some p | _ => None end) t.

(** ** The model *)

(** The sample rate of the [AudioContext] (line 12), which is also the
    default of [decodePCMToAudioBuffer]. *)
Definition SAMPLE_RATE : Z := 24000.

Definition MODEL : string := "gemini-2.5-flash-preview-tts".

(** The default of the parameter [style] (line 33). *)
Definition DEFAULT_STYLE : jsstring := str "natural and professional".

(** [(i / chunks.length) * 100] (line 40). *)
Definition progress_of (i n : nat) : num :=
  num_mul (num_div (num_of_Z (Z.of_nat i)) (num_of_Z (Z.of_nat n))) (num_of_Z 100).

(** The template of line 42. *)
Definition prompt_of (style chunk : jsstring) : jsstring :=
  str "Style instruction: " ++ style ++ str ". Please say the following clearly: " ++ chunk.

(** The request of lines 45-56: one content of one part, the prompt. *)
Definition request_of (voice : VoiceName) (style chunk : jsstring) : Request :=
  mkRequest MODEL [mkContent (Some [mkPart (Some (prompt_of style chunk)) None])]
    (mkConfig [AUDIO] (mkSpeechConfig (mkVoiceConfig (mkPrebuiltVoiceConfig voice)))).

(** [response.candidates?.[0]?.content?.parts?.[0]?.inlineData?.data]
    (line 58): the chain stops at the first property that is missing, and
    an index outside an array gives [undefined]. *)
Definition base64Audio (response : Response) : option jsstring :=
  cs ← candidates response; c ← cs !! 0%nat; co ← content c;
  ps ← parts co; p ← ps !! 0%nat; i ← inlineData p; data i.

(** Lines 58-61: a missing payload and an empty one are both falsy. *)
Definition payload (response : Response) : result jsstring :=
  match base64Audio response with
  | Some (c :: s) => Ok (c :: s)
  | _ => Throw (Error "No audio data returned from Gemini API")
  end.

(** The answer of the service that holds audio: one candidate whose
    content has one part, the inline data. *)
Definition audio_response (base64 : jsstring) : Response :=
  mkResponse (Some [mkCandidate (Some (mkContent (Some
    [mkPart None (Some (mkInlineData (Some base64)))])))]).

Section service.
Context `{limits : AudioLimits} `{svc : SpeechService}.

(** [await this.ai.models.generateContent(...)]. *)
Definition call (r : Request) : io event Response :=
  t ← get_log; _ ← emit (Call r); lift (generateContent (length (calls t)) r).

(** The body of the [try] block (lines 45-65), up to the [push]. *)
Definition synthesize_chunk (voice : VoiceName) (style chunk : jsstring)
  : io event AudioBuffer :=
  response ← call (request_of voice style chunk);
  base64Audio ← lift (payload response);
  uint8Array ← lift (decodeBase64ToUint8Array base64Audio);
  lift (decodePCMToAudioBuffer uint8Array SAMPLE_RATE 1).

(** [if (onProgress) onProgress(p)] (lines 40 and 72), the call number [k]
    of the run: the call is an event of the log, and an exception of the
    callback is thrown on. *)
Definition notify (onProgress : option Callback) (k : nat) (p : num) : io event unit :=
  match onProgress with
  | Some f => _ ← emit (Progress p); lift (f k p)
  | None => mret tt
  end.

(** One turn of the loop (lines 40-69): the progress call, outside the
    [try] block, then the block. *)
Definition chunk_step (voice : VoiceName) (style : jsstring) (onProgress : option Callback)
    (chunks : list jsstring) (audioBuffers : list AudioBuffer) (i : nat)
  : io event (list AudioBuffer) :=
  _ ← notify onProgress i (progress_of i (length chunks));
  let chunk := default (str "undefined") (chunks !! i) in
  try (buffer ← synthesize_chunk voice style chunk; mret (audioBuffers ++ [buffer]))
  catch (fun err => _ ← emit (ConsoleError i err); lift (Throw err)).

(** The loop (lines 39-70). *)
Definition generate_chunks (voice : VoiceName) (style : jsstring) (onProgress : option Callback)
    (chunks : list jsstring) : io event (list AudioBuffer) :=
  io_foldM (chunk_step voice style onProgress chunks) (seq 0 (length chunks)) [].

(** What [generateSpeech] does once the chunks are known (lines 37-80).
    The last progress call is the call number [chunks.length]. *)
Definition speech_of_chunks (voice : VoiceName) (style : jsstring) (onProgress : option Callback)
    (chunks : list jsstring) : io event (Blob * AudioBuffer) :=
  audioBuffers ← generate_chunks voice style onProgress chunks;
  _ ← notify onProgress (length chunks) (num_of_Z 100);
  mergedBuffer ← lift (mergeAudioBuffers audioBuffers);
  wavBlob ← lift (audioBufferToWav mergedBuffer);
  mret (wavBlob, mergedBuffer).

(** [generateSpeech(text, voice, style, onProgress)] (lines 30-81).  [None]
    would be a [chunkText] that does not return. *)
Definition generateSpeech (text : jsstring) (voice : VoiceName) (style : jsstring)
    (onProgress : option Callback) : option (io event (Blob * AudioBuffer)) :=
  chunks ← chunkText text DEFAULT_MAX_WORDS;
  Some (speech_of_chunks voice style onProgress chunks).

(** ** The reference *)

(** What becomes of one chunk when [k] calls have been made before. *)
Definition chunk_outcome (voice : VoiceName) (style : jsstring) (k : nat)
    (chunk : jsstring) : result AudioBuffer :=
  response ← generateContent k (request_of voice style chunk);
  base64Audio ← payload response;
  uint8Array ← decodeBase64ToUint8Array base64Audio;
  decodePCMToAudioBuffer uint8Array SAMPLE_RATE 1.

(** The event of a progress call, if there is a callback. *)
Definition called (onProgress : option Callback) (p : num) : list event :=
  match onProgress with
  | Some _ => [Progress p]
  | None => []
  end.

(** The value passed at the call number [i] of the callback in a run over
    [n] chunks: [i / n * 100] in the loop, 100 after it. *)
Definition progress_arg (n i : nat) : num :=
  if decide (i < n) then progress_of i n else num_of_Z 100.

(** The events and the result of the chunks [i], [i + 1], ... of [n], when
    [k] calls have been made before and [acc] holds the buffers so far: a
    callback that throws ends the loop before the request, and its
    exception is not logged. *)
Fixpoint chunks_ref (voice : VoiceName) (style : jsstring) (onProgress : option Callback)
    (n i k : nat) (chunks : list jsstring) (acc : list AudioBuffer)
  : list event * result (list AudioBuffer) :=
  match chunks with
  | [] => ([], Ok acc)
  | chunk :: rest =>
      match notified onProgress i (progress_of i n) with
      | Throw e => (called onProgress (progress_of i n), Throw e)
      | Ok _ =>
          let evs := called onProgress (progress_of i n)
                     ++ [Call (request_of voice style chunk)] in
          match chunk_outcome voice style k chunk with
          | Ok b =>
              let '(evs', r) :=
                chunks_ref voice style onProgress n (S i) (S k) rest (acc ++ [b]) in
              (evs ++ evs', r)
          | Throw e => (evs ++ [ConsoleError i e], Throw e)
          end
      end
  end.

(** The events and the result of a whole request. *)
Definition speech_ref (text : jsstring) (voice : VoiceName) (style : jsstring)
    (onProgress : option Callback) (t : list event)
  : list event * result (Blob * AudioBuffer) :=
  let chunks := chunks_of text DEFAULT_MAX_WORDS in
  match chunks_ref voice style onProgress (length chunks) 0 (length (calls t)) chunks [] with
  | (evs, Throw e) => (t ++ evs, Throw e)
  | (evs, Ok audioBuffers) =>
      (t ++ evs ++ called onProgress (num_of_Z 100),
       _ ← notified onProgress (length chunks) (num_of_Z 100);
       mergedBuffer ← mergeAudioBuffers audioBuffers;
       wavBlob ← audioBufferToWav mergedBuffer;
       mret (wavBlob, mergedBuffer))
  end.

End service.

(** ** The payload *)

Lemma base64Audio_audio_response base64 : base64Audio (audio_response base64) = Some base64.
Proof. done. Qed.

Lemma payload_Ok response base64 :
  payload response = Ok base64 <-> base64Audio response = Some base64 /\ base64 <> [].
Proof.
  unfold payload. destruct (base64Audio response) as [[|c s]|].
  - split; [done|by intros [[= <-] ?]].
  - split; [by intros [= <-]|by intros [[= <-] _]].
  - split; [done|by intros [? _]].
Qed.

Lemma payload_Throw response e :
  payload response = Throw e -> e = Error "No audio data returned from Gemini API".
Proof. unfold payload. destruct (base64Audio response) as [[|c s]|]; [|done|]; by intros [= <-]. Qed.

(** The chain reads the first part of the first candidate. *)
Lemma base64Audio_first c cs p ps :
  content c = Some (mkContent (Some (p :: ps))) ->
  base64Audio (mkResponse (Some (c :: cs))) = inlineData p ≫= data.
Proof. intros Hc. unfold base64Audio. cbn. by rewrite Hc. Qed.

(** ** The log *)

Lemma calls_app t1 t2 : calls (t1 ++ t2) = calls t1 ++ calls t2.
Proof. apply omap_app. Qed.

Lemma progress_app t1 t2 : progress (t1 ++ t2) = progress t1 ++ progress t2.
Proof. apply omap_app. Qed.

Lemma calls_called onProgress p : calls (called onProgress p) = [].
Proof. by destruct onProgress. Qed.

Lemma length_calls_turn t onProgress p r :
  length (calls (t ++ called onProgress p ++ [Call r])) = S (length (calls t)).
Proof. rewrite !calls_app, calls_called, length_app. simpl. lia. Qed.

(** A callback that returns changes nothing but the log. *)
Lemma quiet_None : quiet None.
Proof. done. Qed.

Lemma quiet_returning : quiet (Some returning).
Proof. done. Qed.

(** ** The loop computes the reference *)

Section service_lemmas.
Context `{limits : AudioLimits} `{svc : SpeechService}.
Context (voice : VoiceName) (style : jsstring) (onProgress : option Callback).

Lemma run_call r t :
  run (call r) t = (t ++ [Call r], generateContent (length (calls t)) r).
Proof. done. Qed.

Lemma run_notify k p t :
  run (notify onProgress k p) t = (t ++ called onProgress p, notified onProgress k p).
Proof. destruct onProgress as [f|]; [done|]. cbn. by rewrite app_nil_r. Qed.

Lemma run_synthesize_chunk chunk t :
  run (synthesize_chunk voice style chunk) t
  = (t ++ [Call (request_of voice style chunk)],
     chunk_outcome voice style (length (calls t)) chunk).
Proof.
  unfold synthesize_chunk, chunk_outcome. rewrite run_bind, run_call.
  destruct (generateContent _ _) as [response|e]; [|done].
  rewrite bind_Ok, run_bind, run_lift. destruct (payload response) as [base64|e]; [|done].
  rewrite bind_Ok, run_bind, run_lift.
  destruct (decodeBase64ToUint8Array base64) as [data|e]; [|done].
  by rewrite bind_Ok, run_lift.
Qed.

(** The [try] block of a turn, after the progress call. *)
Lemma run_try_chunk acc i chunk t :
  run (try (buffer ← synthesize_chunk voice style chunk; mret (acc ++ [buffer]))
       catch (fun err => _ ← emit (ConsoleError i err); lift (Throw err))) t
  = match chunk_outcome voice style (length (calls t)) chunk with
    | Ok b => (t ++ [Call (request_of voice style chunk)], Ok (acc ++ [b]))
    | Throw e => (t ++ [Call (request_of voice style chunk); ConsoleError i e], Throw e)
    end.
Proof.
  pose proof (run_synthesize_chunk chunk t) as Hs.
  destruct (chunk_outcome voice style (length (calls t)) chunk) as [b|e].
  - erewrite run_try_Ok; [done|]. by erewrite run_bind_Ok.
  - erewrite run_try_Throw; [|by erewrite run_bind_Throw].
    rewrite run_bind, run_emit, run_lift. by rewrite <- app_assoc.
Qed.

Lemma run_chunk_step chunks acc i chunk t :
  chunks !! i = Some chunk ->
  run (chunk_step voice style onProgress chunks acc i) t
  = let p := progress_of i (length chunks) in
    match notified onProgress i p with
    | Throw e => (t ++ called onProgress p, Throw e)
    | Ok _ =>
        let evs := called onProgress p ++ [Call (request_of voice style chunk)] in
        match chunk_outcome voice style (length (calls t)) chunk with
        | Ok b => (t ++ evs, Ok (acc ++ [b]))
        | Throw e => (t ++ evs ++ [ConsoleError i e], Throw e)
        end
    end.
Proof.
  intros Hc. unfold chunk_step. rewrite Hc. cbn [default from_option id].
  rewrite run_bind, run_notify. cbn zeta.
  destruct (notified onProgress i _) as [[]|e]; [|done].
  rewrite run_try_chunk, calls_app, calls_called, app_nil_r.
  destruct (chunk_outcome voice style (length (calls t)) chunk) as [b|e];
    by rewrite <- !app_assoc.
Qed.

(** A turn of the reference whose progress call returns. *)
Lemma chunks_ref_cons n i k chunk rest acc :
  notified onProgress i (progress_of i n) = Ok tt ->
  chunks_ref voice style onProgress n i k (chunk :: rest) acc
  = let evs := called onProgress (progress_of i n) ++ [Call (request_of voice style chunk)] in
    match chunk_outcome voice style k chunk with
    | Ok b =>
        let '(evs', r) := chunks_ref voice style onProgress n (S i) (S k) rest (acc ++ [b]) in
        (evs ++ evs', r)
    | Throw e => (evs ++ [ConsoleError i e], Throw e)
    end.
Proof. intros Hq. cbn [chunks_ref]. by rewrite Hq. Qed.

Lemma run_chunks_from (pre post : list jsstring) acc t :
  run (io_foldM (chunk_step voice style onProgress (pre ++ post))
         (seq (length pre) (length post)) acc) t
  = let '(evs, r) := chunks_ref voice style onProgress (length (pre ++ post)) (length pre)
                       (length (calls t)) post acc in
    (t ++ evs, r).
Proof.
  revert pre acc t. induction post as [|chunk post IH]; intros pre acc t.
  - cbn [length seq io_foldM chunks_ref]. by rewrite run_ret, app_nil_r.
  - cbn [length seq io_foldM chunks_ref]. rewrite run_bind.
    rewrite (run_chunk_step _ _ _ chunk) by by apply list_lookup_middle.
    cbn zeta. destruct (notified onProgress _ _) as [[]|e]; [|done].
    destruct (chunk_outcome voice style (length (calls t)) chunk) as [b|e]; [|done].
    replace (pre ++ chunk :: post) with ((pre ++ [chunk]) ++ post) by by rewrite <- app_assoc.
    replace (S (length pre)) with (length (pre ++ [chunk])) by (rewrite length_app; simpl; lia).
    rewrite IH, length_calls_turn, (length_app pre [chunk]), Nat.add_1_r.
    destruct (chunks_ref _ _ _ _ _ _ post _) as [evs r]. by rewrite <- !app_assoc.
Qed.

Lemma run_generate_chunks chunks t :
  run (generate_chunks voice style onProgress chunks) t
  = let '(evs, r) := chunks_ref voice style onProgress (length chunks) 0
                       (length (calls t)) chunks [] in
    (t ++ evs, r).
Proof. apply (run_chunks_from [] chunks). Qed.

(** [generateSpeech] returns, and what it does is the reference. *)
Lemma generateSpeech_ref text :
  exists m, generateSpeech text voice style onProgress = Some m
       /\ forall t, run m t = speech_ref text voice style onProgress t.
Proof.
  unfold generateSpeech. rewrite chunkText_groups by (unfold DEFAULT_MAX_WORDS; lia).
  eexists. split; [done|]. intros t. unfold speech_ref, speech_of_chunks.
  rewrite run_bind, run_generate_chunks.
  destruct (chunks_ref _ _ _ _ _ _ _ _) as [evs [bufs|e]]; [|done].
  rewrite run_bind, run_notify, <- app_assoc.
  destruct (notified onProgress _ _) as [[]|e]; [|done].
  rewrite bind_Ok, run_bind, run_lift. destruct (mergeAudioBuffers bufs) as [merged|e]; [|done].
  rewrite bind_Ok, run_bind, run_lift. by destruct (audioBufferToWav merged).
Qed.

(** [generateSpeech] adds to the log and removes nothing from it. *)
Lemma generateSpeech_log text m t :
  generateSpeech text voice style onProgress = Some m -> exists evs, (run m t).1 = t ++ evs.
Proof.
  intros Hm. destruct (generateSpeech_ref text) as (m' & Hm' & Href).
  rewrite Hm in Hm'. injection Hm' as <-. rewrite Href. unfold speech_ref.
  destruct (chunks_ref _ _ _ _ _ _ _ _) as [evs [bufs|e]]; eexists; reflexivity.
Qed.

End service_lemmas.

(** ** The reference, event by event *)

Section reference.
Context `{limits : AudioLimits} `{svc : SpeechService}.
Context (voice : VoiceName) (style : jsstring).

(** The calls are the requests of the first [j] chunks; [j] is the number
    of chunks on success.  A loop fails in one of two ways: the chunk
    [j - 1] fails, and the failure is the last line of the log; or the
    callback throws at its call for the chunk [j], which is then the last
    event. *)
Lemma chunks_ref_calls onProgress n i k chunks acc evs r :
  chunks_ref voice style onProgress n i k chunks acc = (evs, r) ->
  exists j, j <= length chunks
    /\ calls evs = request_of voice style <$> take j chunks
    /\ match r with
       | Ok bufs => j = length chunks /\ length bufs = length acc + length chunks
       | Throw e =>
           (1 <= j /\ last evs = Some (ConsoleError (i + j - 1) e)
            /\ chunk_outcome voice style (k + j - 1)
                 (default [] (chunks !! (j - 1))) = Throw e)
           \/ (j < length chunks
               /\ last evs = Some (Progress (progress_of (i + j) n))
               /\ notified onProgress (i + j) (progress_of (i + j) n) = Throw e)
       end.
Proof.
  revert i k acc evs r. induction chunks as [|chunk rest IH]; intros i k acc evs r.
  { intros [= <- <-]. exists 0. cbn. repeat split; lia. }
  cbn [chunks_ref]. destruct (notified onProgress i _) as [[]|e] eqn:Hn.
  - destruct (chunk_outcome voice style k chunk) as [b|e] eqn:Hb.
    + destruct (chunks_ref _ _ _ _ _ _ rest _) as [evs' r'] eqn:Hrest.
      intros [= <- <-]. apply IH in Hrest as (j & Hj & Hcalls & Hr).
      exists (S j). cbn [length take fmap list_fmap]. split; [lia|]. split.
      { by rewrite !calls_app, calls_called, Hcalls. }
      destruct r' as [bufs|e].
      * rewrite length_app in Hr. simpl in Hr. lia.
      * destruct Hr as [(Hj1 & Hlast & Hout)|(Hj1 & Hlast & Hthrow)]; [left|right].
        -- split; [lia|]. split; [rewrite last_app, Hlast; do 2 f_equal; lia|].
           destruct j; [lia|]. cbn [lookup list_lookup Nat.sub] in *.
           rewrite Nat.sub_0_r in *. rewrite <- Hout. f_equal. lia.
        -- rewrite Nat.add_succ_r. split; [lia|]. by rewrite last_app, Hlast.
    + intros [= <- <-]. exists 1. cbn [length take fmap list_fmap]. split; [lia|]. split.
      { by rewrite !calls_app, calls_called. }
      left. split; [lia|]. split; [rewrite last_snoc; do 2 f_equal; lia|].
      cbn. by rewrite Nat.add_sub.
  - intros [= <- <-]. exists 0. cbn [length take fmap list_fmap]. split; [lia|].
    split; [apply calls_called|]. right. rewrite Nat.add_0_r. split; [lia|].
    split; [|done]. by destruct onProgress.
Qed.

(** A callback that does not throw: at least one call is made, and a
    loop fails only when a chunk fails. *)
Lemma chunks_ref_calls_quiet onProgress n i k chunks acc evs r :
  quiet onProgress -> chunks_ref voice style onProgress n i k chunks acc = (evs, r) ->
  exists j, j <= length chunks
    /\ calls evs = request_of voice style <$> take j chunks
    /\ (1 <= length chunks -> 1 <= j)
    /\ match r with
       | Ok bufs => j = length chunks
       | Throw e => 1 <= j /\ last evs = Some (ConsoleError (i + j - 1) e)
                    /\ chunk_outcome voice style (k + j - 1)
                         (default [] (chunks !! (j - 1))) = Throw e
       end.
Proof.
  intros Hq (j & Hj & Hcalls & Hr)%chunks_ref_calls. exists j. split; [done|]. split; [done|].
  destruct r as [bufs|e]; [split; [lia|tauto]|].
  destruct Hr as [Hr|(_ & _ & Hthrow)]; [split; [lia|done]|]. by rewrite Hq in Hthrow.
Qed.

(** The progress callback receives [i / n * 100] for each turn of the
    loop that is entered. *)
Lemma chunks_ref_progress (f : Callback) n i k chunks acc evs r :
  chunks_ref voice style (Some f) n i k chunks acc = (evs, r) ->
  exists j, j <= length chunks
    /\ progress evs = (fun i' => progress_of i' n) <$> seq i j
    /\ (is_ok r = true -> j = length chunks).
Proof.
  revert i k acc evs r. induction chunks as [|chunk rest IH]; intros i k acc evs r.
  { intros [= <- <-]. by exists 0. }
  cbn [chunks_ref]. destruct (notified _ i _) as [[]|e];
    [|intros [= <- <-]; exists 1; cbn [length]; split; [lia|done]].
  destruct (chunk_outcome voice style k chunk) as [b|e].
  - destruct (chunks_ref _ _ _ _ _ _ rest _) as [evs' r'] eqn:Hrest.
    intros [= <- <-]. apply IH in Hrest as (j & Hj & Hp & Hr).
    exists (S j). cbn [length seq fmap list_fmap]. split; [lia|].
    change (progress (Progress (progress_of i n) :: Call (request_of voice style chunk) :: evs'))
      with (progress_of i n :: progress evs').
    rewrite Hp. split; [done|]. intros ?%Hr. lia.
  - intros [= <- <-]. exists 1. cbn [length]. split; [lia|]. split; [done|]. done.
Qed.

(** A callback that returns changes neither what is asked nor what is
    returned. *)
Lemma chunks_ref_quiet onProgress n i k chunks acc :
  quiet onProgress ->
  (chunks_ref voice style onProgress n i k chunks acc).2
  = (chunks_ref voice style None n i k chunks acc).2
  /\ calls (chunks_ref voice style onProgress n i k chunks acc).1
    = calls (chunks_ref voice style None n i k chunks acc).1.
Proof.
  intros Hq. revert i k acc. induction chunks as [|chunk rest IH]; intros i k acc; [done|].
  rewrite !chunks_ref_cons by done.
  destruct (chunk_outcome voice style k chunk) as [b|e];
    [|cbn [fst snd]; by rewrite !calls_app, !calls_called].
  specialize (IH (S i) (S k) (acc ++ [b])).
  destruct (chunks_ref _ _ onProgress _ _ _ rest _) as [evs1 r1].
  destruct (chunks_ref _ _ None _ _ _ rest _) as [evs2 r2].
  cbn [fst snd] in *. destruct IH as [-> Hc]. split; [done|].
  by rewrite !calls_app, !calls_called, Hc.
Qed.

(** The loop over [pre ++ rest] when the progress calls and the chunks of
    [pre] succeed: the events of these turns, then the loop over [rest]. *)
Lemma chunks_ref_app (f : Callback) n i k (pre rest : list jsstring) acc :
  (forall j, j < length pre -> f (i + j) (progress_of (i + j) n) = Ok tt) ->
  (forall j chunk, pre !! j = Some chunk ->
               is_ok (chunk_outcome voice style (k + j) chunk) = true) ->
  exists bufs,
    chunks_ref voice style (Some f) n i k (pre ++ rest) acc
    = let '(evs, r) := chunks_ref voice style (Some f) n (i + length pre) (k + length pre)
                         rest bufs in
      (mjoin (imap (fun j chunk => [Progress (progress_of (i + j) n);
                                 Call (request_of voice style chunk)]) pre) ++ evs, r).
Proof.
  revert i k acc. induction pre as [|chunk pre IH]; intros i k acc Hf Hc.
  { exists acc. cbn [app length imap mjoin list_join]. rewrite !Nat.add_0_r.
    by destruct (chunks_ref _ _ _ _ _ _ rest _). }
  pose proof (Hf 0 ltac:(simpl; lia)) as Hf0. pose proof (Hc 0 chunk eq_refl) as Hc0.
  rewrite Nat.add_0_r in Hf0, Hc0. apply is_ok_true in Hc0 as [b Hb].
  destruct (IH (S i) (S k) (acc ++ [b])) as [bufs Hrest].
  { intros j Hj. rewrite Nat.add_succ_comm. apply Hf. simpl. lia. }
  { intros j c Hj. rewrite Nat.add_succ_comm. by apply Hc. }
  exists bufs. cbn [app]. rewrite chunks_ref_cons by done. rewrite Hb. cbn zeta. rewrite Hrest.
  cbn [length]. rewrite <- !Nat.add_succ_comm.
  destruct (chunks_ref _ _ _ _ _ _ rest _) as [evs r].
  rewrite imap_cons. cbn [mjoin list_join called app]. rewrite Nat.add_0_r. do 5 f_equal.
  apply imap_ext. intros j c _. cbn. by rewrite Nat.add_succ_r.
Qed.

(** The same, for the first [i] chunks of a loop that starts. *)
Lemma chunks_ref_take (f : Callback) n k chunks i :
  (forall j, j < i -> f j (progress_of j n) = Ok tt) ->
  (forall j chunk, j < i -> chunks !! j = Some chunk ->
               is_ok (chunk_outcome voice style (k + j) chunk) = true) ->
  exists bufs,
    chunks_ref voice style (Some f) n 0 k chunks []
    = let '(evs, r) := chunks_ref voice style (Some f) n (length (take i chunks))
                         (k + length (take i chunks)) (drop i chunks) bufs in
      (mjoin (imap (fun j chunk => [Progress (progress_of j n);
                                 Call (request_of voice style chunk)]) (take i chunks))
       ++ evs, r).
Proof.
  intros Hf Hc.
  destruct (chunks_ref_app f n 0 k (take i chunks) (drop i chunks) []) as [bufs Happ].
  - intros j Hj. rewrite length_take in Hj. apply Hf. lia.
  - intros j chunk [Hj Hl]%lookup_take_Some. by apply Hc.
  - exists bufs. rewrite take_drop in Happ. exact Happ.
Qed.

(** Every buffer of a successful loop is a well-formed mono buffer at
    24000 Hz. *)
Lemma chunk_outcome_wf k chunk b :
  chunk_outcome voice style k chunk = Ok b ->
  wf_buffer b /\ numberOfChannels b = 1 /\ sampleRate b = SAMPLE_RATE.
Proof.
  unfold chunk_outcome. intros Hb. simplify_result.
  apply decodePCM_Ok in Hb as (-> & _ & ? & ?). split; [apply decoded_wf; lia|done].
Qed.

Lemma chunks_ref_wf onProgress n i k chunks acc evs bufs :
  Forall (fun b => wf_buffer b /\ numberOfChannels b = 1 /\ sampleRate b = SAMPLE_RATE) acc ->
  chunks_ref voice style onProgress n i k chunks acc = (evs, Ok bufs) ->
  Forall (fun b => wf_buffer b /\ numberOfChannels b = 1 /\ sampleRate b = SAMPLE_RATE) bufs.
Proof.
  revert i k acc evs. induction chunks as [|chunk rest IH]; intros i k acc evs Hacc.
  - by intros [= <- <-].
  - cbn [chunks_ref]. destruct (notified onProgress i _) as [[]|e]; [|done].
    destruct (chunk_outcome voice style k chunk) as [b|e] eqn:Hb; [|done].
    destruct (chunks_ref _ _ _ _ _ _ rest _) as [evs' r'] eqn:Hrest.
    intros [= <- ->]. apply IH in Hrest; [done|].
    apply Forall_app. split; [done|]. constructor; [|done]. by eapply chunk_outcome_wf.
Qed.

End reference.

(** ** [generateSpeech] *)

Section generateSpeech.
Context `{limits : AudioLimits} `{svc : SpeechService}.
Context (voice : VoiceName) (style : jsstring).

(** Buffers decoded by the loop always merge and encode. *)
Lemma merge_encode_total bufs :
  Forall (fun b => wf_buffer b /\ numberOfChannels b = 1 /\ sampleRate b = SAMPLE_RATE) bufs ->
  (mergedBuffer ← mergeAudioBuffers bufs;
   wavBlob ← audioBufferToWav mergedBuffer;
   mret (wavBlob, mergedBuffer))
  = Ok (mkBlob (wav_file (merged bufs)) "audio/wav", merged bufs).
Proof.
  intros Hb.
  assert (Forall wf_buffer bufs) as Hwf by (apply (list.Forall_impl _ _ _ Hb); tauto).
  assert (merge_ok bufs) as Hok.
  { destruct bufs as [|a [|b bs]]; [done..|]. pose proof (Forall_inv Hb) as (_ & Ha & Hr).
    pose proof maxChannels_ge. pose proof minSampleRate_le. pose proof maxSampleRate_ge.
    unfold merge_ok, SAMPLE_RATE in *. rewrite Ha, Hr. split; [|lia].
    apply (list.Forall_impl _ _ _ Hb). intros x (? & Hx & _). split; [done|lia]. }
  rewrite merge_refines, bind_Ok by done.
  by rewrite audioBufferToWav_wf, bind_Ok by by apply merged_wf.
Qed.

(** C4. [generateSpeech] always returns a computation, and on every log it
    does what the reference says, whatever the callback does: the events
    of the chunks up to the first failure, then, if none failed, the last
    progress call, the merge and the encoding. *)
Theorem generateSpeech_spec (text : jsstring) (onProgress : option Callback) :
  exists m, generateSpeech text voice style onProgress = Some m
       /\ forall t, run m t = speech_ref text voice style onProgress t.
Proof. apply generateSpeech_ref. Qed.

(** The run of [generateSpeech] as the reference, for a run at hand. *)
Lemma generateSpeech_run (text : jsstring) (onProgress : option Callback) m t :
  generateSpeech text voice style onProgress = Some m ->
  run m t = speech_ref text voice style onProgress t.
Proof.
  intros Hm. destruct (generateSpeech_ref voice style onProgress text) as (m' & Hm' & Href).
  rewrite Hm in Hm'. by injection Hm' as <-.
Qed.

(** C27. The service is called once per chunk, in the order of the chunks,
    with the prompt built from the chunk; when [generateSpeech] succeeds
    every chunk has been asked for; and when the callback does not throw
    at least one call is made whatever the text is, a blank text
    included. *)
Theorem generateSpeech_calls (text : jsstring) (onProgress : option Callback) m t t' r :
  generateSpeech text voice style onProgress = Some m -> run m t = (t', r) ->
  let chunks := chunks_of text DEFAULT_MAX_WORDS in
  exists j, j <= length chunks
    /\ calls t' = calls t ++ (request_of voice style <$> take j chunks)
    /\ (is_ok r = true -> j = length chunks)
    /\ (quiet onProgress -> 1 <= j).
Proof.
  intros Hm Hrun chunks. rewrite (generateSpeech_run _ _ _ _ Hm) in Hrun.
  unfold speech_ref in Hrun. fold chunks in Hrun.
  destruct (chunks_ref _ _ _ _ _ _ chunks _) as [evs r'] eqn:Hc.
  assert (1 <= length chunks) as Hn
    by (apply length_chunks_of_pos; unfold DEFAULT_MAX_WORDS; lia).
  pose proof (chunks_ref_calls _ _ _ _ _ _ _ _ _ _ Hc) as (j & Hj & Hcalls & Hr).
  exists j. split; [done|]. destruct r' as [bufs|e]; injection Hrun as <- <-.
  - rewrite !calls_app, calls_called, app_nil_r, Hcalls. split; [done|]. split; lia.
  - rewrite calls_app, Hcalls. split; [done|]. split; [done|]. intros Hq.
    destruct Hr as [[? _]|(_ & _ & Hthrow)]; [done|]. by rewrite Hq in Hthrow.
Qed.

(** C12. [generateSpeech] fails in two ways only.  A chunk fails: the
    failing chunk [i] is the last one asked for, [i + 1] calls have been
    made, the failure is the last line of the log, and it is the exception
    thrown.  Or the callback throws at its call number [i]: that call is
    the last event, [i] calls have been made, and nothing is written to
    the console.  Merging and encoding the decoded buffers never fail. *)
Theorem generateSpeech_failure (text : jsstring) (onProgress : option Callback) m t t' e :
  generateSpeech text voice style onProgress = Some m -> run m t = (t', Throw e) ->
  let chunks := chunks_of text DEFAULT_MAX_WORDS in
  (exists i, i < length chunks
     /\ last t' = Some (ConsoleError i e)
     /\ length (calls t') = length (calls t) + S i
     /\ chunk_outcome voice style (length (calls t) + i) (default [] (chunks !! i)) = Throw e)
  \/ (exists i, i <= length chunks
     /\ last t' = Some (Progress (progress_arg (length chunks) i))
     /\ length (calls t') = length (calls t) + i
     /\ notified onProgress i (progress_arg (length chunks) i) = Throw e).
Proof.
  intros Hm Hrun chunks. rewrite (generateSpeech_run _ _ _ _ Hm) in Hrun.
  unfold speech_ref in Hrun. fold chunks in Hrun.
  destruct (chunks_ref _ _ _ _ _ _ chunks _) as [evs r'] eqn:Hc.
  pose proof (chunks_ref_calls _ _ _ _ _ _ _ _ _ _ Hc) as (j & Hj & Hcalls & Hr).
  assert (length (calls (t ++ evs)) = length (calls t) + j) as Hk
    by (rewrite calls_app, length_app, Hcalls, length_fmap, length_take; lia).
  destruct r' as [bufs|e'].
  - apply chunks_ref_wf in Hc; [|done]. rewrite merge_encode_total in Hrun by done.
    destruct (notified onProgress _ _) as [[]|e'] eqn:Hn; [done|]. injection Hrun as <- <-.
    right. exists (length chunks). unfold progress_arg. rewrite decide_False by lia.
    destruct Hr as [-> _]. split; [done|]. split; [|split; [|done]].
    + destruct onProgress as [f|]; [|discriminate Hn]. cbn [called]. by rewrite !app_assoc, last_snoc.
    + by rewrite app_assoc, calls_app, calls_called, app_nil_r.
  - injection Hrun as <- <-. destruct Hr as [(Hj1 & Hlast & Hout)|(Hj1 & Hlast & Hthrow)].
    + left. exists (j - 1). split; [lia|]. split; [by rewrite last_app, Hlast|].
      split; [lia|]. rewrite <- Hout. f_equal. lia.
    + right. exists j. unfold progress_arg. rewrite decide_True by done.
      split; [lia|]. by rewrite last_app, Hlast.
Qed.

(** C39. The progress call is outside the [try] block: when the callback
    throws at its call number [i], after the chunks before have been
    synthesized, [generateSpeech] throws that exception at once.  The log
    is then the progress call and the request of each of the first [i]
    chunks, followed by the call that threw: no request is made for the
    chunk [i], nothing is written to the console, and the buffers
    collected are lost.  The call number [i] of a text of [i] chunks is the
    one of line 72. *)
Theorem generateSpeech_throws (text : jsstring) (f : Callback) m t (i : nat) e :
  generateSpeech text voice style (Some f) = Some m ->
  let chunks := chunks_of text DEFAULT_MAX_WORDS in
  let n := length chunks in
  i <= n ->
  (forall j, j < i -> f j (progress_of j n) = Ok tt) ->
  (forall j chunk, j < i -> chunks !! j = Some chunk ->
     is_ok (chunk_outcome voice style (length (calls t) + j) chunk) = true) ->
  f i (progress_arg n i) = Throw e ->
  run m t
  = (t ++ mjoin (imap (fun j chunk => [Progress (progress_of j n);
                                    Call (request_of voice style chunk)]) (take i chunks))
       ++ [Progress (progress_arg n i)],
     Throw e).
Proof.
  intros Hm chunks n Hi Hf Hc He. rewrite (generateSpeech_run _ _ _ _ Hm).
  unfold speech_ref. fold chunks n.
  destruct (chunks_ref_take voice style f n (length (calls t)) chunks i Hf Hc) as [bufs ->].
  rewrite length_take, Nat.min_l by done. unfold progress_arg in *.
  destruct (drop i chunks) as [|chunk rest] eqn:Hd.
  - apply (f_equal length) in Hd. rewrite length_drop in Hd. simpl in Hd.
    assert (i = n) as -> by (unfold n in *; lia). rewrite decide_False in He |- * by lia.
    cbn [chunks_ref notified called]. by rewrite He, app_nil_r.
  - apply (f_equal length) in Hd. rewrite length_drop in Hd. simpl in Hd.
    rewrite decide_True in He |- * by (unfold n; lia).
    cbn [chunks_ref notified called]. by rewrite He.
Qed.

(** A callback that returns is advisory: with it the same requests are
    made and the same result is returned as without one. *)
Theorem generateSpeech_advisory (text : jsstring) (onProgress : option Callback) m1 m2 t :
  quiet onProgress ->
  generateSpeech text voice style onProgress = Some m1 ->
  generateSpeech text voice style None = Some m2 ->
  (run m1 t).2 = (run m2 t).2 /\ calls (run m1 t).1 = calls (run m2 t).1.
Proof.
  intros Hq H1 H2. rewrite (generateSpeech_run _ _ _ _ H1), (generateSpeech_run _ _ _ _ H2).
  unfold speech_ref.
  pose proof (chunks_ref_quiet voice style onProgress
                (length (chunks_of text DEFAULT_MAX_WORDS)) 0 (length (calls t))
                (chunks_of text DEFAULT_MAX_WORDS) [] Hq) as [Hr Hc].
  destruct (chunks_ref _ _ onProgress _ _ _ _ _) as [evs1 r1].
  destruct (chunks_ref _ _ None _ _ _ _ _) as [evs2 r2].
  cbn [fst snd] in *. subst r2.
  destruct r1; cbn [fst snd]; rewrite ?Hq, !calls_app, ?calls_called, Hc;
    by rewrite ?app_nil_r.
Qed.

(** On success the callback has received [i / n * 100] for every chunk
    [i] of the [n] chunks, in order, and then 100. *)
Theorem generateSpeech_progress (text : jsstring) (f : Callback) m t t' r :
  generateSpeech text voice style (Some f) = Some m -> run m t = (t', Ok r) ->
  let n := length (chunks_of text DEFAULT_MAX_WORDS) in
  progress t' = progress t ++ ((fun i => progress_of i n) <$> seq 0 n) ++ [num_of_Z 100].
Proof.
  intros Hm Hrun n. rewrite (generateSpeech_run _ _ _ _ Hm) in Hrun.
  unfold speech_ref in Hrun. fold n in Hrun.
  destruct (chunks_ref _ _ _ _ _ _ _ _) as [evs r'] eqn:Hc.
  apply chunks_ref_progress in Hc as (j & Hj & Hp & Hr).
  destruct r' as [bufs|e]; [|done]. injection Hrun as <- _.
  rewrite !progress_app, Hp, Hr by done. done.
Qed.

End generateSpeech.

(** ** The progress values increase *)

(** For [n] chunks, every value passed to the callback is below the next
    one, the last being 100. *)
Definition progress_ok (n : nat) : bool :=
  forallb (fun i => num_lt (progress_of i n)
                   (if decide (S i < n) then progress_of (S i) n else num_of_Z 100))
    (seq 0 n).

Lemma progress_ok_32 : forallb progress_ok (seq 0 33) = true.
Proof. vm_compute. reflexivity. Qed.

(** Up to 32 chunks (a text of [MAX_WORDS] words has 13), the values
    passed to the progress callback increase strictly and stay below the
    final 100: the rounding of the quotient and of the product in binary64
    never reorders them. *)
Lemma progress_lt_32 (n i : nat) :
  n <= 32 -> i < n ->
  num_lt (progress_of i n) (if decide (S i < n) then progress_of (S i) n else num_of_Z 100)
  = true.
Proof.
  intros Hn Hi. pose proof progress_ok_32 as H32.
  rewrite List.forallb_forall in H32. specialize (H32 n).
  unfold progress_ok in H32. rewrite List.forallb_forall in H32.
  apply H32; apply List.in_seq; lia.
Qed.

Theorem progress_increasing (n i : nat) :
  n <= 32 -> i < n ->
  num_lt (progress_of i n) (if decide (S i < n) then progress_of (S i) n else num_of_Z 100)
  = true.
Proof. apply progress_lt_32. Qed.

(** ** The payload of a response *)

Lemma payload_first c cs p ps :
  content c = Some (mkContent (Some (p :: ps))) ->
  payload (mkResponse (Some (c :: cs)))
  = match inlineData p ≫= data with
    | Some (ch :: s) => Ok (ch :: s)
    | _ => Throw (Error "No audio data returned from Gemini API")
    end.
Proof. intros Hc. unfold payload. by rewrite (base64Audio_first c cs p ps Hc). Qed.

(** C13. The audio of an answer is the inline data of the first part of
    its first candidate and of nothing else: the [try] block decodes that
    data, and when the part holds no data, or empty data, it throws the
    error of line 60 after the one call, whatever the other parts and the
    other candidates hold. *)
Theorem payload_first_part `{limits : AudioLimits} `{svc : SpeechService}
    (voice : VoiceName) (style chunk : jsstring) (t : list event)
    (c : Candidate) (cs : list Candidate) (p : Part) (ps : list Part) :
  generateContent (length (calls t)) (request_of voice style chunk)
  = Ok (mkResponse (Some (c :: cs))) ->
  content c = Some (mkContent (Some (p :: ps))) ->
  run (synthesize_chunk voice style chunk) t
  = (t ++ [Call (request_of voice style chunk)],
     match inlineData p ≫= data with
     | Some (ch :: s) =>
         uint8Array ← decodeBase64ToUint8Array (ch :: s);
         decodePCMToAudioBuffer uint8Array SAMPLE_RATE 1
     | _ => Throw (Error "No audio data returned from Gemini API")
     end).
Proof.
  intros Hr Hc. rewrite run_synthesize_chunk. unfold chunk_outcome.
  rewrite Hr, bind_Ok, (payload_first c cs p ps Hc).
  by destruct (inlineData p ≫= data) as [[|ch s]|].
Qed.

(** ** Witnesses *)

(** A service that always answers with the two samples 0 and 16384, and one
    that answers without audio. *)
Definition scenario_service : SpeechService :=
  {| generateContent := fun _ _ => Ok (audio_response (str "AAAAQA==")) |}.
Definition silent_service : SpeechService :=
  {| generateContent := fun _ _ => Ok (mkResponse None) |}.

Definition scenario_speech (onProgress : option Callback) : io event (Blob * AudioBuffer) :=
  speech_of_chunks (limits := spec_limits) (svc := scenario_service)
    ZEPHYR DEFAULT_STYLE onProgress [str "hello world"].
Definition silent_speech : io event (Blob * AudioBuffer) :=
  speech_of_chunks (limits := spec_limits) (svc := silent_service)
    ZEPHYR DEFAULT_STYLE (Some returning) [str "hello world"].

(** The end-to-end scenario: one chunk, one call, the progress values 0
    and 100, and the file of 48 bytes whose data region is [00 00 FF 3F]. *)
Example scenario_generateSpeech :
  generateSpeech (limits := spec_limits) (svc := scenario_service)
    (str "hello world") ZEPHYR DEFAULT_STYLE (Some returning)
  = Some (scenario_speech (Some returning))
  /\ run (scenario_speech (Some returning)) []
     = ([Progress (S754_zero false);
         Call (request_of ZEPHYR DEFAULT_STYLE (str "hello world"));
         Progress (num_of_Z 100)],
        Ok (scenario_blob, scenario_buffer)).
Proof. split; vm_compute; reflexivity. Qed.

Lemma generateSpeech_calls_witness :
  exists j, j <= length (chunks_of (str "hello world") DEFAULT_MAX_WORDS)
    /\ calls (run (scenario_speech (Some returning)) []).1
       = calls [] ++ (request_of ZEPHYR DEFAULT_STYLE
                        <$> take j (chunks_of (str "hello world") DEFAULT_MAX_WORDS))
    /\ (is_ok (run (scenario_speech (Some returning)) []).2 = true
        -> j = length (chunks_of (str "hello world") DEFAULT_MAX_WORDS))
    /\ (quiet (Some returning) -> 1 <= j).
Proof.
  apply (generateSpeech_calls (limits := spec_limits) (svc := scenario_service)
           ZEPHYR DEFAULT_STYLE (str "hello world") (Some returning)
           (scenario_speech (Some returning)) []).
  - vm_compute. reflexivity.
  - by destruct (run _ _).
Defined.

Lemma generateSpeech_failure_witness :
  (exists i, i < length (chunks_of (str "hello world") DEFAULT_MAX_WORDS)
     /\ last (run silent_speech []).1
        = Some (ConsoleError i (Error "No audio data returned from Gemini API"))
     /\ length (calls (run silent_speech []).1) = length (calls []) + S i
     /\ chunk_outcome (limits := spec_limits) (svc := silent_service) ZEPHYR DEFAULT_STYLE
          (length (calls []) + i)
          (default [] (chunks_of (str "hello world") DEFAULT_MAX_WORDS !! i))
        = Throw (Error "No audio data returned from Gemini API"))
  \/ (exists i, i <= length (chunks_of (str "hello world") DEFAULT_MAX_WORDS)
     /\ last (run silent_speech []).1
        = Some (Progress (progress_arg
                            (length (chunks_of (str "hello world") DEFAULT_MAX_WORDS)) i))
     /\ length (calls (run silent_speech []).1) = length (calls []) + i
     /\ notified (Some returning) i
          (progress_arg (length (chunks_of (str "hello world") DEFAULT_MAX_WORDS)) i)
        = Throw (Error "No audio data returned from Gemini API")).
Proof.
  apply (generateSpeech_failure (limits := spec_limits) (svc := silent_service)
           ZEPHYR DEFAULT_STYLE (str "hello world") (Some returning) silent_speech []).
  - vm_compute. reflexivity.
  - vm_compute. reflexivity.
Defined.

(** A callback that throws at its second call, and one that throws at
    once. *)
Definition second_call_throws : Callback :=
  fun k _ => if decide (k = 1) then Throw (Error "callback failed") else Ok tt.
Definition first_call_throws : Callback := fun _ _ => Throw (Error "callback failed").

Lemma generateSpeech_throws_witness :
  run (scenario_speech (Some second_call_throws)) []
  = ([] ++ mjoin (imap (fun j chunk =>
                          [Progress (progress_of j
                                       (length (chunks_of (str "hello world")
                                                  DEFAULT_MAX_WORDS)));
                           Call (request_of ZEPHYR DEFAULT_STYLE chunk)])
                    (take 1 (chunks_of (str "hello world") DEFAULT_MAX_WORDS)))
        ++ [Progress (progress_arg
                        (length (chunks_of (str "hello world") DEFAULT_MAX_WORDS)) 1)],
     Throw (Error "callback failed")).
Proof.
  apply (generateSpeech_throws (limits := spec_limits) (svc := scenario_service)
           ZEPHYR DEFAULT_STYLE (str "hello world") second_call_throws
           (scenario_speech (Some second_call_throws)) [] 1 (Error "callback failed")).
  - vm_compute. reflexivity.
  - vm_compute. lia.
  - intros j Hj. by assert (j = 0) as -> by lia.
  - intros j chunk Hj Hc. by assert (j = 0) as -> by lia.
  - reflexivity.
Defined.

(** The two callbacks on the end-to-end scenario: the audio of the one
    chunk is lost at the last line of the function, or never asked for;
    in both cases the console stays empty. *)
Example scenario_callback_throws :
  run (scenario_speech (Some second_call_throws)) []
  = ([Progress (S754_zero false);
      Call (request_of ZEPHYR DEFAULT_STYLE (str "hello world"));
      Progress (num_of_Z 100)],
     Throw (Error "callback failed"))
  /\ run (scenario_speech (Some first_call_throws)) []
     = ([Progress (S754_zero false)], Throw (Error "callback failed")).
Proof. split; vm_compute; reflexivity. Qed.

Lemma generateSpeech_progress_witness :
  progress (run (scenario_speech (Some returning)) []).1
  = progress [] ++ ((fun i => progress_of i (length (chunks_of (str "hello world")
                                                      DEFAULT_MAX_WORDS)))
                      <$> seq 0 (length (chunks_of (str "hello world") DEFAULT_MAX_WORDS)))
    ++ [num_of_Z 100].
Proof.
  apply (generateSpeech_progress (limits := spec_limits) (svc := scenario_service)
           ZEPHYR DEFAULT_STYLE (str "hello world") returning
           (scenario_speech (Some returning)) []
           (run (scenario_speech (Some returning)) []).1 (scenario_blob, scenario_buffer));
    vm_compute; reflexivity.
Defined.

Lemma progress_increasing_witness :
  num_lt (progress_of 1 3) (if decide (2 < 3) then progress_of 2 3 else num_of_Z 100) = true.
Proof. apply (progress_increasing 3 1); lia. Defined.

(** An answer that holds a text part before the audio: the audio is not
    found. *)
Definition text_first_response (base64 : jsstring) : Response :=
  mkResponse (Some [mkCandidate (Some (mkContent (Some
    [mkPart (Some (str "Here is the audio.")) None;
     mkPart None (Some (mkInlineData (Some base64)))])))]).

Definition text_first_service : SpeechService :=
  {| generateContent := fun _ _ => Ok (text_first_response (str "AAAAQA==")) |}.

Lemma payload_first_part_witness :
  run (synthesize_chunk (limits := spec_limits) (svc := text_first_service)
         ZEPHYR DEFAULT_STYLE (str "hello world")) []
  = ([Call (request_of ZEPHYR DEFAULT_STYLE (str "hello world"))],
     Throw (Error "No audio data returned from Gemini API")).
Proof.
  apply (payload_first_part (limits := spec_limits) (svc := text_first_service)
           ZEPHYR DEFAULT_STYLE (str "hello world") []
           (mkCandidate (Some (mkContent (Some
              [mkPart (Some (str "Here is the audio.")) None;
               mkPart None (Some (mkInlineData (Some (str "AAAAQA=="))))])))) []
           (mkPart (Some (str "Here is the audio.")) None)
           [mkPart None (Some (mkInlineData (Some (str "AAAAQA=="))))]);
    reflexivity.
Defined.
