(* ===== verification/Orchestrator.v ===== *)
(** * Orchestrator: [generateSpeech] as a state machine

    The design of the synthesis is a machine with the phases
    [Idle], [Chunking], [PerChunkSynthesis (i of N)], [Merging], [Encoding],
    [Done] and [Failed].  This file gives that machine the transitions the
    code of [src/services/ttsService.ts] makes, as a relation on a phase
    and the log of events, and as the function that computes the next
    configuration.  The theorems show that the machine is deterministic
    and never stuck, that every run of [generateSpeech] is a path of it
    from [Idle] to [Done] or [Failed] of at most [N + 5] steps, and what
    holds in every configuration on such a path: the buffers collected are
    mono buffers at 24000 Hz, one per call made, and [Failed] is entered
    from [PerChunkSynthesis] only, by the failure of a chunk or by an
    exception of the progress callback. *)

From Stdlib Require Import ZArith Lia Floats.SpecFloat.
From stdpp Require Import base tactics list option numbers strings relations.
From S2P Require Import Prelude JsNumber JsString Bytes Types AudioBuffer.
From S2P Require Import PcmDecoder Merge Wav Chunker Base64 Trace TtsService.

(** ** The machine *)

(** The phases, with what the code holds in each: the index of the loop,
    the chunks and [audioBuffers], then [mergedBuffer], then the value
    returned or the exception thrown. *)
Inductive phase : Type :=
| Idle
| Chunking
| PerChunkSynthesis (i : nat) (chunks : list jsstring) (audioBuffers : list AudioBuffer)
| Merging (audioBuffers : list AudioBuffer)
| Encoding (mergedBuffer : AudioBuffer)
| Done (r : Blob * AudioBuffer)
| Failed (e : exn).

(** A configuration: the phase and the log so far. *)
Definition config : Type := phase * list event.

(** The phase in which a run ends. *)
Definition outcome (r : result (Blob * AudioBuffer)) : phase :=
  match r with
  | Ok x => Done x
  | Throw e => Failed e
  end.

Definition terminal (ph : phase) : bool :=
  match ph with
  | Done _ | Failed _ => true
  | _ => false
  end.

(** What a chunk that came back as a buffer is: one channel at the rate
    of the context. *)
Definition mono (b : AudioBuffer) : Prop :=
  wf_buffer b /\ numberOfChannels b = 1 /\ sampleRate b = SAMPLE_RATE.

Section machine.
Context `{limits : AudioLimits} `{svc : SpeechService}.
Context (text : jsstring) (voice : VoiceName) (style : jsstring).
Context (onProgress : option Callback).

(** The events of one turn of the loop before the answer: the progress
    call of line 40 and the request of line 45. *)
Definition turn (i n : nat) (chunk : jsstring) : list event :=
  called onProgress (progress_of i n) ++ [Call (request_of voice style chunk)].

(** The progress call of line 72. *)
Definition final_progress : list event := called onProgress (num_of_Z 100).

Inductive orch_step : config -> config -> Prop :=
| orch_entry t :
    orch_step (Idle, t) (Chunking, t)
| orch_chunked t chunks :
    chunkText text DEFAULT_MAX_WORDS = Some chunks ->
    orch_step (Chunking, t) (PerChunkSynthesis 0 chunks [], t)
| orch_progress_failed t i chunks bufs chunk e :
    chunks !! i = Some chunk ->
    notified onProgress i (progress_of i (length chunks)) = Throw e ->
    orch_step (PerChunkSynthesis i chunks bufs, t)
      (Failed e, t ++ called onProgress (progress_of i (length chunks)))
| orch_chunk_ok t i chunks bufs chunk b :
    chunks !! i = Some chunk ->
    notified onProgress i (progress_of i (length chunks)) = Ok tt ->
    chunk_outcome voice style (length (calls t)) chunk = Ok b ->
    orch_step (PerChunkSynthesis i chunks bufs, t)
      (PerChunkSynthesis (S i) chunks (bufs ++ [b]), t ++ turn i (length chunks) chunk)
| orch_chunk_failed t i chunks bufs chunk e :
    chunks !! i = Some chunk ->
    notified onProgress i (progress_of i (length chunks)) = Ok tt ->
    chunk_outcome voice style (length (calls t)) chunk = Throw e ->
    orch_step (PerChunkSynthesis i chunks bufs, t)
      (Failed e, t ++ turn i (length chunks) chunk ++ [ConsoleError i e])
| orch_chunks_done t i chunks bufs :
    chunks !! i = None ->
    notified onProgress i (num_of_Z 100) = Ok tt ->
    orch_step (PerChunkSynthesis i chunks bufs, t) (Merging bufs, t ++ final_progress)
| orch_final_failed t i chunks bufs e :
    chunks !! i = None ->
    notified onProgress i (num_of_Z 100) = Throw e ->
    orch_step (PerChunkSynthesis i chunks bufs, t) (Failed e, t ++ final_progress)
| orch_merged t bufs merged :
    mergeAudioBuffers bufs = Ok merged ->
    orch_step (Merging bufs, t) (Encoding merged, t)
| orch_merge_failed t bufs e :
    mergeAudioBuffers bufs = Throw e ->
    orch_step (Merging bufs, t) (Failed e, t)
| orch_encoded t merged blob :
    audioBufferToWav merged = Ok blob ->
    orch_step (Encoding merged, t) (Done (blob, merged), t)
| orch_encode_failed t merged e :
    audioBufferToWav merged = Throw e ->
    orch_step (Encoding merged, t) (Failed e, t).

(** The same machine as a function. *)
Definition orch_next (c : config) : option config :=
  let t := c.2 in
  match c.1 with
  | Idle => Some (Chunking, t)
  | Chunking =>
      chunks ← chunkText text DEFAULT_MAX_WORDS; Some (PerChunkSynthesis 0 chunks [], t)
  | PerChunkSynthesis i chunks bufs =>
      match chunks !! i with
      | Some chunk =>
          match notified onProgress i (progress_of i (length chunks)) with
          | Throw e => Some (Failed e, t ++ called onProgress (progress_of i (length chunks)))
          | Ok _ =>
              match chunk_outcome voice style (length (calls t)) chunk with
              | Ok b =>
                  Some (PerChunkSynthesis (S i) chunks (bufs ++ [b]),
                        t ++ turn i (length chunks) chunk)
              | Throw e =>
                  Some (Failed e, t ++ turn i (length chunks) chunk ++ [ConsoleError i e])
              end
          end
      | None =>
          match notified onProgress i (num_of_Z 100) with
          | Ok _ => Some (Merging bufs, t ++ final_progress)
          | Throw e => Some (Failed e, t ++ final_progress)
          end
      end
  | Merging bufs =>
      match mergeAudioBuffers bufs with
      | Ok merged => Some (Encoding merged, t)
      | Throw e => Some (Failed e, t)
      end
  | Encoding merged =>
      match audioBufferToWav merged with
      | Ok blob => Some (Done (blob, merged), t)
      | Throw e => Some (Failed e, t)
      end
  | Done _ | Failed _ => None
  end.

(** The machine run for at most [fuel] steps. *)
Fixpoint orch_run (fuel : nat) (c : config) : config :=
  match fuel with
  | 0 => c
  | S fuel' =>
      match orch_next c with
      | Some c' => orch_run fuel' c'
      | None => c
      end
  end.

(** The buffers of a loop that has ended: one mono buffer per chunk. *)
Definition collected (bufs : list AudioBuffer) : Prop :=
  Forall mono bufs /\ length bufs = length (chunks_of text DEFAULT_MAX_WORDS).

(** How the machine fails: a chunk has failed, and the line of the
    console is the last event; or the callback has thrown, and its call is
    the last event. *)
Definition failed (t : list event) (e : exn) : Prop :=
  (exists i, last t = Some (ConsoleError i e))
  \/ (exists i p, last t = Some (Progress p) /\ notified onProgress i p = Throw e).

(** What holds of a configuration on a path that starts with the log
    [t0]: the loop has made one call per buffer collected, the buffers
    are mono, what is merged and encoded is the concatenation of the
    buffers of all the chunks, and a failure is the failure of a chunk,
    logged last, or an exception of the callback. *)
Definition orch_inv (t0 : list event) (c : config) : Prop :=
  let t := c.2 in
  match c.1 with
  | Idle | Chunking => t = t0
  | PerChunkSynthesis i chunks bufs =>
      chunks = chunks_of text DEFAULT_MAX_WORDS /\ length bufs = i /\ i <= length chunks
      /\ Forall mono bufs /\ length (calls t) = length (calls t0) + i
  | Merging bufs => collected bufs
  | Encoding mergedBuffer => exists bufs, collected bufs /\ mergedBuffer = merged bufs
  | Done r =>
      exists bufs, collected bufs
        /\ r = (mkBlob (wav_file (merged bufs)) "audio/wav", merged bufs)
  | Failed e => failed t e
  end.

End machine.

(** ** The machine is a function *)

Section machine_lemmas.
Context `{limits : AudioLimits} `{svc : SpeechService}.
Context (text : jsstring) (voice : VoiceName) (style : jsstring).
Context (onProgress : option Callback).

#[local] Abbreviation step := (orch_step text voice style onProgress).
#[local] Abbreviation next := (orch_next text voice style onProgress).
#[local] Abbreviation N := (length (chunks_of text DEFAULT_MAX_WORDS)).

Lemma orch_step_next c c' : step c c' <-> next c = Some c'.
Proof.
  split.
  - intros Hs. destruct Hs as [t|t chunks Hc|t i chunks bufs chunk e Hc Hn
      |t i chunks bufs chunk b Hc Hn Hb|t i chunks bufs chunk e Hc Hn He
      |t i chunks bufs Hc Hn|t i chunks bufs e Hc Hn|t bufs m Hm|t bufs e He
      |t m blob Hb|t m e He]; unfold orch_next; cbn [fst snd];
      by rewrite ?Hc, ?Hn, ?Hb, ?He, ?Hm.
  - destruct c as [ph t]. unfold orch_next. cbn [fst snd].
    destruct ph as [| |i chunks bufs|bufs|m|r|e]; [| | | | |done|done].
    + intros [= <-]. constructor.
    + destruct (chunkText text DEFAULT_MAX_WORDS) as [chunks|] eqn:Hc; [|done].
      intros [= <-]. by constructor.
    + destruct (chunks !! i) as [chunk|] eqn:Hc.
      * destruct (notified onProgress i _) as [[]|e] eqn:Hn;
          [|intros [= <-]; by eapply orch_progress_failed].
        destruct (chunk_outcome _ _ _ chunk) as [b|e] eqn:Hb; intros [= <-];
          [by apply orch_chunk_ok|by apply orch_chunk_failed].
      * destruct (notified onProgress i _) as [[]|e] eqn:Hn; intros [= <-];
          [by apply orch_chunks_done|by apply orch_final_failed].
    + destruct (mergeAudioBuffers bufs) as [m|e] eqn:Hm; intros [= <-]; by constructor.
    + destruct (audioBufferToWav m) as [blob|e] eqn:Hb; intros [= <-]; by constructor.
Qed.

Lemma orch_deterministic c c1 c2 : step c c1 -> step c c2 -> c1 = c2.
Proof. rewrite !orch_step_next. congruence. Qed.

(** A configuration has a next one exactly when its phase is not [Done]
    or [Failed]: the machine is never stuck. *)
Lemma orch_next_terminal c : next c = None <-> terminal c.1 = true.
Proof.
  destruct c as [ph t]. unfold orch_next. cbn [fst snd].
  destruct ph as [| |i chunks bufs|bufs|m|r|e]; cbn [terminal]; try done.
  - by rewrite chunkText_groups by (unfold DEFAULT_MAX_WORDS; lia).
  - by repeat case_match.
  - by case_match.
  - by case_match.
Qed.

(** Enough fuel runs a path to its end. *)
Lemma orch_run_nsteps n fuel c c' :
  nsteps step n c c' -> terminal c'.1 = true -> n <= fuel ->
  orch_run text voice style onProgress fuel c = c'.
Proof.
  intros Hn Ht. revert fuel. induction Hn as [c|n c c1 c' Hs _ IH]; intros fuel Hf.
  - apply orch_next_terminal in Ht. destruct fuel; cbn [orch_run]; by rewrite ?Ht.
  - destruct fuel as [|fuel]; [lia|]. apply orch_step_next in Hs.
    cbn [orch_run]. rewrite Hs. apply IH; [done|lia].
Qed.

(** ** The loop and the request as paths *)

(** The phase the loop ends in. *)
Definition loop_end (chunks : list jsstring) (r : result (list AudioBuffer)) : phase :=
  match r with
  | Ok bufs => PerChunkSynthesis (length chunks) chunks bufs
  | Throw e => Failed e
  end.

Lemma orch_chunks (pre post : list jsstring) bufs t evs r :
  chunks_ref voice style onProgress (length (pre ++ post)) (length pre)
    (length (calls t)) post bufs = (evs, r) ->
  exists n, n <= length post
    /\ (is_ok r = true -> n = length post)
    /\ nsteps step n (PerChunkSynthesis (length pre) (pre ++ post) bufs, t)
         (loop_end (pre ++ post) r, t ++ evs).
Proof.
  revert pre bufs t evs r. induction post as [|chunk post IH]; intros pre bufs t evs r.
  - intros [= <- <-]. exists 0. rewrite !app_nil_r. split; [done|]. split; [done|constructor].
  - cbn [chunks_ref].
    assert ((pre ++ chunk :: post) !! length pre = Some chunk) as Hc by by apply list_lookup_middle.
    destruct (notified onProgress (length pre) _) as [[]|e] eqn:Hn.
    2: { intros [= <- <-]. exists 1. cbn [length]. split; [lia|]. split; [done|].
         apply nsteps_once. by eapply orch_progress_failed. }
    fold (turn voice style onProgress (length pre) (length (pre ++ chunk :: post)) chunk).
    destruct (chunk_outcome voice style (length (calls t)) chunk) as [b|e] eqn:Hb.
    + destruct (chunks_ref _ _ _ _ _ _ post _) as [evs' r'] eqn:Hrest. intros [= <- <-].
      specialize (IH (pre ++ [chunk]) (bufs ++ [b])
                    (t ++ turn voice style onProgress (length pre) (length (pre ++ chunk :: post)) chunk) evs' r').
      rewrite <- (app_assoc pre [chunk] post), (length_app pre [chunk]), Nat.add_1_r in IH.
      cbn [app] in IH. unfold turn in IH at 1. rewrite length_calls_turn in IH.
      destruct (IH Hrest) as (n & Hle & Hok & Hsteps). exists (S n). cbn [length].
      split; [lia|]. split; [intros Hr; by rewrite Hok|].
      rewrite app_assoc. eapply nsteps_l; [by apply orch_chunk_ok|done].
    + intros [= <- <-]. exists 1. cbn [length]. split; [lia|]. split; [done|].
      apply nsteps_once. by apply orch_chunk_failed.
Qed.

(** Merging and encoding mono buffers cannot fail. *)
Lemma merge_encode_mono bufs :
  Forall mono bufs ->
  mergeAudioBuffers bufs = Ok (merged bufs)
  /\ audioBufferToWav (merged bufs) = Ok (mkBlob (wav_file (merged bufs)) "audio/wav").
Proof.
  intros Hb. pose proof (merge_encode_total bufs Hb) as Ht.
  destruct (mergeAudioBuffers bufs) as [m|e]; [|done]. rewrite bind_Ok in Ht.
  destruct (audioBufferToWav m) as [blob|e] eqn:Hw; [|done]. rewrite bind_Ok in Ht.
  injection Ht as -> ->. by rewrite Hw.
Qed.

(** What the reference of [TtsService] computes is a path of the machine
    from [Idle] to the end. *)
Lemma orch_refines t :
  exists n, n <= N + 5
    /\ nsteps step n (Idle, t)
         (outcome (speech_ref text voice style onProgress t).2,
          (speech_ref text voice style onProgress t).1).
Proof.
  unfold speech_ref.
  destruct (chunks_ref _ _ _ _ _ _ _ _) as [evs r] eqn:Href.
  destruct (orch_chunks [] _ [] t evs r Href) as (n & Hn & Hok & Hsteps).
  assert (nsteps step (2 + n) (Idle, t) (loop_end (chunks_of text DEFAULT_MAX_WORDS) r, t ++ evs))
    as Hloop.
  { eapply nsteps_l; [constructor|]. eapply nsteps_l; [|exact Hsteps].
    constructor. apply chunkText_groups. unfold DEFAULT_MAX_WORDS. lia. }
  destruct r as [bufs|e]; cbn [loop_end fst snd outcome] in *; [|exists (2 + n); split; [lia|done]].
  fold (final_progress onProgress). rewrite app_assoc.
  assert (chunks_of text DEFAULT_MAX_WORDS !! N = None) as Hend by (apply lookup_ge_None_2; lia).
  destruct (notified onProgress N _) as [[]|e] eqn:Hcb.
  - exists (2 + n + 3). split; [lia|]. eapply nsteps_trans; [exact Hloop|].
    assert (Forall mono bufs) as [Hm He]%merge_encode_mono
      by (eapply chunks_ref_wf; [|exact Href]; constructor).
    rewrite bind_Ok, Hm, bind_Ok, He, bind_Ok. cbn [outcome].
    eapply nsteps_l; [by apply orch_chunks_done|].
    eapply nsteps_l; [by apply orch_merged|]. apply nsteps_once. by apply orch_encoded.
  - exists (2 + n + 1). split; [lia|]. eapply nsteps_trans; [exact Hloop|].
    rewrite bind_Throw. apply nsteps_once. by apply orch_final_failed.
Qed.

(** ** The invariant *)

Lemma last_turn_error t i n chunk e :
  last (t ++ turn voice style onProgress i n chunk ++ [ConsoleError i e])
  = Some (ConsoleError i e).
Proof. by rewrite !app_assoc, last_snoc. Qed.

(** The call of a callback that throws is the last event. *)
Lemma failed_called t i p e :
  notified onProgress i p = Throw e -> failed onProgress (t ++ called onProgress p) e.
Proof.
  intros Hn. right. exists i, p. split; [|done].
  destruct onProgress; [cbn [called]; by rewrite last_snoc|discriminate Hn].
Qed.

Lemma orch_inv_step t0 c c' :
  orch_inv text onProgress t0 c -> step c c' -> orch_inv text onProgress t0 c'.
Proof.
  intros Hinv Hs.
  destruct Hs as [t|t chunks Hc|t i chunks bufs chunk e Hc Hn
    |t i chunks bufs chunk b Hc Hn Hb|t i chunks bufs chunk e Hc Hn He
    |t i chunks bufs Hc Hn|t i chunks bufs e Hc Hn|t bufs m Hm|t bufs e He
    |t m blob Hb|t m e He]; unfold orch_inv in *; cbn [fst snd] in *.
  - done.
  - rewrite chunkText_groups in Hc by (unfold DEFAULT_MAX_WORDS; lia).
    injection Hc as <-. subst t. repeat split; [lia|constructor|lia].
  - by eapply failed_called.
  - destruct Hinv as (-> & Hl & Hi & Hm & Hk). apply lookup_lt_Some in Hc.
    split; [done|]. split; [rewrite length_app; simpl; lia|]. split; [lia|].
    split; [apply Forall_app; split; [done|]; constructor; [by eapply chunk_outcome_wf|done]|].
    unfold turn. rewrite length_calls_turn. lia.
  - left. eexists. apply last_turn_error.
  - destruct Hinv as (-> & Hl & Hi & Hm & Hk). apply lookup_ge_None_1 in Hc.
    split; [done|lia].
  - by eapply failed_called.
  - destruct Hinv as [Hmono Hl]. exists bufs. split; [done|].
    destruct (merge_encode_mono bufs Hmono) as [Hm' _]. congruence.
  - destruct Hinv as [Hmono Hl]. destruct (merge_encode_mono bufs Hmono) as [Hm' _]. congruence.
  - destruct Hinv as (bufs & Hcol & ->). exists bufs. split; [done|].
    destruct (merge_encode_mono bufs (proj1 Hcol)) as [_ Hb']. congruence.
  - destruct Hinv as (bufs & Hcol & ->).
    destruct (merge_encode_mono bufs (proj1 Hcol)) as [_ Hb']. congruence.
Qed.

Lemma orch_inv_reachable t0 c : rtc step (Idle, t0) c -> orch_inv text onProgress t0 c.
Proof.
  revert c. apply rtc_ind_r; [done|]. intros c c' _ Hs Hinv. by eapply orch_inv_step.
Qed.

End machine_lemmas.

(** ** The properties *)

Section properties.
Context `{limits : AudioLimits} `{svc : SpeechService}.

(** C6. Every run of [generateSpeech] is a path of the machine, whatever
    the callback does: from [Idle] and the log of the call, at most
    [N + 5] steps for the [N] chunks of the text lead to [Done] with the
    value returned or to [Failed] with the exception thrown, and to the
    log of the run; and the machine as a function, run for [N + 5] steps,
    computes that end. *)
Theorem generateSpeech_orchestrated (text : jsstring) (voice : VoiceName)
    (style : jsstring) (onProgress : option Callback) m t :
  generateSpeech text voice style onProgress = Some m ->
  let N := length (chunks_of text DEFAULT_MAX_WORDS) in
  let c := (outcome (run m t).2, (run m t).1) in
  (exists n, n <= N + 5 /\ nsteps (orch_step text voice style onProgress) n (Idle, t) c)
  /\ orch_run text voice style onProgress (N + 5) (Idle, t) = c.
Proof.
  intros Hm N c. destruct (generateSpeech_ref voice style onProgress text) as (m' & Hm' & Href).
  rewrite Hm in Hm'. injection Hm' as <-. subst c. rewrite Href.
  destruct (orch_refines text voice style onProgress t) as (n & Hn & Hsteps).
  split; [by exists n|]. eapply orch_run_nsteps; [exact Hsteps| |done].
  by destruct (speech_ref _ _ _ _ _).2.
Qed.

(** C19. In every configuration the machine reaches from [Idle]: during
    the loop, turn [i] has collected [i] buffers with [i] calls, each
    buffer mono at 24000 Hz; what is merged, encoded and returned is the
    concatenation of one such buffer per chunk and its file; and a failure
    is the failure of a chunk, whose [console.error] is the last event,
    or an exception of the callback, whose call is the last event.
    Merging and encoding never fail. *)
Theorem orch_reachable (text : jsstring) (voice : VoiceName) (style : jsstring)
    (onProgress : option Callback) (t0 : list event) (c : config) :
  rtc (orch_step text voice style onProgress) (Idle, t0) c -> orch_inv text onProgress t0 c.
Proof. apply orch_inv_reachable. Qed.

(** With a callback that does not throw, a failure is the failure of a
    chunk. *)
Lemma failed_quiet (onProgress : option Callback) (t : list event) (e : exn) :
  quiet onProgress -> failed onProgress t e -> exists i, last t = Some (ConsoleError i e).
Proof. intros Hq [?|(i & p & _ & Hn)]; [done|]. by rewrite Hq in Hn. Qed.

End properties.

(** ** Witnesses *)

(** The end-to-end scenario as a path of six steps. *)
Lemma generateSpeech_orchestrated_witness :
  let c := (outcome (run (scenario_speech (Some returning)) []).2,
            (run (scenario_speech (Some returning)) []).1) in
  (exists n, n <= length (chunks_of (str "hello world") DEFAULT_MAX_WORDS) + 5
     /\ nsteps (orch_step (limits := spec_limits) (svc := scenario_service)
                  (str "hello world") ZEPHYR DEFAULT_STYLE (Some returning)) n (Idle, []) c)
  /\ orch_run (limits := spec_limits) (svc := scenario_service)
       (str "hello world") ZEPHYR DEFAULT_STYLE (Some returning)
       (length (chunks_of (str "hello world") DEFAULT_MAX_WORDS) + 5) (Idle, []) = c.
Proof.
  apply (generateSpeech_orchestrated (limits := spec_limits) (svc := scenario_service)
           (str "hello world") ZEPHYR DEFAULT_STYLE (Some returning)
           (scenario_speech (Some returning)) []).
  vm_compute. reflexivity.
Defined.

(** The machine on the scenario: the phase it ends in and the log. *)
Example scenario_orch_run :
  orch_run (limits := spec_limits) (svc := scenario_service)
    (str "hello world") ZEPHYR DEFAULT_STYLE (Some returning) 6 (Idle, [])
  = (Done (scenario_blob, scenario_buffer),
     [Progress (S754_zero false);
      Call (request_of ZEPHYR DEFAULT_STYLE (str "hello world"));
      Progress (num_of_Z 100)]).
Proof. vm_compute. reflexivity. Qed.

(** A callback that throws at the last line: the machine fails from the
    loop, after the audio of the chunk has come. *)
Example scenario_orch_throws :
  orch_run (limits := spec_limits) (svc := scenario_service)
    (str "hello world") ZEPHYR DEFAULT_STYLE (Some second_call_throws) 6 (Idle, [])
  = (Failed (Error "callback failed"),
     [Progress (S754_zero false);
      Call (request_of ZEPHYR DEFAULT_STYLE (str "hello world"));
      Progress (num_of_Z 100)]).
Proof. vm_compute. reflexivity. Qed.

(** A service without audio: the machine fails in its third step. *)
Lemma silent_path :
  rtc (orch_step (limits := spec_limits) (svc := silent_service)
         (str "hello world") ZEPHYR DEFAULT_STYLE (Some returning)) (Idle, [])
    (Failed (Error "No audio data returned from Gemini API"),
     [Progress (S754_zero false);
      Call (request_of ZEPHYR DEFAULT_STYLE (str "hello world"));
      ConsoleError 0 (Error "No audio data returned from Gemini API")]).
Proof.
  eapply rtc_l; [constructor|]. eapply rtc_l; [apply orch_chunked; vm_compute; reflexivity|].
  apply rtc_once.
  apply (orch_chunk_failed (limits := spec_limits) (svc := silent_service)
           (str "hello world") ZEPHYR DEFAULT_STYLE (Some returning) [] 0 [str "hello world"] []
           (str "hello world")); reflexivity.
Qed.

Lemma orch_reachable_witness :
  orch_inv (str "hello world") (Some returning) []
    (Failed (Error "No audio data returned from Gemini API"),
     [Progress (S754_zero false);
      Call (request_of ZEPHYR DEFAULT_STYLE (str "hello world"));
      ConsoleError 0 (Error "No audio data returned from Gemini API")]).
Proof.
  apply (orch_reachable (limits := spec_limits) (svc := silent_service)
           (str "hello world") ZEPHYR DEFAULT_STYLE (Some returning)). apply silent_path.
Defined.

(** The failure scenario of the design: a text of three chunks and a
    service that fails on its third call.  The machine ends in [Failed]
    after three calls; the two buffers collected are dropped with the
    phase. *)
Definition quota_service : SpeechService :=
  {| generateContent := fun k _ =>
       if decide (k < 2) then Ok (audio_response (str "AAAAQA=="))
       else Throw (Error "quota exceeded") |}.

Definition three_chunks_text : jsstring := mjoin (replicate 1600 (str "a ")) ++ str "b".

Example third_chunk_fails :
  let c := orch_run (limits := spec_limits) (svc := quota_service)
             three_chunks_text KORE DEFAULT_STYLE (Some returning) 8 (Idle, []) in
  length (chunks_of three_chunks_text DEFAULT_MAX_WORDS) = 3
  /\ c.1 = Failed (Error "quota exceeded")
  /\ length (calls c.2) = 3
  /\ progress c.2 = [progress_of 0 3; progress_of 1 3; progress_of 2 3]
  /\ last c.2 = Some (ConsoleError 2 (Error "quota exceeded")).
Proof. vm_compute. done. Qed.
