(* ===== verification/Pipeline.v ===== *)
(** * Pipeline: from the bytes of the service to the bytes of the file

    [generateSpeech] ([src/services/ttsService.ts]) chains the four
    routines of [src/utils/audioUtils.ts]: every answer of the service is
    decoded from base64 and from PCM, the buffers are merged, the result is
    encoded as a WAV file.  The theorems of the components say what each
    step does; this file composes them.  The file a successful request
    returns is determined by the PCM bytes the service sent: a header of 44
    bytes for their total length, then the samples of the first chunk, of
    the second, and so on, each one decoded to a float and encoded again
    ([requantize]). *)

From Stdlib Require Import ZArith Lia Floats.SpecFloat.
From coqutil Require Import Byte Word.LittleEndianList.
From stdpp Require Import base tactics list option numbers strings.
From S2P Require Import Prelude JsNumber JsString Bytes Types AudioBuffer.
From S2P Require Import PcmDecoder Merge Wav Chunker Base64 Trace TtsService.

(** ** The reference *)

(** A PCM payload after a decoding and an encoding. *)
Definition requantize_pcm (pcm : bytes) : bytes :=
  bytes_of_int16s (requantize <$> int16s_of_bytes pcm).

(** The file for the payloads of the chunks of a request. *)
Definition speech_file (pcms : list bytes) : bytes :=
  wav_header 1 SAMPLE_RATE (Z.of_nat (length (mjoin pcms))) ++ mjoin (requantize_pcm <$> pcms).

Section pipeline.
Context `{limits : AudioLimits} `{svc : SpeechService}.
Context (voice : VoiceName) (style : jsstring).

(** The PCM bytes the service sends for a chunk, when [k] calls have been
    made before. *)
Definition pcm_of (k : nat) (chunk : jsstring) : result bytes :=
  response ← generateContent k (request_of voice style chunk);
  base64Audio ← payload response;
  decodeBase64ToUint8Array base64Audio.

Fixpoint pcms_ref (k : nat) (chunks : list jsstring) : result (list bytes) :=
  match chunks with
  | [] => Ok []
  | chunk :: rest =>
      pcm ← pcm_of k chunk;
      pcms ← pcms_ref (S k) rest;
      Ok (pcm :: pcms)
  end.

(** A payload the decoder accepts: a whole number of 16-bit samples, at
    least one. *)
Definition whole_pcm (pcm : bytes) : Prop := Nat.even (length pcm) = true /\ 2 <= length pcm.

(** ** One chunk *)

Lemma chunk_outcome_pcm k chunk b :
  chunk_outcome voice style k chunk = Ok b ->
  exists pcm, pcm_of k chunk = Ok pcm /\ b = decoded pcm SAMPLE_RATE 1 /\ whole_pcm pcm.
Proof.
  unfold chunk_outcome, pcm_of. intros Hb.
  apply bind_Ok_inv in Hb as (response & -> & Hb).
  apply bind_Ok_inv in Hb as (base64Audio & Hp & Hb).
  apply bind_Ok_inv in Hb as (pcm & Hd & Hb).
  apply decodePCM_Ok in Hb as (-> & He & _ & Hl).
  exists pcm. rewrite bind_Ok, Hp, bind_Ok. split; [done|]. split; [done|]. split; [done|].
  pose proof (Nat.Div0.mul_div_le (length pcm) 2). lia.
Qed.

Lemma whole_pcms_even (pcms : list bytes) :
  Forall whole_pcm pcms -> Forall (fun pcm => Nat.even (length pcm) = true) pcms.
Proof. intros H. eapply list.Forall_impl; [exact H|]. by intros pcm [He _]. Qed.

Lemma whole_pcms_length (pcms : list bytes) :
  Forall whole_pcm pcms -> 2 * length pcms <= length (mjoin pcms).
Proof.
  induction 1 as [|pcm pcms [_ Hl] _ IH]; [done|].
  change (mjoin (pcm :: pcms)) with (pcm ++ mjoin pcms). rewrite length_app. simpl. lia.
Qed.

Lemma wav_data_app (a b : Float32Array) : wav_data (a ++ b) = wav_data a ++ wav_data b.
Proof. unfold wav_data, bytes_of_int16s. by rewrite fmap_app, bind_app. Qed.

Lemma wav_data_mjoin (l : list Float32Array) : wav_data (mjoin l) = mjoin (wav_data <$> l).
Proof.
  induction l as [|a l IH]; [done|]. rewrite fmap_cons.
  change (mjoin (a :: l)) with (a ++ mjoin l).
  change (mjoin (wav_data a :: (wav_data <$> l))) with (wav_data a ++ mjoin (wav_data <$> l)).
  by rewrite wav_data_app, IH.
Qed.

Lemma channel_decoded_mono (pcm : bytes) (rate : Z) :
  channel_of 0 (decoded pcm rate 1)
  = deinterleave (int16s_of_bytes pcm) 1 (length (int16s_of_bytes pcm) / 1) 0.
Proof. reflexivity. Qed.

Lemma wav_data_decoded (pcm : bytes) (rate : Z) :
  wav_data (channel_of 0 (decoded pcm rate 1)) = requantize_pcm pcm.
Proof.
  rewrite channel_decoded_mono, wav_data_deinterleave by apply int16s_of_bytes_range.
  unfold requantize_pcm. by rewrite deinterleave_mono_index.
Qed.

Lemma length_requantize_pcm (pcm : bytes) :
  Nat.even (length pcm) = true -> length (requantize_pcm pcm) = length pcm.
Proof.
  intros [n Hn]%Nat.even_spec. unfold requantize_pcm.
  rewrite length_bytes_of_int16s, length_fmap, length_int16s_of_bytes, Hn.
  rewrite (Nat.mul_comm 2 n), Nat.div_mul by done. lia.
Qed.

Lemma length_requantized (pcms : list bytes) :
  Forall (fun pcm => Nat.even (length pcm) = true) pcms ->
  length (mjoin (requantize_pcm <$> pcms)) = length (mjoin pcms).
Proof.
  induction 1 as [|pcm pcms Hp _ IH]; [done|]. rewrite fmap_cons.
  change (mjoin (pcm :: pcms)) with (pcm ++ mjoin pcms).
  change (mjoin (requantize_pcm pcm :: (requantize_pcm <$> pcms)))
    with (requantize_pcm pcm ++ mjoin (requantize_pcm <$> pcms)).
  by rewrite !length_app, IH, length_requantize_pcm.
Qed.

(** ** The chunks *)

Lemma chunks_ref_pcms onProgress n i k chunks acc evs bufs :
  chunks_ref voice style onProgress n i k chunks acc = (evs, Ok bufs) ->
  exists pcms, pcms_ref k chunks = Ok pcms
          /\ bufs = acc ++ ((fun pcm => decoded pcm SAMPLE_RATE 1) <$> pcms)
          /\ Forall whole_pcm pcms.
Proof.
  revert i k acc evs. induction chunks as [|chunk rest IH]; intros i k acc evs.
  - intros [= <- <-]. exists []. by rewrite app_nil_r.
  - cbn [chunks_ref pcms_ref]. destruct (notified onProgress i _) as [[]|e]; [|done].
    destruct (chunk_outcome voice style k chunk) as [b|e] eqn:Hb; [|done].
    destruct (chunks_ref _ _ _ _ _ _ rest _) as [evs' r'] eqn:Hrest. intros [= <- ->].
    apply chunk_outcome_pcm in Hb as (pcm & -> & -> & He).
    apply IH in Hrest as (pcms & -> & -> & Hes).
    exists (pcm :: pcms). rewrite !bind_Ok. split; [done|]. split; [|by constructor].
    by rewrite <- app_assoc.
Qed.

Lemma length_pcms_ref k chunks pcms : pcms_ref k chunks = Ok pcms -> length pcms = length chunks.
Proof.
  revert k pcms. induction chunks as [|chunk rest IH]; intros k pcms; cbn [pcms_ref].
  - by intros [= <-].
  - intros H. apply bind_Ok_inv in H as (pcm & _ & H).
    apply bind_Ok_inv in H as (pcms' & H' & [= <-]). cbn. f_equal. by eapply IH.
Qed.

(** ** The merge *)

Lemma merged_mono (bufs : list AudioBuffer) :
  bufs <> [] -> Forall (fun b => wf_buffer b /\ numberOfChannels b = 1
                                /\ sampleRate b = SAMPLE_RATE) bufs ->
  numberOfChannels (merged bufs) = 1 /\ sampleRate (merged bufs) = SAMPLE_RATE
  /\ channel_of 0 (merged bufs) = mjoin (channel_of 0 <$> bufs).
Proof.
  destruct bufs as [|a [|b bs]]; [done|..]; intros _ Hb;
    pose proof (Forall_inv Hb) as (_ & Hn & Hr).
  - split; [done|]. split; [done|]. cbn. by rewrite app_nil_r.
  - unfold merged. cbn [numberOfChannels sampleRate]. rewrite Hn. done.
Qed.

(** ** The whole request *)

Lemma speech_file_ref bufs pcms :
  pcms <> [] -> Forall (fun pcm => Nat.even (length pcm) = true) pcms ->
  bufs = (fun pcm => decoded pcm SAMPLE_RATE 1) <$> pcms ->
  Forall (fun b => wf_buffer b /\ numberOfChannels b = 1 /\ sampleRate b = SAMPLE_RATE) bufs ->
  wav_file (merged bufs) = speech_file pcms.
Proof.
  intros Hne He -> Hb.
  destruct (merged_mono _ (fun H => Hne (fmap_nil_inv _ _ H)) Hb) as (Hn & Hr & Hc).
  unfold wav_file, speech_file. fold (channel_of 0 (merged ((fun pcm => decoded pcm SAMPLE_RATE 1) <$> pcms))).
  rewrite Hn, Hr, Hc, <- list_fmap_compose.
  assert (wav_data (mjoin (channel_of 0 ∘ (fun pcm => decoded pcm SAMPLE_RATE 1) <$> pcms))
          = mjoin (requantize_pcm <$> pcms)) as Hd.
  { rewrite wav_data_mjoin, <- list_fmap_compose. f_equal. apply list_fmap_ext.
    intros _ pcm _. apply wav_data_decoded. }
  rewrite Hd. f_equal. f_equal.
  rewrite <- (length_requantized pcms He), <- Hd, length_wav_data. lia.
Qed.

Lemma buf_length_merged (bufs : list AudioBuffer) :
  bufs <> [] -> buf_length (merged bufs) = sum_list (buf_length <$> bufs).
Proof. destruct bufs as [|a [|b bs]]; [done|cbn; lia|done]. Qed.

Lemma frames_decoded (pcms : list bytes) :
  Forall (fun pcm => Nat.even (length pcm) = true) pcms ->
  2 * sum_list (buf_length <$> ((fun pcm => decoded pcm SAMPLE_RATE 1) <$> pcms))
  = length (mjoin pcms).
Proof.
  induction 1 as [|pcm pcms [n Hn]%Nat.even_spec _ IH]; [done|]. rewrite !fmap_cons.
  change (mjoin (pcm :: pcms)) with (pcm ++ mjoin pcms).
  rewrite length_app, <- IH. cbn [sum_list sum_list_with decoded buf_length].
  rewrite length_int16s_of_bytes, Nat.div_1_r, Hn, (Nat.mul_comm 2 n), Nat.div_mul by done.
  unfold id. lia.
Qed.

Lemma generateSpeech_pcms (onProgress : option Callback) (text : jsstring) m t t' blob buffer :
  generateSpeech text voice style onProgress = Some m -> run m t = (t', Ok (blob, buffer)) ->
  exists pcms,
    pcms_ref (length (calls t)) (chunks_of text DEFAULT_MAX_WORDS) = Ok pcms
    /\ blob = mkBlob (speech_file pcms) "audio/wav"
    /\ numberOfChannels buffer = 1 /\ sampleRate buffer = SAMPLE_RATE
    /\ 2 * buf_length buffer = length (mjoin pcms)
    /\ Forall whole_pcm pcms.
Proof.
  intros Hm Hrun.
  destruct (generateSpeech_ref voice style onProgress text) as (m' & Hm' & Href).
  rewrite Hm in Hm'. injection Hm' as <-. rewrite Href in Hrun. unfold speech_ref in Hrun.
  destruct (chunks_ref _ _ _ _ _ _ _ _) as [evs [bufs|e]] eqn:Hc; [|done].
  pose proof (chunks_ref_wf _ _ _ _ _ _ _ _ _ _ (Forall_nil_2 _) Hc) as Hwf.
  apply chunks_ref_pcms in Hc as (pcms & Hp & -> & Hw). cbn [app] in *.
  pose proof (whole_pcms_even pcms Hw) as He.
  rewrite merge_encode_total in Hrun by done.
  destruct (notified onProgress _ _) as [[]|e]; [|done]. injection Hrun as _ <- <-.
  assert (pcms <> []) as Hne.
  { intros ->. apply length_pcms_ref in Hp.
    assert (1 <= length (chunks_of text DEFAULT_MAX_WORDS))
      by (apply length_chunks_of_pos; unfold DEFAULT_MAX_WORDS; lia).
    rewrite <- Hp in *. simpl in *. lia. }
  assert ((fun pcm => decoded pcm SAMPLE_RATE 1) <$> pcms <> []) as Hne'
    by (intros H%fmap_nil_inv; done).
  exists pcms. split; [done|]. split; [by rewrite (speech_file_ref _ pcms)|].
  destruct (merged_mono _ Hne' Hwf) as (Hn & Hr & _). split; [done|]. split; [done|].
  split; [|done]. by rewrite buf_length_merged, frames_decoded.
Qed.

(** C5. The file of a successful request is determined by the PCM bytes
    the service sent for the chunks of the text, asked for in order: a
    blob of type [audio/wav] that holds the 44-byte header for one channel
    at 24000 Hz and the total number of bytes, then the samples of the
    first payload, of the second, and so on, each requantized by the
    decoding and the encoding; the buffer returned has one channel and one
    frame per two bytes received.  This holds with any callback, since a
    request succeeds only when every call of the callback has returned. *)
Theorem generateSpeech_file (onProgress : option Callback) (text : jsstring) m t t' blob
    buffer :
  generateSpeech text voice style onProgress = Some m -> run m t = (t', Ok (blob, buffer)) ->
  exists pcms,
    pcms_ref (length (calls t)) (chunks_of text DEFAULT_MAX_WORDS) = Ok pcms
    /\ blob = mkBlob (wav_header 1 24000 (Z.of_nat (length (mjoin pcms)))
                      ++ mjoin (requantize_pcm <$> pcms)) "audio/wav"
    /\ numberOfChannels buffer = 1 /\ sampleRate buffer = 24000%Z
    /\ 2 * buf_length buffer = length (mjoin pcms).
Proof.
  intros Hm Hrun. destruct (generateSpeech_pcms _ _ _ _ _ _ _ Hm Hrun) as (pcms & ? & ? & ? & ? & ? & _).
  by exists pcms.
Qed.

End pipeline.

(** ** Witnesses *)

Lemma generateSpeech_file_witness :
  exists pcms,
    pcms_ref (svc := scenario_service) ZEPHYR DEFAULT_STYLE (length (calls []))
      (chunks_of (str "hello world") DEFAULT_MAX_WORDS) = Ok pcms
    /\ scenario_blob = mkBlob (wav_header 1 24000 (Z.of_nat (length (mjoin pcms)))
                                ++ mjoin (requantize_pcm <$> pcms)) "audio/wav"
    /\ numberOfChannels scenario_buffer = 1 /\ sampleRate scenario_buffer = 24000%Z
    /\ 2 * buf_length scenario_buffer = length (mjoin pcms).
Proof.
  apply (generateSpeech_file (limits := spec_limits) (svc := scenario_service)
           ZEPHYR DEFAULT_STYLE (Some returning) (str "hello world")
           (scenario_speech (Some returning)) []
           [Progress (S754_zero false);
            Call (request_of ZEPHYR DEFAULT_STYLE (str "hello world"));
            Progress (num_of_Z 100)]).
  - vm_compute. reflexivity.
  - vm_compute. reflexivity.
Defined.

(** A service that sends the samples 0 and 16384 for the first call and
    32767 and -32768 for the others, and a text of 801 words: two chunks,
    two calls, and a file whose data region is the two payloads one after
    the other, the positive samples one step lower. *)
Definition two_payload_service : SpeechService :=
  {| generateContent := fun k _ =>
       Ok (audio_response (str (match k with 0 => "AAAAQA==" | _ => "/38AgA==" end))) |}.

Definition long_text : jsstring := mjoin (replicate 800 (str "a ")) ++ str "b".

Example two_chunks_file :
  length (chunks_of long_text DEFAULT_MAX_WORDS) = 2
  /\ (m ← generateSpeech (limits := spec_limits) (svc := two_payload_service)
            long_text ZEPHYR DEFAULT_STYLE None;
      match (run m []).2 with
      | Ok (blob, buffer) => Some (drop 44 (blob_data blob), buf_length buffer)
      | Throw _ => None
      end)
     = Some (byte.of_Z <$> [0x00; 0x00; 0xFF; 0x3F; 0xFE; 0x7F; 0x00; 0x80]%Z, 4).
Proof. split; vm_compute; reflexivity. Qed.
