(* ===== verification/App.v ===== *)
(** * App: the state and the handler of [src/App.tsx]

    The component keeps the text, the voice, the style, the history of clips
    and the status shown to the user ([TTSState]).  [handleGenerate] guards
    the request (blank text, missing service, too many words), runs
    [generateSpeech] with a progress callback that updates the status, and
    records the clip or logs and records the error.  The model makes the handler a function of
    the state, of the values the browser supplies ([Env]) and of the log of
    the service; it returns the new state and the statuses shown on the way.
    The status over time, when clicks, answers and timers interleave, is the
    step relation [ui_step].  The JSX of the component and [downloadSpeech]
    are in [View]. *)

From Stdlib Require Import ZArith Lia Floats.SpecFloat DecimalString.
From stdpp Require Import base tactics list option numbers strings.
From S2P Require Import Prelude JsNumber JsString Bytes Types AudioBuffer.
From S2P Require Import Chunker Trace TtsService.

(** ** The state *)

(** [interface TTSState] ([src/types.ts], lines 27-31). *)
Record TTSState : Type := mkTTSState {
  status : Status;
  tts_progress : num;
  message : jsstring;
}.

(** The state of the component (lines 8-18); [ttsServiceRef] tells whether
    the reference holds a service. *)
Record AppState : Type := mkAppState {
  text : jsstring;
  selectedVoice : VoiceName;
  styleInstruction : jsstring;
  history : list GeneratedSpeech;
  ttsState : TTSState;
  ttsServiceRef : bool;
}.

(** The initial values of lines 8-16, before the effect of line 21 runs. *)
Definition initial_state : AppState :=
  mkAppState [] ZEPHYR (str "Speak clearly with a natural pace and professional tone.")
    [] (mkTTSState idle (num_of_Z 0) []) false.

(** What the browser supplies to one run of the handler:
    [crypto.randomUUID()], [Date.now()], [URL.createObjectURL(blob)] and the
    [message] of an exception it raised itself. *)
Record Env : Type := mkEnv {
  env_uuid : string;
  env_now : Z;
  env_url : Blob -> string;
  env_message : exn -> jsstring;
}.

(** ** The model *)

(** A Number in a template literal, for the integers and the special
    values. *)
Definition integer_string (z : Z) : jsstring := str (NilZero.string_of_int (Z.to_int z)).

Definition round_string (x : num) : jsstring :=
  match Math_round x, x with
  | Some z, _ => integer_string z
  | None, S754_infinity false => str "Infinity"
  | None, S754_infinity true => str "-Infinity"
  | None, _ => str "NaN"
  end.

(** [wordCount] (line 24). *)
Definition wordCount (text : jsstring) : nat :=
  match trim text with
  | [] => 0
  | _ :: _ => length (split_ws (trim text))
  end.

(** [isTooLong] (line 25). *)
Definition isTooLong (text : jsstring) : bool := bool_decide (MAX_WORDS < Z.of_nat (wordCount text))%Z.

(** The progress callback (line 41): what it does to the status, and
    what [generateSpeech] sees of it, a call that returns. *)
Definition on_progress (prev : TTSState) (p : num) : TTSState :=
  mkTTSState (status prev) p (str "Synthesizing audio: " ++ round_string p ++ str "%").

Definition progress_callback : Callback := fun _ _ => Ok tt.

(** The statuses shown while the callback is called with the values [ps],
    from the status [st] on. *)
Fixpoint shown_from (st : TTSState) (ps : list num) : list TTSState :=
  match ps with
  | [] => [st]
  | p :: ps' => st :: shown_from (on_progress st p) ps'
  end.

(** [err.message] (line 65): the argument of [new Error], or what the
    browser says. *)
Definition err_message (env : Env) (e : exn) : jsstring :=
  match e with
  | Error msg => str msg
  | _ => env_message env e
  end.

(** [buffer.duration]: the length over the sample rate, in seconds. *)
Definition duration (b : AudioBuffer) : num :=
  num_div (num_of_Z (Z.of_nat (buf_length b))) (num_of_Z (sampleRate b)).

(** The clip of lines 45-53. *)
Definition new_speech (s : AppState) (env : Env) (blob : Blob) (buffer : AudioBuffer)
  : GeneratedSpeech :=
  mkGeneratedSpeech (env_uuid env)
    (slice (text s) 0 100 ++ (if decide (100 < length (text s)) then str "..." else []))
    (selectedVoice s) (env_now env) (Some (duration buffer)) blob (env_url env blob).

Definition set_ttsState (s : AppState) (st : TTSState) : AppState :=
  mkAppState (text s) (selectedVoice s) (styleInstruction s) (history s) st (ttsServiceRef s).

(** The outcome of a run of the handler: the log of the service, the new
    state, and the statuses shown one after the other. *)
Record Outcome : Type := mkOutcome {
  out_log : list event;
  out_state : AppState;
  out_shown : list TTSState;
}.

Section handler.
Context `{limits : AudioLimits} `{svc : SpeechService}.

(** [handleGenerate] (lines 27-68), started in state [s] with the log [t].
    [None] would be a [generateSpeech] that does not return. *)
Definition handleGenerate (s : AppState) (env : Env) (t : list event) : option Outcome :=
  if decide (trim (text s) = [] \/ ttsServiceRef s = false) then Some (mkOutcome t s [])
  else if isTooLong (text s) then
    let st := mkTTSState error (num_of_Z 0)
                (str "Text is too long (Max " ++ integer_string MAX_WORDS ++ str " words).") in
    Some (mkOutcome t (set_ttsState s st) [st])
  else
    let st0 := mkTTSState processing (num_of_Z 0) (str "Initializing voice synthesizer...") in
    m ← generateSpeech (text s) (selectedVoice s) (styleInstruction s)
          (Some progress_callback);
    let '(t', r) := run m t in
    let shown := shown_from st0 (progress (drop (length t) t')) in
    match r with
    | Ok (blob, buffer) =>
        let st := mkTTSState success (num_of_Z 100) (str "Speech generated successfully!") in
        Some (mkOutcome t'
                (mkAppState (text s) (selectedVoice s) (styleInstruction s)
                   (new_speech s env blob buffer :: history s) st (ttsServiceRef s))
                (shown ++ [st]))
    | Throw e =>
        let msg := match err_message env e with
                   | [] => str "Failed to generate speech. Please check your API key and connection."
                   | c :: m => c :: m
                   end in
        let st := mkTTSState error (num_of_Z 0) msg in
        Some (mkOutcome (t' ++ [AppError e]) (set_ttsState s st) (shown ++ [st]))
    end.

End handler.

(** The callback of [setTimeout] (line 59), three seconds after a success. *)
Definition clear_after_success (s : AppState) : AppState :=
  set_ttsState s (mkTTSState idle (num_of_Z 0) (message (ttsState s))).

(** The effect of line 21 and the three [onChange]/[onClick] setters. *)
Definition mount (s : AppState) : AppState :=
  mkAppState (text s) (selectedVoice s) (styleInstruction s) (history s) (ttsState s) true.
Definition setText (s : AppState) (v : jsstring) : AppState :=
  mkAppState v (selectedVoice s) (styleInstruction s) (history s) (ttsState s) (ttsServiceRef s).
Definition setSelectedVoice (s : AppState) (v : VoiceName) : AppState :=
  mkAppState (text s) v (styleInstruction s) (history s) (ttsState s) (ttsServiceRef s).
Definition setStyleInstruction (s : AppState) (v : jsstring) : AppState :=
  mkAppState (text s) (selectedVoice s) v (history s) (ttsState s) (ttsServiceRef s).

(** ** The statuses shown during a run *)

Lemma shown_from_length st ps : length (shown_from st ps) = S (length ps).
Proof. revert st. induction ps as [|p ps IH]; intros st; simpl; [done|by rewrite IH]. Qed.

Lemma shown_from_status st ps :
  Forall (fun st' => status st' = status st) (shown_from st ps).
Proof.
  revert st. induction ps as [|p ps IH]; intros st; cbn [shown_from].
  - by constructor.
  - constructor; [done|]. apply (IH (on_progress st p)).
Qed.

Lemma shown_from_head st ps : head (shown_from st ps) = Some st.
Proof. by destruct ps. Qed.

(** The line that the [catch] block of [handleGenerate] writes to the
    console is not a progress call. *)
Lemma progress_catch (t evs : list event) (e : exn) :
  progress (drop (length t) ((t ++ evs) ++ [AppError e])) = progress (drop (length t) (t ++ evs)).
Proof.
  rewrite <- app_assoc, !drop_app_length. rewrite progress_app. cbn. by rewrite app_nil_r.
Qed.

(** ** The handler *)

Section handler_theorems.
Context `{limits : AudioLimits} `{svc : SpeechService}.
Implicit Types (s : AppState) (env : Env) (t : list event) (o : Outcome).

(** The three ways out of [handleGenerate]. *)
Definition guarded s : Prop := trim (text s) = [] \/ ttsServiceRef s = false.

Lemma handleGenerate_cases s env t :
  exists m, generateSpeech (text s) (selectedVoice s) (styleInstruction s)
              (Some progress_callback) = Some m
  /\ handleGenerate s env t
     = if decide (guarded s) then Some (mkOutcome t s [])
       else if isTooLong (text s) then
         let st := mkTTSState error (num_of_Z 0)
                     (str "Text is too long (Max " ++ integer_string MAX_WORDS
                      ++ str " words).") in
         Some (mkOutcome t (set_ttsState s st) [st])
       else
         let st0 := mkTTSState processing (num_of_Z 0)
                      (str "Initializing voice synthesizer...") in
         let shown := shown_from st0 (progress (drop (length t) (run m t).1)) in
         match (run m t).2 with
         | Ok (blob, buffer) =>
             let st := mkTTSState success (num_of_Z 100)
                         (str "Speech generated successfully!") in
             Some (mkOutcome (run m t).1
                     (mkAppState (text s) (selectedVoice s) (styleInstruction s)
                        (new_speech s env blob buffer :: history s) st (ttsServiceRef s))
                     (shown ++ [st]))
         | Throw e =>
             let msg := match err_message env e with
                        | [] => str "Failed to generate speech. Please check your API key and connection."
                        | c :: m => c :: m
                        end in
             let st := mkTTSState error (num_of_Z 0) msg in
             Some (mkOutcome ((run m t).1 ++ [AppError e]) (set_ttsState s st) (shown ++ [st]))
         end.
Proof.
  destruct (generateSpeech_ref (selectedVoice s) (styleInstruction s)
              (Some progress_callback) (text s)) as (m & Hm & _).
  exists m. split; [done|]. unfold handleGenerate, guarded. rewrite Hm. cbn [mbind option_bind].
  by destruct (run m t) as [t' [[blob buffer]|e]].
Qed.

(** [handleGenerate] always returns: neither the chunking nor the loop
    over the chunks can run forever. *)
Theorem handleGenerate_total s env t : is_Some (handleGenerate s env t).
Proof.
  destruct (handleGenerate_cases s env t) as (m & _ & ->).
  case_decide; [done|]. destruct (isTooLong (text s)); [done|].
  by destruct (run m t).2 as [[blob buffer]|e].
Qed.

(** C38. A blank text, a missing service or a text of more than [MAX_WORDS]
    words never reaches the speech service: the log and the history are
    unchanged, and nothing is shown as processing. *)
Theorem handleGenerate_rejected s env t o :
  guarded s \/ isTooLong (text s) = true ->
  handleGenerate s env t = Some o ->
  out_log o = t /\ history (out_state o) = history s
  /\ Forall (fun st => status st = error) (out_shown o)
  /\ (guarded s -> out_state o = s).
Proof.
  intros Hg. destruct (handleGenerate_cases s env t) as (m & _ & ->).
  case_decide as Hd; [by intros [= <-]|].
  destruct Hg as [?|Hl]; [done|]. rewrite Hl. intros [= <-]. cbn.
  repeat split; [|done]. by repeat constructor.
Qed.

(** C28. After an accepted request the status is [success] with progress
    100 and one new clip at the head of the history, or [error] with
    progress 0 and the history unchanged; before that, every status shown
    is [processing], starting with a progress of 0, and one status is shown
    per call of the progress callback. *)
Theorem handleGenerate_accepted s env t o :
  ~ guarded s -> isTooLong (text s) = false ->
  handleGenerate s env t = Some o ->
  let final := ttsState (out_state o) in
  last (out_shown o) = Some final
  /\ Forall (fun st => status st = processing) (removelast (out_shown o))
  /\ length (out_shown o) = 2 + length (progress (drop (length t) (out_log o)))
  /\ ((status final = success /\ tts_progress final = num_of_Z 100
       /\ (exists clip, history (out_state o) = clip :: history s
                   /\ gs_voice clip = selectedVoice s))
      \/ (status final = error /\ tts_progress final = num_of_Z 0
          /\ history (out_state o) = history s)).
Proof.
  intros Hg Hl. destruct (handleGenerate_cases s env t) as (m & Hm & ->).
  destruct (generateSpeech_log _ _ _ _ _ t Hm) as [evs Hevs].
  rewrite decide_False, Hl by done. cbn zeta.
  set (st0 := mkTTSState processing _ _).
  destruct (run m t) as [t' [[blob buffer]|e]]; cbn [fst snd] in *; subst t'; intros [= <-];
    cbn [out_shown out_state out_log ttsState set_ttsState history status tts_progress];
    rewrite ?progress_catch;
    (split; [by rewrite last_snoc|]);
    (split; [rewrite removelast_last; apply (shown_from_status st0)|]);
    (split; [rewrite length_app, shown_from_length; simpl; lia|]).
  - left. split; [done|]. split; [done|]. by eexists.
  - by right.
Qed.

End handler_theorems.

(** ** The status over time

    A run of [handleGenerate] is not atomic: it sets the status when it
    starts (line 34), at every progress call (line 41) and when the service
    has answered (lines 56 and 62), and after a success a timer resets the
    status three seconds later (line 59).  Between these updates the user
    may click again, as soon as the button is enabled (line 161).  The
    relation [ui_step] makes each update a step; [in_flight] counts the runs
    that have started and not finished and [timers] the timers that have
    not fired yet. *)

Record Ui : Type := mkUi {
  ui_state : TTSState;
  in_flight : nat;
  timers : nat;
}.

Inductive ui_label : Type :=
| Click                      (* the button, for a text that is accepted *)
| ProgressCb (p : num)       (* the progress callback of a run *)
| Success                    (* a run ends, lines 55-59 *)
| Failure (msg : jsstring)   (* a run ends in the catch block *)
| Timer.                     (* the callback of setTimeout *)

(** The [disabled] attribute of the button (line 161), for a text that is
    neither blank nor too long. *)
Definition button_enabled (u : Ui) : bool :=
  bool_decide (status (ui_state u) <> processing).

Inductive ui_step : Ui -> ui_label -> Ui -> Prop :=
| step_click u :
    button_enabled u = true ->
    ui_step u Click
      (mkUi (mkTTSState processing (num_of_Z 0) (str "Initializing voice synthesizer..."))
         (S (in_flight u)) (timers u))
| step_progress u p :
    0 < in_flight u ->
    ui_step u (ProgressCb p) (mkUi (on_progress (ui_state u) p) (in_flight u) (timers u))
| step_success u :
    0 < in_flight u ->
    ui_step u Success
      (mkUi (mkTTSState success (num_of_Z 100) (str "Speech generated successfully!"))
         (in_flight u - 1) (S (timers u)))
| step_failure u msg :
    0 < in_flight u ->
    ui_step u (Failure msg) (mkUi (mkTTSState error (num_of_Z 0) msg) (in_flight u - 1) (timers u))
| step_timer u :
    0 < timers u ->
    ui_step u Timer
      (mkUi (mkTTSState idle (num_of_Z 0) (message (ui_state u))) (in_flight u) (timers u - 1)).

(** A sequence of steps. *)
Inductive ui_steps : Ui -> list ui_label -> Ui -> Prop :=
| steps_nil u : ui_steps u [] u
| steps_cons u l u' ls u'' : ui_step u l u' -> ui_steps u' ls u'' -> ui_steps u (l :: ls) u''.

(** A step is calm when it is not a timer that fires during a run. *)
Definition calm (u : Ui) (l : ui_label) : Prop := l = Timer -> in_flight u = 0.

Inductive calm_steps : Ui -> list ui_label -> Ui -> Prop :=
| calm_nil u : calm_steps u [] u
| calm_cons u l u' ls u'' :
    ui_step u l u' -> calm u l -> calm_steps u' ls u'' -> calm_steps u (l :: ls) u''.

Definition ui_initial : Ui := mkUi (ttsState initial_state) 0 0.

(** At most one run is in flight, and the status is [processing] exactly
    while it is. *)
Definition one_run (u : Ui) : Prop :=
  in_flight u <= 1 /\ (in_flight u = 1 <-> status (ui_state u) = processing).

Lemma ui_steps_app u ls u' ls' u'' :
  ui_steps u ls u' -> ui_steps u' ls' u'' -> ui_steps u (ls ++ ls') u''.
Proof. induction 1; [done|]. intros. econstructor; eauto. Qed.

Lemma one_run_step u l u' : one_run u -> ui_step u l u' -> calm u l -> one_run u'.
Proof.
  intros [Hle Hiff] Hstep Hcalm. unfold one_run, button_enabled in *.
  destruct Hstep as [u He|u p Hp|u Hp|u msg Hp|u Ht]; cbn in *.
  - apply bool_decide_eq_true_1 in He.
    assert (in_flight u = 0) as -> by (destruct (decide (in_flight u = 1)) as [?%Hiff|]; [done|lia]).
    by repeat split.
  - done.
  - split; [lia|]. split; [lia|done].
  - split; [lia|]. split; [lia|done].
  - rewrite (Hcalm eq_refl). split; [lia|]. split; [lia|done].
Qed.

(** The statuses shown by the progress callback are steps of one run. *)
Lemma shown_from_steps st ps k :
  exists st', last (shown_from st ps) = Some st'
    /\ ui_steps (mkUi st 1 k) (ProgressCb <$> ps) (mkUi st' 1 k).
Proof.
  revert st. induction ps as [|p ps IH]; intros st.
  - exists st. split; [done|constructor].
  - destruct (IH (on_progress st p)) as (st' & Hl & Hs). exists st'. split.
    + cbn [shown_from]. rewrite last_cons, Hl. done.
    + cbn [fmap list_fmap]. econstructor; [|exact Hs].
      apply (step_progress (mkUi st 1 k)). simpl. lia.
Qed.

(** C30. As long as no timer fires during a run, at most one run is in
    flight, and the status is [processing] exactly while one is: the button
    is disabled for the whole run. *)
Theorem ui_one_run (ls : list ui_label) (u : Ui) :
  calm_steps ui_initial ls u -> one_run u.
Proof.
  assert (one_run ui_initial) as Hinit by (split; [simpl; lia|done]).
  revert Hinit. generalize ui_initial. intros u0 Hu0 Hsteps.
  induction Hsteps as [|u l u' ls u'' Hstep Hcalm _ IH]; [done|].
  apply IH. by apply (one_run_step u l).
Qed.

Section handler_steps.
Context `{limits : AudioLimits} `{svc : SpeechService}.

(** A run of [handleGenerate] that nothing interrupts is a path of
    the relation: the click, one step per progress call, and the success or
    the failure that ends it. *)
Theorem handleGenerate_steps (s : AppState) (env : Env) (t : list event) (o : Outcome) (k : nat) :
  ~ guarded s -> isTooLong (text s) = false ->
  status (ttsState s) <> processing ->
  handleGenerate s env t = Some o ->
  exists l k',
    ui_steps (mkUi (ttsState s) 0 k)
      (Click :: (ProgressCb <$> progress (drop (length t) (out_log o))) ++ [l])
      (mkUi (ttsState (out_state o)) 0 k')
    /\ (l = Success \/ exists msg, l = Failure msg).
Proof.
  intros Hg Hl Hst. destruct (handleGenerate_cases s env t) as (m & Hm & ->).
  destruct (generateSpeech_log _ _ _ _ _ t Hm) as [evs Hevs].
  rewrite decide_False, Hl by done. cbn zeta.
  set (st0 := mkTTSState processing _ _).
  destruct (run m t) as [t' [[blob buffer]|e]]; cbn [fst snd] in *; subst t'; intros [= <-];
    cbn [out_log out_state ttsState set_ttsState]; rewrite ?progress_catch;
    destruct (shown_from_steps st0 (progress (drop (length t) (t ++ evs))) k)
      as (st' & _ & Hsteps).
  - exists Success, (S k). split; [|by left].
    eapply steps_cons; [apply (step_click (mkUi (ttsState s) 0 k)); by apply bool_decide_eq_true_2|].
    eapply ui_steps_app; [exact Hsteps|].
    eapply steps_cons; [apply (step_success (mkUi st' 1 k)); simpl; lia|apply steps_nil].
  - eexists (Failure _), k. split; [|right; by eexists].
    eapply steps_cons; [apply (step_click (mkUi (ttsState s) 0 k)); by apply bool_decide_eq_true_2|].
    eapply ui_steps_app; [exact Hsteps|].
    eapply steps_cons; [apply (step_failure (mkUi st' 1 k)); simpl; lia|apply steps_nil].
Qed.

End handler_steps.

(** ** Witnesses *)

Definition scenario_env : Env :=
  mkEnv "clip-1" 0 (fun _ => "blob:clip-1"%string) (fun _ => str "error").

Definition scenario_state (text : jsstring) : AppState :=
  mkAppState text ZEPHYR DEFAULT_STYLE [] (mkTTSState idle (num_of_Z 0) []) true.

Definition scenario_outcome (text : jsstring) : Outcome :=
  default (mkOutcome [] initial_state [])
    (handleGenerate (limits := spec_limits) (svc := scenario_service)
       (scenario_state text) scenario_env []).

(** The statuses shown for the end-to-end scenario. *)
Example scenario_shown :
  (fun st => (status st, message st)) <$> out_shown (scenario_outcome (str "hello world"))
  = [(processing, str "Initializing voice synthesizer...");
     (processing, str "Synthesizing audio: 0%");
     (processing, str "Synthesizing audio: 100%");
     (success, str "Speech generated successfully!")].
Proof. vm_compute. reflexivity. Qed.

(** The counter of the interface says one word where [chunkText] sees
    three, two of them empty. *)
Example wordCount_padded :
  wordCount (str " a ") = 1 /\ split_ws (str " a ") = [[]; str "a"; []].
Proof. split; vm_compute; reflexivity. Qed.

Lemma handleGenerate_rejected_witness :
  out_log (scenario_outcome (str "  ")) = []
  /\ history (out_state (scenario_outcome (str "  "))) = history (scenario_state (str "  "))
  /\ Forall (fun st => status st = error) (out_shown (scenario_outcome (str "  ")))
  /\ (guarded (scenario_state (str "  "))
      -> out_state (scenario_outcome (str "  ")) = scenario_state (str "  ")).
Proof.
  apply (handleGenerate_rejected (limits := spec_limits) (svc := scenario_service)
           (scenario_state (str "  ")) scenario_env []).
  - left. left. vm_compute. reflexivity.
  - vm_compute. reflexivity.
Defined.

Lemma handleGenerate_accepted_witness :
  let o := scenario_outcome (str "hello world") in
  let s := scenario_state (str "hello world") in
  let final := ttsState (out_state o) in
  last (out_shown o) = Some final
  /\ Forall (fun st => status st = processing) (removelast (out_shown o))
  /\ length (out_shown o) = 2 + length (progress (drop (length (@nil event)) (out_log o)))
  /\ ((status final = success /\ tts_progress final = num_of_Z 100
       /\ (exists clip, history (out_state o) = clip :: history s
                   /\ gs_voice clip = selectedVoice s))
      \/ (status final = error /\ tts_progress final = num_of_Z 0
          /\ history (out_state o) = history s)).
Proof.
  apply (handleGenerate_accepted (limits := spec_limits) (svc := scenario_service)
           (scenario_state (str "hello world")) scenario_env []).
  - intros [H|H]; vm_compute in H; discriminate.
  - vm_compute. reflexivity.
  - vm_compute. reflexivity.
Defined.

Lemma ui_one_run_witness :
  one_run (mkUi (mkTTSState idle (num_of_Z 0) (str "Speech generated successfully!")) 0 0).
Proof.
  apply (ui_one_run [Click; Success; Timer]).
  eapply calm_cons; [by apply step_click|done|].
  eapply calm_cons; [apply step_success; simpl; lia|done|].
  eapply calm_cons; [apply step_timer; simpl; lia|done|]. apply calm_nil.
Defined.

Lemma handleGenerate_steps_witness :
  exists l k',
    ui_steps (mkUi (ttsState (scenario_state (str "hello world"))) 0 0)
      (Click :: (ProgressCb <$> progress (drop (length (@nil event))
                                            (out_log (scenario_outcome (str "hello world")))))
       ++ [l])
      (mkUi (ttsState (out_state (scenario_outcome (str "hello world")))) 0 k')
    /\ (l = Success \/ exists msg, l = Failure msg).
Proof.
  apply (handleGenerate_steps (limits := spec_limits) (svc := scenario_service)
           (scenario_state (str "hello world")) scenario_env [] _ 0).
  - intros [H|H]; vm_compute in H; discriminate.
  - vm_compute. reflexivity.
  - discriminate.
  - vm_compute. reflexivity.
Defined.
