(* ===== verification/Liveness.v ===== *)
(** * Liveness: the status of [src/App.tsx] always settles

    The relation [ui_step] of [App] lets clicks, progress calls, answers of
    the service and timers interleave.  This file shows what the page can
    rely on however they interleaved: as long as the service answers the
    runs in flight and the timers fire, the page comes back to a state in
    which nothing is pending and the button is enabled.  [eventually] is
    the usual inductive reading of "on every path": the property holds
    now, or a settling step is possible and it holds eventually after
    every settling step. *)

From Stdlib Require Import ZArith Lia Floats.SpecFloat.
From stdpp Require Import base tactics list option numbers strings.
From S2P Require Import Prelude JsNumber JsString Bytes Types AudioBuffer.
From S2P Require Import Chunker Trace TtsService App.

(** The steps that end something pending: the answer to a run (lines 55-59
    and 60-66 of [handleGenerate]) and the callback of a timer (line 59). *)
Definition settles (l : ui_label) : bool :=
  match l with
  | Success | Failure _ | Timer => true
  | Click | ProgressCb _ => false
  end.

(** What is pending: a run in flight will answer, and after a success
    leave a timer, so it counts twice. *)
Definition pending (u : Ui) : nat := 2 * in_flight u + timers u.

(** Nothing is pending and the button is enabled. *)
Definition quiet (u : Ui) : Prop :=
  in_flight u = 0 /\ timers u = 0 /\ button_enabled u = true.

(** The status is [processing] only while a run is in flight.  Unlike
    [one_run] this holds on every path, timers that fire during a run
    included. *)
Definition ui_inv (u : Ui) : Prop := status (ui_state u) = processing -> 0 < in_flight u.

Section eventually.
Context (P : Ui -> Prop).

Inductive eventually : Ui -> Prop :=
| ev_now u : P u -> eventually u
| ev_later u :
    (exists l u', settles l = true /\ ui_step u l u') ->
    (forall l u', settles l = true -> ui_step u l u' -> eventually u') ->
    eventually u.

End eventually.

#[export] Hint Constructors eventually : audio.

Lemma eventually_weaken (P Q : Ui -> Prop) u :
  (forall u', P u' -> Q u') -> eventually P u -> eventually Q u.
Proof. intros HPQ. induction 1; eauto with audio. Qed.

Lemma eventually_trans (P Q : Ui -> Prop) u :
  eventually P u -> (forall u', P u' -> eventually Q u') -> eventually Q u.
Proof. intros H HPQ. induction H; eauto with audio. Qed.

(** ** The invariant *)

Lemma ui_inv_step u l u' : ui_inv u -> ui_step u l u' -> ui_inv u'.
Proof.
  unfold ui_inv. intros Hinv Hstep.
  destruct Hstep as [u He|u p Hp|u Hp|u msg Hp|u Ht]; cbn; try done; lia.
Qed.

Lemma ui_inv_steps u ls u' : ui_steps u ls u' -> ui_inv u -> ui_inv u'.
Proof. induction 1 as [|u l u' ls u'' Hstep _ IH]; [done|]. eauto using ui_inv_step. Qed.

Lemma ui_inv_initial : ui_inv ui_initial.
Proof. intros [=]. Qed.

(** ** Settling steps *)

Lemma settle_decreases u l u' : settles l = true -> ui_step u l u' -> pending u' < pending u.
Proof.
  unfold pending. intros Hl Hstep.
  destruct Hstep as [u He|u p Hp|u Hp|u msg Hp|u Ht]; cbn in *; try done; lia.
Qed.

Lemma settle_possible u : 0 < pending u -> exists l u', settles l = true /\ ui_step u l u'.
Proof.
  unfold pending. intros Hp. destruct (decide (0 < in_flight u)) as [Hf|Hf].
  - exists Success. eexists. split; [done|]. by apply step_success.
  - exists Timer. eexists. split; [done|]. apply step_timer. lia.
Qed.

Lemma pending_zero_quiet u : ui_inv u -> pending u = 0 -> quiet u.
Proof.
  unfold ui_inv, pending, quiet, button_enabled. intros Hinv Hp.
  split; [lia|]. split; [lia|]. apply bool_decide_eq_true_2. intros Hs%Hinv. lia.
Qed.

Lemma settles_from n u : pending u <= n -> ui_inv u -> eventually quiet u.
Proof.
  revert u. induction n as [|n IH]; intros u Hn Hinv.
  - apply ev_now, pending_zero_quiet; [done|lia].
  - destruct (decide (pending u = 0)) as [H0|H0]; [by apply ev_now, pending_zero_quiet|].
    apply ev_later; [apply settle_possible; lia|].
    intros l u' Hl Hstep. apply IH; [|by eapply ui_inv_step].
    pose proof (settle_decreases u l u' Hl Hstep). lia.
Qed.

(** The settling steps from a state are at most [pending]: the page
    cannot wait forever for answers and timers. *)
Lemma settle_bound u ls u' :
  ui_steps u ls u' -> forallb settles ls = true -> length ls + pending u' <= pending u.
Proof.
  induction 1 as [|u l u' ls u'' Hstep _ IH]; cbn [forallb length]; [intros _; lia|].
  intros [Hl Hls]%andb_true_iff. pose proof (settle_decreases u l u' Hl Hstep).
  specialize (IH Hls). lia.
Qed.

(** ** The properties *)

(** C18. However clicks, progress calls, answers and timers have
    interleaved, the page settles: on every path of answers and timers
    from the state reached, a step is possible until nothing is pending,
    and then no run is in flight, no timer is left and the button is
    enabled. *)
Theorem ui_settles (ls : list ui_label) (u : Ui) :
  ui_steps ui_initial ls u -> eventually quiet u.
Proof.
  intros Hsteps. apply (settles_from (pending u)); [done|].
  eapply ui_inv_steps; [exact Hsteps|apply ui_inv_initial].
Qed.

(** ** Witnesses *)

(** The state of the race: a timer of an earlier success has fired during
    the second run. *)
Lemma race_steps :
  ui_steps ui_initial [Click; Success; Click; Timer]
    (mkUi (mkTTSState idle (num_of_Z 0) (str "Initializing voice synthesizer...")) 1 0).
Proof.
  eapply steps_cons; [by apply step_click|].
  eapply steps_cons; [apply step_success; simpl; lia|].
  eapply steps_cons; [by apply step_click|].
  eapply steps_cons; [apply step_timer; simpl; lia|]. apply steps_nil.
Qed.

Lemma ui_settles_witness :
  eventually quiet (mkUi (mkTTSState idle (num_of_Z 0) (str "Initializing voice synthesizer...")) 1 0).
Proof. apply (ui_settles [Click; Success; Click; Timer]). apply race_steps. Defined.
