(* ===== verification/WordCount.v ===== *)
(** * WordCount: the words the page counts and the words that are sent

    The page counts the words of the trimmed text (line 24 of
    [src/App.tsx]) and compares the count with [MAX_WORDS];
    [generateSpeech] splits the text as it is, so a text that starts or
    ends with white space has one or two empty words more than the page
    counted.  This file bounds the difference: a text the page accepts has
    at most 13 chunks, and for so few chunks the progress values are in
    strictly increasing order. *)

From Stdlib Require Import ZArith Lia Floats.SpecFloat.
From stdpp Require Import base tactics list option numbers strings.
From S2P Require Import Prelude JsNumber JsString Bytes Types AudioBuffer.
From S2P Require Import Chunker Trace TtsService App.

(** ** Runs of white space *)

(** The number of maximal runs of white space of [s] that the splitter
    sees as separators; a run that continues one before [s] (when [in_ws])
    does not count. *)
Fixpoint runs (in_ws : bool) (s : jsstring) : nat :=
  match s with
  | [] => 0
  | c :: s' =>
      if isWhiteSpace c then (if in_ws then 0 else 1) + runs true s' else runs false s'
  end.

Lemma length_split_go in_ws cur s : length (split_go in_ws cur s) = S (runs in_ws s).
Proof.
  revert in_ws cur. induction s as [|c s IH]; intros in_ws cur; [done|].
  cbn [split_go runs]. destruct (isWhiteSpace c); [|apply IH].
  destruct in_ws; cbn [length]; by rewrite IH.
Qed.

Lemma runs_trimStart s : runs true s = runs false (trimStart s).
Proof.
  induction s as [|c s IH]; [done|]. cbn [runs trimStart].
  destruct (isWhiteSpace c) eqn:Hc; [done|]. cbn [runs]. by rewrite Hc.
Qed.

Lemma runs_false_true s : runs false s <= S (runs true s).
Proof. destruct s as [|c s]; cbn [runs]; [lia|]. destruct (isWhiteSpace c); lia. Qed.

Lemma runs_ws_true w : Forall (fun c => isWhiteSpace c = true) w -> runs true w = 0.
Proof. induction 1 as [|c w Hc _ IH]; [done|]. cbn [runs]. by rewrite Hc, IH. Qed.

Lemma runs_ws in_ws w : Forall (fun c => isWhiteSpace c = true) w -> runs in_ws w <= 1.
Proof.
  intros Hw. destruct Hw as [|c w Hc Hw]; cbn [runs]; [lia|].
  rewrite Hc, (runs_ws_true w Hw). destruct in_ws; lia.
Qed.

(** White space at the end adds at most one run. *)
Lemma runs_app_ws in_ws a w :
  Forall (fun c => isWhiteSpace c = true) w -> runs in_ws (a ++ w) <= S (runs in_ws a).
Proof.
  intros Hw. revert in_ws. induction a as [|c a IH]; intros in_ws.
  - cbn [app runs]. pose proof (runs_ws in_ws w Hw). lia.
  - cbn [app runs]. destruct (isWhiteSpace c); [specialize (IH true)|specialize (IH false)]; lia.
Qed.

(** What [trimStart] removes is white space. *)
Lemma trimStart_split s :
  exists w, s = w ++ trimStart s /\ Forall (fun c => isWhiteSpace c = true) w.
Proof.
  induction s as [|c s (w & Hs & Hw)]; [by exists []|]. cbn [trimStart].
  destruct (isWhiteSpace c) eqn:Hc; [|by exists []].
  exists (c :: w). split; [by rewrite Hs at 1|by constructor].
Qed.

Lemma trimEnd_split s :
  exists w, s = trimEnd s ++ w /\ Forall (fun c => isWhiteSpace c = true) w.
Proof.
  destruct (trimStart_split (reverse s)) as (w & Hs & Hw). exists (reverse w). split.
  - unfold trimEnd. rewrite <- reverse_app, <- Hs. by rewrite reverse_involutive.
  - by apply Forall_reverse.
Qed.

Lemma runs_trim s : runs false s <= 2 + runs false (trim s).
Proof.
  unfold trim. pose proof (runs_false_true s) as H1. rewrite runs_trimStart in H1.
  destruct (trimEnd_split (trimStart s)) as (w & Hs & Hw).
  pose proof (runs_app_ws false (trimEnd (trimStart s)) w Hw) as H2. rewrite <- Hs in H2. lia.
Qed.

(** The splitter sees at most two words more than the page counts. *)
Lemma split_ws_wordCount (text : jsstring) :
  trim text <> [] -> length (split_ws text) <= wordCount text + 2.
Proof.
  intros Ht. unfold wordCount, split_ws. destruct (trim text) as [|c s] eqn:E; [done|].
  rewrite !length_split_go, <- E. pose proof (runs_trim text). lia.
Qed.

(** ** The chunks of an accepted text *)

Lemma accepted_chunks (text : jsstring) :
  trim text <> [] -> isTooLong text = false ->
  1 <= length (chunks_of text DEFAULT_MAX_WORDS) <= 13.
Proof.
  intros Ht Hl. split; [apply length_chunks_of_pos; unfold DEFAULT_MAX_WORDS; lia|].
  apply bool_decide_eq_false_1 in Hl. unfold MAX_WORDS in Hl.
  pose proof (split_ws_wordCount text Ht) as Hw.
  unfold chunks_of. rewrite length_fmap, groups_length.
  unfold div_ceil, DEFAULT_MAX_WORDS. apply Nat.lt_succ_r, Nat.Div0.div_lt_upper_bound. lia.
Qed.

(** C34. A text the page accepts (not blank, at most [MAX_WORDS] words on
    the counter) is cut into 1 to 13 chunks, although the splitter, which
    sees one word more than there are runs of white space, may see two
    words more than the counter; and for such a text every value
    passed to the progress callback is strictly below the next one, the
    last being 100, roundings of binary64 included. *)
Theorem accepted_progress (text : jsstring) :
  trim text <> [] -> isTooLong text = false ->
  let n := length (chunks_of text DEFAULT_MAX_WORDS) in
  length (split_ws text) = S (runs false text)
  /\ length (split_ws text) <= wordCount text + 2 /\ 1 <= n <= 13
  /\ forall i, i < n ->
       num_lt (progress_of i n)
         (if decide (S i < n) then progress_of (S i) n else num_of_Z 100) = true.
Proof.
  intros Ht Hl n. split; [apply length_split_go|]. pose proof (accepted_chunks text Ht Hl) as Hn. fold n in Hn.
  split; [by apply split_ws_wordCount|]. split; [done|].
  intros i Hi. apply progress_lt_32; lia.
Qed.

(** ** Witnesses *)

(** A text with white space at both ends: one word on the counter, three
    for the splitter, one chunk. *)
Lemma accepted_progress_witness :
  let n := length (chunks_of (str " a ") DEFAULT_MAX_WORDS) in
  length (split_ws (str " a ")) = S (runs false (str " a "))
  /\ length (split_ws (str " a ")) <= wordCount (str " a ") + 2 /\ 1 <= n <= 13
  /\ forall i, i < n ->
       num_lt (progress_of i n)
         (if decide (S i < n) then progress_of (S i) n else num_of_Z 100) = true.
Proof.
  apply (accepted_progress (str " a ")).
  - vm_compute. discriminate.
  - vm_compute. reflexivity.
Defined.
