(* ===== verification/Dom.v ===== *)
(** * Dom: what a component renders, and the document it touches

    The return value of a React component is a tree of elements: a tag, the
    attributes (strings, flags, a width in per cent, event handlers) and the
    children, which are elements or text.  [node] is that tree, with the
    handlers of the component as a parameter.  The functions below read a
    tree the way the browser and React do: the events a user can trigger
    ([events], a disabled control and what it contains dispatch none), the
    text shown ([text_content]), the keys of the children of a list
    ([child_keys]) and the well-formedness React asks of a tree
    ([node_wf]).

    The second part is the small piece of the DOM that [downloadSpeech]
    uses: elements with an identity, the children of [document.body] and
    the clicks made by the program. *)

From Stdlib Require Import ZArith Lia Floats.SpecFloat.
From stdpp Require Import base tactics list option numbers strings.
From S2P Require Import Prelude JsNumber JsString.

(** ** Trees of elements *)

(** The value of an attribute. *)
Inductive value (H : Type) : Type :=
| VStr (s : string)        (* a string literal of the source *)
| VText (s : jsstring)     (* a string computed from the state *)
| VBool (b : bool)         (* a flag, as [disabled] and [controls] *)
| VPercent (x : num)       (* the style [{ width: `${x}%` }] *)
| VHandler (h : H).        (* an event handler *)

Arguments VStr {H} s.
Arguments VText {H} s.
Arguments VBool {H} b.
Arguments VPercent {H} x.
Arguments VHandler {H} h.

#[warnings="-register-all"]
Inductive node (H : Type) : Type :=
| Text (s : jsstring)
| El (tag : string) (attrs : list (string * value H)) (children : list (node H)).

Arguments Text {H} s.
Arguments El {H} tag attrs children.

Section tree.
Context {H : Type}.
Implicit Types (n : node H) (attrs : list (string * value H)) (v : value H).

(** A text child written as a literal. *)
Definition txt (s : string) : node H := Text (str s).

(** The first attribute of a name, as the browser reads it. *)
Fixpoint attr_of (name : string) attrs : option (value H) :=
  match attrs with
  | [] => None
  | (k, v) :: attrs' => if String.eqb k name then Some v else attr_of name attrs'
  end.

Definition attr (name : string) n : option (value H) :=
  match n with
  | Text _ => None
  | El _ attrs _ => attr_of name attrs
  end.

Definition children_of n : list (node H) :=
  match n with
  | Text _ => []
  | El _ _ children => children
  end.

Definition is_disabled attrs : bool :=
  match attr_of "disabled" attrs with
  | Some (VBool true) => true
  | _ => false
  end.

(** The handlers among the attributes of one element. *)
Definition handlers_of attrs : list H :=
  omap (fun kv => match kv.2 with VHandler h => Some h | _ => None end) attrs.

(** The events a user can trigger in a tree, in document order.  A
    disabled control dispatches no event, and neither does what it
    contains. *)
Fixpoint events n : list H :=
  match n with
  | Text _ => []
  | El _ attrs children =>
      if is_disabled attrs then [] else handlers_of attrs ++ flat_map events children
  end.

(** [textContent]: the text of a tree, in document order. *)
Fixpoint text_content n : jsstring :=
  match n with
  | Text s => s
  | El _ _ children => flat_map text_content children
  end.

(** The [key] of a child, as the string React compares. *)
Definition key_of n : option jsstring :=
  match attr "key" n with
  | Some (VStr s) => Some (str s)
  | Some (VText s) => Some s
  | _ => None
  end.

Definition child_keys (children : list (node H)) : list jsstring := omap key_of children.

(** What React asks of one element: the keys of its children differ, and
    a control that shows a [value] of the state has an [onChange]
    handler. *)
Definition element_ok n : bool :=
  bool_decide (NoDup (child_keys (children_of n)))
  && match attr "value" n, attr "onChange" n with
     | Some _, None => false
     | _, _ => true
     end.

Fixpoint node_wf n : bool :=
  element_ok n
  && match n with
     | Text _ => true
     | El _ _ children => forallb node_wf children
     end.

(** *** Lemmas *)

Lemma flat_map_fmap {A B} (f : A -> node H) (g : node H -> list B) (l : list A) :
  flat_map g (f <$> l) = flat_map (fun a => g (f a)) l.
Proof. induction l as [|a l IH]; [done|]. cbn. by rewrite IH. Qed.

Lemma flat_map_singleton {A B} (f : A -> B) (l : list A) :
  flat_map (fun a => [f a]) l = f <$> l.
Proof. induction l as [|a l IH]; [done|]. cbn. by rewrite IH. Qed.

Lemma flat_map_nil {A B} (l : list A) : flat_map (fun _ => @nil B) l = [].
Proof. by induction l. Qed.

Lemma forallb_fmap {A} (f : A -> node H) (p : node H -> bool) (l : list A) :
  (forall a, a ∈ l -> p (f a) = true) -> forallb p (f <$> l) = true.
Proof.
  induction l as [|a l IH]; [done|]. intros Hp. cbn.
  rewrite Hp by constructor. apply IH. intros b Hb. apply Hp. by constructor.
Qed.

Lemma child_keys_fmap {A} (f : A -> node H) (k : A -> jsstring) (l : list A) :
  (forall a, key_of (f a) = Some (k a)) -> child_keys (f <$> l) = k <$> l.
Proof.
  intros Hk. unfold child_keys. induction l as [|a l IH]; [done|].
  cbn. by rewrite Hk, IH.
Qed.

Lemma node_wf_El (tag : string) attrs (children : list (node H)) :
  attr_of "value" attrs = None ->
  NoDup (child_keys children) ->
  forallb node_wf children = true ->
  node_wf (El tag attrs children) = true.
Proof.
  intros Hv Hk Hc.
  change (node_wf (El tag attrs children))
    with (element_ok (El tag attrs children) && forallb node_wf children).
  unfold element_ok, attr, children_of. by rewrite Hv, Hc, bool_decide_eq_true_2.
Qed.

End tree.

(** ** The document *)

(** An element created by the program: its identity, and the two
    attributes [downloadSpeech] sets. *)
Record Element : Type := mkElement {
  el_id : nat;
  el_tag : string;
  el_href : string;
  el_download : jsstring;
}.

(** A click made by the program, on an element that was or was not in the
    document at that moment. *)
Record Click : Type := mkClick {
  click_target : Element;
  click_attached : bool;
}.

Record Document : Type := mkDocument {
  doc_next : nat;               (* the identity of the next element *)
  doc_body : list Element;      (* the children of [document.body] *)
  doc_clicks : list Click;
}.

(** [document.createElement(tag)]. *)
Definition createElement (tag : string) (d : Document) : Element * Document :=
  (mkElement (doc_next d) tag EmptyString [],
   mkDocument (S (doc_next d)) (doc_body d) (doc_clicks d)).

Definition is_child (e : Element) (d : Document) : bool :=
  bool_decide (el_id e ∈ el_id <$> doc_body d).

(** [document.body.appendChild(e)]: [e] becomes the last child; a child
    of that identity is moved. *)
Definition appendChild (e : Element) (d : Document) : Document :=
  mkDocument (doc_next d)
    (filter (fun c => el_id c <> el_id e) (doc_body d) ++ [e]) (doc_clicks d).

(** [e.click()]. *)
Definition click (e : Element) (d : Document) : Document :=
  mkDocument (doc_next d) (doc_body d) (doc_clicks d ++ [mkClick e (is_child e d)]).

(** [document.body.removeChild(e)] throws when [e] is not a child. *)
Definition removeChild (e : Element) (d : Document) : result Document :=
  if is_child e d
  then Ok (mkDocument (doc_next d) (filter (fun c => el_id c <> el_id e) (doc_body d))
             (doc_clicks d))
  else Throw NotFoundError.

(** The identities in the document are older than the next one. *)
Definition doc_wf (d : Document) : Prop :=
  Forall (fun c => el_id c < doc_next d) (doc_body d).

Lemma filter_fresh (e : Element) (l : list Element) :
  Forall (fun c => el_id c < el_id e) l -> filter (fun c => el_id c <> el_id e) l = l.
Proof.
  intros Hl. apply filter_Forall_id. eapply list.Forall_impl; [exact Hl|].
  intros c Hc. simpl in *. lia.
Qed.

Lemma is_child_last (e : Element) (l : list Element) (n : nat) (cs : list Click) :
  is_child e (mkDocument n (l ++ [e]) cs) = true.
Proof.
  apply bool_decide_eq_true_2. cbn. rewrite fmap_app. apply elem_of_app. right. constructor.
Qed.

Lemma filter_last_fresh (e : Element) (l : list Element) :
  Forall (fun c => el_id c < el_id e) l ->
  filter (fun c => el_id c <> el_id e) (l ++ [e]) = l.
Proof.
  intros Hl. rewrite filter_app, filter_fresh by done.
  rewrite filter_cons_False by (intros Hne; by apply Hne). cbn. by rewrite app_nil_r.
Qed.
