(* ===== verification/View.v ===== *)
(** * View: the JSX of [src/App.tsx] and [downloadSpeech]

    [render] is the tree the component returns (lines 79-295), one
    definition per part of the page: the header, the text area with its
    word counter, the voice picker, the button, the status panel, the
    library of clips and the style sheet.  Class names, texts and paths are
    the literals of the source; what depends on the state is computed from
    [AppState] the way the JSX computes it.  The handlers in the tree are
    the values of [handler]; [downloadSpeech] (lines 70-77) runs on the
    document of [Dom].  The dates the browser formats are an interface,
    [Locale]. *)

From Stdlib Require Import ZArith Lia Floats.SpecFloat.
From stdpp Require Import base tactics list option numbers strings.
From S2P Require Import Prelude JsNumber JsString Bytes Types AudioBuffer.
From S2P Require Import Chunker Trace TtsService App Dom.

(** ** Handlers and the locale *)

(** The functions the JSX passes as [onChange] and [onClick]. *)
Inductive handler : Type :=
| ChangeText                         (* (e) => setText(e.target.value), line 112 *)
| ChangeStyle                        (* (e) => setStyleInstruction(e.target.value), line 129 *)
| PickVoice (v : VoiceName)          (* () => setSelectedVoice(v.id), line 142 *)
| Generate                           (* handleGenerate, line 160 *)
| Download (speech : GeneratedSpeech). (* () => downloadSpeech(speech), line 243 *)

(** [new Date(t).toLocaleDateString()] and [toLocaleTimeString()]: what
    they return depends on the locale and the time zone of the browser. *)
Class Locale : Type := {
  toLocaleDateString : Z -> jsstring;
  toLocaleTimeString : Z -> jsstring;
}.

#[local] Abbreviation cls c := ("className"%string, VStr c) (only parsing).
#[local] Notation "a +:+ b" := (String.append a b) (at level 60, right associativity).

(** The double quote, for the texts of the JSX that contain one. *)
Definition dq : string := String (Ascii.ascii_of_nat 34) EmptyString.

Section view.
Context `{locale : Locale}.
Implicit Types (s : AppState) (speech : GeneratedSpeech).

#[local] Abbreviation node := (node handler).

(** ** The page *)

(** The four pictures of the header (lines 90-94). *)
Definition avatars : node :=
  El "div" [cls "flex -space-x-2"]
    ((fun i : Z =>
        El "img" [("key", VText (integer_string i));
                  ("src", VText (str "https://picsum.photos/seed/face" ++ integer_string i
                                 ++ str "/40/40"));
                  cls "w-10 h-10 rounded-full border-2 border-slate-900";
                  ("alt", VStr "user")] [])
     <$> [1; 2; 3; 4]%Z).

(** The header (lines 82-97). *)
Definition header : node :=
  El "header" [cls "py-8 px-6 max-w-7xl mx-auto flex flex-col md:flex-row md:items-center justify-between gap-4"]
    [El "div" []
       [El "h1" [cls "text-4xl font-extrabold font-display bg-clip-text text-transparent bg-gradient-to-r from-indigo-400 to-purple-400"]
          [txt "Gemini Voice Studio"];
        El "p" [cls "text-slate-400 mt-2 font-medium"]
          [txt "Professional Long-Form Text-to-Speech Synth"]];
     El "div" [cls "flex items-center gap-3"]
       [avatars;
        El "p" [cls "text-sm text-slate-500 font-medium"] [txt "Used by 10k+ creators"]]].

(** The word counter (lines 105-107). *)
Definition word_counter s : node :=
  El "div" [cls ("text-xs font-mono px-2 py-1 rounded "
                 +:+ (if isTooLong (text s) then "bg-red-500/20 text-red-400"
                      else "bg-slate-800 text-slate-300"))]
    [Text (integer_string (Z.of_nat (wordCount (text s)))); txt " / ";
     Text (integer_string MAX_WORDS); txt " words"].

(** The width of the bar under the text area (line 117), in per cent. *)
Definition counter_width s : num :=
  num_mul (num_div (num_of_Z (Z.of_nat (wordCount (text s)))) (num_of_Z MAX_WORDS))
    (num_of_Z 100).

(** The text area and its counter (lines 102-118). *)
Definition input_section s : node :=
  El "section" [cls "glass rounded-3xl p-6 relative overflow-hidden"]
    [El "div" [cls "flex items-center justify-between mb-4"]
       [El "label" [cls "text-sm font-semibold uppercase tracking-wider text-slate-400"]
          [txt "Content to Speak"];
        word_counter s];
     El "textarea"
       [("value", VText (text s));
        ("onChange", VHandler ChangeText);
        ("placeholder", VStr "Paste your script, article, or book chapter here... Supports up to 10,000 words across any language.");
        cls "w-full h-80 bg-transparent text-slate-100 placeholder-slate-600 border-none focus:ring-0 resize-none text-lg leading-relaxed custom-scrollbar"]
       [];
     El "div"
       [cls "absolute bottom-0 left-0 h-1 bg-gradient-to-r from-indigo-500 via-purple-500 to-pink-500 transition-all duration-300";
        ("style", VPercent (counter_width s))]
       []].

(** One button of the voice picker (lines 140-151). *)
Definition voice_button s (v : VoiceOption) : node :=
  El "button"
    [("key", VStr (voice_string (vo_id v)));
     ("onClick", VHandler (PickVoice (vo_id v)));
     cls ("px-3 py-2 rounded-xl border text-sm transition-all flex items-center justify-center gap-2 "
          +:+ (if decide (selectedVoice s = vo_id v)
               then "border-indigo-500 bg-indigo-500/10 text-indigo-400"
               else "border-slate-700 bg-slate-800/50 text-slate-400 hover:border-slate-600"))]
    [El "div" [cls ("w-2 h-2 rounded-full "
                    +:+ (if decide (selectedVoice s = vo_id v)
                         then "bg-indigo-400 animate-pulse" else "bg-slate-600"))] [];
     Text (str (vo_name v))].

(** The style instruction and the voice picker (lines 120-156). *)
Definition voice_section s : node :=
  El "section" [cls "glass rounded-3xl p-6"]
    [El "h3" [cls "text-sm font-semibold uppercase tracking-wider text-slate-400 mb-6"]
       [txt "Voice Customization"];
     El "div" [cls "grid grid-cols-1 md:grid-cols-2 gap-6"]
       [El "div" [cls "space-y-4"]
          [El "label" [cls "block text-sm font-medium text-slate-300"]
             [txt "Style & Emotional Tone"];
           El "input"
             [("type", VStr "text");
              ("value", VText (styleInstruction s));
              ("onChange", VHandler ChangeStyle);
              cls "w-full bg-slate-900/50 border border-slate-700 rounded-xl px-4 py-3 text-slate-200 focus:ring-2 focus:ring-indigo-500 outline-none transition-all";
              ("placeholder", VStr "e.g. Exciting, somber, fast-paced, child-friendly...")]
             [];
           El "p" [cls "text-xs text-slate-500 italic"]
             [txt "Describe how the AI should interpret your text."]];
        El "div" [cls "space-y-4"]
          [El "label" [cls "block text-sm font-medium text-slate-300"] [txt "Voice Persona"];
           El "div" [cls "grid grid-cols-2 md:grid-cols-3 gap-2"]
             (voice_button s <$> VOICE_OPTIONS)]]].

(** The [disabled] attribute of the button (line 161). *)
Definition generate_disabled s : bool :=
  bool_decide (status (ttsState s) = processing)
  || bool_decide (trim (text s) = [])
  || isTooLong (text s).

(** What the button shows (lines 166-181). *)
Definition generate_label s : list node :=
  if decide (status (ttsState s) = processing)
  then [El "svg" [cls "animate-spin h-6 w-6 text-white"; ("fill", VStr "none");
                  ("viewBox", VStr "0 0 24 24")]
          [El "circle" [cls "opacity-25"; ("cx", VStr "12"); ("cy", VStr "12");
                        ("r", VStr "10"); ("stroke", VStr "currentColor");
                        ("strokeWidth", VStr "4")] [];
           El "path" [cls "opacity-75"; ("fill", VStr "currentColor");
                      ("d", VStr "M4 12a8 8 0 018-8V0C5.373 0 0 5.373 0 12h4zm2 5.291A7.962 7.962 0 014 12H0c0 3.042 1.135 5.824 3 7.938l3-2.647z")] []];
        txt "Synthesizing..."]
  else [El "svg" [cls "w-6 h-6"; ("fill", VStr "none"); ("stroke", VStr "currentColor");
                  ("viewBox", VStr "0 0 24 24")]
          [El "path" [("strokeLinecap", VStr "round"); ("strokeLinejoin", VStr "round");
                      ("strokeWidth", VStr "2");
                      ("d", VStr "M19 11a7 7 0 01-7 7m0 0a7 7 0 01-7-7m7 7v4m0 0H8m4 0h4m-4-8a3 3 0 01-3-3V5a3 3 0 116 0v6a3 3 0 01-3 3z")] []];
        txt "Generate Speech"].

(** The button (lines 158-184). *)
Definition generate_button s : node :=
  El "div" [cls "flex items-center gap-4"]
    [El "button"
       [("onClick", VHandler Generate);
        ("disabled", VBool (generate_disabled s));
        cls "flex-1 relative group overflow-hidden rounded-2xl py-5 transition-all active:scale-[0.98] disabled:opacity-50 disabled:cursor-not-allowed"]
       [El "div" [cls "absolute inset-0 bg-gradient-to-r from-indigo-600 to-purple-600 group-hover:from-indigo-500 group-hover:to-purple-500 transition-all"] [];
        El "span" [cls "relative text-white font-bold text-lg tracking-wide flex items-center justify-center gap-3"]
          (generate_label s)]].

(** The status panel (lines 187-205): nothing while the status is
    [idle]. *)
Definition status_panel s : list node :=
  if decide (status (ttsState s) <> idle)
  then [El "div"
          [cls ("p-4 rounded-2xl flex items-center gap-3 border transition-all "
                +:+ match status (ttsState s) with
                    | error => "bg-red-500/10 border-red-500/50 text-red-400"
                    | success => "bg-emerald-500/10 border-emerald-500/50 text-emerald-400"
                    | _ => "bg-indigo-500/10 border-indigo-500/50 text-indigo-400"
                    end)]
          [El "div" [cls "flex-1"]
             (El "p" [cls "font-semibold text-sm"] [Text (message (ttsState s))]
              :: if decide (status (ttsState s) = processing)
                 then [El "div" [cls "w-full bg-white/10 h-1.5 rounded-full mt-2 overflow-hidden"]
                         [El "div" [cls "h-full bg-indigo-500 transition-all duration-300";
                                    ("style", VPercent (tts_progress (ttsState s)))] []]]
                 else [])]]
  else [].

(** The left column (lines 101-206). *)
Definition left_column s : node :=
  El "div" [cls "lg:col-span-8 space-y-6"]
    ([input_section s; voice_section s; generate_button s] ++ status_panel s).

(** One clip of the library (lines 232-252). *)
Definition clip_card speech : node :=
  El "div" [("key", VStr (gs_id speech));
            cls "group bg-slate-900/40 border border-slate-800 hover:border-indigo-500/50 rounded-2xl p-4 transition-all"]
    [El "div" [cls "flex items-center justify-between mb-3"]
       [El "span" [cls "text-[10px] font-bold text-indigo-400 uppercase tracking-widest"]
          [Text (str (voice_string (gs_voice speech)))];
        El "span" [cls "text-[10px] text-slate-500 font-mono"]
          [Text (toLocaleTimeString (gs_timestamp speech))]];
     El "p" [cls "text-xs text-slate-300 line-clamp-2 mb-4 italic leading-relaxed"]
       [txt dq; Text (gs_text speech); txt dq];
     El "div" [cls "flex items-center gap-2"]
       [El "audio" [("controls", VBool true); ("src", VStr (gs_audioUrl speech));
                    cls "h-8 flex-1 rounded-full audio-mini"] [];
        El "button"
          [("onClick", VHandler (Download speech));
           cls "p-2 bg-slate-800 hover:bg-indigo-600 text-slate-400 hover:text-white rounded-xl transition-colors";
           ("title", VStr "Download WAV")]
          [El "svg" [cls "w-4 h-4"; ("fill", VStr "none"); ("stroke", VStr "currentColor");
                     ("viewBox", VStr "0 0 24 24")]
             [El "path" [("strokeLinecap", VStr "round"); ("strokeLinejoin", VStr "round");
                         ("strokeWidth", VStr "2");
                         ("d", VStr "M4 16v1a2 2 0 002 2h12a2 2 0 002-2v-1m-4-4l-4 4m0 0l-4-4m4 4V4")] []]]]].

(** What the library shows when there is no clip (lines 220-229). *)
Definition empty_library : node :=
  El "div" [cls "h-full flex flex-col items-center justify-center text-center p-8 border-2 border-dashed border-slate-800 rounded-2xl"]
    [El "div" [cls "w-16 h-16 bg-slate-900 rounded-full flex items-center justify-center mb-4"]
       [El "svg" [cls "w-8 h-8 text-slate-600"; ("fill", VStr "none");
                  ("stroke", VStr "currentColor"); ("viewBox", VStr "0 0 24 24")]
          [El "path" [("strokeLinecap", VStr "round"); ("strokeLinejoin", VStr "round");
                      ("strokeWidth", VStr "2");
                      ("d", VStr "M14.752 11.168l-3.197-2.132A1 1 0 0010 9.87v4.263a1 1 0 001.555.832l3.197-2.132a1 1 0 000-1.664z")] [];
           El "path" [("strokeLinecap", VStr "round"); ("strokeLinejoin", VStr "round");
                      ("strokeWidth", VStr "2");
                      ("d", VStr "M21 12a9 9 0 11-18 0 9 9 0 0118 0z")] []]];
     El "h4" [cls "text-slate-400 font-semibold mb-1"] [txt "No audio yet"];
     El "p" [cls "text-sm text-slate-600"]
       [txt "Your generated speech will appear here for playback and download."]].

(** The clips, or the empty library (lines 219-254). *)
Definition library_list s : list node :=
  if decide (length (history s) = 0) then [empty_library]
  else clip_card <$> history s.

(** The library (lines 210-256). *)
Definition library s : node :=
  El "section" [cls "glass rounded-3xl p-6 flex flex-col h-[700px]"]
    [El "div" [cls "flex items-center justify-between mb-6"]
       [El "h3" [cls "text-sm font-semibold uppercase tracking-wider text-slate-400"]
          [txt "Library"];
        El "span" [cls "bg-slate-800 text-slate-400 text-[10px] px-2 py-0.5 rounded-full uppercase font-bold tracking-tighter"]
          [Text (integer_string (Z.of_nat (length (history s)))); txt " Clips"]];
     El "div" [cls "flex-1 overflow-y-auto pr-2 custom-scrollbar space-y-4"]
       (library_list s)].

(** The hint under the library (lines 258-268). *)
Definition pro_tip : node :=
  El "section" [cls "glass rounded-3xl p-6 bg-gradient-to-br from-indigo-500/10 to-purple-500/10"]
    [El "h4" [cls "text-white font-bold mb-2 flex items-center gap-2"]
       [El "svg" [cls "w-5 h-5 text-indigo-400"; ("fill", VStr "currentColor");
                  ("viewBox", VStr "0 0 20 20")]
          [El "path" [("d", VStr "M11 3a1 1 0 10-2 0v1a1 1 0 102 0V3zM15.657 5.757a1 1 0 00-1.414-1.414l-.707.707a1 1 0 001.414 1.414l.707-.707zM18 10a1 1 0 01-1 1h-1a1 1 0 110-2h1a1 1 0 011 1zM5.05 6.464A1 1 0 106.464 5.05l-.707-.707a1 1 0 00-1.414 1.414l.707.707zM5 10a1 1 0 01-1 1H3a1 1 0 110-2h1a1 1 0 011 1zM8 16v-1a1 1 0 112 0v1a1 1 0 11-2 0zM13.536 14.95a1 1 0 011.414 0l.707.707a1 1 0 01-1.414 1.414l-.707-.707a1 1 0 010-1.414zM6.464 14.95a1 1 0 00-1.414 0l-.707.707a1 1 0 001.414 1.414l.707-.707a1 1 0 000-1.414z")] []];
        txt "Pro Tip"];
     El "p" [cls "text-sm text-slate-400 leading-relaxed"]
       [txt "Use ";
        El "span" [cls "text-indigo-300 font-mono"] [txt "Style Instructions"];
        txt (" to get specialized outputs like " +:+ dq
             +:+ "Speak like an excited sports commentator" +:+ dq +:+ " or " +:+ dq
             +:+ "Read this as a soothing bedtime story" +:+ dq +:+ ".")]].

(** The right column (lines 209-269). *)
Definition sidebar s : node :=
  El "div" [cls "lg:col-span-4 space-y-6"] [library s; pro_tip].

(** The style sheet (lines 272-293). *)
Definition style_sheet : node :=
  El "style" []
    [txt "
        .custom-scrollbar::-webkit-scrollbar {
          width: 4px;
        }
        .custom-scrollbar::-webkit-scrollbar-track {
          background: rgba(255, 255, 255, 0.02);
        }
        .custom-scrollbar::-webkit-scrollbar-thumb {
          background: rgba(99, 102, 241, 0.3);
          border-radius: 10px;
        }
        .custom-scrollbar::-webkit-scrollbar-thumb:hover {
          background: rgba(99, 102, 241, 0.5);
        }
        .audio-mini::-webkit-media-controls-panel {
          background-color: #1e293b;
        }
        .audio-mini::-webkit-media-controls-current-time-display,
        .audio-mini::-webkit-media-controls-time-remaining-display {
          color: #94a3b8;
        }
      "].

(** What the component returns (lines 79-295). *)
Definition render s : node :=
  El "div" [cls "min-h-screen pb-20 selection:bg-indigo-500 selection:text-white"]
    [header;
     El "main" [cls "max-w-7xl mx-auto px-6 grid grid-cols-1 lg:grid-cols-12 gap-8"]
       [left_column s; sidebar s];
     style_sheet].

(** ** [downloadSpeech] *)

(** The name of the file (line 73). *)
Definition download_name speech : jsstring :=
  str "speech-" ++ str (voice_string (gs_voice speech)) ++ str "-"
  ++ toLocaleDateString (gs_timestamp speech) ++ str ".wav".

(** [downloadSpeech] (lines 70-77), on the document [d]. *)
Definition downloadSpeech speech (d : Document) : result Document :=
  let '(a, d) := createElement "a" d in
  let a := mkElement (el_id a) (el_tag a) (gs_audioUrl speech) (el_download a) in
  let a := mkElement (el_id a) (el_tag a) (el_href a) (download_name speech) in
  let d := appendChild a d in
  let d := click a d in
  removeChild a d.

End view.

(** ** What the user can do *)

Section view_theorems.
Context `{locale : Locale}.
Implicit Types (s : AppState) (speech : GeneratedSpeech).

Lemma events_input_section s : events (input_section s) = [ChangeText].
Proof. reflexivity. Qed.

Lemma events_voice_section s :
  events (voice_section s) = ChangeStyle :: (PickVoice <$> (vo_id <$> VOICE_OPTIONS)).
Proof. reflexivity. Qed.

Lemma events_generate_button s :
  events (generate_button s) = if generate_disabled s then [] else [Generate].
Proof.
  unfold generate_button, generate_label. cbn [events flat_map is_disabled attr_of String.eqb
    Ascii.eqb Bool.eqb handlers_of omap snd app].
  destruct (generate_disabled s); [done|]. by case_decide.
Qed.

Lemma events_status_panel s : flat_map events (status_panel s) = [].
Proof. unfold status_panel. repeat case_decide; reflexivity. Qed.

Lemma events_clip_card speech : events (clip_card speech) = [Download speech].
Proof. reflexivity. Qed.

Lemma events_library s : events (library s) = Download <$> history s.
Proof.
  transitivity (flat_map events (library_list s) ++ []); [reflexivity|].
  rewrite app_nil_r. unfold library_list. case_decide as Hl.
  - by destruct (history s).
  - rewrite flat_map_fmap. apply flat_map_singleton.
Qed.

Lemma render_events_eq s :
  events (render s)
  = [ChangeText; ChangeStyle] ++ (PickVoice <$> (vo_id <$> VOICE_OPTIONS))
    ++ (if generate_disabled s then [] else [Generate]) ++ (Download <$> history s).
Proof.
  unfold render, left_column, sidebar.
  cbn [events flat_map is_disabled attr_of String.eqb Ascii.eqb Bool.eqb app].
  rewrite events_input_section, events_voice_section, events_generate_button,
    events_status_panel, events_library.
  change (events header) with (@nil handler). change (events pro_tip) with (@nil handler).
  change (events style_sheet) with (@nil handler).
  cbn [handlers_of omap list_omap snd app]. by rewrite !app_nil_r, <- !app_assoc.
Qed.

End view_theorems.

(** ** Well-formed trees *)

Section view_wf.
Context `{locale : Locale}.
Implicit Types (s : AppState) (speech : GeneratedSpeech).

Lemma node_wf_clip_card speech : node_wf (clip_card speech) = true.
Proof. reflexivity. Qed.

Lemma key_of_clip_card speech : key_of (clip_card speech) = Some (str (gs_id speech)).
Proof. reflexivity. Qed.

Lemma node_wf_left_column s : node_wf (left_column s) = true.
Proof.
  unfold left_column, status_panel, generate_button, generate_label.
  repeat case_decide; reflexivity.
Qed.

Lemma node_wf_library_list s :
  NoDup (gs_id <$> history s) ->
  NoDup (child_keys (library_list s)) /\ forallb node_wf (library_list s) = true.
Proof.
  intros Hnd. unfold library_list. case_decide as Hl; [split; [constructor|reflexivity]|].
  split; [|apply forallb_fmap; intros; apply node_wf_clip_card].
  rewrite (child_keys_fmap _ (fun a => str (gs_id a))) by apply key_of_clip_card.
  rewrite (list_fmap_compose gs_id str). by apply (NoDup_fmap_2 str).
Qed.

Lemma node_wf_library s : NoDup (gs_id <$> history s) -> node_wf (library s) = true.
Proof.
  intros [Hk Hwf]%node_wf_library_list. unfold library.
  apply node_wf_El; [done|constructor|]. cbn [forallb].
  apply andb_true_iff. split; [reflexivity|]. rewrite andb_true_r. by apply node_wf_El.
Qed.

Lemma render_wf s : NoDup (gs_id <$> history s) -> node_wf (render s) = true.
Proof.
  intros Hnd. unfold render, sidebar.
  cbn [node_wf element_ok children_of attr attr_of String.eqb Ascii.eqb Bool.eqb forallb].
  rewrite node_wf_left_column, node_wf_library by done.
  change (node_wf header) with true. change (node_wf pro_tip) with true.
  change (node_wf style_sheet) with true. reflexivity.
Qed.

End view_wf.

(** ** [downloadSpeech] on the document *)

Section download.
Context `{locale : Locale}.
Implicit Types (speech : GeneratedSpeech) (d : Document).

(** The anchor [downloadSpeech] creates in the document [d]. *)
Definition download_anchor speech d : Element :=
  mkElement (doc_next d) "a" (gs_audioUrl speech) (download_name speech).

Lemma downloadSpeech_ok speech d :
  doc_wf d ->
  downloadSpeech speech d
  = Ok (mkDocument (S (doc_next d)) (doc_body d)
          (doc_clicks d ++ [mkClick (download_anchor speech d) true])).
Proof.
  intros Hwf. unfold downloadSpeech, createElement, appendChild, click, removeChild.
  cbn [el_id el_tag el_href el_download doc_next doc_body doc_clicks].
  fold (download_anchor speech d).
  rewrite (filter_fresh (download_anchor speech d)) by done.
  rewrite !is_child_last. cbn [doc_next doc_body doc_clicks].
  by rewrite (filter_last_fresh (download_anchor speech d)).
Qed.

Lemma downloadSpeech_wf speech d d' :
  doc_wf d -> downloadSpeech speech d = Ok d' -> doc_wf d'.
Proof.
  intros Hwf. rewrite downloadSpeech_ok by done. intros [= <-].
  unfold doc_wf in *. cbn. eapply list.Forall_impl; [exact Hwf|]. intros c Hc. simpl in Hc. lia.
Qed.

End download.

(** ** The properties of the view *)

Section view_claims.
Context `{locale : Locale}.

(** C32. The events the page offers in the state [s] are, in document
    order: typing in the text area and in the style field, one click per
    voice of [VOICE_OPTIONS], the click on the button unless it is disabled
    (a run in progress, a blank text or more than [MAX_WORDS] words), and
    one download per clip of the history.  Nothing else of the tree has a
    handler. *)
Theorem render_events (s : AppState) :
  events (render s)
  = [ChangeText; ChangeStyle] ++ (PickVoice <$> [ZEPHYR; KORE; PUCK; CHARON; FENRIR])
    ++ (if bool_decide (status (ttsState s) = processing)
           || bool_decide (trim (text s) = []) || isTooLong (text s)
        then [] else [Generate])
    ++ (Download <$> history s).
Proof. apply render_events_eq. Qed.

(** C33. [downloadSpeech] leaves the children of [document.body] as they
    were and makes one click, on an anchor that is in the document at that
    moment, whose [href] is the URL of the clip and whose [download] is
    [speech-], the voice, [-], the date of the clip in the locale of the
    browser and [.wav]; it does not throw. *)
Theorem downloadSpeech_spec (speech : GeneratedSpeech) (d : Document) :
  doc_wf d ->
  exists a d',
    downloadSpeech speech d = Ok d'
    /\ doc_body d' = doc_body d
    /\ doc_clicks d' = doc_clicks d ++ [mkClick a true]
    /\ el_tag a = "a"%string /\ el_href a = gs_audioUrl speech
    /\ el_download a = str "speech-" ++ str (voice_string (gs_voice speech)) ++ str "-"
                       ++ toLocaleDateString (gs_timestamp speech) ++ str ".wav"
    /\ doc_wf d'.
Proof.
  intros Hwf. exists (download_anchor speech d). eexists.
  split; [by apply downloadSpeech_ok|]. repeat split.
  eapply downloadSpeech_wf; [exact Hwf|by apply downloadSpeech_ok].
Qed.

End view_claims.

(** ** Witnesses *)

(** A browser in the locale en-US, for a clip made on 8 November 2026. *)
Definition scenario_locale : Locale :=
  {| toLocaleDateString _ := str "11/8/2026"; toLocaleTimeString _ := str "1:53:42 PM" |}.

Definition scenario_clip : GeneratedSpeech :=
  mkGeneratedSpeech "clip-1" (str "hello world") ZEPHYR 1794146022000 None
    (mkBlob [] "audio/wav") "blob:clip-1".

Definition scenario_document : Document :=
  mkDocument 1 [mkElement 0 "div" EmptyString []] [].

(** What the counter shows for two words. *)
Example scenario_counter :
  text_content (word_counter (setText initial_state (str "hello world")))
  = str "2 / 10000 words".
Proof. vm_compute. reflexivity. Qed.

(** The name of the file has the separators of the date in it. *)
Example scenario_download_name :
  download_name (locale := scenario_locale) scenario_clip = str "speech-Zephyr-11/8/2026.wav".
Proof. reflexivity. Qed.

Lemma downloadSpeech_spec_witness :
  exists a d',
    downloadSpeech (locale := scenario_locale) scenario_clip scenario_document = Ok d'
    /\ doc_body d' = doc_body scenario_document
    /\ doc_clicks d' = doc_clicks scenario_document ++ [mkClick a true]
    /\ el_tag a = "a"%string /\ el_href a = gs_audioUrl scenario_clip
    /\ el_download a = str "speech-" ++ str (voice_string (gs_voice scenario_clip)) ++ str "-"
                       ++ toLocaleDateString (Locale := scenario_locale) (gs_timestamp scenario_clip)
                       ++ str ".wav"
    /\ doc_wf d'.
Proof.
  apply (downloadSpeech_spec (locale := scenario_locale) scenario_clip scenario_document).
  repeat constructor.
Defined.
