(* ===== verification/Session.v ===== *)
(** * Session: the page over a sequence of user inputs

    The view decides what the user can do, the handlers decide what it
    does to the state.  A [Page] is the state of the component, the
    document and the number of timers that have not fired; an [input] is
    something the user or the browser does; [possible] reads from the tree
    of [render] whether the input can happen, and [react] runs the handler
    the tree names for it.  A run of [handleGenerate] is one input here;
    the updates of the status inside a run, and how they interleave with
    clicks and timers, are the relation [ui_step] of [App], and the run
    cut at its [await] is the machine of [Async].

    The theorems are those of a type system: every reachable page renders
    a well-formed tree (preservation), and no possible input makes a
    handler throw or run forever (progress).  Together with the view they
    show that the two guards of [handleGenerate] never fire once the
    component is mounted. *)

From Stdlib Require Import ZArith Lia Floats.SpecFloat.
From stdpp Require Import base tactics list option numbers strings.
From S2P Require Import Prelude JsNumber JsString Bytes Types AudioBuffer.
From S2P Require Import Chunker Trace TtsService App Dom View.

Record Page : Type := mkPage {
  page_state : AppState;
  page_doc : Document;
  page_timers : nat;
}.

(** What happens to a page: the user types in the text area or in the
    style field, picks a voice, clicks the button (the browser then
    supplies [env], and [t] is the log of the service so far), downloads a
    clip, or a timer set by a success fires. *)
Inductive input : Type :=
| Typed (v : jsstring)
| Styled (v : jsstring)
| Picked (v : VoiceName)
| Clicked (env : Env) (t : list event)
| Saved (speech : GeneratedSpeech)
| Expired.

Section session.
Context `{limits : AudioLimits} `{svc : SpeechService} `{locale : Locale}.
Implicit Types (p : Page) (i : input) (s : AppState) (d : Document).

(** The handler an input calls; the timer calls none of the tree. *)
Definition handler_of i : option handler :=
  match i with
  | Typed _ => Some ChangeText
  | Styled _ => Some ChangeStyle
  | Picked v => Some (PickVoice v)
  | Clicked _ _ => Some Generate
  | Saved speech => Some (Download speech)
  | Expired => None
  end.

(** An input is possible when the tree offers its handler; the identifier
    [crypto.randomUUID()] returns is new, and a timer fires only if one is
    pending. *)
Definition possible p i : Prop :=
  match handler_of i with
  | Some h => h ∈ events (render (page_state p))
  | None => 0 < page_timers p
  end
  /\ match i with
     | Clicked env _ => env_uuid env ∉ gs_id <$> history (page_state p)
     | _ => True
     end.

(** The page after an input; [None] when the handler throws or does not
    return. *)
Definition react p i : option Page :=
  let s := page_state p in
  match i with
  | Typed v => Some (mkPage (setText s v) (page_doc p) (page_timers p))
  | Styled v => Some (mkPage (setStyleInstruction s v) (page_doc p) (page_timers p))
  | Picked v => Some (mkPage (setSelectedVoice s v) (page_doc p) (page_timers p))
  | Clicked env t =>
      o ← handleGenerate s env t;
      Some (mkPage (out_state o) (page_doc p)
              (if decide (status (ttsState (out_state o)) = success)
               then S (page_timers p) else page_timers p))
  | Saved speech =>
      match downloadSpeech speech (page_doc p) with
      | Ok d' => Some (mkPage s d' (page_timers p))
      | Throw _ => None
      end
  | Expired => Some (mkPage (clear_after_success s) (page_doc p) (page_timers p - 1))
  end.

(** The pages of a session that starts with the document [d0], once the
    effect of line 21 has run. *)
Inductive session (d0 : Document) : Page -> Prop :=
| session_start : doc_wf d0 -> session d0 (mkPage (mount initial_state) d0 0)
| session_next p i p' : session d0 p -> possible p i -> react p i = Some p' -> session d0 p'.

(** What every page of a session satisfies. *)
Record page_ok (d0 : Document) (p : Page) : Prop := mkPageOk {
  ok_mounted : ttsServiceRef (page_state p) = true;
  ok_ids : NoDup (gs_id <$> history (page_state p));
  ok_doc : doc_wf (page_doc p);
  ok_body : doc_body (page_doc p) = doc_body d0;
  ok_status : status (ttsState (page_state p)) <> processing;
}.

(** ** The button and the guards *)

Lemma generate_enabled_iff s :
  Generate ∈ events (render s) <-> generate_disabled s = false.
Proof.
  rewrite render_events_eq. rewrite !elem_of_app, !list_elem_of_fmap.
  destruct (generate_disabled s); split; try done.
  - intros [H|[H|[H|H]]].
    + apply elem_of_cons in H as [|H%list_elem_of_singleton]; done.
    + by destruct H as (? & ? & _).
    + by apply elem_of_nil in H.
    + by destruct H as (? & ? & _).
  - intros _. right. right. left. constructor.
Qed.

Lemma generate_disabled_false s :
  generate_disabled s = false ->
  status (ttsState s) <> processing /\ trim (text s) <> [] /\ isTooLong (text s) = false.
Proof.
  unfold generate_disabled. intros H.
  apply orb_false_elim in H as [H Hl]. apply orb_false_elim in H as [Hp Ht].
  apply bool_decide_eq_false_1 in Hp. apply bool_decide_eq_false_1 in Ht. done.
Qed.

Lemma enabled_accepted s :
  ttsServiceRef s = true -> Generate ∈ events (render s) ->
  ~ guarded s /\ isTooLong (text s) = false.
Proof.
  intros Hm (_ & Ht & Hl)%generate_enabled_iff%generate_disabled_false.
  split; [|done]. intros [?|Hr]; [done|]. by rewrite Hm in Hr.
Qed.

(** ** Preservation *)

Lemma handleGenerate_page s env t o :
  ttsServiceRef s = true -> NoDup (gs_id <$> history s) ->
  env_uuid env ∉ gs_id <$> history s ->
  handleGenerate s env t = Some o ->
  ttsServiceRef (out_state o) = true
  /\ NoDup (gs_id <$> history (out_state o))
  /\ (guarded s \/ status (ttsState (out_state o)) <> processing).
Proof.
  intros Hm Hnd Hfresh. destruct (handleGenerate_cases s env t) as (m & _ & ->).
  case_decide as Hg; [intros [= <-]; auto|].
  destruct (isTooLong (text s)); [intros [= <-]; cbn; auto|]. cbn zeta.
  destruct (run m t).2 as [[blob buffer]|e]; intros [= <-]; cbn; (split; [done|]).
  - split; [|by right]. by constructor.
  - split; [done|by right].
Qed.

Lemma react_ok d0 p i p' : page_ok d0 p -> possible p i -> react p i = Some p' -> page_ok d0 p'.
Proof.
  intros [Hm Hnd Hd Hb Hst] [Hen Hfresh]. destruct i as [v|v|v|env t|speech|];
    unfold react; cbn [handler_of page_state page_doc page_timers] in *.
  - by intros [= <-].
  - by intros [= <-].
  - by intros [= <-].
  - destruct (handleGenerate (page_state p) env t) as [o|] eqn:Ho; [|done]. intros [= <-].
    destruct (handleGenerate_page _ _ _ _ Hm Hnd Hfresh Ho) as (? & ? & Hs).
    destruct (enabled_accepted _ Hm Hen) as [Hg _].
    split; cbn; try done. by destruct Hs.
  - rewrite downloadSpeech_ok by done. intros [= <-].
    split; cbn; try done. by eapply downloadSpeech_wf, downloadSpeech_ok.
  - by intros [= <-].
Qed.

Lemma session_ok d0 p : session d0 p -> page_ok d0 p.
Proof.
  induction 1 as [Hd|p i p' _ IH Hp Hr]; [|by eapply react_ok].
  split; cbn; try done. constructor.
Qed.

(** ** Progress *)

Lemma react_possible d0 p i : page_ok d0 p -> possible p i -> is_Some (react p i).
Proof.
  intros [Hm Hnd Hd Hb Hst] [Hen Hfresh]. destruct i as [v|v|v|env t|speech|];
    unfold react; cbn [handler_of page_state page_doc page_timers] in *; try done.
  - destruct (handleGenerate_cases (page_state p) env t) as (m & _ & ->).
    case_decide; [done|]. destruct (isTooLong _); [done|].
    by destruct (run m t).2 as [[blob buffer]|e].
  - by rewrite downloadSpeech_ok.
Qed.

(** ** The properties of a session *)

(** C20. Preservation: every page of a session renders a well-formed tree
    (the keys of the clips differ, every field that shows a value of the
    state has its handler), the identifiers of the clips differ, the
    service is mounted, no run is left in progress, and the children of
    [document.body] are those the session started with. *)
Theorem session_preservation (d0 : Document) p :
  session d0 p ->
  node_wf (render (page_state p)) = true
  /\ NoDup (gs_id <$> history (page_state p))
  /\ ttsServiceRef (page_state p) = true
  /\ status (ttsState (page_state p)) <> processing
  /\ doc_wf (page_doc p) /\ doc_body (page_doc p) = doc_body d0.
Proof. intros [Hm Hnd Hd Hb Hst]%session_ok. split; [by apply render_wf|done]. Qed.

(** C21. Progress: in a session no input that the page offers makes a
    handler throw or run forever; [downloadSpeech] always finds its anchor
    in the document and [handleGenerate] returns. *)
Theorem session_progress (d0 : Document) p i :
  session d0 p -> possible p i -> exists p', react p i = Some p' /\ session d0 p'.
Proof.
  intros Hs Hp. destruct (react_possible d0 p i) as [p' Hr]; [by apply session_ok|done|].
  exists p'. split; [done|]. by eapply session_next.
Qed.

(** C16. Whenever the page lets the user click the button, [handleGenerate]
    goes to the speech service: it shows the status [processing] first, and
    neither of its two guards (lines 28 to 32) fires.  The message that
    the text is too long is never the result of a click. *)
Theorem session_click_accepted (d0 : Document) p env t :
  session d0 p -> possible p (Clicked env t) ->
  ~ guarded (page_state p) /\ isTooLong (text (page_state p)) = false
  /\ exists o, handleGenerate (page_state p) env t = Some o
          /\ head (out_shown o)
             = Some (mkTTSState processing (num_of_Z 0) (str "Initializing voice synthesizer...")).
Proof.
  intros [Hm _ _ _ _]%session_ok [Hen _].
  destruct (enabled_accepted _ Hm Hen) as [Hg Hl]. split; [done|]. split; [done|].
  destruct (handleGenerate_cases (page_state p) env t) as (m & _ & ->).
  rewrite decide_False, Hl by done. cbn zeta.
  destruct (run m t).2 as [[blob buffer]|e]; eexists; (split; [done|]); cbn [out_shown];
    by rewrite head_app, shown_from_head.
Qed.

End session.

(** ** Witnesses *)

(** A session: the user types two words and clicks the button. *)
Definition page0 : Page := mkPage (mount initial_state) scenario_document 0.

Definition page1 : Page := mkPage (setText (mount initial_state) (str "hello world")) scenario_document 0.

Definition page2 : Page :=
  default page1
    (react (limits := spec_limits) (svc := scenario_service) (locale := scenario_locale)
       page1 (Clicked scenario_env [])).

(** The clip the click has made. *)
Definition page2_clip : GeneratedSpeech := default scenario_clip (head (history (page_state page2))).

Lemma session_page1 :
  session (limits := spec_limits) (svc := scenario_service) (locale := scenario_locale)
    scenario_document page1.
Proof.
  apply (session_next _ page0 (Typed (str "hello world"))).
  - apply session_start. repeat constructor.
  - split; [|done]. cbn [handler_of]. rewrite render_events_eq. constructor.
  - reflexivity.
Qed.

Lemma possible_page1 :
  possible (locale := scenario_locale) page1 (Clicked scenario_env []).
Proof.
  split.
  - apply generate_enabled_iff. vm_compute. reflexivity.
  - cbn. apply not_elem_of_nil.
Qed.

Lemma session_page2 :
  session (limits := spec_limits) (svc := scenario_service) (locale := scenario_locale)
    scenario_document page2.
Proof.
  apply (session_next _ page1 (Clicked scenario_env [])).
  - apply session_page1.
  - apply possible_page1.
  - vm_compute. reflexivity.
Qed.

Lemma session_preservation_witness :
  node_wf (render (locale := scenario_locale) (page_state page2)) = true
  /\ NoDup (gs_id <$> history (page_state page2))
  /\ ttsServiceRef (page_state page2) = true
  /\ status (ttsState (page_state page2)) <> processing
  /\ doc_wf (page_doc page2) /\ doc_body (page_doc page2) = doc_body scenario_document.
Proof.
  apply (session_preservation (limits := spec_limits) (svc := scenario_service)
           (locale := scenario_locale) scenario_document page2).
  apply session_page2.
Defined.

Lemma session_progress_witness :
  exists p', react (limits := spec_limits) (svc := scenario_service) (locale := scenario_locale)
               page2 (Saved page2_clip) = Some p'
        /\ session (limits := spec_limits) (svc := scenario_service) (locale := scenario_locale)
             scenario_document p'.
Proof.
  apply (session_progress (limits := spec_limits) (svc := scenario_service)
           (locale := scenario_locale) scenario_document page2 (Saved page2_clip)).
  - apply session_page2.
  - split; [|done]. cbn [handler_of]. rewrite render_events_eq.
    rewrite !elem_of_app. do 3 right. vm_compute. constructor.
Defined.

Lemma session_click_accepted_witness :
  ~ guarded (page_state page1) /\ isTooLong (text (page_state page1)) = false
  /\ exists o, handleGenerate (limits := spec_limits) (svc := scenario_service)
               (page_state page1) scenario_env [] = Some o
          /\ head (out_shown o)
             = Some (mkTTSState processing (num_of_Z 0) (str "Initializing voice synthesizer...")).
Proof.
  apply (session_click_accepted (limits := spec_limits) (svc := scenario_service)
           (locale := scenario_locale) scenario_document page1 scenario_env []).
  - apply session_page1.
  - apply possible_page1.
Defined.
