(* ===== verification/Async.v ===== *)
(** * Async: runs of [handleGenerate] interleaved with the user

    [handleGenerate] is an [async] function: it runs until the [await] of
    line 45 and gives the control back, and goes on when the service has
    answered, until the next [await] or its end.  Between two such pieces
    the user can type, pick a voice or click again, a timer can fire, and
    another run can go on.  This file makes the pieces the steps of a
    machine on the state of the component, the log of the service, the
    runs that are suspended and the timers.  A suspended run holds what
    its closure has captured: the state of the render in which the button
    was clicked, the chunks, the index of the loop and the buffers
    collected.  Every update goes through the setter of its own piece of
    state, as [setTtsState] and [setHistory] do.

    The theorems relate this machine to the two coarser views of the
    page: its statuses are paths of [ui_step] of [App], and a run that
    nothing interrupts ends as [handleGenerate] of [App] says.  They show
    what the closure is for: a clip is made from the text and the voice of
    the click, whatever the user has done since. *)

From Stdlib Require Import ZArith Lia Floats.SpecFloat.
From stdpp Require Import base tactics list option numbers strings.
From S2P Require Import Prelude JsNumber JsString Bytes Types AudioBuffer.
From S2P Require Import Merge Wav Chunker Trace TtsService Orchestrator App Liveness Dom View.
From S2P Require Import Session.

(** ** The machine *)

(** A run of [handleGenerate] at the [await] of line 45. *)
Record Suspended : Type := mkSuspended {
  run_closure : AppState;            (* the state of the render of the click *)
  run_chunks : list jsstring;        (* [chunks] *)
  run_index : nat;                   (* [i], the chunk that is awaited *)
  run_buffers : list AudioBuffer;    (* [audioBuffers] *)
  run_call : nat;                    (* the calls made before the one awaited *)
}.

Record Async : Type := mkAsync {
  a_state : AppState;
  a_log : list event;
  a_runs : list Suspended;
  a_timers : nat;
}.

(** What happens: the user types in one of the two fields, picks a voice
    or clicks the button, the service answers the run [j], or a timer
    fires.  The browser supplies [env] to what may end a run. *)
Inductive action : Type :=
| TypeText (v : jsstring)
| TypeStyle (v : jsstring)
| Pick (v : VoiceName)
| ClickGenerate (env : Env)
| Answer (j : nat) (env : Env)
| Fire.

(** [setTtsState(prev => f(prev))] and [setHistory(prev => [c, ...prev])]. *)
Definition update_tts (s : AppState) (f : TTSState -> TTSState) : AppState :=
  set_ttsState s (f (ttsState s)).

Definition add_history (s : AppState) (c : GeneratedSpeech) : AppState :=
  mkAppState (text s) (selectedVoice s) (styleInstruction s) (c :: history s)
    (ttsState s) (ttsServiceRef s).

Definition with_state (a : Async) (s : AppState) : Async :=
  mkAsync s (a_log a) (a_runs a) (a_timers a).

Definition with_log (a : Async) (evs : list event) : Async :=
  mkAsync (a_state a) (a_log a ++ evs) (a_runs a) (a_timers a).

(** The status of the [catch] block (lines 62-66). *)
Definition error_state (env : Env) (e : exn) : TTSState :=
  mkTTSState error (num_of_Z 0)
    match err_message env e with
    | [] => str "Failed to generate speech. Please check your API key and connection."
    | c :: m => c :: m
    end.

Definition success_state : TTSState :=
  mkTTSState success (num_of_Z 100) (str "Speech generated successfully!").

Definition processing_state : TTSState :=
  mkTTSState processing (num_of_Z 0) (str "Initializing voice synthesizer...").

(** The [catch] block of [handleGenerate] (lines 60-67). *)
Definition fail (a : Async) (env : Env) (e : exn) : Async :=
  with_state (with_log a [AppError e]) (set_ttsState (a_state a) (error_state env e)).

(** Lines 44-59: the clip is made from the closure, the history and the
    status are updated, and the timer is set. *)
Definition succeed (a : Async) (closure : AppState) (env : Env) (blob : Blob)
    (buffer : AudioBuffer) : Async :=
  mkAsync (set_ttsState (add_history (a_state a) (new_speech closure env blob buffer))
             success_state)
    (a_log a) (a_runs a) (S (a_timers a)).

Section async.
Context `{limits : AudioLimits} `{svc : SpeechService}.

(** [generateSpeech] from the head of turn [i] of its loop to the next
    [await], where the run is suspended, or to its end, where
    [handleGenerate] goes on to its own end. *)
Definition proceed (a : Async) (closure : AppState) (env : Env) (chunks : list jsstring)
    (i : nat) (buffers : list AudioBuffer) : Async :=
  match chunks !! i with
  | Some chunk =>
      let p := progress_of i (length chunks) in
      mkAsync (update_tts (a_state a) (fun prev => on_progress prev p))
        (a_log a ++ turn (selectedVoice closure) (styleInstruction closure)
                      (Some progress_callback) i (length chunks) chunk)
        (a_runs a ++ [mkSuspended closure chunks i buffers (length (calls (a_log a)))])
        (a_timers a)
  | None =>
      let a1 := with_state (with_log a [Progress (num_of_Z 100)])
                  (update_tts (a_state a) (fun prev => on_progress prev (num_of_Z 100))) in
      match (mergedBuffer ← mergeAudioBuffers buffers;
             wavBlob ← audioBufferToWav mergedBuffer;
             mret (wavBlob, mergedBuffer)) with
      | Ok (blob, buffer) => succeed a1 closure env blob buffer
      | Throw e => fail a1 env e
      end
  end.

(** The start of a run: [handleGenerate] from its first line to the first
    [await]. *)
Definition start (a : Async) (env : Env) : option Async :=
  let s := a_state a in
  if decide (guarded s) then Some a
  else if isTooLong (text s) then
    Some (with_state a
            (set_ttsState s
               (mkTTSState error (num_of_Z 0)
                  (str "Text is too long (Max " ++ integer_string MAX_WORDS
                   ++ str " words)."))))
  else
    chunks ← chunkText (text s) DEFAULT_MAX_WORDS;
    Some (proceed (with_state a (set_ttsState s processing_state)) s env chunks 0 []).

(** The answer to the run [j]: the rest of the [try] block, then the next
    turn of the loop or the [catch] blocks of lines 66-69 and of
    [handleGenerate]. *)
Definition answer (a : Async) (j : nat) (env : Env) : option Async :=
  r ← a_runs a !! j;
  let s := run_closure r in
  let a0 := mkAsync (a_state a) (a_log a) (delete j (a_runs a)) (a_timers a) in
  let chunk := default (str "undefined") (run_chunks r !! run_index r) in
  Some match chunk_outcome (selectedVoice s) (styleInstruction s) (run_call r) chunk with
       | Ok b => proceed a0 s env (run_chunks r) (S (run_index r)) (run_buffers r ++ [b])
       | Throw e => fail (with_log a0 [ConsoleError (run_index r) e]) env e
       end.

(** One step of the page.  The button must be enabled for a click, and a
    timer pending for it to fire. *)
Definition async_next (a : Async) (l : action) : option Async :=
  match l with
  | TypeText v => Some (with_state a (setText (a_state a) v))
  | TypeStyle v => Some (with_state a (setStyleInstruction (a_state a) v))
  | Pick v => Some (with_state a (setSelectedVoice (a_state a) v))
  | ClickGenerate env => if generate_disabled (a_state a) then None else start a env
  | Answer j env => answer a j env
  | Fire =>
      if decide (0 < a_timers a)
      then Some (mkAsync (clear_after_success (a_state a)) (a_log a) (a_runs a)
                   (a_timers a - 1))
      else None
  end.

(** A sequence of steps. *)
Fixpoint async_run (a : Async) (ls : list action) : option Async :=
  match ls with
  | [] => Some a
  | l :: ls' => a' ← async_next a l; async_run a' ls'
  end.

End async.

(** The page when the effect of line 21 has run. *)
Definition async_initial : Async := mkAsync (mount initial_state) [] [] 0.

(** The view of [App]: the status, the runs in flight, the timers. *)
Definition ui_of (a : Async) : Ui := mkUi (ttsState (a_state a)) (length (a_runs a)) (a_timers a).

(** Unfolds the setters on a page. *)
Ltac simpl_async :=
  unfold succeed, fail, with_state, with_log, update_tts, add_history, set_ttsState,
    success_state, error_state;
  cbn [a_state a_log a_runs a_timers text selectedVoice styleInstruction history ttsState
       ttsServiceRef out_state out_log status].

(** ** The statuses are paths of [ui_step] *)

Section projection.
Context `{limits : AudioLimits} `{svc : SpeechService}.
Implicit Types (a : Async) (env : Env) (s : AppState).

(** A piece of a run, seen from a page on which the run counts as in
    flight, is a progress call, followed by the end of the run when the
    loop is over. *)
Lemma ui_proceed a closure env chunks i buffers :
  exists ls,
    ui_steps (mkUi (ttsState (a_state a)) (S (length (a_runs a))) (a_timers a)) ls
      (ui_of (proceed a closure env chunks i buffers)).
Proof.
  unfold proceed. destruct (chunks !! i) as [chunk|].
  - exists [ProgressCb (progress_of i (length chunks))].
    eapply steps_cons; [apply step_progress; simpl; lia|].
    unfold ui_of. cbn. rewrite length_app, Nat.add_1_r. apply steps_nil.
  - destruct (_ ≫= _) as [[blob buffer]|e].
    + exists [ProgressCb (num_of_Z 100); Success].
      eapply steps_cons; [apply step_progress; simpl; lia|].
      eapply steps_cons; [apply step_success; simpl; lia|].
      unfold ui_of. cbn. rewrite Nat.sub_0_r. apply steps_nil.
    + exists [ProgressCb (num_of_Z 100); Failure (message (error_state env e))].
      eapply steps_cons; [apply step_progress; simpl; lia|].
      eapply steps_cons; [apply step_failure; simpl; lia|].
      unfold ui_of. cbn. rewrite Nat.sub_0_r. apply steps_nil.
Qed.

Lemma ui_click a env a' :
  generate_disabled (a_state a) = false -> start a env = Some a' ->
  exists ls, ui_steps (ui_of a) ls (ui_of a').
Proof.
  intros Hd Hc. unfold start in Hc.
  apply orb_false_elim in Hd as [[Hp _]%orb_false_elim Hl]. rewrite Hl in Hc.
  case_decide; [injection Hc as <-; exists []; apply steps_nil|].
  destruct (chunkText _ _) as [chunks|]; [|done]. injection Hc as <-.
  destruct (ui_proceed (with_state a (set_ttsState (a_state a) processing_state))
              (a_state a) env chunks 0 []) as [ls Hls].
  exists (App.Click :: ls). eapply steps_cons; [apply step_click|exact Hls].
  apply bool_decide_eq_true_2. by apply bool_decide_eq_false_1 in Hp.
Qed.

Lemma ui_answer a j env a' :
  answer a j env = Some a' -> exists ls, ui_steps (ui_of a) ls (ui_of a').
Proof.
  unfold answer. destruct (a_runs a !! j) as [r|] eqn:Hr; [|done]. intros [= <-].
  pose proof (lookup_lt_Some _ _ _ Hr) as Hj.
  assert (S (length (delete j (a_runs a))) = length (a_runs a)) as Hlen
    by (rewrite length_delete by done; lia).
  destruct (chunk_outcome _ _ _ _) as [b|e].
  - destruct (ui_proceed (mkAsync (a_state a) (a_log a) (delete j (a_runs a)) (a_timers a))
                (run_closure r) env (run_chunks r) (S (run_index r)) (run_buffers r ++ [b]))
      as [ls Hls].
    exists ls. cbn [a_state a_runs a_timers] in Hls. by rewrite Hlen in Hls.
  - exists [Failure (message (error_state env e))].
    eapply steps_cons; [apply step_failure; simpl; lia|].
    unfold ui_of. cbn. rewrite <- Hlen. cbn. rewrite Nat.sub_0_r. apply steps_nil.
Qed.

Lemma ui_next a l a' : async_next a l = Some a' -> exists ls, ui_steps (ui_of a) ls (ui_of a').
Proof.
  destruct l as [v|v|v|env|j env|]; cbn [async_next].
  - intros [= <-]. exists []. apply steps_nil.
  - intros [= <-]. exists []. apply steps_nil.
  - intros [= <-]. exists []. apply steps_nil.
  - destruct (generate_disabled (a_state a)) eqn:Hd; [done|]. by apply ui_click.
  - apply ui_answer.
  - case_decide; [|done]. intros [= <-]. exists [Timer].
    eapply steps_cons; [by apply step_timer|]. apply steps_nil.
Qed.

Lemma ui_run a ls a' : async_run a ls = Some a' -> exists uls, ui_steps (ui_of a) uls (ui_of a').
Proof.
  revert a. induction ls as [|l ls IH]; intros a; cbn [async_run].
  - intros [= <-]. exists []. apply steps_nil.
  - destruct (async_next a l) as [a1|] eqn:H1; [|done]. cbn. intros H2.
    destruct (ui_next a l a1 H1) as [ls1 Hs1]. destruct (IH a1 H2) as [ls2 Hs2].
    exists (ls1 ++ ls2). by eapply ui_steps_app.
Qed.

End projection.

(** ** A run that nothing interrupts *)

Section sequential.
Context `{limits : AudioLimits} `{svc : SpeechService}.
Context (s : AppState) (env : Env) (tm : nat).

(** The end of a run whose loop has ended with [r]. *)
Definition finish (a : Async) (chunks : list jsstring) (r : result (list AudioBuffer))
  : Async :=
  match r with
  | Ok buffers => proceed a s env chunks (length chunks) buffers
  | Throw e => fail a env e
  end.

(** A turn of the loop suspends the run, and the answer to the only run
    of a page resumes it. *)
Lemma proceed_turn st t closure chunks i buffers chunk :
  chunks !! i = Some chunk ->
  proceed (mkAsync st t [] tm) closure env chunks i buffers
  = mkAsync (set_ttsState st (on_progress (ttsState st) (progress_of i (length chunks))))
      (t ++ turn (selectedVoice closure) (styleInstruction closure) (Some progress_callback)
              i (length chunks) chunk)
      [mkSuspended closure chunks i buffers (length (calls t))] tm.
Proof. intros Hc. unfold proceed. by rewrite Hc. Qed.

Lemma answer_single st t r :
  answer (mkAsync st t [r] tm) 0 env
  = Some match chunk_outcome (selectedVoice (run_closure r)) (styleInstruction (run_closure r))
                 (run_call r) (default (str "undefined") (run_chunks r !! run_index r)) with
         | Ok b =>
             proceed (mkAsync st t [] tm) (run_closure r) env (run_chunks r)
               (S (run_index r)) (run_buffers r ++ [b])
         | Throw e => fail (mkAsync st (t ++ [ConsoleError (run_index r) e]) [] tm) env e
         end.
Proof. done. Qed.

(** The answers to a run alone on the page take it through the loop as
    the reference of [TtsService] says. *)
Lemma answers_ref post pre buffers st t evs r :
  chunks_ref (selectedVoice s) (styleInstruction s) (Some progress_callback)
    (length (pre ++ post))
    (length pre) (length (calls t)) post buffers = (evs, r) ->
  exists n st', n <= length post
    /\ async_run
         (proceed (mkAsync (set_ttsState s st) t [] tm) s env (pre ++ post) (length pre) buffers)
         (replicate n (Answer 0 env))
       = Some (finish (mkAsync (set_ttsState s st') (t ++ evs) [] tm) (pre ++ post) r).
Proof.
  revert pre buffers st t evs r.
  induction post as [|chunk post IH]; intros pre buffers st t evs r.
  - intros [= <- <-]. exists 0, st. split; [done|]. by rewrite !app_nil_r.
  - rewrite chunks_ref_cons by done.
    assert ((pre ++ chunk :: post) !! length pre = Some chunk) as Hc by by apply list_lookup_middle.
    rewrite (proceed_turn _ _ _ _ _ _ chunk Hc).
    set (p := progress_of (length pre) (length (pre ++ chunk :: post))).
    fold (turn (selectedVoice s) (styleInstruction s) (Some progress_callback) (length pre)
            (length (pre ++ chunk :: post)) chunk).
    set (evs0 := turn _ _ _ _ _ chunk).
    assert (length (calls (t ++ evs0)) = S (length (calls t))) as Hk
      by apply (length_calls_turn t (Some progress_callback)).
    destruct (chunk_outcome _ _ (length (calls t)) chunk) as [b|e] eqn:Hb.
    + destruct (chunks_ref _ _ _ _ _ _ post _) as [evs' r'] eqn:Hrest. intros [= <- <-].
      specialize (IH (pre ++ [chunk]) (buffers ++ [b]) (on_progress st p) (t ++ evs0) evs' r').
      rewrite <- (app_assoc pre [chunk] post), (length_app pre [chunk]), Nat.add_1_r, Hk in IH.
      cbn [app] in IH. destruct (IH Hrest) as (n & st' & Hn & Hrun). exists (S n), st'.
      split; [simpl; lia|]. cbn [replicate async_run async_next]. rewrite answer_single.
      cbn [run_closure run_chunks run_index run_call run_buffers mbind option_bind].
      rewrite Hc. cbn [default from_option id]. rewrite Hb.
      etrans; [exact Hrun|]. by rewrite <- app_assoc.
    + intros [= <- <-]. exists 1, (on_progress st p). split; [simpl; lia|].
      cbn [replicate async_run async_next]. rewrite answer_single.
      cbn [run_closure run_chunks run_index run_call run_buffers mbind option_bind].
      rewrite Hc. cbn [default from_option id]. rewrite Hb. cbn [finish].
      by rewrite <- !app_assoc.
Qed.

Lemma proceed_end a closure chunks buffers :
  proceed a closure env chunks (length chunks) buffers
  = let a1 := with_state (with_log a [Progress (num_of_Z 100)])
                (update_tts (a_state a) (fun prev => on_progress prev (num_of_Z 100))) in
    match (mergedBuffer ← mergeAudioBuffers buffers;
           wavBlob ← audioBufferToWav mergedBuffer;
           mret (wavBlob, mergedBuffer)) with
    | Ok (blob, buffer) => succeed a1 closure env blob buffer
    | Throw e => fail a1 env e
    end.
Proof. unfold proceed. by rewrite lookup_ge_None_2. Qed.

Lemma async_run_two a l1 l2 a1 a2 :
  async_next a l1 = Some a1 -> async_next a1 l2 = Some a2 -> async_run a [l1; l2] = Some a2.
Proof. intros H1 H2. cbn [async_run]. rewrite H1. cbn. by rewrite H2. Qed.

(** The click on an enabled button of a mounted page. *)
Lemma click_enabled a :
  ttsServiceRef (a_state a) = true -> generate_disabled (a_state a) = false ->
  async_next a (ClickGenerate env)
  = Some (proceed (with_state a (set_ttsState (a_state a) processing_state)) (a_state a) env
            (chunks_of (text (a_state a)) DEFAULT_MAX_WORDS) 0 []).
Proof.
  intros Hm Hd. cbn [async_next]. rewrite Hd. unfold start.
  apply orb_false_elim in Hd as [[_ Ht%bool_decide_eq_false_1]%orb_false_elim Hl].
  rewrite decide_False by (intros [?|Hr]; [done|by rewrite Hm in Hr]).
  by rewrite Hl, chunkText_groups by (unfold DEFAULT_MAX_WORDS; lia).
Qed.

Lemma sequential_run t o :
  ttsServiceRef s = true -> generate_disabled s = false ->
  handleGenerate s env t = Some o ->
  exists n, n <= length (chunks_of (text s) DEFAULT_MAX_WORDS)
    /\ async_run (mkAsync s t [] tm) (ClickGenerate env :: replicate n (Answer 0 env))
       = Some (mkAsync (out_state o) (out_log o) []
                 (if decide (status (ttsState (out_state o)) = success) then S tm else tm)).
Proof.
  intros Hm Hd Ho. destruct (handleGenerate_cases s env t) as (m & Hgen & Hh).
  rewrite Hh in Ho. clear Hh.
  destruct (generateSpeech_ref (selectedVoice s) (styleInstruction s)
              (Some progress_callback) (text s)) as (m' & Hm' & Href).
  rewrite Hgen in Hm'. injection Hm' as <-. rewrite Href in Ho. unfold speech_ref in Ho.
  cbn [async_run]. rewrite (click_enabled (mkAsync s t [] tm) Hm Hd). cbn [mbind option_bind].
  pose proof Hd as [[_ Ht%bool_decide_eq_false_1]%orb_false_elim Hl]%orb_false_elim.
  rewrite decide_False, Hl in Ho by (intros [?|Hr]; [done|by rewrite Hm in Hr]).
  destruct (chunks_ref _ _ _ _ _ _ _ _) as [evs r] eqn:Hc.
  destruct (answers_ref _ [] [] processing_state t evs r Hc) as (n & st' & Hn & Hrun).
  exists n. split; [done|]. etrans; [exact Hrun|]. f_equal.
  destruct r as [bufs|e]; cbn [finish fst snd] in *.
  - rewrite proceed_end. cbn zeta.
    destruct (mergeAudioBuffers bufs ≫= _) as [[blob buffer]|e]; injection Ho as <-;
      simpl_async; [rewrite decide_True by done|rewrite decide_False by done];
      by rewrite <- ?app_assoc.
  - injection Ho as <-. simpl_async. by rewrite decide_False by done.
Qed.

End sequential.

(** ** What holds of every page *)

(** A suspended run holds the chunks of the text of its closure, awaits a
    chunk that exists, has collected one mono buffer per chunk before it,
    and its call is in the log. *)
Definition run_ok (t : list event) (r : Suspended) : Prop :=
  run_chunks r = chunks_of (text (run_closure r)) DEFAULT_MAX_WORDS
  /\ run_index r < length (run_chunks r)
  /\ length (run_buffers r) = run_index r
  /\ Forall mono (run_buffers r)
  /\ run_call r < length (calls t).

Definition async_inv (a : Async) : Prop :=
  ttsServiceRef (a_state a) = true /\ Forall (run_ok (a_log a)) (a_runs a).

Lemma run_ok_log t evs r : run_ok t r -> run_ok (t ++ evs) r.
Proof.
  intros (? & ? & ? & ? & Hk). repeat split; try done. rewrite calls_app, length_app. lia.
Qed.

Lemma runs_ok_log t evs rs : Forall (run_ok t) rs -> Forall (run_ok (t ++ evs)) rs.
Proof. intros H. eapply list.Forall_impl; [exact H|]. intros r. apply run_ok_log. Qed.

Section invariant.
Context `{limits : AudioLimits} `{svc : SpeechService}.
Implicit Types (a : Async) (env : Env) (s : AppState).

(** The end of a loop that has collected mono buffers is a success. *)
Lemma proceed_success a closure env chunks buffers :
  Forall mono buffers ->
  proceed a closure env chunks (length chunks) buffers
  = succeed (with_state (with_log a [Progress (num_of_Z 100)])
               (update_tts (a_state a) (fun prev => on_progress prev (num_of_Z 100))))
      closure env (mkBlob (wav_file (merged buffers)) "audio/wav") (merged buffers).
Proof. intros Hb. by rewrite proceed_end, (merge_encode_total buffers Hb). Qed.

Lemma proceed_inv a closure env chunks i buffers :
  async_inv a ->
  chunks = chunks_of (text closure) DEFAULT_MAX_WORDS -> i <= length chunks ->
  length buffers = i -> Forall mono buffers ->
  async_inv (proceed a closure env chunks i buffers).
Proof.
  intros [Hm Hr] Hc Hi Hl Hb. destruct (chunks !! i) as [chunk|] eqn:Hi'.
  - unfold proceed. rewrite Hi'. split; [done|]. cbn [a_log a_runs].
    apply Forall_app. split; [by apply runs_ok_log|]. constructor; [|done].
    apply lookup_lt_Some in Hi'. repeat split; try done. cbn [run_call].
    unfold turn. rewrite calls_app, length_app. simpl. lia.
  - apply lookup_ge_None_1 in Hi'. assert (i = length chunks) as -> by lia.
    rewrite proceed_success by done. split; [done|]. cbn [succeed a_log a_runs with_log with_state].
    by apply runs_ok_log.
Qed.

Lemma async_inv_next a l a' : async_inv a -> async_next a l = Some a' -> async_inv a'.
Proof.
  intros Hinv. pose proof Hinv as [Hm Hr].
  destruct l as [v|v|v|env|j env|]; cbn [async_next].
  - by intros [= <-].
  - by intros [= <-].
  - by intros [= <-].
  - pose proof (click_enabled env a Hm) as Hc. cbn [async_next] in Hc.
    destruct (generate_disabled (a_state a)); [done|]. rewrite Hc by done. intros [= <-].
    by apply proceed_inv; [|done|lia|done|constructor].
  - unfold answer. destruct (a_runs a !! j) as [r|] eqn:Hj; [|done]. intros [= <-].
    pose proof (Forall_lookup_1 _ _ _ _ Hr Hj) as (Hc & Hi & Hl & Hb & Hk).
    assert (Forall (run_ok (a_log a)) (delete j (a_runs a))) as Hd by by apply Forall_delete.
    destruct (lookup_lt_is_Some_2 _ _ Hi) as [chunk Hchunk]. rewrite Hchunk.
    cbn [default from_option id].
    destruct (chunk_outcome _ _ _ chunk) as [b|e] eqn:Hb'.
    + apply proceed_inv; [done|done|lia|rewrite length_app; simpl; lia|].
      apply Forall_app. split; [done|]. constructor; [|done]. by eapply chunk_outcome_wf.
    + split; [done|]. cbn [fail with_state with_log a_log a_runs].
      rewrite <- app_assoc. by apply runs_ok_log.
  - case_decide; [|done]. by intros [= <-].
Qed.

Lemma async_inv_run a ls a' : async_inv a -> async_run a ls = Some a' -> async_inv a'.
Proof.
  revert a. induction ls as [|l ls IH]; intros a Hinv; cbn [async_run]; [by intros [= <-]|].
  destruct (async_next a l) as [a1|] eqn:H1; [|done]. cbn. apply IH. by eapply async_inv_next.
Qed.

Lemma async_inv_initial : async_inv async_initial.
Proof. split; [done|constructor]. Qed.

End invariant.

(** ** The answer to a run *)

Section answer.
Context `{limits : AudioLimits} `{svc : SpeechService}.
Implicit Types (a : Async) (env : Env) (r : Suspended).

Lemma proceed_some a closure env chunks i buffers chunk :
  chunks !! i = Some chunk ->
  proceed a closure env chunks i buffers
  = mkAsync (update_tts (a_state a) (fun prev => on_progress prev (progress_of i (length chunks))))
      (a_log a ++ turn (selectedVoice closure) (styleInstruction closure)
                    (Some progress_callback) i (length chunks) chunk)
      (a_runs a ++ [mkSuspended closure chunks i buffers (length (calls (a_log a)))])
      (a_timers a).
Proof. intros Hc. unfold proceed. by rewrite Hc. Qed.

(** The page after the answer to the run [r]: the error of a chunk ends
    the run, the answer to the last chunk ends it with a clip made from
    the closure, and any other answer leaves it suspended at the next
    chunk. *)
Definition answered a j env r (chunk : jsstring) : Async :=
  let s := run_closure r in
  let chunks := run_chunks r in
  let i := run_index r in
  match chunk_outcome (selectedVoice s) (styleInstruction s) (run_call r) chunk with
  | Throw e =>
      mkAsync (set_ttsState (a_state a) (error_state env e))
        (a_log a ++ [ConsoleError i e; AppError e]) (delete j (a_runs a)) (a_timers a)
  | Ok b =>
      match chunks !! S i with
      | Some next =>
          mkAsync
            (update_tts (a_state a)
               (fun prev => on_progress prev (progress_of (S i) (length chunks))))
            (a_log a ++ [Progress (progress_of (S i) (length chunks));
                         Call (request_of (selectedVoice s) (styleInstruction s) next)])
            (delete j (a_runs a)
             ++ [mkSuspended s chunks (S i) (run_buffers r ++ [b]) (length (calls (a_log a)))])
            (a_timers a)
      | None =>
          let buffer := merged (run_buffers r ++ [b]) in
          mkAsync
            (set_ttsState
               (add_history (a_state a)
                  (new_speech s env (mkBlob (wav_file buffer) "audio/wav") buffer))
               success_state)
            (a_log a ++ [Progress (num_of_Z 100)]) (delete j (a_runs a)) (S (a_timers a))
      end
  end.

Lemma answer_answered a j env r :
  async_inv a -> a_runs a !! j = Some r ->
  exists chunk, run_chunks r !! run_index r = Some chunk
    /\ answer a j env = Some (answered a j env r chunk).
Proof.
  intros [Hm Hr] Hj. pose proof (Forall_lookup_1 _ _ _ _ Hr Hj) as (Hc & Hi & Hl & Hb & Hk).
  destruct (lookup_lt_is_Some_2 _ _ Hi) as [chunk Hchunk]. exists chunk. split; [done|].
  unfold answer, answered. rewrite Hj. cbn [mbind option_bind]. rewrite Hchunk.
  cbn [default from_option id].
  f_equal. destruct (chunk_outcome _ _ _ chunk) as [b|e] eqn:Hb'.
  - destruct (run_chunks r !! S (run_index r)) as [next|] eqn:Hn.
    + by rewrite (proceed_some _ _ _ _ _ _ next Hn).
    + apply lookup_ge_None_1 in Hn.
      replace (S (run_index r)) with (length (run_chunks r)) by lia.
      rewrite proceed_success; [by simpl_async|].
      apply Forall_app. split; [done|]. constructor; [|done]. by eapply chunk_outcome_wf.
  - simpl_async. by rewrite <- app_assoc.
Qed.

(** A click on a page that shows no run in progress, for a text the page
    accepts: the request for the first chunk is made and the run is
    suspended beside the runs in flight, whatever their number. *)
Lemma click_suspends a env :
  ttsServiceRef (a_state a) = true -> status (ttsState (a_state a)) <> processing ->
  trim (text (a_state a)) <> [] -> isTooLong (text (a_state a)) = false ->
  let s := a_state a in
  let chunks := chunks_of (text s) DEFAULT_MAX_WORDS in
  exists chunk,
    chunks !! 0 = Some chunk
    /\ async_next a (ClickGenerate env)
       = Some (mkAsync
                 (set_ttsState s (on_progress processing_state (progress_of 0 (length chunks))))
                 (a_log a ++ [Progress (progress_of 0 (length chunks));
                              Call (request_of (selectedVoice s) (styleInstruction s) chunk)])
                 (a_runs a ++ [mkSuspended s chunks 0 [] (length (calls (a_log a)))])
                 (a_timers a)).
Proof.
  intros Hm Hp Ht Hl s chunks.
  assert (generate_disabled (a_state a) = false) as Hd.
  { unfold generate_disabled. by rewrite Hl, !bool_decide_eq_false_2. }
  assert (0 < length chunks) as [chunk Hc]%lookup_lt_is_Some_2
    by (apply length_chunks_of_pos; unfold DEFAULT_MAX_WORDS; lia).
  exists chunk. split; [done|]. rewrite (click_enabled env a Hm Hd).
  by rewrite (proceed_some _ _ _ _ _ _ chunk Hc).
Qed.

End answer.

(** ** The steps and the rendered page *)

(** The handler of the tree that an action of the user calls. *)
Definition handler_of_action (l : action) : option handler :=
  match l with
  | TypeText _ => Some ChangeText
  | TypeStyle _ => Some ChangeStyle
  | Pick v => Some (PickVoice v)
  | ClickGenerate _ => Some Generate
  | Answer _ _ | Fire => None
  end.

(** An action of the user is a step exactly when the page rendered from
    the state offers its handler. *)
Lemma async_offered `{limits : AudioLimits} `{svc : SpeechService} `{locale : Locale}
    (a : Async) (l : action) (h : handler) :
  handler_of_action l = Some h ->
  is_Some (async_next a l) <-> h ∈ events (render (a_state a)).
Proof.
  destruct l as [v|v|v|env|j env|]; intros [= <-]; cbn [async_next].
  - split; [intros _|done]. rewrite render_events_eq. apply elem_of_app. left. constructor.
  - split; [intros _|done]. rewrite render_events_eq. apply elem_of_app. left.
    do 2 constructor.
  - split; [intros _|done]. rewrite render_events_eq.
    apply elem_of_app. right. apply elem_of_app. left.
    apply list_elem_of_fmap_2. by destruct v; vm_compute; repeat constructor.
  - rewrite generate_enabled_iff. destruct (generate_disabled (a_state a)).
    + split; [by intros [? ?]|done].
    + split; [done|intros _]. unfold start. case_decide; [done|].
      rewrite chunkText_groups by (unfold DEFAULT_MAX_WORDS; lia).
      by destruct (isTooLong _).
Qed.

(** The pages of [Session] are pages of this machine: what an input of a
    session does, other than a download, is done by steps of the machine
    on the same state, with the run of a click left alone to its end. *)
Lemma session_async `{limits : AudioLimits} `{svc : SpeechService} `{locale : Locale}
    (p p' : Page) (i : input) (t0 : list event) :
  ttsServiceRef (page_state p) = true -> possible p i -> react p i = Some p' ->
  match i with
  | Saved _ => True
  | _ =>
      let t := match i with Clicked _ t => t | _ => t0 end in
      exists ls t',
        async_run (mkAsync (page_state p) t [] (page_timers p)) ls
        = Some (mkAsync (page_state p') t' [] (page_timers p'))
  end.
Proof.
  intros Hm [Hp _]. destruct i as [v|v|v|env t| |]; cbn [react handler_of] in *; [..|done|].
  - intros [= <-]. by exists [TypeText v], t0.
  - intros [= <-]. by exists [TypeStyle v], t0.
  - intros [= <-]. by exists [Pick v], t0.
  - destruct (handleGenerate _ env t) as [o|] eqn:Ho; [|done]. intros [= <-].
    apply generate_enabled_iff in Hp.
    destruct (sequential_run (page_state p) env (page_timers p) t o Hm Hp Ho) as (n & _ & Hrun).
    by exists (ClickGenerate env :: replicate n (Answer 0 env)), (out_log o).
  - intros [= <-]. exists [Fire], t0. cbn [async_run async_next]. by rewrite decide_True.
Qed.

(** ** The properties *)

Section properties.
Context `{limits : AudioLimits} `{svc : SpeechService}.

(** C31. The statuses of the interleaved page are those of the relation
    [ui_step]: every page reached from the mounted component, whatever
    the user, the service and the timers have done, shows a state that
    [ui_step] reaches from the initial one with as many runs in flight and
    timers pending; hence it settles once the answers and the timers have
    come. *)
Theorem async_statuses (ls : list action) (a : Async) :
  async_run async_initial ls = Some a ->
  (exists uls, ui_steps ui_initial uls (ui_of a)) /\ eventually quiet (ui_of a).
Proof.
  intros Hrun. destruct (ui_run async_initial ls a Hrun) as [uls Huls].
  split; [by exists uls|]. apply (settles_from (pending (ui_of a))); [done|].
  eapply ui_inv_steps; [exact Huls|apply ui_inv_initial].
Qed.

(** C25. A run that nothing interrupts ends as [handleGenerate] says: from
    a mounted page with the button enabled, the click followed by the
    answers of the service, at most one per chunk, leads to the state and
    the log of the outcome of [handleGenerate], with no run left and one
    more timer after a success. *)
Theorem async_sequential (s : AppState) (env : Env) (t : list event) (tm : nat) (o : Outcome) :
  ttsServiceRef s = true -> generate_disabled s = false ->
  handleGenerate s env t = Some o ->
  exists n, n <= length (chunks_of (text s) DEFAULT_MAX_WORDS)
    /\ async_run (mkAsync s t [] tm) (ClickGenerate env :: replicate n (Answer 0 env))
       = Some (mkAsync (out_state o) (out_log o) []
                 (if decide (status (ttsState (out_state o)) = success) then S tm else tm)).
Proof. apply sequential_run. Qed.

(** C17. The answer to a suspended run, on every page reached: the run
    holds the chunks of the text of its closure and awaits one of them;
    the error of that chunk ends the run with the status of the [catch]
    block; the answer to the last chunk ends it with a clip made from the
    text and the voice of the closure, not from those on the page, and
    sets the timer; any other answer makes the next request with the
    voice and the style of the closure.  The fields of the page are what
    the user left. *)
Theorem async_answer (ls : list action) (a : Async) (j : nat) (env : Env) (r : Suspended) :
  async_run async_initial ls = Some a -> a_runs a !! j = Some r ->
  exists chunk, run_chunks r !! run_index r = Some chunk
    /\ run_chunks r = chunks_of (text (run_closure r)) DEFAULT_MAX_WORDS
    /\ async_next a (Answer j env) = Some (answered a j env r chunk).
Proof.
  intros Hrun Hj. pose proof (async_inv_run _ _ _ async_inv_initial Hrun) as Hinv.
  destruct (answer_answered a j env r Hinv Hj) as (chunk & Hc & Ha).
  exists chunk. split; [done|]. split; [|done].
  destruct Hinv as [_ Hr]. by destruct (Forall_lookup_1 _ _ _ _ Hr Hj).
Qed.

(** C29. The timer of a success is not tied to the run that set it.  On
    every page reached on which a timer is pending, whatever runs are in
    flight and whatever the status is, the timer fires and sets the status
    to [idle]; when the text on the page is one the page accepts, the
    button is then enabled, and a click makes a request to the service
    and suspends one more run beside the runs in flight, with the status
    [processing] again.  The guard of the button on the status does not
    keep the runs apart. *)
Theorem async_stale_timer (ls : list action) (a : Async) (env : Env) :
  async_run async_initial ls = Some a -> 0 < a_timers a ->
  trim (text (a_state a)) <> [] -> isTooLong (text (a_state a)) = false ->
  let s := clear_after_success (a_state a) in
  let chunks := chunks_of (text (a_state a)) DEFAULT_MAX_WORDS in
  exists chunk a',
    chunks !! 0 = Some chunk
    /\ async_next a Fire = Some (mkAsync s (a_log a) (a_runs a) (a_timers a - 1))
    /\ status (ttsState s) = idle
    /\ generate_disabled s = false
    /\ async_run a [Fire; ClickGenerate env] = Some a'
    /\ a_runs a' = a_runs a ++ [mkSuspended s chunks 0 [] (length (calls (a_log a)))]
    /\ a_log a' = a_log a ++ [Progress (progress_of 0 (length chunks));
                              Call (request_of (selectedVoice (a_state a))
                                      (styleInstruction (a_state a)) chunk)]
    /\ status (ttsState (a_state a')) = processing.
Proof.
  intros Hrun Htm Ht Hl s chunks.
  pose proof (async_inv_run _ _ _ async_inv_initial Hrun) as [Hm _].
  destruct (click_suspends (mkAsync s (a_log a) (a_runs a) (a_timers a - 1)) env)
    as (chunk & Hc & Hclick); [done..|].
  cbn [a_state a_log a_runs a_timers] in Hc, Hclick.
  assert (async_next a Fire = Some (mkAsync s (a_log a) (a_runs a) (a_timers a - 1)))
    as Hfire by (cbn [async_next]; by rewrite decide_True).
  exists chunk. eexists. split; [exact Hc|]. split; [exact Hfire|]. split; [done|].
  split; [unfold generate_disabled; rewrite !bool_decide_eq_false_2 by done; exact Hl|].
  split; [exact (async_run_two _ _ _ _ _ Hfire Hclick)|]. done.
Qed.

End properties.

(** ** Witnesses *)

#[local] Abbreviation run_scenario :=
  (async_run (limits := spec_limits) (svc := scenario_service)).

(** The user types, clicks, and then changes the text and the voice while
    the run is suspended. *)
Definition typed_during_run : list action :=
  [TypeText (str "hello world"); ClickGenerate scenario_env;
   TypeText (str "bye"); Pick KORE].

Definition suspended_page : Async := default async_initial (run_scenario async_initial typed_during_run).

Definition suspended_run : Suspended :=
  mkSuspended (setText (mount initial_state) (str "hello world")) [str "hello world"] 0 [] 0.

Lemma suspended_page_run : run_scenario async_initial typed_during_run = Some suspended_page.
Proof. vm_compute. reflexivity. Qed.

Lemma async_statuses_witness :
  (exists uls, ui_steps ui_initial uls (ui_of suspended_page))
  /\ eventually quiet (ui_of suspended_page).
Proof.
  apply (async_statuses (limits := spec_limits) (svc := scenario_service) typed_during_run).
  apply suspended_page_run.
Defined.

Lemma async_answer_witness :
  exists chunk, run_chunks suspended_run !! run_index suspended_run = Some chunk
    /\ run_chunks suspended_run
       = chunks_of (text (run_closure suspended_run)) DEFAULT_MAX_WORDS
    /\ async_next (limits := spec_limits) (svc := scenario_service) suspended_page
         (Answer 0 scenario_env)
       = Some (answered (limits := spec_limits) (svc := scenario_service) suspended_page 0
                 scenario_env suspended_run chunk).
Proof.
  apply (async_answer (limits := spec_limits) (svc := scenario_service) typed_during_run).
  - apply suspended_page_run.
  - vm_compute. reflexivity.
Defined.

(** The clip is made from the text and the voice of the click; the page
    keeps what the user typed and picked since. *)
Example closure_scenario :
  (a ← run_scenario async_initial (typed_during_run ++ [Answer 0 scenario_env]);
   Some (text (a_state a), selectedVoice (a_state a),
         (fun c => (gs_text c, gs_voice c)) <$> history (a_state a),
         status (ttsState (a_state a)), length (a_runs a), a_timers a))
  = Some (str "bye", KORE, [(str "hello world", ZEPHYR)], success, 0, 1).
Proof. vm_compute. reflexivity. Qed.

Lemma async_sequential_witness :
  exists n, n <= length (chunks_of (text (scenario_state (str "hello world"))) DEFAULT_MAX_WORDS)
    /\ run_scenario (mkAsync (scenario_state (str "hello world")) [] [] 0)
         (ClickGenerate scenario_env :: replicate n (Answer 0 scenario_env))
       = Some (mkAsync (out_state (scenario_outcome (str "hello world")))
                 (out_log (scenario_outcome (str "hello world"))) []
                 (if decide (status (ttsState (out_state (scenario_outcome (str "hello world"))))
                             = success) then 1 else 0)).
Proof.
  apply (async_sequential (limits := spec_limits) (svc := scenario_service)
           (scenario_state (str "hello world")) scenario_env [] 0
           (scenario_outcome (str "hello world"))); vm_compute; reflexivity.
Defined.

(** Two runs at once: the timer of a first success fires during a second
    run and enables the button, and the user clicks again.  Both runs
    end with a clip. *)
Definition second_env : Env :=
  mkEnv "clip-2" 1 (fun _ => "blob:clip-2"%string) (fun _ => str "error").
Definition third_env : Env :=
  mkEnv "clip-3" 2 (fun _ => "blob:clip-3"%string) (fun _ => str "error").

(** The page during the second run, three seconds after the first: one
    run in flight, the status [processing], one timer pending. *)
Definition second_run : list action :=
  [TypeText (str "hello world"); ClickGenerate scenario_env; Answer 0 scenario_env;
   ClickGenerate second_env].

Definition racing_page : Async := default async_initial (run_scenario async_initial second_run).

Lemma racing_page_run : run_scenario async_initial second_run = Some racing_page.
Proof. vm_compute. reflexivity. Qed.

Example racing_page_status :
  (status (ttsState (a_state racing_page)), length (a_runs racing_page), a_timers racing_page)
  = (processing, 1, 1).
Proof. vm_compute. reflexivity. Qed.

Lemma async_stale_timer_witness :
  let s := clear_after_success (a_state racing_page) in
  let chunks := chunks_of (text (a_state racing_page)) DEFAULT_MAX_WORDS in
  exists chunk a',
    chunks !! 0 = Some chunk
    /\ async_next (limits := spec_limits) (svc := scenario_service) racing_page Fire
       = Some (mkAsync s (a_log racing_page) (a_runs racing_page) (a_timers racing_page - 1))
    /\ status (ttsState s) = idle
    /\ generate_disabled s = false
    /\ run_scenario racing_page [Fire; ClickGenerate third_env] = Some a'
    /\ a_runs a' = a_runs racing_page
                   ++ [mkSuspended s chunks 0 [] (length (calls (a_log racing_page)))]
    /\ a_log a' = a_log racing_page
                  ++ [Progress (progress_of 0 (length chunks));
                      Call (request_of (selectedVoice (a_state racing_page))
                              (styleInstruction (a_state racing_page)) chunk)]
    /\ status (ttsState (a_state a')) = processing.
Proof.
  apply (async_stale_timer (limits := spec_limits) (svc := scenario_service) second_run).
  - apply racing_page_run.
  - vm_compute. lia.
  - vm_compute. discriminate.
  - vm_compute. reflexivity.
Defined.

Definition two_runs : list action :=
  [TypeText (str "hello world"); ClickGenerate scenario_env; Answer 0 scenario_env;
   ClickGenerate second_env; Fire; ClickGenerate third_env].

Example two_runs_in_flight :
  (a ← run_scenario async_initial two_runs;
   Some (length (a_runs a), run_call <$> a_runs a, status (ttsState (a_state a)),
         length (history (a_state a))))
  = Some (2, [1; 2], processing, 1)
  /\ (a ← run_scenario async_initial
            (two_runs ++ [Answer 1 third_env; Answer 0 second_env]);
      Some (length (a_runs a), gs_id <$> history (a_state a), a_timers a))
     = Some (0, ["clip-2"; "clip-3"; "clip-1"]%string, 2).
Proof. split; vm_compute; reflexivity. Qed.
