(* ===== verification/EndToEnd.v ===== *)
(** * EndToEnd: from the answers of the service to the file of a download

    The components meet in the library of the page: a clip is made at the
    end of a run of [handleGenerate] ([src/App.tsx], lines 44-55) from the
    blob and the buffer that [generateSpeech] returns, and
    [downloadSpeech] hands its URL to the browser.  This file connects the
    theorems of the components into statements about the clips: every
    clip of every page the machine of [Async] reaches, and so of every
    page of a [Session], is [clip_of] the state of the click that started
    its run, the values the browser supplied at its end, and the payloads
    the service sent for the chunks of the text, one per chunk, in order.
    What a download hands out is therefore a file whose header and length
    are determined by those payloads ([clip_file]). *)

From Stdlib Require Import ZArith Lia Floats.SpecFloat.
From coqutil Require Import Byte.
From stdpp Require Import base tactics list option numbers strings.
From S2P Require Import Prelude JsNumber JsString Bytes Types AudioBuffer.
From S2P Require Import PcmDecoder Merge Wav Chunker Trace TtsService Orchestrator Pipeline.
From S2P Require Import App WordCount Dom View Session Async.

(** ** The reference: the clip of a request *)

(** [buffer.duration] of a recording of [n] bytes: a frame per two bytes,
    24000 frames per second. *)
Definition seconds (n : nat) : num :=
  num_div (num_of_Z (Z.of_nat (n / 2))) (num_of_Z SAMPLE_RATE).

(** The clip of a request made in the state [s], for the payloads [pcms]
    and the values [env] of the browser. *)
Definition clip_of (s : AppState) (env : Env) (pcms : list bytes) : GeneratedSpeech :=
  let blob := mkBlob (speech_file pcms) "audio/wav" in
  mkGeneratedSpeech (env_uuid env)
    (slice (text s) 0 100 ++ (if decide (100 < length (text s)) then str "..." else []))
    (selectedVoice s) (env_now env) (Some (seconds (length (mjoin pcms)))) blob
    (env_url env blob).

Section clips.
Context `{limits : AudioLimits} `{svc : SpeechService}.
Implicit Types (a : Async) (s : AppState) (env : Env) (r : Suspended) (c : GeneratedSpeech).

(** The payload of a chunk of a request made in the state [s]: the bytes
    the service sent as its answer number [kp.1], which the decoder
    accepts. *)
Definition payload_of s (chunk : jsstring) (kp : nat * bytes) : Prop :=
  pcm_of (selectedVoice s) (styleInstruction s) kp.1 chunk = Ok kp.2 /\ whole_pcm kp.2.

(** A request the page lets through. *)
Definition accepted s : Prop := trim (text s) <> [] /\ isTooLong (text s) = false.

(** What a clip of the library is. *)
Definition clip_ok c : Prop :=
  exists s env (payloads : list (nat * bytes)),
    accepted s
    /\ Forall2 (payload_of s) (chunks_of (text s) DEFAULT_MAX_WORDS) payloads
    /\ c = clip_of s env (payloads.*2).

(** What a suspended run has collected: the decoded payloads of the
    chunks before the one it awaits. *)
Definition run_payloads r : Prop :=
  accepted (run_closure r)
  /\ exists payloads,
       Forall2 (payload_of (run_closure r)) (take (run_index r) (run_chunks r)) payloads
       /\ run_buffers r = (fun pcm => decoded pcm SAMPLE_RATE 1) <$> payloads.*2.

Definition clips_inv a : Prop :=
  Forall clip_ok (history (a_state a)) /\ Forall run_payloads (a_runs a).

(** ** The clip at the end of a loop *)

Lemma decoded_mono (pcms : list bytes) :
  Forall whole_pcm pcms -> Forall mono ((fun pcm => decoded pcm SAMPLE_RATE 1) <$> pcms).
Proof.
  intros H. apply Forall_fmap. eapply list.Forall_impl; [exact H|].
  intros pcm [_ Hl]. split; [|done]. apply decoded_wf; [done|].
  apply Nat.div_le_lower_bound; lia.
Qed.

Lemma duration_merged (pcms : list bytes) :
  pcms <> [] -> Forall whole_pcm pcms ->
  duration (merged ((fun pcm => decoded pcm SAMPLE_RATE 1) <$> pcms))
  = seconds (length (mjoin pcms)).
Proof.
  intros Hne Hw. unfold duration, seconds.
  assert ((fun pcm => decoded pcm SAMPLE_RATE 1) <$> pcms <> []) as Hne'
    by (intros H%fmap_nil_inv; done).
  destruct (merged_mono _ Hne' (decoded_mono pcms Hw)) as (_ & -> & _).
  rewrite buf_length_merged by done.
  rewrite <- (frames_decoded pcms) by by apply whole_pcms_even.
  by rewrite (Nat.mul_comm 2), Nat.div_mul.
Qed.

(** The clip made from the buffers of the payloads is [clip_of] them. *)
Lemma new_speech_clip s env (pcms : list bytes) :
  pcms <> [] -> Forall whole_pcm pcms ->
  let buffer := merged ((fun pcm => decoded pcm SAMPLE_RATE 1) <$> pcms) in
  new_speech s env (mkBlob (wav_file buffer) "audio/wav") buffer = clip_of s env pcms.
Proof.
  intros Hne Hw buffer. unfold new_speech, clip_of, buffer.
  rewrite duration_merged by done.
  by rewrite (speech_file_ref _ pcms Hne (whole_pcms_even pcms Hw) eq_refl (decoded_mono pcms Hw)).
Qed.

End clips.

(** ** The invariant *)

Section invariant.
Context `{limits : AudioLimits} `{svc : SpeechService}.
Implicit Types (a : Async) (s : AppState) (env : Env) (r : Suspended) (c : GeneratedSpeech).

Lemma payloads_whole s chunks (payloads : list (nat * bytes)) :
  Forall2 (payload_of s) chunks payloads -> Forall whole_pcm payloads.*2.
Proof. induction 1 as [|chunk kp chunks payloads [_ Hw] _ IH]; by constructor. Qed.

(** A piece of a run that has collected the payloads of the chunks before
    [i] keeps the invariant: it is suspended with them, or it ends with
    the clip of all the payloads. *)
Lemma proceed_clips a s env i (payloads : list (nat * bytes)) :
  clips_inv a -> accepted s ->
  i <= length (chunks_of (text s) DEFAULT_MAX_WORDS) ->
  Forall2 (payload_of s) (take i (chunks_of (text s) DEFAULT_MAX_WORDS)) payloads ->
  clips_inv (proceed a s env (chunks_of (text s) DEFAULT_MAX_WORDS) i
               ((fun pcm => decoded pcm SAMPLE_RATE 1) <$> payloads.*2)).
Proof.
  intros [Hh Hr] Hs Hi Hp. set (chunks := chunks_of _ _) in *.
  pose proof (payloads_whole _ _ _ Hp) as Hw.
  destruct (chunks !! i) as [chunk|] eqn:Hc.
  - rewrite (proceed_some _ _ _ _ _ _ chunk Hc). split; [done|]. cbn [a_runs].
    apply Forall_app. split; [done|]. constructor; [|done]. split; [done|]. by exists payloads.
  - apply lookup_ge_None_1 in Hc. assert (i = length chunks) as -> by lia.
    rewrite firstn_all in Hp. rewrite proceed_success by by apply decoded_mono.
    split; [|done]. simpl_async. constructor; [|done]. exists s, env, payloads.
    split; [done|]. split; [done|]. apply new_speech_clip; [|done].
    destruct Hs as [Ht Hl]. pose proof (accepted_chunks _ Ht Hl) as Hn. fold chunks in Hn.
    intros E%fmap_nil_inv. subst payloads. apply Forall2_length in Hp. simpl in Hp. lia.
Qed.

Lemma clips_inv_next a l a' :
  async_inv a -> clips_inv a -> async_next a l = Some a' -> clips_inv a'.
Proof.
  intros [Hm Hr] Hinv. pose proof Hinv as [Hh Hp].
  destruct l as [v|v|v|env|j env|]; cbn [async_next].
  - by intros [= <-].
  - by intros [= <-].
  - by intros [= <-].
  - pose proof (click_enabled env a Hm) as Hc. cbn [async_next] in Hc.
    destruct (generate_disabled (a_state a)) eqn:Hd; [done|]. rewrite Hc by done. intros [= <-].
    apply generate_disabled_false in Hd as (_ & Ht & Hl).
    by apply (proceed_clips _ (a_state a) env 0 []); [|split|lia|constructor].
  - unfold answer. destruct (a_runs a !! j) as [r|] eqn:Hj; [|done]. intros [= <-].
    pose proof (Forall_lookup_1 _ _ _ _ Hr Hj) as (Hc & Hi & _).
    pose proof (Forall_lookup_1 _ _ _ _ Hp Hj) as (Hs & payloads & Hps & Hb).
    assert (clips_inv (mkAsync (a_state a) (a_log a) (delete j (a_runs a)) (a_timers a)))
      as Hd by (split; [done|by apply Forall_delete]).
    destruct (lookup_lt_is_Some_2 _ _ Hi) as [chunk Hchunk]. rewrite Hchunk.
    cbn [default from_option id].
    destruct (chunk_outcome _ _ _ chunk) as [b|e] eqn:Hb'; [|done].
    apply chunk_outcome_pcm in Hb' as (pcm & Hpcm & -> & Hw).
    rewrite Hb, Hc in *.
    replace (_ ++ [decoded pcm SAMPLE_RATE 1])
      with ((fun pcm => decoded pcm SAMPLE_RATE 1) <$> (payloads ++ [(run_call r, pcm)]).*2)
      by by rewrite !fmap_app.
    apply proceed_clips; [done|done|lia|].
    rewrite (take_S_r _ _ chunk) by done. apply Forall2_app; [done|]. by constructor.
  - case_decide; [|done]. by intros [= <-].
Qed.

Lemma clips_inv_run a ls a' :
  async_inv a -> clips_inv a -> async_run a ls = Some a' -> clips_inv a'.
Proof.
  revert a. induction ls as [|l ls IH]; intros a Ha Hinv; cbn [async_run]; [by intros [= <-]|].
  destruct (async_next a l) as [a1|] eqn:H1; [|done]. cbn.
  apply IH; [by eapply async_inv_next|by eapply clips_inv_next].
Qed.

End invariant.

(** ** The pages of a session *)

Section pages.
Context `{limits : AudioLimits} `{svc : SpeechService} `{locale : Locale}.

Lemma clips_inv_page s t tm ls s' t' tm' :
  ttsServiceRef s = true -> Forall clip_ok (history s) ->
  async_run (mkAsync s t [] tm) ls = Some (mkAsync s' t' [] tm') ->
  Forall clip_ok (history s').
Proof.
  intros Hm Hh Hrun.
  assert (async_inv (mkAsync s t [] tm)) as Ha by (split; [done|constructor]).
  assert (clips_inv (mkAsync s t [] tm)) as Hc by (split; [done|constructor]).
  by destruct (clips_inv_run _ _ _ Ha Hc Hrun).
Qed.

(** The inputs of a session are steps of the machine, and a download
    leaves the state alone. *)
Lemma session_clips d0 p : session d0 p -> Forall clip_ok (history (page_state p)).
Proof.
  induction 1 as [Hd|p i p' Hs IH Hposs Hreact]; [constructor|].
  pose proof (ok_mounted _ _ (session_ok d0 p Hs)) as Hm.
  pose proof (session_async p p' i [] Hm Hposs Hreact) as Ha.
  destruct i as [v|v|v|env t|speech|];
    try (destruct Ha as (ls & t' & Hrun); by apply (clips_inv_page _ _ _ _ _ _ _ Hm IH Hrun)).
  cbn [react] in Hreact. destruct (downloadSpeech speech (page_doc p)); [|done].
  by injection Hreact as <-.
Qed.

End pages.

(** ** The file of a clip *)

Lemma length_slice {A} (l : list A) (i j : nat) : length (slice l i j) <= j - i.
Proof. unfold slice. rewrite length_take. lia. Qed.

Lemma whole_pcms_frames (pcms : list bytes) :
  Forall whole_pcm pcms -> length (mjoin pcms) = 2 * (length (mjoin pcms) / 2).
Proof.
  intros Hw. rewrite <- (frames_decoded pcms) by by apply whole_pcms_even.
  generalize (sum_list (buf_length <$> ((fun pcm => decoded pcm SAMPLE_RATE 1) <$> pcms))).
  intros n. rewrite (Nat.mul_comm 2 n), Nat.div_mul by done. lia.
Qed.

Lemma length_speech_file (pcms : list bytes) :
  Forall whole_pcm pcms -> length (speech_file pcms) = 44 + length (mjoin pcms).
Proof.
  intros Hw. unfold speech_file.
  by rewrite length_app, length_wav_header, length_requantized by by apply whole_pcms_even.
Qed.

(** What the bytes of a clip are, once it is known to be [clip_of] the
    payloads of its chunks. *)
Lemma clip_ok_file `{limits : AudioLimits} `{svc : SpeechService} (c : GeneratedSpeech) :
  clip_ok c ->
  exists frames : nat,
    1 <= frames
    /\ blob_type (gs_audioBlob c) = "audio/wav"%string
    /\ length (blob_data (gs_audioBlob c)) = 44 + 2 * frames
    /\ read_header (blob_data (gs_audioBlob c))
       = mkWavHeader (tag "RIFF") (wrap 32 (32 + 2 * Z.of_nat frames)) (tag "WAVE")
           (tag "fmt ") 16 1 1 24000 48000 2 16 (tag "data") (wrap 32 (2 * Z.of_nat frames))
    /\ gs_duration c = Some (seconds (2 * frames))
    /\ length (gs_text c) <= 103.
Proof.
  intros (s & env & payloads & [Ht Hl] & Hp & ->).
  pose proof (payloads_whole _ _ _ Hp) as Hw. pose proof (whole_pcms_frames _ Hw) as Hf.
  pose proof (whole_pcms_length _ Hw) as Hn. apply Forall2_length in Hp.
  rewrite length_fmap, <- Hp in Hn.
  pose proof (accepted_chunks _ Ht Hl) as Hc.
  exists (length (mjoin payloads.*2) / 2). split; [lia|]. split; [done|].
  cbn [clip_of gs_audioBlob blob_data gs_duration gs_text].
  split; [rewrite length_speech_file by done; lia|].
  split; [|split; [by rewrite <- Hf|]].
  - unfold speech_file. rewrite read_wav_header. rewrite Hf at 1 2. by rewrite Nat2Z.inj_mul.
  - rewrite length_app. pose proof (length_slice (text s) 0 100). case_decide; simpl; lia.
Qed.

(** ** The properties *)

Section properties.
Context `{limits : AudioLimits} `{svc : SpeechService} `{locale : Locale}.

(** C7. On every page reached from the mounted component, whatever the
    user, the service and the timers have done and however the runs have
    interleaved, every clip of the library is the clip of an accepted
    request: its text, its voice and its style are those of the click, its
    file is the header and the requantized payloads that the service sent
    for the chunks of that text, one per chunk and in their order, and its
    duration is their number of frames over 24000; and every run that is
    suspended holds the decoded payloads of the chunks before the one it
    awaits. *)
Theorem async_clips (ls : list action) (a : Async) :
  async_run async_initial ls = Some a ->
  Forall clip_ok (history (a_state a)) /\ Forall run_payloads (a_runs a).
Proof.
  intros Hrun. apply (clips_inv_run async_initial ls a async_inv_initial); [|done].
  split; constructor.
Qed.

(** What a download hands to the browser, on every page of a session:
    the clip is the clip of an accepted request, the handler does not
    throw and leaves the state and the timers alone, and the one click it
    makes is on an anchor whose [href] is the URL the browser made for the
    file of that clip. *)
Theorem session_download (d0 : Document) (p : Page) (speech : GeneratedSpeech) :
  session d0 p -> possible p (Saved speech) ->
  exists s env pcms d',
    speech = clip_of s env pcms
    /\ react p (Saved speech) = Some (mkPage (page_state p) d' (page_timers p))
    /\ doc_clicks d'
       = doc_clicks (page_doc p)
         ++ [mkClick (mkElement (doc_next (page_doc p)) "a"
                        (env_url env (mkBlob (speech_file pcms) "audio/wav"))
                        (download_name speech)) true].
Proof.
  intros Hs [Hoff _]. cbn [handler_of] in Hoff.
  rewrite render_events_eq, !elem_of_app in Hoff.
  assert (speech ∈ history (page_state p)) as Hin.
  { destruct Hoff as [H|[H|[H|H]]].
    - by apply elem_of_cons in H as [|H%list_elem_of_singleton].
    - by apply list_elem_of_fmap in H as (? & ? & _).
    - destruct (generate_disabled _); [by apply elem_of_nil in H|].
      by apply list_elem_of_singleton in H.
    - by apply list_elem_of_fmap in H as (? & [= <-] & ?). }
  pose proof (proj1 (list.Forall_forall _ _) (session_clips d0 p Hs) speech Hin)
    as (s & env & payloads & _ & _ & Hc).
  exists s, env, payloads.*2. eexists. split; [done|]. cbn [react].
  rewrite downloadSpeech_ok by apply (session_ok d0 p Hs). split; [done|].
  cbn [doc_clicks]. unfold download_anchor. by rewrite Hc at 1.
Qed.

(** C24. The file of every clip of the library, on every page reached: its
    type is [audio/wav]; it holds 44 bytes of header and two bytes per
    frame, and at least one frame; a reader finds in it one channel of 16
    bits at 24000 Hz, a byte rate of 48000, and the number of bytes of
    the samples in [Subchunk2Size]; the duration shown is the number of
    frames over 24000, and the text shown has at most 103 characters. *)
Theorem clip_file (ls : list action) (a : Async) (c : GeneratedSpeech) :
  async_run async_initial ls = Some a -> c ∈ history (a_state a) ->
  exists frames : nat,
    1 <= frames
    /\ blob_type (gs_audioBlob c) = "audio/wav"%string
    /\ length (blob_data (gs_audioBlob c)) = 44 + 2 * frames
    /\ read_header (blob_data (gs_audioBlob c))
       = mkWavHeader (tag "RIFF") (wrap 32 (32 + 2 * Z.of_nat frames)) (tag "WAVE")
           (tag "fmt ") 16 1 1 24000 48000 2 16 (tag "data") (wrap 32 (2 * Z.of_nat frames))
    /\ gs_duration c = Some (seconds (2 * frames))
    /\ length (gs_text c) <= 103.
Proof.
  intros Hrun Hin. apply clip_ok_file.
  destruct (clips_inv_run async_initial ls a async_inv_initial) as [Hh _]; [|done|].
  - split; constructor.
  - by apply (proj1 (list.Forall_forall _ _) Hh).
Qed.

End properties.

(** ** Witnesses *)

(** Three requests for the same two words, the second and the third in
    flight together and answered in the other order: three clips. *)
Definition three_clips : list action := two_runs ++ [Answer 1 third_env; Answer 0 second_env].

Definition three_clips_page : Async :=
  default async_initial
    (async_run (limits := spec_limits) (svc := scenario_service) async_initial three_clips).

Lemma async_clips_witness :
  Forall (clip_ok (svc := scenario_service)) (history (a_state three_clips_page))
  /\ Forall (run_payloads (svc := scenario_service)) (a_runs three_clips_page).
Proof.
  apply (async_clips (limits := spec_limits) (svc := scenario_service) three_clips).
  vm_compute. reflexivity.
Defined.

(** The clips of the three requests hold the same file, of two frames,
    and differ by what the browser supplied. *)
Example three_clips_files :
  (fun c => (gs_id c, length (blob_data (gs_audioBlob c)), gs_audioUrl c))
    <$> history (a_state three_clips_page)
  = [("clip-2", 48, "blob:clip-2"); ("clip-3", 48, "blob:clip-3");
     ("clip-1", 48, "blob:clip-1")]%string.
Proof. vm_compute. reflexivity. Qed.

Lemma session_download_witness :
  exists s env pcms d',
    page2_clip = clip_of s env pcms
    /\ react (limits := spec_limits) (svc := scenario_service) (locale := scenario_locale)
         page2 (Saved page2_clip)
       = Some (mkPage (page_state page2) d' (page_timers page2))
    /\ doc_clicks d'
       = doc_clicks (page_doc page2)
         ++ [mkClick (mkElement (doc_next (page_doc page2)) "a"
                        (env_url env (mkBlob (speech_file pcms) "audio/wav"))
                        (download_name (locale := scenario_locale) page2_clip)) true].
Proof.
  apply (session_download (limits := spec_limits) (svc := scenario_service)
           (locale := scenario_locale) scenario_document page2 page2_clip).
  - apply session_page2.
  - split; [|done]. cbn [handler_of]. rewrite render_events_eq.
    rewrite !elem_of_app. do 3 right. vm_compute. constructor.
Defined.

(** The clip of the second request. *)
Definition second_clip : GeneratedSpeech :=
  default scenario_clip (head (history (a_state three_clips_page))).

Lemma clip_file_witness :
  exists frames : nat,
    1 <= frames
    /\ blob_type (gs_audioBlob second_clip) = "audio/wav"%string
    /\ length (blob_data (gs_audioBlob second_clip)) = 44 + 2 * frames
    /\ read_header (blob_data (gs_audioBlob second_clip))
       = mkWavHeader (tag "RIFF") (wrap 32 (32 + 2 * Z.of_nat frames)) (tag "WAVE")
           (tag "fmt ") 16 1 1 24000 48000 2 16 (tag "data") (wrap 32 (2 * Z.of_nat frames))
    /\ gs_duration second_clip = Some (seconds (2 * frames))
    /\ length (gs_text second_clip) <= 103.
Proof.
  apply (clip_file (limits := spec_limits) (svc := scenario_service) three_clips
           three_clips_page second_clip).
  - vm_compute. reflexivity.
  - vm_compute. constructor.
Defined.

(** The clip of the scenario of [Session] is the clip of its one payload,
    the samples 0 and 16384: two frames, a twelve-thousandth of a second. *)
Example scenario_clip_of :
  page2_clip
  = clip_of (page_state page1) scenario_env [byte.of_Z <$> [0x00; 0x00; 0x00; 0x40]%Z]
  /\ gs_duration page2_clip = Some (seconds 4)
  /\ length (blob_data (gs_audioBlob page2_clip)) = 48.
Proof. repeat split; vm_compute; reflexivity. Qed.
